(* ===== verification/_CoqProject ===== *)
-Q . S2P
Prelude.v
GoStrings.v
Encoding.v
Digest.v
Table.v
AppError.v
Platform.v
Model.v
Runtime.v
Repository.v
MFARepository.v
Evolution.v
Guarantee.v
Inversion.v
Password.v
Token.v
MFACrypto.v
ServiceBase.v
Concrete.v
BaseSpec.v
CryptoSpec.v
Sessions.v
Users.v
ServiceAccounts.v
MFAService.v
PasswordReset.v
Cleanup.v
System.v
SystemSpec.v
SessionsSpec.v
UsersSpec.v
AccountsSpec.v
MFASpec.v
EnrolmentSpec.v
PasswordResetSpec.v
CleanupSpec.v
Ledger.v
LedgerSteps.v
LedgerSpec.v
ErrorSpec.v
PathMatch.v
Configuration.v
ConfigSpec.v
RequestContext.v
Auth.v
Json.v
JsonSpec.v
MediaType.v
Messages.v
Http.v
Health.v
Handlers.v
Middleware.v
Router.v
Grpc.v
ConcreteWeb.v
HttpLogic.v
HttpSpec.v
EnvelopeSpec.v
ReplaySpec.v
AuthSpec.v
GrpcSpec.v
RefinementSpec.v
Outbound.v
OutboundSpec.v
ExampleUser.v
ExampleUserLogic.v
ExampleUserSpec.v
Migration.v
MigrationSpec.v
Startup.v
StartupSpec.v
GrpcStream.v
GrpcStreamSpec.v
HttpRecovery.v
