(* ===== verification/Prelude.v ===== *)
(** * The identity service: a verification library

    The program is a Go service that keeps users, passwords, sessions,
    service accounts and second factors in a SQL database and issues JSON Web
    Tokens ([internal/identity]), behind an HTTP and a gRPC transport
    ([internal/transport]) with authentication, authorization, rate limits
    and idempotent execution, set up by a validated configuration.  This
    library translates these parts into executable definitions and proves
    what they do.  This file is the root: it documents the library and holds
    the shared integers, results, tactics and list lemmas.

    ** Parts and files

    Language and encodings.  [GoStrings] is the part of [strings], [utf8],
    [strconv] and [fmt] that the sources use, on byte strings; [Encoding] is
    base64 and base32 with their padding and strictness; [Digest] is SHA-1,
    SHA-256 and HMAC.  All compute.

    Storage.  [Table] is SQL on finite maps from primary keys to rows
    ([UPDATE] with its count, [DELETE], [SELECT] of one row, ordered pages,
    uniqueness).  [Model] has one record per type of [model.go] and [mfa.go],
    the database [DB] as the nine tables of the PostgreSQL migrations, and the
    invariant [schema_ok] (every primary key, unique index and foreign key).  [Repository]
    and [MFARepository] have one definition per method of [repository.go],
    [mfa_repository.go] and [password_reset_repository.go], with the method's
    name, and the statement as an operation of [Table].

    Execution.  [Runtime] is the monad [M] of a request: clock, random bytes,
    UUIDs, statements outside transactions ([db_query], [db_exec]), statements
    of a transaction ([tx_exec]), begin, rollback and commit of the driver
    ([BeginTxx], [Rollback], [Commit]), and [Within] of
    [internal/database/transaction.go] composed of these.  What the code does not decide is an
    oracle [Env]: readings of the clock, random bytes, a fault of any
    statement (also of begin, commit and rollback), the row the server sends
    first, and what other requests did to the database before each statement
    or transaction.  A ghost trace records every atomic step.

    Errors and libraries.  [AppError] is [internal/apperror] with the error
    mapping of both transports and [translateIdentityError].  [Platform] and
    the classes in [Password], [Token] and [MFACrypto] are the parameters for
    code outside the repository (principals, audit fields, event envelopes,
    the SQL server's collation and messages, Argon2, Ed25519, JWT, AES-GCM,
    JSON), each with a class of the documented laws the theorems use.

    Components.  [Password] is [password.go], [Token] is [token.go],
    [MFACrypto] is [mfa_crypto.go]; [ServiceBase] is the construction and the
    helpers of [service.go], whose operations are in [Sessions], [Users] and
    [ServiceAccounts]; [MFAService] is [mfa_service.go], [PasswordReset] is
    [password_reset_service.go], [Cleanup] is [session_cleanup.go].  [System]
    puts them together: a request is one call of an operation, and [step] is
    one atomic change by any request or retention job in any environment.

    Configuration.  [Configuration] is [config.go]: one record per section,
    defaults, profiles, [Validate] and [LoadWithProfile], with the
    configuration library as parameter; [PathMatch] is Go's [path.Match] as
    written, and its meaning as a grammar of globs.

    Authentication.  [RequestContext] is [requestid], [environment] and
    [idempotency/context.go]; [Auth] is [internal/auth], whose interface
    [identityVerifier] is discharged by [Sessions] and [Token]; the platform
    library's choice between pre-shared keys, skipped targets and bearer
    tokens is a parameter with the law the README documents.

    HTTP.  [Json] is the decoding and encoding [encoding/json] does under
    struct tags; [MediaType] is [mime.ParseMediaType]; [Messages] has a module
    per request and response type of [handler.go]; [Http] is [response.go],
    the state of a request and the execution of a chain as gin documents it;
    [Health] is [internal/health] and [internal/buildinfo]; [Handlers] has a
    definition per method of [handler.go]; [Middleware] is [middleware.go] and
    [internal/ratelimit]; [Router] is [server.go]: chains, groups and routes;
    [HttpRecovery] is the answer to a panic, which the other files do not
    have.
    A handler maps the state of the request, the [World] of the service, the
    store behind Redis and a trace of log and metric events.

    gRPC.  [Grpc] is [identity_server.go] and the interceptors, the permission
    table and the health server of [grpc/server.go]; [GrpcStream] is its
    stream interceptors, and recovery and metrics of both kinds of calls.

    Outbound.  [Outbound] is [internal/outbound] and [internal/grpcclient]:
    clients with credentials, retries, backoff, breakers and call metadata,
    in a state monad that records the traffic, and their registry.

    Example module.  [ExampleUser] is [internal/user]: an operation is a
    program over the calls that leave the process (statements, transactions,
    Redis, locks, the idempotency manager, clock), and a system interleaves
    the programs of any requests call by call, with any faults.
    [ExampleUserLogic] is the program logic of its invariant.

    Startup and migrations.  [Migration] is [internal/migration],
    [cmd/migrate] and the startup migration, as a trace of what is done to the
    database; query strings of [net/url] are computed.  [Startup] is
    [internal/app], [cmd/api] and the constructors and lifecycle hooks of
    [database], [cache], [logging], [observability], [scheduler],
    [authorization], the registry, the retention job and both servers, over a
    process that records its calls and the handles it holds; the lifecycle of
    fx is the parameter [Fx] with its documented laws [FxLaws].

    Specification.  [Ledger] is an abstract view of the stored data: small
    state machines of accounts, passwords, sessions, one-time tokens, second
    factors, recovery codes and announcements, with labelled transitions, and
    the abstraction of a database; a [Book] ties each table to its part of it.
    [LedgerSteps] says which transition each write of the repository is.

    Proof libraries.  [Evolution] says how rows may change (identity kept,
    versions grow, revoked and consumed rows frozen); [Guarantee] proves that
    every write of the repository keeps to it; [Inversion] takes successful
    runs apart.  [Concrete] instantiates every parameter and proves its laws,
    with a small database, so that hypotheses are shown to be satisfiable and
    the operations run; [ConcreteWeb] does the same for the transports, and
    serves requests.  [HttpLogic] has the judgements on handlers and the links
    of a chain (no effect on the database, exactly one reply, passing the
    request on) with the tactics that prove them; [JsonSpec] the facts about
    decoding into [any].

    ** What the theorems show

    - [SystemSpec]: invariants of all runs: the schema, optimistic locking
      (a request that names a version replaces only the row that was read at
      it), the append-only outbox, finality of revocation; failed requests
      change nothing.
    - [SessionsSpec], [UsersSpec], [AccountsSpec], [MFASpec],
      [EnrolmentSpec], [PasswordResetSpec]: for each operation, what a
      successful call implies about caller and stored rows, in the databases
      and at the clock readings of its run, and exactly which rows its atomic
      step changes; single use of refresh tokens, MFA
      challenges and reset tokens; lockout.
    - [CleanupSpec]: without faults and concurrent requests the retention
      loops terminate and delete exactly what is past its retention.
    - [CryptoSpec], [BaseSpec]: password hashes, tokens and secrets round
      trip; HOTP follows RFC 4226; the TOTP window; UTF-8 truncation.
    - [ErrorSpec]: transactions are all or nothing, given what begin,
      rollback and commit do; the errors of operations are answered with
      constant texts, but for a failing random source.
    - [HttpSpec], [GrpcSpec]: a change of the database needs authentication (a
      credential, or a route that the configuration skips) and, when
      authorization is enabled, the permission of the route or method; every
      request is answered exactly once.
    - [LedgerSpec]: every request refines the ledger, by events permitted to
      it, and the retention jobs only purge; sessions, passwords and secrets
      have one origin each; the used steps of a second factor only grow.
    - [RefinementSpec]: both transports refine [System] and the ledger: what a
      request does to the database is what the operation of its route or
      method does, in the admitted context; self-service routes leave
      passwords, sessions and factors of other users as they were.
    - [EnvelopeSpec]: every reply to a request of the API is the envelope with
      the id of its request; administrative routes have permissions; rate limits.
    - [ReplaySpec]: idempotency keys replay responses and are bound to their
      request.
    - [AuthSpec]: bearer tokens and live sessions, pre-shared keys, patterns.
    - [ConfigSpec]: validated patterns decide, profiles stay in their
      directory and production rules are enforced, and a validated
      configuration builds a service.
    - [OutboundSpec]: attempts and waits of the outbound clients are bounded,
      only safe calls are repeated, and what each attempt carries.
    - [ExampleUserSpec]: invariants and the meaning of answers in all
      interleavings of the example module, updates and reads alone, replayed
      creations; its two races between cache and database.
    - [MigrationSpec]: options round trip through the database URL; what a
      run does to the database, and that it closes what it opens.
    - [StartupSpec]: under any faults, the appended stop hooks close all that
      is open, an application that started closes everything when it stops,
      and what one that failed to start keeps open; the scheduled job runs
      only under its lock.
    - [GrpcStreamSpec]: streams are authenticated, counted, and answered when
      they panic; recovery and metrics pass unary calls on.

    ** Assumptions, bounds and fuel

    Theorems hold for every environment unless they say otherwise.
    [Rely safe_step] restricts the other requests to what this service's own
    requests do ([Guarantee] proves that they do); rows deleted meanwhile by
    the retention jobs are outside of it.  [Enforced] says that the server
    keeps the constraints of the schema also in what other requests leave
    behind.  [Quiet] (no faults, no other
    request) is used where the result itself is claimed.  Transactions and
    autocommitted statements are atomic; a transaction sees the database as
    of its start.  Instants are integers of nanoseconds and are stored
    exactly.  Versions are 64-bit columns: incrementing the largest one fails.
    The retention loops carry fuel; [clean_terminates_exactly] shows that one
    more round than rows is enough.  The loops of [path.Match] and of media
    type parameters carry fuel bounded by the length of their input, which
    shrinks in every round ([Match_plain_total] and the validation theorem
    show that a result is reached).  All other recursion is structural.  A
    request is served as one sequence of statements, interleaved with others
    by the oracle; deadlines are an oracle read when the chain returns.  The
    drivers report affected rows without failing; a rollback that is lost with
    its connection is made by the server, and a commit that the driver reports
    as failed has not taken effect.  Closing a handle gives it back whether or
    not it reports an error, and waiting for a cancelled worker ends, as its
    loop does ([worker_stops]).  Start and stop of the application end within
    their timeouts.

    ** Not modelled

    The bytes on listeners and TLS, timers, spans, log and metric sinks and
    the publisher of the outbox are I/O or third-party code.  Dependency
    injection chooses the order of the constructors, and theorems hold for
    every order.  Cron jobs, HTTP connections and gRPC calls that run when the
    application stops are waited for as long as the stop timeout allows; those
    that outlive it are not handles of the model.  The circuit breaker library decides which calls it refuses;
    its settings are given to it as the sources do.  The drivers, the SQL
    dialects other than PostgreSQL, the integration tests and the generated
    documentation are left aside. *)

From Stdlib Require Export ZArith Lia.
From stdpp Require Export base tactics option list strings gmap fin_maps sorting.

Open Scope Z_scope.

(** ** Machine integers

    Go's [int] and [int64] are 64-bit two's complement, [uint32] is reduced
    modulo 2^32. *)
Definition int64_max : Z := 9223372036854775807.
Definition int64_min : Z := -9223372036854775808.

Definition wrap64 (z : Z) : Z := (z + 2 ^ 63) mod 2 ^ 64 - 2 ^ 63.
Definition uint32_of (z : Z) : Z := z mod 2 ^ 32.

Lemma wrap64_range z : int64_min <= wrap64 z <= int64_max.
Proof.
  unfold wrap64, int64_min, int64_max.
  pose proof (Z.mod_pos_bound (z + 2 ^ 63) (2 ^ 64)). lia.
Qed.

Lemma wrap64_id z : int64_min <= z <= int64_max -> wrap64 z = z.
Proof.
  unfold wrap64, int64_min, int64_max. intros H.
  rewrite Z.mod_small; lia.
Qed.

(** ** Durations and instants

    An instant ([time.Time]) is a number of nanoseconds, as is a
    [time.Duration]. *)
Definition Second : Z := 1000000000.
Definition Minute : Z := 60 * Second.
Definition Hour : Z := 60 * Minute.

(** The zero [time.Time], 1 January of year 1. *)
Definition zero_time : Z := -62135596800 * Second.

(** [t.After(u)] on [time.Time]. *)
Definition After (t u : Z) : Prop := u < t.
#[global] Instance After_dec t u : Decision (After t u).
Proof. unfold After. apply _. Defined.

(** ** Results of fallible code *)

(** [if err != nil] is a case analysis on [Result]; the error type is a
    parameter so that the drivers' and the service's errors share lemmas. *)
Inductive Res (E A : Type) : Type :=
| Ok (a : A)
| Err (e : E).
Arguments Ok {E A} a.
Arguments Err {E A} e.

#[global] Instance Res_ret E : MRet (Res E) := fun A a => Ok a.
#[global] Instance Res_bind E : MBind (Res E) := fun A B k r =>
  match r with Ok a => k a | Err e => Err e end.
#[global] Instance Res_fmap E : FMap (Res E) := fun A B f r =>
  match r with Ok a => Ok (f a) | Err e => Err e end.

Definition is_ok {E A} (r : Res E A) : bool :=
  match r with Ok _ => true | Err _ => false end.

(** ** Tactics *)

(** Drop the first [n] conjuncts of [H]. *)
Tactic Notation "skip_conj" integer(n) hyp(H) := do n (apply proj2 in H).

(** Split every conjunction and existential of the context. *)
Ltac destr_all :=
  repeat match goal with
  | H : _ /\ _ |- _ => destruct H
  | H : exists _, _ |- _ => destruct H
  end.

(** One case analysis on the scrutinee of a [match] or [if] of hypothesis
    [H], closing the branches that are contradictory. *)
Ltac case_in H :=
  match type of H with
  | context [match ?x with _ => _ end] =>
      let E := fresh "Hc" in destruct x eqn:E; simplify_eq/=
  end.

(** The same to exhaustion. *)
Ltac cases_in H := repeat case_in H.

Lemma run_ok {E A W} (r : Res E A * W) : is_ok (fst r) = true -> exists a w, r = (Ok a, w).
Proof. destruct r as [[a|e] w]; [eauto|done]. Qed.

(** The closed run [m] evaluates to [Ok a] in the world [w]. *)
Tactic Notation "by_running" constr(m) "as" ident(a) ident(w) ident(E) :=
  assert (exists a w, m = (Ok a, w)) as (a & w & E)
    by (apply run_ok; vm_compute; reflexivity).

Create HintDb identity discriminated.

(** ** Lists *)
Section lists.
Context {A : Type}.
Implicit Types l : list A.

Lemma take_prefix_le n m l : (n <= m)%nat -> take n (take m l) = take n l.
Proof. intros H. rewrite take_take. f_equal. lia. Qed.

Lemma filter_all (P : A -> Prop) `{!forall x, Decision (P x)} l :
  Forall P l -> filter P l = l.
Proof.
  induction 1 as [|x l Hx _ IH]; [done|]. by rewrite filter_cons_True, IH.
Qed.

(** The first index from which a bounded downward search succeeds. *)
Fixpoint search_down (p : nat -> bool) (n : nat) : nat :=
  match n with
  | O => O
  | S n' => if p n then n else search_down p n'
  end.

Lemma search_down_le p n : (search_down p n <= n)%nat.
Proof. induction n as [|n IH]; simpl; [done|]. destruct (p (S n)); lia. Qed.

Lemma search_down_sat p n : p O = true -> p (search_down p n) = true.
Proof. intros H. induction n as [|n IH]; simpl; [done|]. by destruct (p (S n)) eqn:E. Qed.

Lemma search_down_max p n k :
  (k <= n)%nat -> p k = true -> (k <= search_down p n)%nat.
Proof.
  intros Hk Hp. induction n as [|n IH]; simpl; [lia|].
  destruct (p (S n)) eqn:E; [lia|].
  destruct (decide (k = S n)) as [->|]; [congruence|]. apply IH. lia.
Qed.
End lists.
