(* ===== verification/GoStrings.v ===== *)
(** * Go strings

    A Go [string] is a byte sequence; it is modelled by [string], whose
    characters are bytes.  This file holds the parts of the packages
    [strings], [unicode/utf8], [strconv] and [fmt] that the service uses:
    UTF-8 decoding and validity, [TrimSpace], [ToLower]/[ToUpper], [Split],
    [Cut], [Contains], [ReplaceAll], decimal formatting and the scanning of
    [%d] by [fmt.Sscanf].  The Unicode case tables are a parameter (class
    [UnicodeCase]); everything on ASCII is concrete. *)

From S2P Require Import Prelude.
From Stdlib Require Import Ascii.
Open Scope Z_scope.

Abbreviation bytes := (list ascii).

Definition code (a : ascii) : Z := Z.of_N (N_of_ascii a).
Definition chr (z : Z) : ascii := ascii_of_N (Z.to_N z).

Lemma code_range a : 0 <= code a < 256.
Proof. unfold code. pose proof (N_ascii_bounded a). lia. Qed.

Lemma code_chr z : 0 <= z < 256 -> code (chr z) = z.
Proof. intros H. unfold code, chr. rewrite N_ascii_embedding; lia. Qed.

Lemma chr_code a : chr (code a) = a.
Proof. unfold code, chr. by rewrite N2Z.id, ascii_N_embedding. Qed.

Lemma code_inj a b : code a = code b -> a = b.
Proof. intros H. by rewrite <-(chr_code a), <-(chr_code b), H. Qed.

(** [[]byte(s)] and [string(b)]. *)
Definition bytes_of (s : string) : bytes := String.list_ascii_of_string s.
Definition string_of (l : bytes) : string := String.string_of_list_ascii l.

Lemma string_of_bytes_of s : string_of (bytes_of s) = s.
Proof. apply String.string_of_list_ascii_of_string. Qed.

Lemma bytes_of_string_of l : bytes_of (string_of l) = l.
Proof. apply String.list_ascii_of_string_of_list_ascii. Qed.

Lemma bytes_of_inj s t : bytes_of s = bytes_of t -> s = t.
Proof. intros H. by rewrite <-(string_of_bytes_of s), <-(string_of_bytes_of t), H. Qed.

Create Rewrite HintDb gostr.
#[export] Hint Rewrite string_of_bytes_of bytes_of_string_of chr_code : gostr.

(** [len(s)]. *)
Definition go_len (s : string) : Z := Z.of_nat (length (bytes_of s)).

Lemma bytes_of_app s t : bytes_of (s +:+ t) = bytes_of s ++ bytes_of t.
Proof. unfold bytes_of. induction s as [|a s IH]; simpl; [done|]. by rewrite IH. Qed.

Lemma string_of_app l k : string_of (l ++ k) = string_of l +:+ string_of k.
Proof. apply bytes_of_inj. by rewrite bytes_of_app, !bytes_of_string_of. Qed.

Lemma go_len_nil s : go_len s = 0 <-> s = EmptyString.
Proof. unfold go_len, bytes_of. destruct s; simpl; split; intros; [done|done|lia|done]. Qed.

(** ** UTF-8 *)
Section utf8.
Definition cont (b : ascii) : bool := (0x80 <=? code b) && (code b <=? 0xBF).
Definition between (lo : Z) (b : ascii) (hi : Z) : bool := (lo <=? code b) && (code b <=? hi).

(** Well-formed two-, three- and four-byte sequences. *)
Definition wf2 (b0 b1 : ascii) : bool := between 0xC2 b0 0xDF && cont b1.
Definition wf3 (b0 b1 b2 : ascii) : bool :=
  ((code b0 =? 0xE0) && between 0xA0 b1 0xBF
   || between 0xE1 b0 0xEC && cont b1
   || (code b0 =? 0xED) && between 0x80 b1 0x9F
   || between 0xEE b0 0xEF && cont b1) && cont b2.
Definition wf4 (b0 b1 b2 b3 : ascii) : bool :=
  ((code b0 =? 0xF0) && between 0x90 b1 0xBF
   || between 0xF1 b0 0xF3 && cont b1
   || (code b0 =? 0xF4) && between 0x80 b1 0x8F) && cont b2 && cont b3.

Definition RuneError : Z := 0xFFFD.

Definition rune2 (b0 b1 : ascii) : Z := (code b0 mod 32) * 64 + code b1 mod 64.
Definition rune3 (b0 b1 b2 : ascii) : Z :=
  (code b0 mod 16) * 4096 + (code b1 mod 64) * 64 + code b2 mod 64.
Definition rune4 (b0 b1 b2 b3 : ascii) : Z :=
  (code b0 mod 8) * 262144 + (code b1 mod 64) * 4096 + (code b2 mod 64) * 64 + code b3 mod 64.

(** [utf8.ValidString]. *)
Fixpoint ValidString (l : bytes) : bool :=
  match l with
  | [] => true
  | b0 :: l1 =>
      if code b0 <? 0x80 then ValidString l1 else
      match l1 with
      | [] => false
      | b1 :: l2 =>
          if wf2 b0 b1 then ValidString l2 else
          match l2 with
          | [] => false
          | b2 :: l3 =>
              if wf3 b0 b1 b2 then ValidString l3 else
              match l3 with
              | [] => false
              | b3 :: l4 => if wf4 b0 b1 b2 b3 then ValidString l4 else false
              end
          end
      end
  end.

(** [for _, r := range s]: an ill-formed byte decodes to [RuneError] and
    advances by one. *)
Fixpoint runes (l : bytes) : list Z :=
  match l with
  | [] => []
  | b0 :: l1 =>
      if code b0 <? 0x80 then code b0 :: runes l1 else
      match l1 with
      | [] => [RuneError]
      | b1 :: l2 =>
          if wf2 b0 b1 then rune2 b0 b1 :: runes l2 else
          match l2 with
          | [] => RuneError :: runes l1
          | b2 :: l3 =>
              if wf3 b0 b1 b2 then rune3 b0 b1 b2 :: runes l3 else
              match l3 with
              | [] => RuneError :: runes l1
              | b3 :: l4 =>
                  if wf4 b0 b1 b2 b3 then rune4 b0 b1 b2 b3 :: runes l4
                  else RuneError :: runes l1
              end
          end
      end
  end.

(** [utf8.EncodeRune]. *)
Definition encode_rune (r : Z) : bytes :=
  if (r <? 0) || (0x10FFFF <? r) || ((0xD800 <=? r) && (r <=? 0xDFFF)) then
    [chr 0xEF; chr 0xBF; chr 0xBD]
  else if r <? 0x80 then [chr r]
  else if r <? 0x800 then [chr (0xC0 + r / 64); chr (0x80 + r mod 64)]
  else if r <? 0x10000 then
    [chr (0xE0 + r / 4096); chr (0x80 + (r / 64) mod 64); chr (0x80 + r mod 64)]
  else
    [chr (0xF0 + r / 262144); chr (0x80 + (r / 4096) mod 64);
     chr (0x80 + (r / 64) mod 64); chr (0x80 + r mod 64)].
End utf8.

(** ** Case mapping *)

(** [unicode.ToLower] and [unicode.ToUpper] outside ASCII. *)
Class UnicodeCase := {
  unicode_lower : Z -> Z;
  unicode_upper : Z -> Z;
}.

Definition is_upper (z : Z) : bool := (65 <=? z) && (z <=? 90).
Definition is_lower (z : Z) : bool := (97 <=? z) && (z <=? 122).
Definition ascii_lower (a : ascii) : ascii := if is_upper (code a) then chr (code a + 32) else a.
Definition ascii_upper (a : ascii) : ascii := if is_lower (code a) then chr (code a - 32) else a.
Definition is_ascii (l : bytes) : bool := forallb (fun a => code a <? 0x80) l.

Section case.
Context `{!UnicodeCase}.

Definition rune_lower (r : Z) : Z :=
  if r <? 0x80 then (if is_upper r then r + 32 else r) else unicode_lower r.
Definition rune_upper (r : Z) : Z :=
  if r <? 0x80 then (if is_lower r then r - 32 else r) else unicode_upper r.

Definition ToLower (s : string) : string :=
  let l := bytes_of s in
  if is_ascii l then string_of (ascii_lower <$> l)
  else string_of (mjoin ((fun r => encode_rune (rune_lower r)) <$> runes l)).
Definition ToUpper (s : string) : string :=
  let l := bytes_of s in
  if is_ascii l then string_of (ascii_upper <$> l)
  else string_of (mjoin ((fun r => encode_rune (rune_upper r)) <$> runes l)).
End case.

(** ** Trimming *)

(** Encodings of the runes for which [unicode.IsSpace] holds; [space_len] is
    the length of the one at the head of a byte sequence, 0 if there is none. *)
Definition space1 (a : ascii) : bool :=
  ((9 <=? code a) && (code a <=? 13)) || (code a =? 32).
Definition space2 (a b : ascii) : bool :=
  (code a =? 0xC2) && ((code b =? 0x85) || (code b =? 0xA0)).
Definition space3 (a b c : ascii) : bool :=
  ((code a =? 0xE1) && (code b =? 0x9A) && (code c =? 0x80))
  || ((code a =? 0xE2) && (code b =? 0x80)
      && (((0x80 <=? code c) && (code c <=? 0x8A))
          || (code c =? 0xA8) || (code c =? 0xA9) || (code c =? 0xAF)))
  || ((code a =? 0xE2) && (code b =? 0x81) && (code c =? 0x9F))
  || ((code a =? 0xE3) && (code b =? 0x80) && (code c =? 0x80)).

Fixpoint trim_left (l : bytes) : bytes :=
  match l with
  | [] => []
  | a :: l1 =>
      if space1 a then trim_left l1 else
      match l1 with
      | [] => l
      | b :: l2 =>
          if space2 a b then trim_left l2 else
          match l2 with
          | [] => l
          | c :: l3 => if space3 a b c then trim_left l3 else l
          end
      end
  end.

(** The same from the end, on the reversed sequence. *)
Fixpoint trim_rev (l : bytes) : bytes :=
  match l with
  | [] => []
  | a :: l1 =>
      if space1 a then trim_rev l1 else
      match l1 with
      | [] => l
      | b :: l2 =>
          if space2 b a then trim_rev l2 else
          match l2 with
          | [] => l
          | c :: l3 => if space3 c b a then trim_rev l3 else l
          end
      end
  end.

Definition trim_bytes (l : bytes) : bytes := reverse (trim_rev (reverse (trim_left l))).

(** [strings.TrimSpace]. *)
Definition TrimSpace (s : string) : string := string_of (trim_bytes (bytes_of s)).

(** A visible ASCII character, or any other byte that is not part of a
    multi-byte space. *)
Definition plain (a : ascii) : Prop := 33 <= code a < 127.

Lemma plain_space1 a : plain a -> space1 a = false.
Proof. unfold plain, space1. lia. Qed.
Lemma plain_space2 a b : plain a \/ plain b -> space2 a b = false.
Proof. unfold plain, space2. lia. Qed.
Lemma plain_space3 a b c : plain a \/ plain c -> space3 a b c = false.
Proof. unfold plain, space3. lia. Qed.

Lemma trim_left_plain a l : plain a -> trim_left (a :: l) = a :: l.
Proof.
  intros Ha. simpl. rewrite plain_space1 by done. destruct l as [|b [|c l]]; [done|..];
    rewrite plain_space2 by auto; [done|]. by rewrite plain_space3 by auto.
Qed.
Lemma trim_rev_plain a l : plain a -> trim_rev (a :: l) = a :: l.
Proof.
  intros Ha. simpl. rewrite plain_space1 by done. destruct l as [|b [|c l]]; [done|..];
    rewrite plain_space2 by auto; [done|]. by rewrite plain_space3 by auto.
Qed.

Lemma trim_plain l : Forall plain l -> trim_bytes l = l.
Proof.
  intros Hl. unfold trim_bytes. destruct Hl as [|a l Ha Hl]; [done|]. rewrite trim_left_plain by done.
  assert (Forall plain (reverse (a :: l))) as Hr by (apply Forall_reverse; by constructor).
  rewrite <-(reverse_involutive (a :: l)) at 2. f_equal.
  destruct Hr as [|b r Hb Hr]; [done|]. by apply trim_rev_plain.
Qed.

(** ** Splitting and searching *)

(** [strings.Split] with a one-byte separator. *)
Fixpoint split_bytes (sep : ascii) (l : bytes) : list bytes :=
  match l with
  | [] => [[]]
  | a :: l' =>
      if decide (a = sep) then [] :: split_bytes sep l'
      else match split_bytes sep l' with
           | [] => [[a]]
           | p :: ps => (a :: p) :: ps
           end
  end.
Definition Split (s : string) (sep : ascii) : list string :=
  string_of <$> split_bytes sep (bytes_of s).

Lemma split_bytes_none sep l : sep ∉ l -> split_bytes sep l = [l].
Proof.
  induction l as [|a l IH]; intros Hs; simpl; [done|]. rewrite decide_False by set_solver.
  by rewrite IH by set_solver.
Qed.

Lemma split_bytes_app sep l r : sep ∉ l -> split_bytes sep (l ++ sep :: r) = l :: split_bytes sep r.
Proof.
  induction l as [|a l IH]; intros Hs; simpl; [by rewrite decide_True|].
  rewrite decide_False by set_solver. by rewrite IH by set_solver.
Qed.

(** [strings.Cut] at the first occurrence of a one-byte separator. *)
Fixpoint cut_bytes (sep : ascii) (l : bytes) : option (bytes * bytes) :=
  match l with
  | [] => None
  | a :: l' =>
      if decide (a = sep) then Some ([], l')
      else match cut_bytes sep l' with
           | None => None
           | Some (p, q) => Some (a :: p, q)
           end
  end.

Lemma cut_bytes_app sep a b : sep ∉ a -> cut_bytes sep (a ++ sep :: b) = Some (a, b).
Proof.
  induction a as [|x a IH]; cbn; intros Ha; [by rewrite decide_True|].
  apply not_elem_of_cons in Ha as [Hx Ha]. by rewrite decide_False, IH by done.
Qed.
Lemma cut_bytes_Some sep l a b : cut_bytes sep l = Some (a, b) -> l = a ++ sep :: b /\ sep ∉ a.
Proof.
  revert a. induction l as [|x l IH]; intros a; cbn; [done|]. destruct (decide (x = sep)) as [->|Hx].
  - intros [= <- <-]. split; [done|]. apply not_elem_of_nil.
  - destruct (cut_bytes sep l) as [[p q]|]; [|done]. intros [= <- <-]. destruct (IH p) as [-> Hp]; [done|].
    split; [done|]. apply not_elem_of_cons. auto.
Qed.

Lemma cut_bytes_absent sep l : sep ∉ l <-> cut_bytes sep l = None.
Proof.
  induction l as [|a l IH]; cbn; [split; [done|intros _; apply not_elem_of_nil]|]. rewrite not_elem_of_cons, IH.
  case_decide; [split; [by intros []|done]|]. destruct (cut_bytes sep l) as [[p q]|]; [split; [by intros []|done]|].
  by split; [|split; [congruence|]].
Qed.

Fixpoint has_prefix (p l : bytes) : bool :=
  match p, l with
  | [], _ => true
  | a :: p', b :: l' => bool_decide (a = b) && has_prefix p' l'
  | _ :: _, [] => false
  end.

(** [strings.Contains]. *)
Fixpoint contains_bytes (p l : bytes) : bool :=
  has_prefix p l || match l with [] => false | _ :: l' => contains_bytes p l' end.
Definition Contains (s sub : string) : bool := contains_bytes (bytes_of sub) (bytes_of s).

(** [strings.ReplaceAll(s, "c", "")] for a one-byte [c]. *)
Definition remove_byte (c : ascii) (s : string) : string :=
  string_of (filter (fun a => a <> c) (bytes_of s)).

(** ** Character boundaries *)

(** A non-empty valid sequence starts with one complete character. *)
Lemma ValidString_head l :
  ValidString l = true -> l = [] \/
  exists c r, l = c ++ r /\ (1 <= length c <= 4)%nat /\ forall m, ValidString (c ++ m) = ValidString m.
Proof.
  destruct l as [|b0 l1]; [by left|]; intros H; right; simpl in H.
  destruct (code b0 <? 0x80) eqn:E0.
  { exists [b0], l1. split_and!; simpl; [done|lia|lia|]. intros m. by rewrite E0. }
  destruct l1 as [|b1 l2]; [done|]. destruct (wf2 b0 b1) eqn:E1.
  { exists [b0; b1], l2. split_and!; simpl; [done|lia|lia|]. intros m. by rewrite E0, E1. }
  destruct l2 as [|b2 l3]; [done|]. destruct (wf3 b0 b1 b2) eqn:E2.
  { exists [b0; b1; b2], l3. split_and!; simpl; [done|lia|lia|]. intros m. by rewrite E0, E1, E2. }
  destruct l3 as [|b3 l4]; [done|]. destruct (wf4 b0 b1 b2 b3) eqn:E3; [|done].
  exists [b0; b1; b2; b3], l4. split_and!; simpl; [done|lia|lia|]. intros m. by rewrite E0, E1, E2, E3.
Qed.

(** Among any four consecutive offsets of a valid sequence, one is a
    character boundary. *)
Lemma ValidString_boundary l : ValidString l = true ->
  forall n, (n <= length l)%nat ->
  exists k, (k <= n)%nat /\ (n < k + 4)%nat /\ ValidString (take k l) = true.
Proof.
  induction l as [l IH] using (well_founded_induction (well_founded_ltof _ (@length ascii))).
  intros Hv n Hn. destruct (ValidString_head l Hv) as [->|(c & r & -> & Hc & Hm)].
  { simpl in Hn. exists 0%nat. split_and!; [lia|lia|done]. }
  rewrite length_app in Hn. destruct (decide (n < length c)%nat) as [Hlt|Hge].
  { exists 0%nat. split_and!; [lia|lia|done]. }
  rewrite Hm in Hv.
  destruct (IH r) with (n := (n - length c)%nat) as (k & Hk1 & Hk2 & Hk3);
    [unfold ltof; rewrite length_app; lia|done|lia|].
  exists (length c + k)%nat. split_and!; [lia|lia|].
  by rewrite take_app_add, Hm.
Qed.

(** ** Decimal numbers *)

Definition digit (d : Z) : ascii := chr (48 + d).
Definition is_digit (a : ascii) : bool := (48 <=? code a) && (code a <=? 57).

(** Digits of [n], most significant first, before [acc]. *)
Fixpoint dec_digits (fuel : nat) (n : Z) (acc : bytes) : bytes :=
  match fuel with
  | O => acc
  | S f =>
      let acc' := digit (n mod 10) :: acc in
      if n / 10 =? 0 then acc' else dec_digits f (n / 10) acc'
  end.

(** [fmt.Sprintf("%d", n)] for a non-negative [n]. *)
Definition itoa_bytes (n : Z) : bytes := dec_digits (S (Z.to_nat (Z.log2 n))) n [].
Definition itoa (n : Z) : string := string_of (itoa_bytes n).

(** The value of a digit sequence, continuing from [acc]. *)
Definition dec_value (acc : Z) (l : bytes) : Z := foldl (fun v a => 10 * v + (code a - 48)) acc l.

Lemma digit_code d : 0 <= d < 10 -> code (digit d) = 48 + d.
Proof. intros H. apply code_chr. lia. Qed.

Lemma is_digit_digit d : 0 <= d < 10 -> is_digit (digit d) = true.
Proof. intros H. unfold is_digit. rewrite digit_code by done. lia. Qed.

Lemma dec_digits_value fuel n acc :
  0 <= n < 10 ^ Z.of_nat fuel -> dec_value 0 (dec_digits fuel n acc) = dec_value n acc.
Proof.
  revert n acc. induction fuel as [|f IH]; intros n acc Hn; simpl.
  { replace n with 0; [done|]. simpl in Hn. lia. }
  rewrite Nat2Z.inj_succ, Z.pow_succ_r in Hn by lia.
  pose proof (Z.mod_pos_bound n 10 ltac:(lia)). pose proof (Z.div_mod n 10 ltac:(lia)).
  destruct (n / 10 =? 0) eqn:E.
  - apply Z.eqb_eq in E. unfold dec_value. simpl. rewrite digit_code by lia. f_equal. lia.
  - rewrite IH by (split; [apply Z.div_pos; lia | apply Z.div_lt_upper_bound; lia]).
    unfold dec_value. simpl. rewrite digit_code by lia. f_equal. lia.
Qed.

Lemma dec_digits_all fuel n acc :
  0 <= n -> forallb is_digit acc = true -> forallb is_digit (dec_digits fuel n acc) = true.
Proof.
  revert n acc. induction fuel as [|f IH]; intros n acc Hn Ha; simpl; [done|].
  pose proof (Z.mod_pos_bound n 10 ltac:(lia)).
  assert (forallb is_digit (digit (n mod 10) :: acc) = true).
  { simpl. by rewrite is_digit_digit. }
  destruct (n / 10 =? 0); [done|]. apply IH; [apply Z.div_pos; lia|done].
Qed.

Lemma dec_digits_nonempty fuel n acc : acc <> [] -> dec_digits fuel n acc <> [].
Proof.
  revert n acc. induction fuel as [|f IH]; intros n acc Ha; simpl; [done|].
  destruct (n / 10 =? 0); [done|]. by apply IH.
Qed.

Lemma itoa_value n : 0 <= n -> dec_value 0 (itoa_bytes n) = n.
Proof.
  intros Hn. unfold itoa_bytes. rewrite dec_digits_value; [done|]. split; [done|].
  rewrite Nat2Z.inj_succ, Z2Nat.id by apply Z.log2_nonneg.
  destruct (decide (n = 0)) as [->|]; [done|].
  apply Z.lt_le_trans with (2 ^ Z.succ (Z.log2 n)); [apply Z.log2_spec; lia|].
  apply Z.pow_le_mono_l. lia.
Qed.

Lemma itoa_digits n : 0 <= n -> forallb is_digit (itoa_bytes n) = true.
Proof. intros Hn. by apply dec_digits_all. Qed.

Lemma itoa_nonempty n : itoa_bytes n <> [].
Proof.
  unfold itoa_bytes. simpl. destruct (n / 10 =? 0); [done|]. by apply dec_digits_nonempty.
Qed.

Lemma length_dec_digits fuel n acc k :
  0 <= n < 10 ^ Z.of_nat k -> (1 <= k)%nat -> (length (dec_digits fuel n acc) <= length acc + k)%nat.
Proof.
  revert n acc k. induction fuel as [|f IH]; intros n acc k Hn Hk; simpl; [lia|].
  destruct (n / 10 =? 0) eqn:E; [simpl; lia|]. apply Z.eqb_neq in E.
  destruct k as [|[|k]]; [lia| |].
  - exfalso. apply E. apply Z.div_small. simpl in Hn. lia.
  - etrans; [apply (IH _ _ (S k)); [|lia]|simpl; lia].
    rewrite Nat2Z.inj_succ, Z.pow_succ_r in Hn by lia.
    split; [apply Z.div_pos; lia|apply Z.div_lt_upper_bound; lia].
Qed.

(** ** [fmt.Sscanf] *)

Fixpoint span_digits (l : bytes) : bytes * bytes :=
  match l with
  | a :: l' => if is_digit a then let '(d, r) := span_digits l' in (a :: d, r) else ([], l)
  | [] => ([], [])
  end.

(** [SkipSpace] of the scanner: a newline is an error, other white space is
    skipped. *)
Fixpoint skip_space (l : bytes) : option bytes :=
  match l with
  | [] => Some []
  | a :: l1 =>
      if code a =? 10 then None
      else if space1 a then skip_space l1 else
      match l1 with
      | [] => Some l
      | b :: l2 =>
          if space2 a b then skip_space l2 else
          match l2 with
          | [] => Some l
          | c :: l3 => if space3 a b c then skip_space l3 else Some l
          end
      end
  end.

(** A literal of the format. *)
Definition scan_lit (p l : bytes) : option bytes :=
  if has_prefix p l then Some (drop (length p) l) else None.

(** [%d] into an unsigned integer of [bits] bits: the token is parsed as a
    [uint64] and must fit the operand. *)
Definition scan_uint (bits : Z) (l : bytes) : option (Z * bytes) :=
  l ← skip_space l;
  let '(d, r) := span_digits l in
  match d with
  | [] => None
  | _ => let v := dec_value 0 d in if v <? 2 ^ Z.min bits 64 then Some (v, r) else None
  end.

(** [%d] into an [int] (64 bits), with an optional sign. *)
Definition scan_int (l : bytes) : option (Z * bytes) :=
  l ← skip_space l;
  let '(neg, l) :=
    match l with
    | a :: l' => if code a =? 45 then (true, l') else if code a =? 43 then (false, l') else (false, l)
    | [] => (false, l)
    end in
  let '(d, r) := span_digits l in
  match d with
  | [] => None
  | _ =>
      let v := if (neg : bool) then - dec_value 0 d else dec_value 0 d in
      if decide (int64_min <= v <= int64_max) then Some (v, r) else None
  end.

Lemma has_prefix_app p l : has_prefix p (p ++ l) = true.
Proof. induction p as [|a p IH]; simpl; [done|]. by rewrite bool_decide_true, IH. Qed.

Lemma scan_lit_app p l : scan_lit p (p ++ l) = Some l.
Proof. unfold scan_lit. by rewrite has_prefix_app, drop_app_length. Qed.

Lemma span_digits_app d r :
  forallb is_digit d = true ->
  match r with a :: _ => is_digit a = false | [] => True end ->
  span_digits (d ++ r) = (d, r).
Proof.
  intros Hd Hr. induction d as [|a d IH]; simpl in *.
  - destruct r as [|a r]; simpl; [done|]. by rewrite Hr.
  - apply andb_true_iff in Hd as [-> Hd]. by rewrite IH.
Qed.

Lemma skip_space_digit a l : is_digit a = true -> skip_space (a :: l) = Some (a :: l).
Proof.
  unfold is_digit. intros H. simpl.
  replace (code a =? 10) with false by lia. unfold space1, space2, space3.
  replace (_ || _) with false by lia.
  destruct l as [|b [|c l]]; [done| |]; simpl;
    repeat match goal with |- context [code a =? ?z] => replace (code a =? z) with false by lia end; done.
Qed.

(** What [%d] prints, [%d] scans. *)
Lemma scan_uint_itoa bits n r :
  0 <= n < 2 ^ Z.min bits 64 ->
  match r with a :: _ => is_digit a = false | [] => True end ->
  scan_uint bits (itoa_bytes n ++ r) = Some (n, r).
Proof.
  intros Hn Hr. unfold scan_uint.
  pose proof (itoa_digits n ltac:(lia)) as Hd. pose proof (itoa_nonempty n) as Hne.
  pose proof (itoa_value n ltac:(lia)) as Hv.
  destruct (itoa_bytes n) as [|a d] eqn:E; [done|].
  assert (is_digit a = true) as Ha by (simpl in Hd; by apply andb_true_iff in Hd as [? _]).
  simpl app. rewrite skip_space_digit by done. cbn -[dec_value span_digits].
  change (a :: d ++ r) with ((a :: d) ++ r). rewrite (span_digits_app (a :: d) r Hd Hr).
  cbn -[dec_value]. rewrite Hv. by replace (n <? _) with true by lia.
Qed.

Lemma scan_int_itoa n r :
  0 <= n <= int64_max ->
  match r with a :: _ => is_digit a = false | [] => True end ->
  scan_int (itoa_bytes n ++ r) = Some (n, r).
Proof.
  intros Hn Hr. unfold scan_int.
  pose proof (itoa_digits n ltac:(lia)) as Hd. pose proof (itoa_nonempty n) as Hne.
  pose proof (itoa_value n ltac:(lia)) as Hv.
  destruct (itoa_bytes n) as [|a d] eqn:E; [done|].
  assert (is_digit a = true) as Ha by (simpl in Hd; by apply andb_true_iff in Hd as [? _]).
  simpl app. rewrite skip_space_digit by done. cbn -[dec_value span_digits decide].
  unfold is_digit in Ha.
  replace (code a =? 45) with false by lia. replace (code a =? 43) with false by lia.
  change (a :: d ++ r) with ((a :: d) ++ r). rewrite (span_digits_app (a :: d) r Hd Hr).
  cbn -[dec_value decide]. rewrite Hv. rewrite decide_True; [done|]. unfold int64_min. lia.
Qed.
