(* ===== verification/Encoding.v ===== *)
(** * Binary-to-text encodings

    [encoding/base64] (standard and URL alphabets, padded, raw, strict),
    [encoding/base32] (standard alphabet without padding) and
    [encoding/hex], as the service uses them.  Both base encodings regroup a
    block of [block] bytes into [quantum] characters; the round trip is
    proved once for all of them. *)

From S2P Require Import Prelude.
From S2P Require Import GoStrings.
From Stdlib Require Import Ascii.
Open Scope Z_scope.

(** ** Positional notation *)
Section digits.
Context (b : Z) (Hb : 1 < b).

Fixpoint to_digits (n : nat) (v : Z) : list Z :=
  match n with
  | O => []
  | S n' => to_digits n' (v / b) ++ [v mod b]
  end.

Definition from_digits (l : list Z) : Z := foldl (fun acc d => b * acc + d) 0 l.

Lemma length_to_digits n v : length (to_digits n v) = n.
Proof. revert v. induction n as [|n IH]; intros v; simpl; [done|]. rewrite length_app, IH. simpl. lia. Qed.

Lemma from_digits_snoc l d : from_digits (l ++ [d]) = b * from_digits l + d.
Proof. unfold from_digits. by rewrite foldl_app. Qed.

Lemma from_to_digits n v : 0 <= v < b ^ Z.of_nat n -> from_digits (to_digits n v) = v.
Proof using Hb.
  revert v. induction n as [|n IH]; intros v Hv; simpl.
  { simpl in Hv. unfold from_digits. simpl. lia. }
  rewrite Nat2Z.inj_succ, Z.pow_succ_r in Hv by lia.
  rewrite from_digits_snoc, IH.
  - pose proof (Z.div_mod v b ltac:(lia)). lia.
  - split; [apply Z.div_pos; lia | apply Z.div_lt_upper_bound; lia].
Qed.

Lemma from_digits_range l :
  Forall (fun d => 0 <= d < b) l -> 0 <= from_digits l < b ^ Z.of_nat (length l).
Proof using Hb.
  induction l as [|d l IH] using rev_ind; intros H; [unfold from_digits; simpl; lia|].
  apply Forall_app in H as [Hl Hd]. rewrite Forall_singleton in Hd.
  rewrite from_digits_snoc, length_app. simpl length.
  rewrite Nat.add_1_r, Nat2Z.inj_succ, Z.pow_succ_r by lia. specialize (IH Hl). nia.
Qed.

Lemma to_from_digits l :
  Forall (fun d => 0 <= d < b) l -> to_digits (length l) (from_digits l) = l.
Proof using Hb.
  induction l as [|d l IH] using rev_ind; intros H; [done|].
  apply Forall_app in H as [Hl Hd]. rewrite Forall_singleton in Hd.
  rewrite length_app, from_digits_snoc. simpl length. rewrite Nat.add_1_r. simpl.
  replace (b * from_digits l + d) with (d + from_digits l * b) by lia.
  rewrite Z.div_add, Z.mod_add by lia. rewrite (Z.div_small d), (Z.mod_small d) by lia.
  rewrite Z.add_0_l. by rewrite IH.
Qed.

Lemma to_digits_app n m v :
  to_digits (n + m) v = to_digits n (v / b ^ Z.of_nat m) ++ to_digits m v.
Proof using Hb.
  revert v. induction m as [|m IH]; intros v; simpl.
  { by rewrite Nat.add_0_r, Z.div_1_r, app_nil_r. }
  rewrite Nat.add_succ_r. simpl. rewrite IH, app_assoc. do 2 f_equal.
  rewrite Z.div_div by (try apply Z.pow_pos_nonneg; lia).
  by rewrite Nat2Z.inj_succ, Z.pow_succ_r by lia.
Qed.

Lemma to_digits_zeros m v : v mod b ^ Z.of_nat m = 0 -> to_digits m v = replicate m 0.
Proof using Hb.
  revert v. induction m as [|m IH]; intros v Hv; simpl; [done|].
  rewrite Nat2Z.inj_succ, Z.pow_succ_r in Hv by lia.
  pose proof (Z.pow_pos_nonneg b (Z.of_nat m) ltac:(lia) ltac:(lia)).
  apply Z.mod_divide in Hv as [q ->]; [|lia].
  replace (q * (b * b ^ Z.of_nat m)) with (q * b ^ Z.of_nat m * b) by lia.
  rewrite Z.div_mul, Z.mod_mul by lia. rewrite IH by (apply Z.mod_mul; lia).
  by rewrite <-replicate_cons_app.
Qed.

Lemma to_digits_range n v : Forall (fun d => 0 <= d < b) (to_digits n v).
Proof using Hb.
  revert v. induction n as [|n IH]; intros v; simpl; [constructor|].
  apply Forall_app. split; [apply IH|]. apply Forall_singleton. apply Z.mod_pos_bound. lia.
Qed.

Lemma from_digits_zeros l m : from_digits (l ++ replicate m 0) = from_digits l * b ^ Z.of_nat m.
Proof using Hb.
  induction m as [|m IH]; simpl; [rewrite app_nil_r; lia|].
  replace (0 :: replicate m 0) with (replicate m 0 ++ [0]) by (by rewrite <-replicate_cons_app).
  rewrite app_assoc, from_digits_snoc, IH, Nat2Z.inj_succ, Z.pow_succ_r by lia. lia.
Qed.
End digits.

(** ** Alphabets *)

Fixpoint index_of (c : ascii) (l : bytes) : option Z :=
  match l with
  | [] => None
  | a :: l' => if decide (a = c) then Some 0 else (fun i => i + 1) <$> index_of c l'
  end.

Definition enc_char (al : bytes) (d : Z) : ascii := nth (Z.to_nat d) al zero.

Lemma index_of_nth al i : NoDup al -> (i < length al)%nat -> index_of (nth i al zero) al = Some (Z.of_nat i).
Proof.
  revert i. induction al as [|a al IH]; intros i Hnd Hi; simpl in Hi; [lia|].
  apply NoDup_cons in Hnd as [Ha Hnd]. destruct i as [|i]; simpl.
  - by rewrite decide_True.
  - rewrite decide_False.
    + rewrite IH by (done || lia). simpl. f_equal. lia.
    + intros ->. apply Ha. apply list_elem_of_In. apply nth_In. lia.
Qed.

Lemma index_of_enc al d :
  NoDup al -> 0 <= d < Z.of_nat (length al) -> index_of (enc_char al d) al = Some d.
Proof. intros Hnd Hd. unfold enc_char. rewrite index_of_nth; [f_equal|done|]; lia. Qed.

Lemma enc_char_elem al d : 0 <= d < Z.of_nat (length al) -> enc_char al d ∈ al.
Proof. intros Hd. apply list_elem_of_In, nth_In. lia. Qed.

(** ** The shared scheme *)

Record Encoding := mkEncoding {
  alphabet : bytes;
  radix : Z;             (** 64 or 32 *)
  block : nat;           (** bytes per block *)
  quantum : nat;         (** characters per full block *)
  nchars : nat -> nat;   (** characters of a block of k bytes *)
  nbytes : nat -> option nat;  (** bytes of a block of j characters; [None]: corrupt input *)
  padded : bool;
  strict : bool;
}.

(** Blocks of [n] elements; the fuel is the length. *)
Fixpoint blocks {A} (fuel n : nat) (l : list A) : list (list A) :=
  match fuel with
  | O => []
  | S f => match l with [] => [] | _ => take n l :: blocks f n (drop n l) end
  end.

Definition zeros (n : nat) : list Z := replicate n 0.

Section scheme.
Context (e : Encoding).

Definition encode_block (c : bytes) : bytes :=
  let v := from_digits 256 ((code <$> c) ++ zeros (block e - length c)) in
  enc_char (alphabet e) <$> take (nchars e (length c)) (to_digits (radix e) (quantum e) v).

Definition decode_block (c : bytes) : option bytes :=
  ds ← mapM (fun a => index_of a (alphabet e)) c;
  k ← nbytes e (length c);
  let out := to_digits 256 (block e) (from_digits (radix e) (ds ++ zeros (quantum e - length c))) in
  if strict e && negb (forallb (fun z => z =? 0) (drop k out)) then None
  else Some (chr <$> take k out).

Definition EncodeRaw (l : bytes) : bytes := mjoin (encode_block <$> blocks (length l) (block e) l).
Definition DecodeRaw (l : bytes) : option bytes :=
  mjoin <$> mapM decode_block (blocks (length l) (quantum e) l).

Definition pad_char : ascii := chr 61.

(** Remove at most two trailing padding characters. *)
Definition strip_pad (l : bytes) : bytes :=
  reverse match reverse l with
          | a :: b :: r =>
              if decide (a = pad_char) then
                (if decide (b = pad_char) then r else b :: r)
              else a :: b :: r
          | r => r
          end.

Definition not_newline (a : ascii) : Prop := code a <> 10 /\ code a <> 13.
#[global] Instance not_newline_dec a : Decision (not_newline a).
Proof. unfold not_newline. apply _. Defined.

(** [enc.DecodeString]: line breaks are ignored. *)
Definition DecodeString (s : string) : option bytes :=
  let l := filter not_newline (bytes_of s) in
  if padded e then
    if Nat.eqb (length l mod quantum e) 0 then DecodeRaw (strip_pad l) else None
  else DecodeRaw l.

(** [enc.EncodeToString]. *)
Definition EncodeToString (l : bytes) : string :=
  let r := EncodeRaw l in
  string_of (if padded e then
    r ++ replicate ((quantum e - length r mod quantum e) mod quantum e) pad_char else r).
End scheme.

Definition upper_alpha : bytes := (fun i => chr (65 + Z.of_nat i)) <$> seq 0 26.
Definition lower_alpha : bytes := (fun i => chr (97 + Z.of_nat i)) <$> seq 0 26.
Definition digits10 : bytes := (fun i => chr (48 + Z.of_nat i)) <$> seq 0 10.

Definition std_alphabet : bytes := upper_alpha ++ lower_alpha ++ digits10 ++ [chr 43; chr 47].
Definition url_alphabet : bytes := upper_alpha ++ lower_alpha ++ digits10 ++ [chr 45; chr 95].
Definition base32_alphabet : bytes := upper_alpha ++ ((fun i => chr (50 + Z.of_nat i)) <$> seq 0 6).

Definition b64_nchars (k : nat) : nat := match k with 1 => 2 | 2 => 3 | 3 => 4 | _ => 0 end%nat.
Definition b64_nbytes (j : nat) : option nat :=
  match j with 2 => Some 1 | 3 => Some 2 | 4 => Some 3 | _ => None end%nat.
Definition b32_nchars (k : nat) : nat := match k with 1 => 2 | 2 => 4 | 3 => 5 | 4 => 7 | 5 => 8 | _ => 0 end%nat.
Definition b32_nbytes (j : nat) : option nat :=
  match j with 2 => Some 1 | 4 => Some 2 | 5 => Some 3 | 7 => Some 4 | 8 => Some 5 | _ => Some 0 end%nat.

Definition base64_with (al : bytes) (pad strict : bool) : Encoding :=
  mkEncoding al 64 3 4 b64_nchars b64_nbytes pad strict.

Definition StdEncoding : Encoding := base64_with std_alphabet true false.
Definition RawStdEncoding : Encoding := base64_with std_alphabet false false.
Definition RawStdEncodingStrict : Encoding := base64_with std_alphabet false true.
Definition URLEncoding : Encoding := base64_with url_alphabet true false.
Definition RawURLEncoding : Encoding := base64_with url_alphabet false false.
Definition base32NoPadding : Encoding := mkEncoding base32_alphabet 32 5 8 b32_nchars b32_nbytes false false.

(** [hex.EncodeToString]. *)
Definition hex_digit (d : Z) : ascii := if d <? 10 then chr (48 + d) else chr (87 + d).
Definition hex (l : bytes) : string :=
  string_of (mjoin ((fun a => [hex_digit (code a / 16); hex_digit (code a mod 16)]) <$> l)).

Lemma hex_digit_inj d d' : 0 <= d < 16 -> 0 <= d' < 16 -> hex_digit d = hex_digit d' -> d = d'.
Proof.
  intros H H' E. apply (f_equal code) in E. unfold hex_digit in E.
  repeat case_match; rewrite !code_chr in E by lia; lia.
Qed.

Lemma hex_inj l k : hex l = hex k -> l = k.
Proof.
  unfold hex. intros H. apply (f_equal bytes_of) in H. rewrite !bytes_of_string_of in H. revert k H.
  induction l as [|a l IH]; intros [|b k]; try done. simpl. intros [= H1 H2 H3].
  pose proof (code_range a). pose proof (code_range b).
  apply hex_digit_inj in H1, H2; try (Z.to_euclidean_division_equations; lia).
  f_equal; [|by apply IH]. apply code_inj. Z.to_euclidean_division_equations; lia.
Qed.

(** ** Round trip *)

(** What the scheme's parameters have to satisfy. *)
Record encoding_ok (e : Encoding) : Prop := {
  ok_nodup : NoDup (alphabet e);
  ok_radix : radix e = Z.of_nat (length (alphabet e)) /\ 1 < radix e;
  ok_size : 256 ^ Z.of_nat (block e) = radix e ^ Z.of_nat (quantum e);
  ok_block : (0 < block e)%nat /\ (0 < quantum e)%nat;
  ok_full : nchars e (block e) = quantum e;
  ok_chars k : (0 < k <= block e)%nat ->
    (0 < nchars e k <= quantum e)%nat /\ nbytes e (nchars e k) = Some k /\
    256 ^ Z.of_nat (block e - k) mod radix e ^ Z.of_nat (quantum e - nchars e k) = 0;
  ok_clean : Forall not_newline (alphabet e);
}.

Lemma mapM_index al (ds : list Z) :
  NoDup al -> Forall (fun d => 0 <= d < Z.of_nat (length al)) ds ->
  mapM (fun a => index_of a al) (enc_char al <$> ds) = Some ds.
Proof.
  intros Hnd Hds. apply mapM_Some, Forall2_fmap_l, Forall_Forall2_diag.
  eapply Forall_impl; [exact Hds|]. intros d Hd. by apply index_of_enc.
Qed.

Lemma codes_range (l : bytes) : Forall (fun d => 0 <= d < 256) (code <$> l).
Proof. apply Forall_fmap, Forall_true. intros a. apply code_range. Qed.

Lemma zeros_range b n : 1 < b -> Forall (fun d => 0 <= d < b) (zeros n).
Proof. intros. apply Forall_replicate. lia. Qed.

Section roundtrip.
Context (e : Encoding) (Hok : encoding_ok e).

Lemma length_encode_block c : (0 < length c <= block e)%nat -> length (encode_block e c) = nchars e (length c).
Proof using Hok.
  intros Hc. unfold encode_block. destruct (ok_chars e Hok _ Hc) as ((? & ?) & _).
  rewrite length_fmap, length_take, length_to_digits. lia.
Qed.

Lemma decode_encode_block c :
  (0 < length c <= block e)%nat -> decode_block e (encode_block e c) = Some c.
Proof using Hok.
  intros Hc. unfold decode_block. rewrite length_encode_block by done.
  destruct (ok_chars e Hok _ Hc) as ((Hn0 & Hn) & Hnb & Hq).
  destruct (ok_radix e Hok) as (Hr & Hr1).
  apply Z.mod_divide in Hq as [q Hq]; [|apply Z.pow_nonzero; lia].
  unfold encode_block. set (k := length c) in *.
  set (v := from_digits 256 ((code <$> c) ++ zeros (block e - k))).
  assert (0 <= v < 256 ^ Z.of_nat (block e)) as Hv.
  { unfold v. pose proof (from_digits_range 256 ltac:(lia)
      ((code <$> c) ++ zeros (block e - k))) as H.
    rewrite length_app, length_fmap in H. unfold zeros in H. rewrite length_replicate in H.
    replace (length c + (block e - k))%nat with (block e) in H by lia. apply H.
    apply Forall_app. split; [apply codes_range | apply zeros_range; lia]. }
  assert (to_digits 256 (block e) v = (code <$> c) ++ zeros (block e - k)) as Hback.
  { replace (block e) with (length ((code <$> c) ++ zeros (block e - k))) at 1
      by (rewrite length_app, length_fmap; unfold zeros; rewrite length_replicate; lia).
    apply to_from_digits; [lia|]. apply Forall_app. split; [apply codes_range | apply zeros_range; lia]. }
  assert (to_digits (radix e) (quantum e) v =
          take (nchars e k) (to_digits (radix e) (quantum e) v) ++ zeros (quantum e - nchars e k)) as Hsplit.
  { rewrite <-(take_drop (nchars e k) (to_digits _ _ v)) at 1. f_equal.
    replace (quantum e) with (nchars e k + (quantum e - nchars e k))%nat at 1 by lia.
    rewrite to_digits_app by done. rewrite drop_app_length' by (by rewrite length_to_digits).
    apply to_digits_zeros; [done|]. unfold v, zeros. rewrite from_digits_zeros by lia.
    rewrite Hq, Z.mul_assoc. apply Z.mod_mul.
    pose proof (Z.pow_pos_nonneg (radix e) (Z.of_nat (quantum e - nchars e k))). lia. }
  rewrite mapM_index.
  2: apply (ok_nodup e Hok).
  2: rewrite <-Hr; apply Forall_take, to_digits_range; done.
  simpl. rewrite Hnb. simpl. rewrite <-Hsplit.
  rewrite from_to_digits by (done || rewrite <-(ok_size e Hok); done).
  rewrite Hback.
  rewrite drop_app_length' by (by rewrite length_fmap). rewrite take_app_length' by (by rewrite length_fmap).
  assert (forallb (fun z => z =? 0) (zeros (block e - k)) = true) as ->.
  { apply forallb_forall. intros z Hz%list_elem_of_In. unfold zeros in Hz.
    apply elem_of_replicate in Hz as [-> _]. done. }
  rewrite andb_false_r. f_equal. rewrite <-list_fmap_compose.
  rewrite <-(list_fmap_id c) at 2. apply list_fmap_ext. intros i x _. apply chr_code.
Qed.

Lemma DecodeRaw_fuel n m (l : bytes) :
  (length l <= n)%nat -> (length l <= m)%nat -> blocks n (quantum e) l = blocks m (quantum e) l.
Proof using Hok.
  pose proof (ok_block e Hok). revert m l.
  induction n as [|n IH]; intros m [|a l] Hn Hm; destruct m as [|m]; simpl in *; try done; try lia.
  f_equal. apply IH; rewrite length_drop; simpl; lia.
Qed.

Lemma blocks_app (b l : bytes) : length b = quantum e ->
  blocks (length (b ++ l)) (quantum e) (b ++ l) = b :: blocks (length l) (quantum e) l.
Proof using Hok.
  pose proof (ok_block e Hok). intros Hb. destruct b as [|a b]; [simpl in Hb; lia|].
  simpl. change (a :: b ++ l) with ((a :: b) ++ l).
  rewrite take_app_length', drop_app_length' by done. f_equal.
  apply DecodeRaw_fuel; rewrite ?length_app; lia.
Qed.

Lemma decode_encode_raw (l : bytes) : DecodeRaw e (EncodeRaw e l) = Some l.
Proof using Hok.
  pose proof (ok_block e Hok) as [Hb Hq]. unfold EncodeRaw.
  assert (forall n (l : bytes), (length l <= n)%nat ->
    DecodeRaw e (mjoin (encode_block e <$> blocks n (block e) l)) = Some l) as Hgen; [|by apply Hgen].
  clear l. induction n as [|n IH]; intros [|a l] Hn; simpl in Hn; try done; try lia.
  cbn [blocks]. set (c := take (block e) (a :: l)). set (r := drop (block e) (a :: l)).
  assert (length c <= block e)%nat by (unfold c; rewrite length_take; lia).
  assert (0 < length c)%nat by (unfold c; rewrite length_take; simpl; lia).
  assert (a :: l = c ++ r) as -> by (unfold c, r; by rewrite take_drop).
  specialize (IH r ltac:(unfold r; rewrite length_drop; simpl; lia)).
  cbn [fmap list_fmap mjoin list_join].
  destruct (decide (length c = block e)) as [Hfull|Hpart].
  - unfold DecodeRaw in *. rewrite blocks_app by (rewrite length_encode_block, Hfull by lia; apply ok_full, Hok).
    simpl. rewrite decode_encode_block by lia. simpl.
    destruct (mapM (decode_block e) _) as [ps|]; simpl in *; [|done]. injection IH as IH. by rewrite IH.
  - assert (r = []) as Hr.
    { unfold r, c in *. rewrite length_take in *. apply nil_length_inv. rewrite length_drop. lia. }
    rewrite Hr. assert (blocks n (block e) ([] : bytes) = []) as -> by (by destruct n).
    simpl. rewrite !app_nil_r. unfold DecodeRaw.
    assert (0 < length (encode_block e c) <= quantum e)%nat as Hl.
    { rewrite length_encode_block by lia. apply (ok_chars e Hok); lia. }
    destruct (encode_block e c) as [|x xs] eqn:E; [simpl in Hl; lia|]. cbn [length blocks].
    rewrite take_ge by (simpl in *; lia). rewrite drop_ge by (simpl in *; lia).
    assert (blocks (length xs) (quantum e) ([] : bytes) = []) as -> by (by destruct (length xs)).
    rewrite <-E. simpl. rewrite decode_encode_block by lia. simpl. by rewrite app_nil_r.
Qed.

(** Encoded text only uses the characters of the alphabet. *)
Lemma EncodeRaw_alphabet l : Forall (fun a => a ∈ alphabet e) (EncodeRaw e l).
Proof using Hok.
  unfold EncodeRaw. apply Forall_join, Forall_fmap, Forall_true. intros c. simpl.
  apply Forall_fmap. destruct (ok_radix e Hok) as [Hr Hr'].
  eapply Forall_impl; [by apply Forall_take, to_digits_range|].
  intros d Hd. simpl. apply enc_char_elem. by rewrite <-Hr.
Qed.

Lemma EncodeRaw_clean l : Forall not_newline (EncodeRaw e l).
Proof using Hok.
  eapply Forall_impl; [apply EncodeRaw_alphabet|]. intros a Ha.
  pose proof (ok_clean e Hok) as Hcl. rewrite Forall_forall in Hcl. by apply Hcl.
Qed.
End roundtrip.

(** Raw (unpadded) encodings: [DecodeString(EncodeToString(b)) = b]. *)
Lemma decode_encode_string e l :
  encoding_ok e -> padded e = false -> DecodeString e (EncodeToString e l) = Some l.
Proof.
  intros Hok Hp. unfold DecodeString, EncodeToString. rewrite Hp, bytes_of_string_of.
  rewrite filter_all; [by apply decode_encode_raw|].
  apply EncodeRaw_clean, Hok.
Qed.

Ltac solve_encoding_ok :=
  constructor;
  [ apply (bool_decide_unpack _); vm_compute; exact I
  | vm_compute; split; reflexivity
  | vm_compute; reflexivity
  | cbn; lia
  | reflexivity
  | cbn; intros k Hk; destruct k as [|[|[|[|[|[|k]]]]]]; try lia;
      (split; [cbn; lia | split; [reflexivity | vm_compute; reflexivity]])
  | apply (bool_decide_unpack _); vm_compute; exact I ].

Lemma RawURLEncoding_ok : encoding_ok RawURLEncoding.
Proof. solve_encoding_ok. Qed.
Lemma RawStdEncodingStrict_ok : encoding_ok RawStdEncodingStrict.
Proof. solve_encoding_ok. Qed.
Lemma RawStdEncoding_ok : encoding_ok RawStdEncoding.
Proof. solve_encoding_ok. Qed.
Lemma base32NoPadding_ok : encoding_ok base32NoPadding.
Proof. solve_encoding_ok. Qed.

#[export] Hint Resolve RawURLEncoding_ok RawStdEncodingStrict_ok RawStdEncoding_ok base32NoPadding_ok : identity.
