(* ===== verification/Digest.v ===== *)
(** * Message digests

    [crypto/sha1], [crypto/sha256] and [crypto/hmac], executable on byte
    lists.  They are concrete so that the one-time-password code can be run
    on the published test vectors; no proof depends on their bodies, and they
    are opaque to tactics after this file. *)

From S2P Require Import Prelude.
From S2P Require Import GoStrings.
From S2P Require Import Encoding.
From Stdlib Require Import Ascii.
Open Scope Z_scope.

Definition mask32 : Z := 0xFFFFFFFF.
Definition add32 (a b : Z) : Z := Z.land (a + b) mask32.
Definition rotl (n x : Z) : Z := Z.land (Z.lor (Z.shiftl x n) (Z.shiftr x (32 - n))) mask32.
Definition rotr (n x : Z) : Z := rotl (32 - n) x.
Definition not32 (x : Z) : Z := Z.lxor x mask32.

(** Big-endian bytes of a number. *)
Definition be_bytes (n : nat) (v : Z) : bytes := chr <$> to_digits 256 n v.
Definition be_value (l : bytes) : Z := from_digits 256 (code <$> l).

(** Merkle-Damgard padding for 64-byte blocks and a 64-bit length. *)
Definition md_pad (l : bytes) : bytes :=
  let n := length l in
  l ++ [chr 0x80] ++ replicate ((119 - n mod 64) mod 64) (chr 0) ++ be_bytes 8 (8 * Z.of_nat n).

Definition words (blk : bytes) : list Z := be_value <$> blocks (length blk) 4 blk.

Definition nthZ (l : list Z) (i : nat) : Z := nth i l 0.

(** ** SHA-1 *)
Definition sha1_word (w : list Z) (t : nat) : Z :=
  rotl 1 (Z.lxor (Z.lxor (nthZ w (t - 3)) (nthZ w (t - 8))) (Z.lxor (nthZ w (t - 14)) (nthZ w (t - 16)))).
Definition sha1_schedule (w : list Z) : list Z :=
  foldl (fun w t => w ++ [sha1_word w t]) w (seq 16 64).

Definition sha1_f (t : nat) (b c d : Z) : Z :=
  if Nat.ltb t 20 then Z.lxor d (Z.land b (Z.lxor c d))
  else if Nat.ltb t 40 then Z.lxor b (Z.lxor c d)
  else if Nat.ltb t 60 then Z.lor (Z.land b c) (Z.land d (Z.lor b c))
  else Z.lxor b (Z.lxor c d).
Definition sha1_k (t : nat) : Z :=
  if Nat.ltb t 20 then 0x5A827999 else if Nat.ltb t 40 then 0x6ED9EBA1
  else if Nat.ltb t 60 then 0x8F1BBCDC else 0xCA62C1D6.

Definition sha1_round (s : Z * Z * Z * Z * Z) (tw : nat * Z) : Z * Z * Z * Z * Z :=
  let '(a, b, c, d, e) := s in
  let '(t, w) := tw in
  let tmp := add32 (add32 (add32 (rotl 5 a) (sha1_f t b c d)) (add32 e w)) (sha1_k t) in
  (tmp, a, rotl 30 b, c, d).

Definition sha1_block (h : Z * Z * Z * Z * Z) (blk : bytes) : Z * Z * Z * Z * Z :=
  let w := sha1_schedule (words blk) in
  let '(a, b, c, d, e) := foldl sha1_round h (zip (seq 0 80) w) in
  let '(h0, h1, h2, h3, h4) := h in
  (add32 h0 a, add32 h1 b, add32 h2 c, add32 h3 d, add32 h4 e).

Definition sha1 (l : bytes) : bytes :=
  let p := md_pad l in
  let '(a, b, c, d, e) :=
    foldl sha1_block (0x67452301, 0xEFCDAB89, 0x98BADCFE, 0x10325476, 0xC3D2E1F0)
      (blocks (length p) 64 p) in
  be_bytes 4 a ++ be_bytes 4 b ++ be_bytes 4 c ++ be_bytes 4 d ++ be_bytes 4 e.

(** ** SHA-256

    The standard defines the round constants as the first 32 bits of the
    fractional parts of the cube roots of the first 64 primes, and the initial
    state by the square roots of the first eight; they are computed here from
    that definition. *)
Definition is_prime (n : Z) : bool :=
  forallb (fun d => negb (n mod d =? 0)) (seqZ 2 (Z.sqrt n - 1)).
Definition primes : list Z := List.filter is_prime (seqZ 2 310).

(** Integer cube root by bits, from bit [n - 1] down. *)
Fixpoint cbrt_bits (n : nat) (x r : Z) : Z :=
  match n with
  | O => r
  | S k => let r' := r + 2 ^ Z.of_nat k in
           cbrt_bits k x (if r' * r' * r' <=? x then r' else r)
  end.

Definition sha256_k : list Z :=
  Eval vm_compute in ((fun p => Z.land (cbrt_bits 36 (p * 2 ^ 96) 0) mask32) <$> primes).

Definition sha256_word (w : list Z) (t : nat) : Z :=
  let x := nthZ w (t - 15) in
  let y := nthZ w (t - 2) in
  let s0 := Z.lxor (Z.lxor (rotr 7 x) (rotr 18 x)) (Z.shiftr x 3) in
  let s1 := Z.lxor (Z.lxor (rotr 17 y) (rotr 19 y)) (Z.shiftr y 10) in
  add32 (add32 (nthZ w (t - 16)) s0) (add32 (nthZ w (t - 7)) s1).
Definition sha256_schedule (w : list Z) : list Z :=
  foldl (fun w t => w ++ [sha256_word w t]) w (seq 16 48).

Definition sha256_round (s : list Z) (kw : Z * Z) : list Z :=
  match s with
  | [a; b; c; d; e; f; g; h] =>
      let '(k, w) := kw in
      let s1 := Z.lxor (Z.lxor (rotr 6 e) (rotr 11 e)) (rotr 25 e) in
      let ch := Z.lxor (Z.land e f) (Z.land (not32 e) g) in
      let t1 := add32 (add32 (add32 h s1) (add32 ch k)) w in
      let s0 := Z.lxor (Z.lxor (rotr 2 a) (rotr 13 a)) (rotr 22 a) in
      let maj := Z.lxor (Z.lxor (Z.land a b) (Z.land a c)) (Z.land b c) in
      let t2 := add32 s0 maj in
      [add32 t1 t2; a; b; c; add32 d t1; e; f; g]
  | _ => s
  end.

Definition sha256_block (h : list Z) (blk : bytes) : list Z :=
  zip_with add32 h (foldl sha256_round h (zip sha256_k (sha256_schedule (words blk)))).

Definition sha256_init : list Z :=
  Eval vm_compute in ((fun p => Z.land (Z.sqrt (p * 2 ^ 64)) mask32) <$> take 8 primes).

(** [sha256.Sum256]. *)
Definition sha256 (l : bytes) : bytes :=
  let p := md_pad l in
  mjoin (be_bytes 4 <$> foldl sha256_block sha256_init (blocks (length p) 64 p)).

(** ** HMAC *)
Definition xor_bytes (k : bytes) (z : Z) : bytes := (fun a => chr (Z.lxor (code a) z)) <$> k.

Definition hmac (h : bytes -> bytes) (key msg : bytes) : bytes :=
  let k := if Nat.ltb 64 (length key) then h key else key in
  let k := k ++ replicate (64 - length k) (chr 0) in
  h (xor_bytes k 0x5c ++ h (xor_bytes k 0x36 ++ msg)).

Lemma length_be_bytes n v : length (be_bytes n v) = n.
Proof. unfold be_bytes. by rewrite length_fmap, length_to_digits. Qed.

Lemma length_sha1 l : length (sha1 l) = 20%nat.
Proof.
  unfold sha1. destruct (foldl _ _ _) as [[[[a b] c] d] e].
  by rewrite !length_app, !length_be_bytes.
Qed.

Lemma length_hmac_sha1 k m : length (hmac sha1 k m) = 20%nat.
Proof. apply length_sha1. Qed.

Lemma length_sha256_rounds s kws : length s = 8%nat -> length (foldl sha256_round s kws) = 8%nat.
Proof.
  revert s. induction kws as [|[k w] kws IH]; intros s Hs; simpl; [done|]. apply IH.
  by destruct s as [|? [|? [|? [|? [|? [|? [|? [|? []]]]]]]]].
Qed.

Lemma length_sha256_blocks h bs : length h = 8%nat -> length (foldl sha256_block h bs) = 8%nat.
Proof.
  revert h. induction bs as [|b bs IH]; intros h Hh; simpl; [done|]. apply IH.
  unfold sha256_block. rewrite length_zip_with, length_sha256_rounds by done. lia.
Qed.

Lemma length_sha256 l : length (sha256 l) = 32%nat.
Proof.
  unfold sha256.
  assert (forall zs, length (mjoin (be_bytes 4 <$> zs)) = (4 * length zs)%nat) as Hj.
  { induction zs as [|z zs IH]; [done|]. change (mjoin (be_bytes 4 <$> z :: zs)) with (be_bytes 4 z ++ mjoin (be_bytes 4 <$> zs)).
    rewrite length_app, length_be_bytes, IH. simpl. lia. }
  rewrite Hj, length_sha256_blocks; done.
Qed.

Lemma length_hmac_sha256 k m : length (hmac sha256 k m) = 32%nat.
Proof. apply length_sha256. Qed.

(** ** Published test vectors *)
Example sha1_abc : hex (sha1 (bytes_of "abc")) = "a9993e364706816aba3e25717850c26c9cd0d89d".
Proof. vm_compute. reflexivity. Qed.

Example sha256_abc : hex (sha256 (bytes_of "abc")) =
  "ba7816bf8f01cfea414140de5dae2223b00361a396177a9cb410ff61f20015ad".
Proof. vm_compute. reflexivity. Qed.

Example hmac_sha256_rfc4231_2 :
  hex (hmac sha256 (bytes_of "Jefe") (bytes_of "what do ya want for nothing?")) =
  "5bdcc146bf60754e6a042426089575c75a003f089d2739839dec58b964ec3843".
Proof. vm_compute. reflexivity. Qed.

#[global] Opaque sha1 sha256 hmac.
