(* ===== verification/Table.v ===== *)
(** * SQL tables

    A table is a finite map from its primary key to its rows.  The
    statements of the repositories are instances of the operations of this
    file: [UPDATE .. SET .. WHERE ..] with the number of affected rows,
    [DELETE .. WHERE ..], [INSERT] with primary-key and [UNIQUE] checks,
    [SELECT] of one row and [SELECT .. ORDER BY .. LIMIT .. OFFSET ..]. *)

From S2P Require Import Prelude.
Open Scope Z_scope.

Section table.
Context {A : Type}.
Implicit Types (t : gmap string A) (r : A).

Section where_clause.
Context (p : A -> Prop) `{Hp : !forall r, Decision (p r)}.

(** Rows selected by the [WHERE] clause. *)
Definition sql_where t : gmap string A := filter (fun kr => p kr.2) t.

Definition sql_count t : Z := Z.of_nat (size (sql_where t)).

(** [UPDATE t SET f WHERE p]: [f] fails on a value that is out of range
    for its column, and then the statement fails as a whole. *)
Definition update_row (f : A -> option A) r : option A :=
  if decide (p r) then f r else Some r.

Definition sql_update (f : A -> option A) t : option (gmap string A * Z) :=
  if decide (map_Forall (fun _ r => is_Some (update_row f r)) t)
  then Some (omap (update_row f) t, sql_count t)
  else None.

(** [DELETE FROM t WHERE p]. *)
Definition sql_delete t : gmap string A * Z :=
  (filter (fun kr => ~ p kr.2) t, sql_count t).

(** All rows selected, in the map's order. *)
Definition sql_rows t : list A := snd <$> map_to_list (sql_where t).

(** One row, as [sqlx.Get] returns it: the first one the server sends,
    the choice [n] among several being the server's. *)
Definition sql_get (n : nat) t : option A :=
  sql_rows t !! (n mod length (sql_rows t))%nat.

Lemma sql_where_lookup t k r : sql_where t !! k = Some r <-> t !! k = Some r /\ p r.
Proof. unfold sql_where. by rewrite map_lookup_filter_Some. Qed.

Lemma elem_of_sql_rows t r : r ∈ sql_rows t <-> exists k, t !! k = Some r /\ p r.
Proof.
  unfold sql_rows. rewrite list_elem_of_fmap. split.
  - intros ([k r'] & -> & H%elem_of_map_to_list). exists k. by apply sql_where_lookup.
  - intros (k & H). exists (k, r). split; [done|]. apply elem_of_map_to_list. by apply sql_where_lookup.
Qed.

Lemma sql_get_Some n t r : sql_get n t = Some r -> exists k, t !! k = Some r /\ p r.
Proof. intros H%list_elem_of_lookup_2. by apply elem_of_sql_rows. Qed.

Lemma sql_get_None n t k r : sql_get n t = None -> t !! k = Some r -> ~ p r.
Proof.
  intros H Hk Hr. unfold sql_get in H.
  assert (r ∈ sql_rows t) as Hin by (apply elem_of_sql_rows; eauto).
  apply lookup_ge_None in H. destruct (sql_rows t) as [|x l]; [by apply elem_of_nil in Hin|].
  pose proof (Nat.mod_upper_bound n (length (x :: l))). simpl in *. lia.
Qed.

(** A condition that at most one row satisfies selects that row. *)
Lemma sql_get_unique n t k r :
  t !! k = Some r -> p r -> (forall k' r', t !! k' = Some r' -> p r' -> r' = r) ->
  sql_get n t = Some r.
Proof.
  intros Hk Hr Hu. destruct (sql_get n t) as [r'|] eqn:E.
  - apply sql_get_Some in E as (k' & Hk' & Hr'). by rewrite (Hu k' r').
  - exfalso. by eapply sql_get_None.
Qed.

Lemma sql_get_absent n t : (forall k r, t !! k = Some r -> ~ p r) -> sql_get n t = None.
Proof.
  intros H. destruct (sql_get n t) as [r|] eqn:E; [|done].
  apply sql_get_Some in E as (k & Hk & Hr). exfalso. by eapply H.
Qed.

(** A lookup in the updated table. *)
Lemma sql_update_lookup f t t' n k :
  sql_update f t = Some (t', n) -> t' !! k = t !! k ≫= update_row f.
Proof. unfold sql_update. case_decide; [|done]. intros [= <- _]. by rewrite lookup_omap. Qed.

Lemma sql_update_count f t t' n : sql_update f t = Some (t', n) -> n = sql_count t.
Proof. unfold sql_update. case_decide; [|done]. by intros [= _ <-]. Qed.

(** Every row survives an update, changed exactly when it is selected. *)
Lemma sql_update_forward f t t' n k r :
  sql_update f t = Some (t', n) -> t !! k = Some r ->
  exists r', t' !! k = Some r' /\ update_row f r = Some r'.
Proof.
  intros Hu Hk. rewrite (sql_update_lookup _ _ _ _ k Hu), Hk. simpl.
  unfold sql_update in Hu. case_decide as HF; [|done].
  destruct (HF k r Hk) as [r' Hr']. eauto.
Qed.

Lemma sql_update_backward f t t' n k r' :
  sql_update f t = Some (t', n) -> t' !! k = Some r' ->
  exists r, t !! k = Some r /\ update_row f r = Some r'.
Proof.
  intros Hu Hk'. rewrite (sql_update_lookup _ _ _ _ k Hu) in Hk'.
  apply bind_Some in Hk' as (r & Hr & Hur). eauto.
Qed.

Lemma sql_update_miss f t t' n k r :
  sql_update f t = Some (t', n) -> t !! k = Some r -> ~ p r -> t' !! k = Some r.
Proof.
  intros Hu Hk Hp'. rewrite (sql_update_lookup _ _ _ _ k Hu), Hk. simpl.
  unfold update_row. by rewrite decide_False.
Qed.

Lemma sql_update_hit f t t' n k r :
  sql_update f t = Some (t', n) -> t !! k = Some r -> p r ->
  exists r', f r = Some r' /\ t' !! k = Some r'.
Proof.
  intros Hu Hk Hp'. destruct (sql_update_forward _ _ _ _ _ _ Hu Hk) as (r' & Hk' & H).
  unfold update_row in H. rewrite decide_True in H by done. eauto.
Qed.

Lemma sql_update_None_key f t t' n k :
  sql_update f t = Some (t', n) -> t !! k = None <-> t' !! k = None.
Proof.
  intros Hu. split; intros H.
  - by rewrite (sql_update_lookup _ _ _ _ k Hu), H.
  - destruct (t !! k) as [r|] eqn:E; [|done].
    destruct (sql_update_forward _ _ _ _ _ _ Hu E) as (r' & Hr' & _). congruence.
Qed.

Lemma sql_count_pos t : 0 < sql_count t <-> exists k r, t !! k = Some r /\ p r.
Proof.
  unfold sql_count. split.
  - intros H. assert (sql_where t <> ∅) as Hne.
    { intros E. rewrite E, map_size_empty in H. lia. }
    apply map_choose in Hne as (k & r & Hk%sql_where_lookup). eauto.
  - intros (k & r & Hk). assert (sql_where t <> ∅) as Hne.
    { intros E. apply sql_where_lookup in Hk. by rewrite E, lookup_empty in Hk. }
    apply map_size_non_empty_iff in Hne. lia.
Qed.

Lemma sql_count_zero t : sql_count t = 0 <-> forall k r, t !! k = Some r -> ~ p r.
Proof.
  split.
  - intros H0 k r Hk Hr. assert (0 < sql_count t); [|lia]. apply sql_count_pos. eauto.
  - intros H. destruct (decide (sql_count t = 0)); [done|].
    assert (0 < sql_count t) as (k & r & Hk & Hr)%sql_count_pos.
    { unfold sql_count in *. lia. } exfalso. by eapply H.
Qed.

(** An update that selects no row leaves the table as it is. *)
Lemma sql_update_zero f t t' :
  sql_update f t = Some (t', 0) -> t' = t.
Proof.
  intros Hu. pose proof (sql_update_count _ _ _ _ Hu) as Hc. symmetry in Hc.
  rewrite sql_count_zero in Hc. apply map_eq. intros k.
  destruct (t !! k) as [r|] eqn:E.
  - eapply sql_update_miss; eauto.
  - by apply (sql_update_None_key _ _ _ _ k Hu).
Qed.

Lemma sql_delete_lookup t k :
  (sql_delete t).1 !! k = r ← t !! k; if decide (p r) then None else Some r.
Proof.
  unfold sql_delete. simpl. rewrite map_lookup_filter.
  destruct (t !! k) as [r|]; simpl; [|done].
  repeat case_guard; repeat case_decide; simpl; try done.
Qed.
End where_clause.

(** A condition that implies another one selects no more rows. *)
Lemma sql_count_mono (p q : A -> Prop) `{!forall r, Decision (p r), !forall r, Decision (q r)} t :
  (forall k r, t !! k = Some r -> p r -> q r) -> sql_count p t <= sql_count q t.
Proof.
  intros Hpq. unfold sql_count. apply inj_le, map_subseteq_size.
  apply map_subseteq_spec. intros k r [Hk Hr]%sql_where_lookup. apply sql_where_lookup. eauto.
Qed.

Lemma sql_count_proper (p q : A -> Prop) `{!forall r, Decision (p r), !forall r, Decision (q r)} t :
  (forall k r, t !! k = Some r -> p r <-> q r) -> sql_count p t = sql_count q t.
Proof.
  intros Hpq. apply Z.le_antisymm; apply sql_count_mono; intros k r Hk; by apply (Hpq k r Hk).
Qed.

(** ** Constraints *)

(** Two rows never agree on a [UNIQUE] column. *)
Definition unique_on {K} (f : A -> K) t : Prop :=
  forall k1 k2 r1 r2, t !! k1 = Some r1 -> t !! k2 = Some r2 -> f r1 = f r2 -> k1 = k2.

(** Rows are stored under their primary key. *)
Definition keyed_by (key : A -> string) t : Prop :=
  forall k r, t !! k = Some r -> key r = k.

(** Some row of [t] agrees with [r] on the column [f]. *)
Definition clash {K} (f : A -> K) r t : Prop := map_Exists (fun _ r' => f r' = f r) t.
#[global] Instance clash_dec {K} `{!EqDecision K} (f : A -> K) r t : Decision (clash f r t).
Proof. unfold clash. apply _. Defined.

Lemma unique_on_insert {K} (f : A -> K) t k r :
  unique_on f t -> t !! k = None -> ~ clash f r t -> unique_on f (<[k := r]> t).
Proof.
  intros Hu Hk Hc k1 k2 r1 r2 H1 H2 Hf.
  rewrite lookup_insert_Some in H1. rewrite lookup_insert_Some in H2.
  destruct H1 as [[<- <-]|[H1 H1']], H2 as [[<- <-]|[H2 H2']]; [done|..|eauto].
  - exfalso. apply Hc. exists k2, r2. by split.
  - exfalso. apply Hc. exists k1, r1. by split.
Qed.

Lemma keyed_by_insert key t k r : keyed_by key t -> key r = k -> keyed_by key (<[k := r]> t).
Proof.
  intros Hk Hr k' r' [[<- <-]|[_ H]]%lookup_insert_Some; [done|]. by apply Hk.
Qed.

(** An update that keeps a column keeps what it is unique on. *)
Lemma unique_on_update {K} (g : A -> K) (p : A -> Prop) `{Hdec : !forall r, Decision (p r)} f t t' n :
  (forall r r', p r -> f r = Some r' -> g r' = g r) ->
  sql_update p f t = Some (t', n) -> unique_on g t -> unique_on g t'.
Proof.
  intros Hf Hu Hun k1 k2 r1 r2 H1 H2 Hg.
  destruct (sql_update_backward _ _ _ _ _ _ _ Hu H1) as (s1 & Hs1 & E1).
  destruct (sql_update_backward _ _ _ _ _ _ _ Hu H2) as (s2 & Hs2 & E2).
  assert (forall r r', update_row p f r = Some r' -> g r' = g r) as Hfr.
  { intros r r'. unfold update_row. case_decide; [by apply Hf|]. by intros [= ->]. }
  apply (Hun k1 k2 s1 s2); [done|done|]. by rewrite <-(Hfr _ _ E1), <-(Hfr _ _ E2).
Qed.

Lemma keyed_by_update key (p : A -> Prop) `{Hdec : !forall r, Decision (p r)} f t t' n :
  (forall r r', p r -> f r = Some r' -> key r' = key r) ->
  sql_update p f t = Some (t', n) -> keyed_by key t -> keyed_by key t'.
Proof.
  intros Hf Hu Hk k r H. destruct (sql_update_backward _ _ _ _ _ _ _ Hu H) as (s & Hs & E).
  rewrite <-(Hk k s Hs). unfold update_row in E. case_decide; [by apply Hf|]. by simplify_eq.
Qed.

Lemma unique_on_subset {K} (g : A -> K) t t' : t' ⊆ t -> unique_on g t -> unique_on g t'.
Proof.
  intros Hs Hu k1 k2 r1 r2 H1 H2. eapply Hu; by eapply lookup_weaken.
Qed.

Lemma keyed_by_subset key t t' : t' ⊆ t -> keyed_by key t -> keyed_by key t'.
Proof. intros Hs Hk k r H. apply Hk. by eapply lookup_weaken. Qed.

Lemma sql_delete_subset (p : A -> Prop) `{Hdec : !forall r, Decision (p r)} t : (sql_delete p t).1 ⊆ t.
Proof. apply map_filter_subseteq. Qed.

(** Selecting by primary key. *)
Lemma sql_get_key key (p : A -> Prop) `{Hdec : !forall r, Decision (p r)} n t k r :
  keyed_by key t -> (forall r, p r -> key r = k) ->
  sql_get p n t = Some r -> t !! k = Some r /\ p r.
Proof.
  intros Hk Hp (k' & Hk' & Hr)%sql_get_Some. rewrite <-(Hp r Hr), (Hk k' r Hk'). done.
Qed.

Lemma sql_get_key_intro key (p : A -> Prop) `{Hdec : !forall r, Decision (p r)} n t k r :
  keyed_by key t -> (forall r, p r -> key r = k) ->
  t !! k = Some r -> p r -> sql_get p n t = Some r.
Proof.
  intros Hk Hp Hr Hpr. eapply sql_get_unique; [done|done|].
  intros k' r' Hk' Hpr'. pose proof (Hk k' r' Hk'). rewrite (Hp r' Hpr') in *. congruence.
Qed.

(** An update whose condition fixes the primary key changes one row. *)
Lemma sql_update_key key (p : A -> Prop) `{Hdec : !forall r, Decision (p r)} f t t' n k r :
  keyed_by key t -> (forall r, p r -> key r = k) ->
  sql_update p f t = Some (t', n) -> t !! k = Some r -> p r ->
  exists r', f r = Some r' /\ t' = <[k := r']> t /\ n = 1.
Proof.
  intros Hk Hp Hu Hr Hpr. destruct (sql_update_hit _ _ _ _ _ _ _ Hu Hr Hpr) as (r' & Hf & Hr').
  exists r'. split_and!; [done| |].
  - apply map_eq. intros k'. destruct (decide (k' = k)) as [->|Hne].
    + by rewrite lookup_insert_eq.
    + rewrite lookup_insert_ne by done. destruct (t !! k') as [s|] eqn:E.
      * eapply sql_update_miss; [done..|]. intros Hs. apply Hne. rewrite <-(Hp s Hs). symmetry. by apply Hk.
      * by apply (sql_update_None_key _ _ _ _ _ k' Hu).
  - rewrite (sql_update_count _ _ _ _ _ Hu). unfold sql_count.
    replace (sql_where p t) with ({[k := r]} : gmap string A); [by rewrite map_size_singleton|].
    apply map_eq. intros k'. symmetry. destruct (decide (k' = k)) as [->|Hne].
    + rewrite lookup_singleton_eq. by apply sql_where_lookup.
    + rewrite lookup_singleton_ne by done. destruct (sql_where p t !! k') as [s|] eqn:E; [|done].
      apply sql_where_lookup in E as [E Hs]. exfalso. apply Hne. rewrite <-(Hp s Hs). symmetry. by apply Hk.
Qed.

(** ** Ordered pages *)
Definition sql_page (R : relation A) `{Hdec : !forall x y, Decision (R x y)} (limit offset : Z) (l : list A)
  : option (list A) :=
  if decide (limit < 0 \/ offset < 0) then None
  else Some (take (Z.to_nat limit) (drop (Z.to_nat offset) (merge_sort R l))).

Lemma sql_page_length (R : relation A) `{Hdec : !forall x y, Decision (R x y)} limit offset l pg :
  sql_page R limit offset l = Some pg -> Z.of_nat (length pg) <= limit.
Proof.
  unfold sql_page. case_decide as H; [done|]. intros [= <-]. rewrite length_take. lia.
Qed.

Lemma sql_page_elem (R : relation A) `{Hdec : !forall x y, Decision (R x y)} limit offset l pg x :
  sql_page R limit offset l = Some pg -> x ∈ pg -> x ∈ l.
Proof.
  unfold sql_page. case_decide as H; [done|]. intros [= <-] Hx.
  rewrite <-(merge_sort_Permutation R l).
  eapply elem_of_submseteq; [exact Hx|]. apply sublist_submseteq.
  etrans; [apply sublist_take | apply sublist_drop].
Qed.
End table.
