(* ===== verification/AppError.v ===== *)
(** * Errors

    Go's [error] values as the service builds and inspects them, the
    application errors of [internal/apperror] and their translation.

    An error is a sentinel compared by identity ([errors.Is]), an error of
    the database driver, a leaf made by [errors.New], a [%w] wrapper or an
    [*apperror.Error].  The numeric application codes come from the
    [errorcode] package of the platform library and are a parameter. *)

From S2P Require Import Prelude.
From S2P Require Import GoStrings.
Open Scope Z_scope.

(** Package-level sentinels the code compares with. *)
Inductive sentinel :=
| ErrNotFound   (** identity resource not found *)
| ErrConflict   (** identity resource conflict *)
| ErrStale      (** identity resource version is stale *)
| ErrNoRows.    (** [sql.ErrNoRows] *)
#[global] Instance sentinel_eq_dec : EqDecision sentinel.
Proof. solve_decision. Defined.

Inductive error :=
| Sentinel (s : sentinel)
| ErrorsNew (msg : string)
| Driver (msg : string)
| Errorf (msg : string) (inner : error)  (** [fmt.Errorf("msg: %w", inner)] *)
| AppErr (code : Z) (message : string) (status : Z) (inner : option error).

Abbreviation Result := (Res error).

Definition sentinel_text (s : sentinel) : string :=
  match s with
  | ErrNotFound => "identity resource not found"
  | ErrConflict => "identity resource conflict"
  | ErrStale => "identity resource version is stale"
  | ErrNoRows => "sql: no rows in result set"
  end.

(** [err.Error()]; an application error shows its cause if it has one. *)
Fixpoint error_text (e : error) : string :=
  match e with
  | Sentinel s => sentinel_text s
  | ErrorsNew m | Driver m => m
  | Errorf m i => m +:+ ": " +:+ error_text i
  | AppErr _ m _ (Some i) => error_text i
  | AppErr _ m _ None => m
  end.

(** [errors.Is(err, s)]; [Unwrap] of an application error is its cause. *)
Fixpoint errors_Is (e : error) (s : sentinel) : bool :=
  match e with
  | Sentinel s' => bool_decide (s' = s)
  | ErrorsNew _ | Driver _ => false
  | Errorf _ i => errors_Is i s
  | AppErr _ _ _ (Some i) => errors_Is i s
  | AppErr _ _ _ None => false
  end.

(** [errors.As(err, &appErr)]. *)
Fixpoint errors_As (e : error) : option (Z * string * Z * option error) :=
  match e with
  | AppErr c m st i => Some (c, m, st, i)
  | Errorf _ i => errors_As i
  | _ => None
  end.

(** ** [internal/apperror] *)

Class ErrorCodes := {
  CodeOK : Z;
  CodeInvalidArgument : Z;
  CodeNotFound : Z;
  CodeRequestTimeout : Z;
  CodeTooManyRequests : Z;
  CodeUnauthorized : Z;
  CodeForbidden : Z;
  CodeConflict : Z;
  CodeRequestInProgress : Z;
  CodeStaleVersion : Z;
  CodeInternal : Z;
  CodeDependencyUnavailable : Z;
}.

Section apperror.
Context `{!ErrorCodes}.

Definition Invalid (message : string) (err : option error) : error := AppErr CodeInvalidArgument message 400 err.
Definition NotFound (message : string) : error := AppErr CodeNotFound message 404 None.
Definition Conflict (message : string) (err : option error) : error := AppErr CodeConflict message 409 err.
Definition StaleVersion (err : error) : error :=
  AppErr CodeStaleVersion "resource version is stale" 409 (Some err).
Definition RequestInProgress : error :=
  AppErr CodeRequestInProgress "request is already processing" 409 None.
Definition Unauthorized (message : string) : error := AppErr CodeUnauthorized message 401 None.
Definition Forbidden (message : string) : error := AppErr CodeForbidden message 403 None.
Definition TooManyRequests : error := AppErr CodeTooManyRequests "too many requests" 429 None.
Definition RequestTimeout : error := AppErr CodeRequestTimeout "request timeout" 504 None.
Definition Unavailable (message : string) (err : option error) : error :=
  AppErr CodeDependencyUnavailable message 503 err.
Definition Internal (err : error) : error :=
  AppErr CodeInternal "internal server error" 500 (Some err).

(** [translateIdentityError] on a non-nil error. *)
Definition translateIdentityError (err : error) : error :=
  if errors_Is err ErrNotFound then NotFound "identity resource not found"
  else if errors_Is err ErrConflict then Conflict "identity resource already exists" (Some err)
  else if errors_Is err ErrStale then StaleVersion err
  else Internal err.

(** ** Error responses of the transports *)

(** The envelope of [transport/http.Fail]: status and (code, message). *)
Definition Fail (err : error) : Z * (Z * string) :=
  match errors_As err with
  | Some (c, m, st, _) => (st, (c, m))
  | None => (500, (CodeInternal, "internal server error"))
  end.

(** gRPC status codes [grpcError] and the interceptors produce. *)
Inductive grpc_code := GInvalidArgument | GNotFound | GAborted | GUnavailable | GInternal | GUnauthenticated.

Definition grpcError (err : error) : grpc_code * string :=
  match errors_As err with
  | None => (GInternal, "internal server error")
  | Some (c, m, _, _) =>
      (if decide (c = CodeInvalidArgument) then GInvalidArgument
       else if decide (c = CodeNotFound) then GNotFound
       else if decide (c = CodeConflict) then GAborted
       else if decide (c = CodeDependencyUnavailable) then GUnavailable
       else GInternal, m)
  end.
End apperror.

(** The translation yields one of four application errors, whose client
    message never contains the text of the underlying failure. *)
Lemma translateIdentityError_cases `{!ErrorCodes} e :
  Fail (translateIdentityError e) ∈
    [(404, (CodeNotFound, "identity resource not found"));
     (409, (CodeConflict, "identity resource already exists"));
     (409, (CodeStaleVersion, "resource version is stale"));
     (500, (CodeInternal, "internal server error"))].
Proof.
  unfold translateIdentityError.
  destruct (errors_Is e ErrNotFound), (errors_Is e ErrConflict), (errors_Is e ErrStale); set_solver.
Qed.
