(* ===== verification/Platform.v ===== *)
(** * The platform library and other code outside the repository

    The service is built on [microservice-platform-go] (authenticated
    principals, audit columns, event envelopes), on the Argon2 and JWT
    libraries and on a SQL server.  None of them is part of the sources:
    their functions are parameters, grouped in one class each, and what the
    service relies on is stated in a class of laws next to it. *)

From S2P Require Import Prelude.
From S2P Require Import GoStrings.
From S2P Require Import AppError.
Open Scope Z_scope.

(** ** [principal], [audit], [eventbus] *)

Record Principal := mkPrincipal {
  PID : string;
  PType : string;
  PTenantID : string;
  PMembershipID : string;
  PSessionID : string;
}.

(** [audit.Fields], the five columns every table carries. *)
Record Fields := mkFields {
  Version : Z;
  CreatedAt : Z;
  UpdatedAt : Z;
  CreatedBy : string;
  UpdatedBy : string;
}.

(** [eventbus.Metadata]. *)
Record Metadata := mkMetadata {
  EventID : string;
  EventType : string;
  AggregateID : string;
  AggregateType : string;
  SchemaVersion : Z;
  ActorID : string;
  ActorType : string;
  OccurredAt : Z;
}.

(** The protobuf payloads the service publishes, with the fields it sets. *)
Inductive Payload :=
| UserCreatedEvent (id username display_name email phone status : string) (f : Fields)
| UserProfileUpdatedEvent (id username display_name email phone status : string) (f : Fields) (reason : string)
| UserStatusChangedEvent (user_id previous current reason : string)
| SessionRevokedEvent (session_id user_id tenant_id reason : string)
| PasswordChangedEvent (user_id : string) (revoked : Z) (change_type reason : string)
| MFAStatusChangedEvent (user_id : string) (enabled : bool) (codes_remaining : Z) (change_type reason : string)
| ServiceAccountStatusChangedEvent (id previous current reason : string)
| ServiceAccountSecretRotatedEvent (id : string) (version : Z).

Class Platform := {
  Ctx : Type;
  principal_Require : Ctx -> Result Principal;
  principal_SystemContext : Ctx -> string -> Ctx;
  TypeUser : string;
  TypeServiceAccount : string;
  TypeSystem : string;
  audit_New : Ctx -> Z -> Result Fields;
  (** [eventbus.NewEnvelope] followed by [proto.Marshal]. *)
  marshal_envelope : Metadata -> Payload -> Result bytes;
}.

(** Documented behaviour of the platform library. *)
Class PlatformLaws `{!Platform} := {
  require_system c id :
    exists p, principal_Require (principal_SystemContext c id) = Ok p /\ PID p = id /\ PType p = TypeSystem;
  audit_New_ok c t p : principal_Require c = Ok p -> audit_New c t = Ok (mkFields 1 t t (PID p) (PID p));
  audit_New_err c t e : principal_Require c = Err e -> exists e', audit_New c t = Err e';
  types_differ : TypeUser <> TypeServiceAccount /\ TypeUser <> TypeSystem;
}.

(** ** The SQL server *)

Inductive constraint_kind := UniqueViolation | ForeignKeyViolation | CheckViolation | OutOfRange | NegativeLimit.

Class SQLServer := {
  (** The collation-dependent function [LOWER]. *)
  sql_lower : string -> string;
  (** The message of a constraint failure. *)
  violation_text : constraint_kind -> string;
  (** [value LIKE pattern]. *)
  sql_like : string -> string -> bool;
  (** The order of [ORDER BY] on a text column. *)
  sql_text_le : string -> string -> bool;
  (** The order in which the rows of an unordered [SELECT] arrive; the number
      is the server's choice. *)
  sql_arrange : forall A, nat -> list A -> list A;
}.

(** The text of a uniqueness failure mentions it, on every supported server
    ("duplicate key value violates unique constraint", "Duplicate entry"). *)
Class SQLServerLaws `{!SQLServer, !UnicodeCase} := {
  unique_text : Contains (ToLower (violation_text UniqueViolation)) "duplicate" = true
                \/ Contains (ToLower (violation_text UniqueViolation)) "unique" = true;
  arrange_perm A n (l : list A) : Permutation (sql_arrange A n l) l;
  text_le_total a b : sql_text_le a b = true \/ sql_text_le b a = true;
  text_le_trans a b c : sql_text_le a b = true -> sql_text_le b c = true -> sql_text_le a c = true;
}.

(** ** Argon2id *)

Class Argon2 := {
  (** [argon2.IDKey(password, salt, time, memory, threads, keyLen)]. *)
  argon2_IDKey : bytes -> bytes -> Z -> Z -> Z -> Z -> bytes;
  argon2_Version : Z;
}.

Class Argon2Laws `{!Argon2} := {
  length_IDKey pw salt t m p n : 0 <= n -> Z.of_nat (length (argon2_IDKey pw salt t m p n)) = n;
  version_range : 0 <= argon2_Version <= int64_max;
}.

(** ** JSON arrays of strings

    [json.Marshal] and [json.Unmarshal] at type [[]string]; [None] is the
    nil slice that a JSON [null] decodes to. *)
Class JSONStrings := {
  json_Marshal : list string -> Result string;
  json_Unmarshal : string -> Result (option (list string));
}.
