(* ===== verification/Model.v ===== *)
(** * Data model of the identity domain

    The structures of [internal/identity/model.go] and [mfa.go], one module
    per structure with the source's field names, and the database: one
    finite map per table, keyed by the primary key of the migrations. *)

From S2P Require Import Prelude.
From S2P Require Import GoStrings.
From S2P Require Import AppError.
From S2P Require Import Platform.
From S2P Require Import Table.
Open Scope Z_scope.

Definition StatusActive : string := "active".
Definition StatusDisabled : string := "disabled".
Definition StatusLocked : string := "locked".
Definition StatusClosed : string := "closed".

Definition MFAStatusPending : string := "pending".
Definition MFAStatusEnabled : string := "enabled".
Definition MFAStatusDisabled : string := "disabled".

Module User.
Record t := mk {
  ID : string;
  Username : string;
  DisplayName : string;
  Email : string;
  Phone : string;
  Status : string;
  FailedLoginCount : Z;
  LockedUntil : option Z;
  fields : Fields;
}.
End User.

Module Credential.
Record t := mk {
  ID : string;
  UserID : string;
  Type_ : string;
  SecretHash : string;
  Status : string;
  fields : Fields;
}.
End Credential.

Module Session.
Record t := mk {
  ID : string;
  UserID : string;
  Username : string;
  UserDisplayName : string;
  RefreshTokenHash : string;
  TenantID : string;
  MembershipID : string;
  ExpiresAt : Z;
  RevokedAt : option Z;
  RevokeReason : string;
  LastUsedAt : Z;
  ClientIP : string;
  UserAgent : string;
  fields : Fields;
}.
End Session.

Module PasswordResetChallenge.
Record t := mk {
  TokenHash : string;
  UserID : string;
  Reason : string;
  ExpiresAt : Z;
  ConsumedAt : option Z;
  fields : Fields;
}.
End PasswordResetChallenge.

Module ServiceAccount.
Record t := mk {
  ID : string;
  ClientID : string;
  Name : string;
  SecretHash : string;
  Status : string;
  AudiencesJSON : string;
  Audiences : list string;
  fields : Fields;
}.
End ServiceAccount.

Module OutboxEvent.
Record t := mk {
  ID : string;
  Subject : string;
  Envelope : bytes;
  AvailableAt : Z;
  fields : Fields;
}.
End OutboxEvent.

Module MFAEnrollment.
Record t := mk {
  UserID : string;
  Method : string;
  SecretCiphertext : string;
  Status : string;
  LastUsedStep : Z;
  EnabledAt : option Z;
  fields : Fields;
}.
End MFAEnrollment.

Module MFARecoveryCode.
Record t := mk {
  ID : string;
  UserID : string;
  CodeHash : string;
  ConsumedAt : option Z;
  fields : Fields;
}.
End MFARecoveryCode.

Module MFALoginChallenge.
Record t := mk {
  TokenHash : string;
  UserID : string;
  ClientIP : string;
  UserAgent : string;
  ExpiresAt : Z;
  ConsumedAt : option Z;
  fields : Fields;
}.
End MFALoginChallenge.

(** Values the service returns. *)

Record Tokens := mkTokens {
  AccessToken : string;
  RefreshToken : string;
  TokenType : string;
  TokExpiresAt : Z;
  TokSessionID : string;
}.
Definition no_tokens : Tokens := mkTokens "" "" "" 0 "".

Record SessionClient := mkSessionClient { ClientIP : string; ClientUserAgent : string }.

(** [Page[T]]. *)
Record Page (A : Type) := mkPage { Items : list A; Total : Z; PageNo : Z; PageSize : Z }.
Arguments mkPage {A}.
Arguments Items {A}.
Arguments Total {A}.
Arguments PageNo {A}.
Arguments PageSize {A}.

Record LoginResult := mkLoginResult {
  LoginTokens : Tokens;
  MFARequired : bool;
  MFAChallengeToken : string;
  MFAChallengeExpiry : option Z;
}.

Record MFAStatusView := mkMFAStatus {
  Available : bool;
  Enabled : bool;
  StatusText : string;
  RecoveryCodesRemaining : Z;
  MFAVersion : Z;
  MFAEnabledAt : option Z;
}.

Record MFASetup := mkMFASetup { SetupSecret : string; SetupURI : string; SetupVersion : Z; SetupExpiresAt : Z }.
Record MFAConfirmation := mkMFAConfirmation { ConfCodes : list string; ConfRevoked : Z; ConfVersion : Z }.
Record MFARecoveryRotation := mkMFARotation { RotCodes : list string; RotVersion : Z }.
Record AdminMFAResetResult := mkAdminReset { ResetUserID : string; ResetDone : bool; ResetRevoked : Z; ResetVersion : Z }.
Record PasswordResetIssue := mkResetIssue { ResetToken : string; ResetExpiresAt : Z }.
Record PasswordResetResult := mkResetResult { Changed : bool; RevokedSessions : Z }.

(** ** The database *)

Record DB := mkDB {
  users : gmap string User.t;
  credentials : gmap string Credential.t;
  sessions : gmap string Session.t;
  service_accounts : gmap string ServiceAccount.t;
  outbox_events : gmap (string * Z) OutboxEvent.t;
  user_mfa : gmap string MFAEnrollment.t;
  mfa_recovery_codes : gmap string MFARecoveryCode.t;
  mfa_login_challenges : gmap string MFALoginChallenge.t;
  password_reset_challenges : gmap string PasswordResetChallenge.t;
}.

Definition empty_db : DB := mkDB ∅ ∅ ∅ ∅ ∅ ∅ ∅ ∅ ∅.

Definition set_users v d := mkDB v (credentials d) (sessions d) (service_accounts d) (outbox_events d)
  (user_mfa d) (mfa_recovery_codes d) (mfa_login_challenges d) (password_reset_challenges d).
Definition set_credentials v d := mkDB (users d) v (sessions d) (service_accounts d) (outbox_events d)
  (user_mfa d) (mfa_recovery_codes d) (mfa_login_challenges d) (password_reset_challenges d).
Definition set_sessions v d := mkDB (users d) (credentials d) v (service_accounts d) (outbox_events d)
  (user_mfa d) (mfa_recovery_codes d) (mfa_login_challenges d) (password_reset_challenges d).
Definition set_service_accounts v d := mkDB (users d) (credentials d) (sessions d) v (outbox_events d)
  (user_mfa d) (mfa_recovery_codes d) (mfa_login_challenges d) (password_reset_challenges d).
Definition set_outbox v d := mkDB (users d) (credentials d) (sessions d) (service_accounts d) v
  (user_mfa d) (mfa_recovery_codes d) (mfa_login_challenges d) (password_reset_challenges d).
Definition set_user_mfa v d := mkDB (users d) (credentials d) (sessions d) (service_accounts d) (outbox_events d)
  v (mfa_recovery_codes d) (mfa_login_challenges d) (password_reset_challenges d).
Definition set_recovery v d := mkDB (users d) (credentials d) (sessions d) (service_accounts d) (outbox_events d)
  (user_mfa d) v (mfa_login_challenges d) (password_reset_challenges d).
Definition set_mfa_challenges v d := mkDB (users d) (credentials d) (sessions d) (service_accounts d) (outbox_events d)
  (user_mfa d) (mfa_recovery_codes d) v (password_reset_challenges d).
Definition set_reset_challenges v d := mkDB (users d) (credentials d) (sessions d) (service_accounts d) (outbox_events d)
  (user_mfa d) (mfa_recovery_codes d) (mfa_login_challenges d) v.

(** [version = version + 1, updated_at = ?, updated_by = ?]; the column is a
    [BIGINT], whose overflow is an error of the server. *)
Definition bump (now : Z) (actor : string) (f : Fields) : option Fields :=
  if decide (Version f < int64_max)
  then Some (mkFields (Version f + 1) (CreatedAt f) now (CreatedBy f) actor)
  else None.

Lemma bump_Some now actor f f' :
  bump now actor f = Some f' ->
  f' = mkFields (Version f + 1) (CreatedAt f) now (CreatedBy f) actor /\ Version f < int64_max.
Proof. unfold bump. case_decide; [|done]. by intros [= <-]. Qed.

(** ** Schema invariant

    The primary keys of the nine tables, the [UNIQUE] columns of the
    migrations and the six foreign keys to [users]. *)
Section schema.
Context `{!SQLServer}.

Record schema_ok (d : DB) : Prop := {
  users_key : keyed_by User.ID (users d);
  users_name : unique_on (fun u => sql_lower (User.Username u)) (users d);
  users_email : unique_on (fun u => sql_lower (User.Email u)) (users d);
  cred_key : keyed_by Credential.ID (credentials d);
  cred_type : unique_on (fun c => (Credential.UserID c, Credential.Type_ c)) (credentials d);
  cred_user : map_Forall (fun _ c => is_Some (users d !! Credential.UserID c)) (credentials d);
  sess_key : keyed_by Session.ID (sessions d);
  sess_hash : unique_on Session.RefreshTokenHash (sessions d);
  sess_user : map_Forall (fun _ s => is_Some (users d !! Session.UserID s)) (sessions d);
  sa_key : keyed_by ServiceAccount.ID (service_accounts d);
  sa_client : unique_on ServiceAccount.ClientID (service_accounts d);
  ob_key : map_Forall (fun k e => k = (OutboxEvent.ID e, CreatedAt (OutboxEvent.fields e))) (outbox_events d);
  mfa_key : keyed_by MFAEnrollment.UserID (user_mfa d);
  mfa_user : map_Forall (fun _ m => is_Some (users d !! MFAEnrollment.UserID m)) (user_mfa d);
  rc_key : keyed_by MFARecoveryCode.ID (mfa_recovery_codes d);
  rc_hash : unique_on (fun c => (MFARecoveryCode.UserID c, MFARecoveryCode.CodeHash c)) (mfa_recovery_codes d);
  rc_user : map_Forall (fun _ c => is_Some (users d !! MFARecoveryCode.UserID c)) (mfa_recovery_codes d);
  mc_key : keyed_by MFALoginChallenge.TokenHash (mfa_login_challenges d);
  mc_user : map_Forall (fun _ c => is_Some (users d !! MFALoginChallenge.UserID c)) (mfa_login_challenges d);
  pr_key : keyed_by PasswordResetChallenge.TokenHash (password_reset_challenges d);
  pr_user : map_Forall (fun _ c => is_Some (users d !! PasswordResetChallenge.UserID c)) (password_reset_challenges d);
}.
End schema.
