(* ===== verification/Runtime.v ===== *)
(** * Execution of a request

    A request reads the clock, random bytes and UUIDs, sends statements to
    the database and runs transactions ([internal/database/transaction.go]).
    Its effects are explicit: a computation maps a [World] to a result and a
    new [World].  An error keeps the effects made before it.

    Everything that is not decided by the code is an oracle of class [Env],
    indexed by the number of the reading or statement:
    - [env_clock], [env_rand], [env_uuid]: what the runtime returns;
    - [env_fault]: statement [i] fails in the driver with this text;
    - [env_pick]: which of several selected rows the server sends first;
    - [env_interfere]: what other requests did to the database since this
      request's previous statement.
    Theorems hold for every environment unless they restrict it, so they
    cover every fault schedule and every interleaving of whole statements and
    whole transactions. *)

From S2P Require Import Prelude.
From S2P Require Import GoStrings.
From S2P Require Import AppError.
From S2P Require Import Platform.
From S2P Require Import Table.
From S2P Require Import Model.
Open Scope Z_scope.

Class Env := {
  env_clock : nat -> Z;
  env_rand : nat -> nat -> option bytes;
  env_uuid : nat -> string;
  env_fault : nat -> option string;
  env_pick : nat -> nat;
  env_interfere : nat -> DB -> DB;
}.

(** [crypto/rand.Read] fills the buffer. *)
Class EnvLaws `{!Env} := {
  rand_length i n l : env_rand i n = Some l -> length l = n;
}.

(** No fault, no other request, working random source. *)
Class Quiet `{!Env} := {
  quiet_fault i : env_fault i = None;
  quiet_interfere i d : env_interfere i d = d;
  quiet_rand i n : is_Some (env_rand i n);
}.

(** [w_log] is a ghost trace: the database before and after each atomic step
    (committed transaction or autocommitted statement) of this request. *)
Record World := mkWorld {
  w_db : DB;
  w_clk : nat;
  w_rnd : nat;
  w_uid : nat;
  w_stm : nat;
  w_log : list (DB * DB);
}.

Definition start (d : DB) : World := mkWorld d 0 0 0 0 [].

Definition M (A : Type) : Type := World -> Result A * World.

#[global] Instance M_ret : MRet M := fun A a w => (Ok a, w).
#[global] Instance M_bind : MBind M := fun A B k m w =>
  match m w with
  | (Ok a, w') => k a w'
  | (Err e, w') => (Err e, w')
  end.

Section ops.
Context {env : Env}.

Definition throw {A} (e : error) : M A := fun w => (Err e, w).
(** [if P { return err }]. *)
Definition reject (P : Prop) `{!Decision P} (e : error) : M unit :=
  if decide P then throw e else mret tt.
(** [v, err := m]: the error becomes a value. *)
Definition attempt {A} (m : M A) : M (Result A) := fun w => let '(r, w') := m w in (Ok r, w').
(** [v, err := m; if err != nil { return f(err) }]. *)
Definition map_err {A} (f : error -> error) (m : M A) : M A := fun w =>
  match m w with
  | (Ok a, w') => (Ok a, w')
  | (Err e, w') => (Err (f e), w')
  end.
Definition lift {A} (r : Result A) : M A := fun w => (r, w).

(** [s.now()]. *)
Definition now : M Z := fun w =>
  (Ok (env_clock (w_clk w)), mkWorld (w_db w) (S (w_clk w)) (w_rnd w) (w_uid w) (w_stm w) (w_log w)).

(** [uuid.NewString()]. *)
Definition uuid_NewString : M string := fun w =>
  (Ok (env_uuid (w_uid w)), mkWorld (w_db w) (w_clk w) (w_rnd w) (S (w_uid w)) (w_stm w) (w_log w)).

(** [rand.Read] of a buffer of [n] bytes. *)
Definition rand_Read (n : nat) : M bytes := fun w =>
  (match env_rand (w_rnd w) n with Some l => Ok l | None => Err (ErrorsNew "random source failed") end,
   mkWorld (w_db w) (w_clk w) (S (w_rnd w)) (w_uid w) (w_stm w) (w_log w)).

(** Other requests run before the next statement. *)
Definition yield_db (w : World) : World :=
  mkWorld (env_interfere (w_stm w) (w_db w)) (w_clk w) (w_rnd w) (w_uid w) (w_stm w) (w_log w).
Definition next_stm (w : World) : World :=
  mkWorld (w_db w) (w_clk w) (w_rnd w) (w_uid w) (S (w_stm w)) (w_log w).
Definition with_db (d : DB) (w : World) : World :=
  mkWorld d (w_clk w) (w_rnd w) (w_uid w) (w_stm w) (w_log w).
Definition commit (d0 d1 : DB) (w : World) : World :=
  mkWorld d1 (w_clk w) (w_rnd w) (w_uid w) (w_stm w) (w_log w ++ [(d0, d1)]).

(** [r.db.GetContext], [r.db.SelectContext]: a query outside transactions. *)
Definition db_query {A} (q : nat -> DB -> Result A) : M A := fun w =>
  let w := yield_db w in
  (match env_fault (w_stm w) with
   | Some msg => Err (Driver msg)
   | None => q (env_pick (w_stm w)) (w_db w)
   end, next_stm w).

(** [r.db.ExecContext]: an autocommitted statement. *)
Definition db_exec {A} (f : DB -> Result (DB * A)) : M A := fun w =>
  let w := yield_db w in
  match env_fault (w_stm w) with
  | Some msg => (Err (Driver msg), next_stm w)
  | None =>
      match f (w_db w) with
      | Ok (d', a) => (Ok a, commit (w_db w) d' (next_stm w))
      | Err e => (Err e, next_stm w)
      end
  end.

(** [tx.ExecContext]: a statement of the running transaction. *)
Definition tx_exec {A} (f : DB -> Result (DB * A)) : M A := fun w =>
  match env_fault (w_stm w) with
  | Some msg => (Err (Driver msg), next_stm w)
  | None =>
      match f (w_db w) with
      | Ok (d', a) => (Ok a, with_db d' (next_stm w))
      | Err e => (Err e, next_stm w)
      end
  end.

(** ** [database.Transactor] *)
Record Transactor := mkTransactor { tx_db : bool (** [t.db != nil] *) }.

Definition Available (t : Transactor) : bool := tx_db t.

(** [*sqlx.Tx]: what is needed to undo the transaction, the database at its
    [BEGIN].  The statements of the running transaction write to [w_db]. *)
Record Tx := mkTx { tx_begin : DB }.

(** [t.db.BeginTxx]. *)
Definition BeginTxx : M Tx := fun w =>
  let w := yield_db w in
  (match env_fault (w_stm w) with
   | Some msg => Err (Driver msg)
   | None => Ok (mkTx (w_db w))
   end, next_stm w).

(** [tx.Rollback]: the writes of the transaction are undone; the server also
    undoes them when the statement is lost with its connection. *)
Definition Rollback (tx : Tx) : M unit := fun w =>
  (match env_fault (w_stm w) with
   | Some msg => Err (Driver msg)
   | None => Ok tt
   end, next_stm (with_db (tx_begin tx) w)).

(** [tx.Commit]: the writes of the transaction become one atomic step.  A
    [COMMIT] that the driver reports as failed has not taken effect. *)
Definition Commit (tx : Tx) : M unit := fun w =>
  match env_fault (w_stm w) with
  | Some msg => (Err (Driver msg), next_stm (with_db (tx_begin tx) w))
  | None => (Ok tt, commit (tx_begin tx) (w_db w) (next_stm w))
  end.

Definition Within {A} (t : Transactor) (fn : M A) : M A :=
  reject (tx_db t = false) (ErrorsNew "begin transaction: database is disabled");;
  tx ← map_err (Errorf "begin transaction") BeginTxx;
  r ← attempt fn;
  match r with
  | Err err =>
      map_err (Errorf ("rollback transaction after " +:+ error_text err)) (Rollback tx);;
      throw err
  | Ok a =>
      map_err (Errorf "commit transaction") (Commit tx);;
      mret a
  end.
End ops.


(** ** Inversion of successful runs *)
Section inversion.
Context {env : Env}.

Lemma bind_Ok {A B} (m : M A) (k : A -> M B) w b w' :
  (m ≫= k) w = (Ok b, w') -> exists a w1, m w = (Ok a, w1) /\ k a w1 = (Ok b, w').
Proof. unfold mbind, M_bind. destruct (m w) as [[a|e] w1]; [eauto|done]. Qed.

Lemma ret_Ok {A} (a b : A) w w' : (mret a : M A) w = (Ok b, w') -> a = b /\ w' = w.
Proof. by intros [= -> ->]. Qed.

Lemma throw_Ok {A} e w (a : A) w' : throw e w = (Ok a, w') -> False.
Proof. done. Qed.

Lemma reject_Ok P `{!Decision P} e w u w' : reject P e w = (Ok u, w') -> ~ P /\ w' = w.
Proof. unfold reject. case_decide; [done|]. by intros [= _ ->]. Qed.

Lemma map_err_Ok {A} f (m : M A) w a w' : map_err f m w = (Ok a, w') -> m w = (Ok a, w').
Proof. unfold map_err. destruct (m w) as [[x|e] w1]; [|done]. by intros [= -> ->]. Qed.

Lemma attempt_Ok {A} (m : M A) w r w' : attempt m w = (Ok r, w') -> m w = (r, w').
Proof. unfold attempt. destruct (m w). by intros [= -> ->]. Qed.

Lemma lift_Ok {A} (r : Result A) w a w' : lift r w = (Ok a, w') -> r = Ok a /\ w' = w.
Proof. by intros [= -> ->]. Qed.

Lemma now_Ok w t w' : now w = (Ok t, w') ->
  t = env_clock (w_clk w) /\ w_db w' = w_db w /\ w_log w' = w_log w.
Proof. by intros [= <- <-]. Qed.

Lemma uuid_Ok w t w' : uuid_NewString w = (Ok t, w') ->
  t = env_uuid (w_uid w) /\ w_db w' = w_db w /\ w_log w' = w_log w.
Proof. by intros [= <- <-]. Qed.

Lemma rand_Ok n w l w' : rand_Read n w = (Ok l, w') ->
  env_rand (w_rnd w) n = Some l /\ w_db w' = w_db w /\ w_log w' = w_log w.
Proof. unfold rand_Read. destruct (env_rand _ _); [|done]. by intros [= <- <-]. Qed.

Lemma db_query_Ok {A} (q : nat -> DB -> Result A) w a w' :
  db_query q w = (Ok a, w') ->
  w_db w' = env_interfere (w_stm w) (w_db w) /\ q (env_pick (w_stm w)) (w_db w') = Ok a /\
  w_log w' = w_log w.
Proof. unfold db_query. simpl. destruct (env_fault _); [done|]. by intros [= <- <-]. Qed.

Lemma db_exec_Ok {A} (f : DB -> Result (DB * A)) w a w' :
  db_exec f w = (Ok a, w') ->
  exists d, d = env_interfere (w_stm w) (w_db w) /\ f d = Ok (w_db w', a) /\
    w_log w' = w_log w ++ [(d, w_db w')].
Proof.
  unfold db_exec. simpl. destruct (env_fault _); [done|].
  destruct (f _) as [[d' a']|] eqn:E; [|done]. intros [= <- <-]. eauto.
Qed.

Lemma tx_exec_Ok {A} (f : DB -> Result (DB * A)) w a w' :
  tx_exec f w = (Ok a, w') -> f (w_db w) = Ok (w_db w', a) /\ w_log w' = w_log w.
Proof.
  unfold tx_exec. destruct (env_fault _); [done|].
  destruct (f _) as [[d' a']|] eqn:E; [|done]. by intros [= <- <-].
Qed.

(** The run of a transaction, by its four points of failure. *)
Lemma Within_run {A} t (fn : M A) w :
  Within t fn w =
  if tx_db t then
    let w0 := next_stm (yield_db w) in
    match env_fault (w_stm w) with
    | Some msg => (Err (Errorf "begin transaction" (Driver msg)), w0)
    | None =>
        match fn w0 with
        | (Err e, w1) =>
            (Err (match env_fault (w_stm w1) with
                  | Some msg => Errorf ("rollback transaction after " +:+ error_text e) (Driver msg)
                  | None => e
                  end), next_stm (with_db (w_db w0) w1))
        | (Ok a, w1) =>
            match env_fault (w_stm w1) with
            | Some msg => (Err (Errorf "commit transaction" (Driver msg)), next_stm (with_db (w_db w0) w1))
            | None => (Ok a, commit (w_db w0) (w_db w1) (next_stm w1))
            end
        end
    end
  else (Err (ErrorsNew "begin transaction: database is disabled"), w).
Proof.
  unfold Within, reject, BeginTxx, mbind, M_bind, map_err, attempt.
  destruct (tx_db t); [|done]. simpl. destruct (env_fault (w_stm w)); [done|].
  destruct (fn _) as [[a|e] w1]; unfold Rollback, Commit; by destruct (env_fault (w_stm w1)).
Qed.

(** A committed transaction is one atomic step, from the database other
    requests left to the one its statements produced. *)
Lemma Within_Ok {A} t (fn : M A) w a w' :
  Within t fn w = (Ok a, w') ->
  exists w0 w1, w_db w0 = env_interfere (w_stm w) (w_db w) /\ w_log w0 = w_log w /\
    w_clk w0 = w_clk w /\
    fn w0 = (Ok a, w1) /\ w_db w' = w_db w1 /\ w_log w' = w_log w1 ++ [(w_db w0, w_db w1)].
Proof.
  rewrite Within_run. destruct (tx_db t); [|done]. simpl. destruct (env_fault _); [done|].
  destruct (fn _) as [[b|e] w1] eqn:E; destruct (env_fault _); try done.
  intros [= -> <-]. exists (next_stm (yield_db w)), w1. done.
Qed.
End inversion.

(** ** Atomicity *)
Section atomicity.
Context {env : Env}.

(** [m] makes no atomic step at all. *)
Definition ReadOnly {A} (m : M A) : Prop := forall w, w_log (m w).2 = w_log w.

(** If [m] fails, it has made no atomic step. *)
Definition FailClean {A} (m : M A) : Prop :=
  forall w e w', m w = (Err e, w') -> w_log w' = w_log w.

Lemma ReadOnly_FailClean {A} (m : M A) : ReadOnly m -> FailClean m.
Proof. intros H w e w' E. specialize (H w). by rewrite E in H. Qed.

Lemma ReadOnly_bind {A B} (m : M A) (k : A -> M B) :
  ReadOnly m -> (forall a, ReadOnly (k a)) -> ReadOnly (m ≫= k).
Proof.
  intros Hm Hk w. unfold mbind, M_bind. specialize (Hm w).
  destruct (m w) as [[a|e] w1]; simpl in *; [|done]. by rewrite Hk.
Qed.

Lemma FailClean_bind {A B} (m : M A) (k : A -> M B) :
  ReadOnly m -> (forall a, FailClean (k a)) -> FailClean (m ≫= k).
Proof.
  intros Hm Hk w e w'. unfold mbind, M_bind. specialize (Hm w).
  destruct (m w) as [[a|e'] w1]; simpl in *.
  - intros E. by rewrite (Hk _ _ _ _ E).
  - intros [= -> ->]. done.
Qed.

(** The code after the last write cannot fail. *)
Lemma FailClean_last {A B} (m : M A) (k : A -> B) :
  FailClean m -> FailClean (m ≫= fun a => mret (k a)).
Proof.
  intros Hm w e w'. unfold mbind, M_bind. destruct (m w) as [[a|e'] w1] eqn:E; [done|].
  intros [= -> ->]. by eapply Hm.
Qed.

Lemma ReadOnly_ret {A} (a : A) : ReadOnly (mret a).
Proof. done. Qed.
Lemma ReadOnly_throw {A} e : ReadOnly (throw (A := A) e).
Proof. done. Qed.
Lemma ReadOnly_lift {A} (r : Result A) : ReadOnly (lift r).
Proof. done. Qed.
Lemma ReadOnly_reject P `{!Decision P} e : ReadOnly (reject P e).
Proof. intros w. unfold reject. by case_decide. Qed.
Lemma ReadOnly_attempt {A} (m : M A) : ReadOnly m -> ReadOnly (attempt m).
Proof. intros H w. unfold attempt. specialize (H w). by destruct (m w). Qed.
Lemma ReadOnly_map_err {A} f (m : M A) : ReadOnly m -> ReadOnly (map_err f m).
Proof. intros H w. unfold map_err. specialize (H w). by destruct (m w) as [[]]. Qed.
Lemma FailClean_map_err {A} f (m : M A) : FailClean m -> FailClean (map_err f m).
Proof.
  intros H w e w'. unfold map_err. destruct (m w) as [[a|e'] w1] eqn:E; [done|].
  intros [= _ <-]. by eapply H.
Qed.
Lemma ReadOnly_now : ReadOnly now.
Proof. done. Qed.
Lemma ReadOnly_uuid : ReadOnly uuid_NewString.
Proof. done. Qed.
Lemma ReadOnly_rand n : ReadOnly (rand_Read n).
Proof. done. Qed.
Lemma ReadOnly_db_query {A} (q : nat -> DB -> Result A) : ReadOnly (db_query q).
Proof. intros w. unfold db_query. simpl. done. Qed.
Lemma ReadOnly_tx_exec {A} (f : DB -> Result (DB * A)) : ReadOnly (tx_exec f).
Proof. intros w. unfold tx_exec. destruct (env_fault _); [done|]. by destruct (f _) as [[]|]. Qed.
Lemma FailClean_db_exec {A} (f : DB -> Result (DB * A)) : FailClean (db_exec f).
Proof.
  intros w e w'. unfold db_exec. simpl. destruct (env_fault _); [by intros [= _ <-]|].
  destruct (f _) as [[]|]; [done|]. by intros [= _ <-].
Qed.

(** [Within]: an error of the body, of [COMMIT] or of [ROLLBACK] leaves the
    database as the other requests left it, and no step is made. *)
Lemma Within_Err {A} t (fn : M A) w e w' :
  ReadOnly fn -> Within t fn w = (Err e, w') ->
  w_log w' = w_log w /\
  (w_db w' = w_db w \/ w_db w' = env_interfere (w_stm w) (w_db w)).
Proof.
  intros Hro. rewrite Within_run. destruct (tx_db t); [|by intros [= _ <-]; auto]. simpl.
  destruct (env_fault _); [by intros [= _ <-]; auto|].
  specialize (Hro (next_stm (yield_db w))).
  destruct (fn _) as [[b|e'] w1]; simpl in *; destruct (env_fault _); try done;
    intros [= _ <-]; simpl; auto.
Qed.

Lemma FailClean_Within {A} t (fn : M A) : ReadOnly fn -> FailClean (Within t fn).
Proof. intros H w e w' E. by apply (Within_Err t fn w e w' H) in E as [-> _]. Qed.
End atomicity.

(** Compositional proofs: [solve_readonly] and [solve_failclean] follow the
    structure of the code; a repository call is a hint of [readonly]. *)
Create HintDb readonly discriminated.
#[export] Hint Constants Opaque : readonly.
#[export] Hint Resolve ReadOnly_ret ReadOnly_throw ReadOnly_lift ReadOnly_reject ReadOnly_attempt
  ReadOnly_map_err ReadOnly_now ReadOnly_uuid ReadOnly_rand ReadOnly_db_query ReadOnly_tx_exec : readonly.

(** The head constant of an application. *)
Ltac get_head e := lazymatch e with ?f _ => get_head f | _ => e end.

Ltac readonly_step :=
  match goal with
  | |- forall _, _ => intro
  | |- ReadOnly (_ ≫= _) => apply ReadOnly_bind
  | |- ReadOnly (mbind _ _) => apply ReadOnly_bind
  | |- ReadOnly (attempt _) => apply ReadOnly_attempt
  | |- ReadOnly (map_err _ _) => apply ReadOnly_map_err
  | |- ReadOnly (match ?x with _ => _ end) => destruct x
  | |- ReadOnly _ => solve [eauto with readonly]
  | |- ReadOnly ?m => let h := get_head m in unfold h
  end.
Ltac solve_readonly := repeat readonly_step.

Ltac failclean_step :=
  match goal with
  | |- forall _, _ => intro
  | |- FailClean (map_err _ _) => apply FailClean_map_err
  | |- FailClean (Within _ _) => apply FailClean_Within; solve_readonly
  | |- FailClean (mbind (fun _ => mret _) _) => apply FailClean_last
  | |- FailClean (mbind _ _) => apply FailClean_bind; [solve [solve_readonly] |]
  | |- FailClean (match ?x with _ => _ end) => destruct x
  | |- FailClean (db_exec _) => apply FailClean_db_exec
  | |- FailClean _ => solve [apply ReadOnly_FailClean; solve_readonly]
  | |- FailClean ?m => let h := get_head m in unfold h
  end.
Ltac solve_failclean := repeat failclean_step.

(** ** Guarantees

    [Steps G m]: every atomic step [m] makes is allowed by [G].  [TxSteps G m]:
    the statements of a transaction body take the database along [G]. *)
Section guarantee.
Context {env : Env} (G : relation DB) {Gpre : PreOrder G}.

Definition Steps {A} (m : M A) : Prop :=
  forall w, exists l, w_log (m w).2 = w_log w ++ l /\ Forall (fun p => G p.1 p.2) l.

Definition TxSteps {A} (m : M A) : Prop := forall w, G (w_db w) (w_db (m w).2).

Lemma ReadOnly_Steps {A} (m : M A) : ReadOnly m -> Steps m.
Proof using. intros H w. exists []. split; [rewrite H; by rewrite app_nil_r|constructor]. Qed.

Lemma Steps_bind {A B} (m : M A) (k : A -> M B) :
  Steps m -> (forall a, Steps (k a)) -> Steps (m ≫= k).
Proof using.
  intros Hm Hk w. unfold mbind, M_bind. destruct (Hm w) as (l & Hl & HG).
  destruct (m w) as [[a|e] w1]; simpl in *; [|eauto].
  destruct (Hk a w1) as (l' & Hl' & HG'). exists (l ++ l'). split.
  - by rewrite Hl', Hl, app_assoc.
  - by apply Forall_app.
Qed.

Lemma Steps_attempt {A} (m : M A) : Steps m -> Steps (attempt m).
Proof using. intros H w. unfold attempt. specialize (H w). by destruct (m w). Qed.
Lemma Steps_map_err {A} f (m : M A) : Steps m -> Steps (map_err f m).
Proof using. intros H w. unfold map_err. specialize (H w). by destruct (m w) as [[]]. Qed.

Lemma Steps_db_exec {A} (f : DB -> Result (DB * A)) :
  (forall d d' a, f d = Ok (d', a) -> G d d') -> Steps (db_exec f).
Proof using.
  intros H w. unfold db_exec. simpl.
  destruct (env_fault _); [exists []; rewrite app_nil_r; split; [done|constructor]|].
  destruct (f _) as [[d' a]|] eqn:E.
  - eexists. split; [done|]. apply Forall_singleton. simpl. by eapply H.
  - exists []. rewrite app_nil_r. split; [done|constructor].
Qed.

Lemma Steps_Within {A} t (fn : M A) : ReadOnly fn -> TxSteps fn -> Steps (Within t fn).
Proof using.
  intros Hro Htx w. destruct (Within t fn w) as [[a|e] w'] eqn:E.
  - destruct (Within_Ok _ _ _ _ _ E) as (w0 & w1 & Hd & Hl & _ & Hf & _ & Hl').
    specialize (Hro w0). specialize (Htx w0). rewrite Hf in Hro, Htx. simpl in *.
    simpl. eexists. split; [by rewrite Hl', Hro, Hl|]. by apply Forall_singleton.
  - destruct (Within_Err _ _ _ _ _ Hro E) as [Hl _]. exists []. simpl. rewrite Hl.
    rewrite app_nil_r. split; [done|constructor].
Qed.

Lemma TxSteps_bind {A B} (m : M A) (k : A -> M B) :
  TxSteps m -> (forall a, TxSteps (k a)) -> TxSteps (m ≫= k).
Proof using Gpre.
  intros Hm Hk w. unfold mbind, M_bind. specialize (Hm w).
  destruct (m w) as [[a|e] w1]; simpl in *; [|done]. etrans; [exact Hm|]. apply Hk.
Qed.

Lemma TxSteps_same {A} (m : M A) : (forall w, w_db (m w).2 = w_db w) -> TxSteps m.
Proof using Gpre. intros H w. by rewrite H. Qed.

Lemma TxSteps_map_err {A} f (m : M A) : TxSteps m -> TxSteps (map_err f m).
Proof using. intros H w. unfold map_err. specialize (H w). by destruct (m w) as [[]]. Qed.

Lemma TxSteps_tx_exec {A} (f : DB -> Result (DB * A)) :
  (forall d d' a, f d = Ok (d', a) -> G d d') -> TxSteps (tx_exec f).
Proof using Gpre.
  intros H w. unfold tx_exec. destruct (env_fault _); [done|].
  destruct (f _) as [[d' a]|] eqn:E; simpl; [|done]. by eapply H.
Qed.

Lemma TxSteps_attempt {A} (m : M A) : TxSteps m -> TxSteps (attempt m).
Proof using. intros H w. unfold attempt. specialize (H w). by destruct (m w). Qed.

(** What other requests may do between two statements of this one. *)
Class Rely : Prop := rely : forall i d, G d (env_interfere i d).

Lemma TxSteps_db_query {A} (q : nat -> DB -> Result A) : Rely -> TxSteps (db_query q).
Proof using. intros H w. apply H. Qed.

Lemma TxSteps_run {A} (m : M A) w r w' : TxSteps m -> m w = (r, w') -> G (w_db w) (w_db w').
Proof using. intros H E. specialize (H w). by rewrite E in H. Qed.
End guarantee.

(** A successful run of code that makes no step leaves the trace alone. *)
Lemma ReadOnly_run {env : Env} {A} (m : M A) w r w' : ReadOnly m -> m w = (r, w') -> w_log w' = w_log w.
Proof. intros H E. specialize (H w). by rewrite E in H. Qed.
