(* ===== verification/Repository.v ===== *)
(** * The repository

    [internal/identity/repository.go], [mfa_repository.go] and
    [password_reset_repository.go]: one definition per method, the SQL
    statement as an operation on the tables of [Model.DB].

    Conventions: a method that takes [tx *sqlx.Tx] is a [tx_exec], one that
    uses [r.db] directly is a [db_query] or an autocommitted [db_exec].
    Columns that an [INSERT] does not list take their default, as in the
    migrations of PostgreSQL.  The drivers in use know the number of affected
    rows, so [RowsAffected] does not fail. *)

From S2P Require Import Prelude.
From S2P Require Import GoStrings.
From S2P Require Import AppError.
From S2P Require Import Platform.
From S2P Require Import Table.
From S2P Require Import Model.
From S2P Require Import Runtime.
Open Scope Z_scope.

Section statements.
Context {env : Env} {sql : SQLServer} {uc : UnicodeCase}.

Definition violation {A} (k : constraint_kind) : Result A := Err (Driver (violation_text k)).

(** [UPDATE]: fails on an out-of-range value or if the new table breaks a
    constraint [ok]. *)
Definition update_table {A} (get : DB -> gmap string A) (set : gmap string A -> DB -> DB)
    (p : A -> Prop) `{Hp : !forall r, Decision (p r)} (f : A -> option A)
    (ok : gmap string A -> bool) (d : DB) : Result (DB * Z) :=
  match sql_update p f (get d) with
  | None => violation OutOfRange
  | Some (t, n) => if ok t then Ok (set t d, n) else violation UniqueViolation
  end.

Definition delete_table {A} (get : DB -> gmap string A) (set : gmap string A -> DB -> DB)
    (p : A -> Prop) `{Hp : !forall r, Decision (p r)} (d : DB) : Result (DB * Z) :=
  let '(t, n) := sql_delete p (get d) in Ok (set t d, n).

Definition no_check {A} (_ : gmap string A) : bool := true.

(** [GetContext] of one row. *)
Definition get_row {A} (get : DB -> gmap string A) (p : A -> Prop) `{Hp : !forall r, Decision (p r)}
    (msg : string) : M A :=
  map_err (fun e => if errors_Is e ErrNoRows then Sentinel ErrNotFound else Errorf msg e)
    (db_query (fun n d => match sql_get p n (get d) with
                          | Some r => Ok r
                          | None => Err (Sentinel ErrNoRows)
                          end)).

(** The text test of [CreateUser], [UpdateUserProfile] and
    [CreateServiceAccount]. *)
Definition conflict_or (msg : string) (e : error) : error :=
  if Contains (ToLower (error_text e)) "duplicate" || Contains (ToLower (error_text e)) "unique"
  then Sentinel ErrConflict else Errorf msg e.

Definition requireAffected (count : Z) : M unit := reject (count = 0) (Sentinel ErrStale).

(** [SELECT COUNT( * )] followed by [SELECT .. ORDER BY .. LIMIT .. OFFSET ..]. *)
Definition list_rows {A} (get : DB -> gmap string A) (p : A -> Prop) `{Hp : !forall r, Decision (p r)}
    (le : relation A) `{Hle : !forall x y, Decision (le x y)} (view : DB -> A -> option A)
    (count_msg list_msg : string) (limit offset : Z) : M (list A * Z) :=
  total ← map_err (Errorf count_msg) (db_query (fun _ d => Ok (sql_count p (get d))));
  items ← map_err (Errorf list_msg) (db_query (fun _ d =>
    match sql_page le limit offset (omap (view d) (sql_rows p (get d))) with
    | None => violation NegativeLimit
    | Some l => Ok l
    end));
  mret (items, total).

(** [ORDER BY t DESC, id]. *)
Definition order_desc {A} (at_ : A -> Z) (id : A -> string) (x y : A) : Prop :=
  at_ y < at_ x \/ (at_ x = at_ y /\ sql_text_le (id x) (id y) = true).
#[global] Instance order_desc_dec {A} at_ id (x y : A) : Decision (order_desc at_ id x y).
Proof. unfold order_desc. apply _. Defined.

(** [SELECT .. ORDER BY t, id LIMIT n] of the retention jobs. *)
Definition order_asc {A} (at_ : A -> Z) (id : A -> string) (x y : A) : Prop :=
  at_ x < at_ y \/ (at_ x = at_ y /\ sql_text_le (id x) (id y) = true).
#[global] Instance order_asc_dec {A} at_ id (x y : A) : Decision (order_asc at_ id x y).
Proof. unfold order_asc. apply _. Defined.
End statements.

Module Repository.
Section repository.
Context {env : Env} {sql : SQLServer} {uc : UnicodeCase}.

(** ** Users and credentials *)

Definition insert_user (u : User.t) (d : DB) : Result (DB * unit) :=
  if decide (is_Some (users d !! User.ID u) \/
             clash (fun v => sql_lower (User.Username v)) u (users d) \/
             clash (fun v => sql_lower (User.Email v)) u (users d))
  then violation UniqueViolation
  else let row := User.mk (User.ID u) (User.Username u) (User.DisplayName u) (User.Email u) (User.Phone u)
                    (User.Status u) (User.FailedLoginCount u) None (User.fields u) in
       Ok (set_users (<[User.ID u := row]> (users d)) d, tt).

Definition insert_credential (c : Credential.t) (d : DB) : Result (DB * unit) :=
  if decide (is_Some (credentials d !! Credential.ID c) \/
             clash (fun v => (Credential.UserID v, Credential.Type_ v)) c (credentials d))
  then violation UniqueViolation
  else if decide (is_Some (users d !! Credential.UserID c))
  then Ok (set_credentials (<[Credential.ID c := c]> (credentials d)) d, tt)
  else violation ForeignKeyViolation.

Definition CreateUser (user : User.t) (credential : Credential.t) : M unit :=
  map_err (conflict_or "insert identity user") (tx_exec (insert_user user));;
  map_err (Errorf "insert password credential") (tx_exec (insert_credential credential)).

(** The primary key of the partitioned table is (id, created_at). *)
Definition insert_outbox (e : OutboxEvent.t) (d : DB) : Result (DB * unit) :=
  let key := (OutboxEvent.ID e, CreatedAt (OutboxEvent.fields e)) in
  if decide (is_Some (outbox_events d !! key)) then violation UniqueViolation
  else Ok (set_outbox (<[key := e]> (outbox_events d)) d, tt).

Definition InsertOutbox (event : OutboxEvent.t) : M unit :=
  map_err (Errorf "insert identity outbox") (tx_exec (insert_outbox event)).

Definition PasswordCredential (userID : string) : M Credential.t :=
  get_row credentials (fun c => Credential.UserID c = userID /\ Credential.Type_ c = "password")
    "select password credential".

Definition UserByLogin (login : string) : M (User.t * Credential.t) :=
  user ← get_row users (fun u => sql_lower (User.Username u) = sql_lower login \/
                                 sql_lower (User.Email u) = sql_lower login) "select login user";
  credential ← get_row credentials
    (fun c => Credential.UserID c = User.ID user /\ Credential.Type_ c = "password") "select password credential";
  mret (user, credential).

Definition UpdatePasswordCredential (credentialID secretHash actor : string) (version now : Z) : M unit :=
  n ← map_err (Errorf "update password credential") (tx_exec (update_table credentials set_credentials
    (fun c => Credential.ID c = credentialID /\ Credential.Type_ c = "password" /\
              Credential.Status c = StatusActive /\ Version (Credential.fields c) = version)
    (fun c => f ← bump now actor (Credential.fields c);
              Some (Credential.mk (Credential.ID c) (Credential.UserID c) (Credential.Type_ c)
                      secretHash (Credential.Status c) f))
    no_check));
  requireAffected n.

Definition GetUser (id : string) : M User.t :=
  get_row users (fun u => User.ID u = id) "select identity user".

(** The [WHERE] clause that [ListUsers] assembles. *)
Definition users_where (keyword status : string) (u : User.t) : Prop :=
  (TrimSpace status <> "" -> User.Status u = TrimSpace status) /\
  (TrimSpace keyword <> "" ->
     let pattern := sql_lower ("%" +:+ TrimSpace keyword +:+ "%") in
     sql_like (sql_lower (User.Username u)) pattern = true \/
     sql_like (sql_lower (User.DisplayName u)) pattern = true \/
     sql_like (sql_lower (User.Email u)) pattern = true).
#[global] Instance users_where_dec k s u : Decision (users_where k s u).
Proof. unfold users_where. apply _. Defined.

Definition ListUsers (keyword status : string) (limit offset : Z) : M (list User.t * Z) :=
  list_rows users (users_where keyword status)
    (order_desc (fun u => CreatedAt (User.fields u)) User.ID) (fun _ u => Some u)
    "count identity users" "list identity users" limit offset.

(** [failed_login_count] is an [INTEGER] column. *)
Definition record_failure (threshold lockedUntil now : Z) (u : User.t) : option User.t :=
  let count := User.FailedLoginCount u + 1 in
  if decide (count < 2 ^ 31) then
    f ← bump now "identity:login" (User.fields u);
    Some (User.mk (User.ID u) (User.Username u) (User.DisplayName u) (User.Email u) (User.Phone u)
            (User.Status u) count
            (if decide (threshold <= count) then Some lockedUntil else User.LockedUntil u) f)
  else None.

Definition RecordFailedLogin (userID : string) (threshold lockedUntil now : Z) : M unit :=
  map_err (Errorf "record failed login")
    (db_exec (update_table users set_users (fun u => User.ID u = userID)
       (record_failure threshold lockedUntil now) no_check));;
  mret tt.

Definition reset_failure (now : Z) (u : User.t) : option User.t :=
  f ← bump now "identity:login" (User.fields u);
  Some (User.mk (User.ID u) (User.Username u) (User.DisplayName u) (User.Email u) (User.Phone u)
          (User.Status u) 0 None f).

Definition ResetFailedLogin (userID : string) (now : Z) : M unit :=
  map_err (Errorf "reset failed login")
    (db_exec (update_table users set_users
       (fun u => User.ID u = userID /\ (User.FailedLoginCount u <> 0 \/ is_Some (User.LockedUntil u)))
       (reset_failure now) no_check));;
  mret tt.

Definition UpdateUserStatus (id status actor : string) (version now : Z) : M unit :=
  n ← map_err (Errorf "update user status") (tx_exec (update_table users set_users
    (fun u => User.ID u = id /\ Version (User.fields u) = version)
    (fun u => f ← bump now actor (User.fields u);
              Some (User.mk (User.ID u) (User.Username u) (User.DisplayName u) (User.Email u) (User.Phone u)
                      status 0 None f))
    no_check));
  requireAffected n.

Definition email_unique (t : gmap string User.t) : bool :=
  bool_decide (map_Forall (fun k1 u1 => map_Forall (fun k2 u2 =>
    sql_lower (User.Email u1) = sql_lower (User.Email u2) -> k1 = k2) t) t).

Definition UpdateUserProfile (id displayName email phone actor : string) (version now : Z) : M unit :=
  n ← map_err (conflict_or "update user profile") (tx_exec (update_table users set_users
    (fun u => User.ID u = id /\ Version (User.fields u) = version)
    (fun u => f ← bump now actor (User.fields u);
              Some (User.mk (User.ID u) (User.Username u) displayName email phone
                      (User.Status u) (User.FailedLoginCount u) (User.LockedUntil u) f))
    email_unique));
  requireAffected n.

Definition BatchGetUsers (ids : list string) : M (list User.t) :=
  if decide (ids = []) then mret []
  else map_err (Errorf "select batch users")
         (db_query (fun n d => Ok (sql_arrange _ n (sql_rows (fun u => User.ID u ∈ ids) (users d))))).

(** ** Sessions *)

Definition insert_session (s : Session.t) (d : DB) : Result (DB * unit) :=
  if decide (is_Some (sessions d !! Session.ID s) \/ clash Session.RefreshTokenHash s (sessions d))
  then violation UniqueViolation
  else if decide (is_Some (users d !! Session.UserID s)) then
    let row := Session.mk (Session.ID s) (Session.UserID s) "" "" (Session.RefreshTokenHash s)
                 (Session.TenantID s) (Session.MembershipID s) (Session.ExpiresAt s) None ""
                 (Session.LastUsedAt s) (Session.ClientIP s) (Session.UserAgent s) (Session.fields s) in
    Ok (set_sessions (<[Session.ID s := row]> (sessions d)) d, tt)
  else violation ForeignKeyViolation.

Definition CreateSession (session : Session.t) : M unit :=
  map_err (Errorf "insert session") (tx_exec (insert_session session)).

Definition session_dead (before : Z) (s : Session.t) : Prop :=
  match Session.RevokedAt s with
  | Some t => t < before
  | None => Session.ExpiresAt s < before
  end.
#[global] Instance session_dead_dec b s : Decision (session_dead b s).
Proof. unfold session_dead. destruct (Session.RevokedAt s); apply _. Defined.

Definition session_end (s : Session.t) : Z := default (Session.ExpiresAt s) (Session.RevokedAt s).

(** The keys of the first [limit] rows of [SELECT .. ORDER BY at, key LIMIT limit]. *)
Definition select_keys {A} (get : DB -> gmap string A) (p : A -> Prop) `{Hp : !forall r, Decision (p r)}
    (at_ : A -> Z) (key : A -> string) (limit : Z) : M (list string) :=
  db_query (fun _ d =>
    match sql_page (order_asc at_ key) limit 0 (sql_rows p (get d)) with
    | None => violation NegativeLimit
    | Some l => Ok (key <$> l)
    end).

Definition DeleteExpiredOrRevokedSessionsBefore (before limit : Z) : M Z :=
  ids ← select_keys sessions (session_dead before) session_end Session.ID limit;
  if decide (ids = []) then mret 0
  else db_exec (delete_table sessions set_sessions (fun s => Session.ID s ∈ ids /\ session_dead before s)).

Definition SessionByRefreshHash (hash : string) : M Session.t :=
  get_row sessions (fun s => Session.RefreshTokenHash s = hash) "select refresh session".

Definition GetSession (id userID : string) : M Session.t :=
  get_row sessions (fun s => Session.ID s = id /\ Session.UserID s = userID) "select session".

Definition GetSessionByID (id : string) : M Session.t :=
  get_row sessions (fun s => Session.ID s = id) "select session by id".

(** The [WHERE] clause that [ListSessions] assembles. *)
Definition sessions_where (userID tenantID status : string) (now : Z) (s : Session.t) : Prop :=
  (userID <> "" -> Session.UserID s = userID) /\
  (tenantID <> "" -> Session.TenantID s = tenantID) /\
  (status = "active" -> Session.RevokedAt s = None /\ now < Session.ExpiresAt s) /\
  (status = "revoked" -> Session.RevokedAt s <> None) /\
  (status = "expired" -> Session.RevokedAt s = None /\ Session.ExpiresAt s <= now).
#[global] Instance sessions_where_dec u t st n s : Decision (sessions_where u t st n s).
Proof. unfold sessions_where. apply _. Defined.

(** [JOIN users u ON u.id = s.user_id]. *)
Definition join_user (d : DB) (s : Session.t) : option Session.t :=
  u ← users d !! Session.UserID s;
  Some (Session.mk (Session.ID s) (Session.UserID s) (User.Username u) (User.DisplayName u)
          (Session.RefreshTokenHash s) (Session.TenantID s) (Session.MembershipID s) (Session.ExpiresAt s)
          (Session.RevokedAt s) (Session.RevokeReason s) (Session.LastUsedAt s) (Session.ClientIP s)
          (Session.UserAgent s) (Session.fields s)).

Definition ListSessions (userID tenantID status : string) (now limit offset : Z) : M (list Session.t * Z) :=
  list_rows sessions (sessions_where userID tenantID status now)
    (order_desc Session.LastUsedAt Session.ID) join_user
    "count sessions" "list sessions" limit offset.

Definition hash_unique (t : gmap string Session.t) : bool :=
  bool_decide (map_Forall (fun k1 s1 => map_Forall (fun k2 s2 =>
    Session.RefreshTokenHash s1 = Session.RefreshTokenHash s2 -> k1 = k2) t) t).

Definition RotateSession (session : Session.t) (previousHash : string) : M unit :=
  n ← map_err (Errorf "rotate session") (tx_exec (update_table sessions set_sessions
    (fun s => Session.ID s = Session.ID session /\ Session.RefreshTokenHash s = previousHash /\
              Session.RevokedAt s = None /\ Version (Session.fields s) = Version (Session.fields session))
    (fun s => f ← bump (UpdatedAt (Session.fields session)) (UpdatedBy (Session.fields session)) (Session.fields s);
              Some (Session.mk (Session.ID s) (Session.UserID s) (Session.Username s) (Session.UserDisplayName s)
                      (Session.RefreshTokenHash session) (Session.TenantID s) (Session.MembershipID s)
                      (Session.ExpiresAt s) (Session.RevokedAt s) (Session.RevokeReason s)
                      (Session.LastUsedAt session) (Session.ClientIP s) (Session.UserAgent s) f))
    hash_unique));
  requireAffected n.

Definition ScopeSession (sessionID userID tenantID membershipID actor : string) (now : Z) : M unit :=
  n ← map_err (Errorf "scope session to tenant") (tx_exec (update_table sessions set_sessions
    (fun s => Session.ID s = sessionID /\ Session.UserID s = userID /\ Session.RevokedAt s = None /\
              now < Session.ExpiresAt s)
    (fun s => f ← bump now actor (Session.fields s);
              Some (Session.mk (Session.ID s) (Session.UserID s) (Session.Username s) (Session.UserDisplayName s)
                      (Session.RefreshTokenHash s) tenantID membershipID (Session.ExpiresAt s)
                      (Session.RevokedAt s) (Session.RevokeReason s) (Session.LastUsedAt s)
                      (Session.ClientIP s) (Session.UserAgent s) f))
    no_check));
  requireAffected n.

(** [SET revoked_at = ?, revoke_reason = ?, version = version + 1, ..]. *)
Definition revoke_row (now : Z) (reason actor : string) (s : Session.t) : option Session.t :=
  f ← bump now actor (Session.fields s);
  Some (Session.mk (Session.ID s) (Session.UserID s) (Session.Username s) (Session.UserDisplayName s)
          (Session.RefreshTokenHash s) (Session.TenantID s) (Session.MembershipID s) (Session.ExpiresAt s)
          (Some now) reason (Session.LastUsedAt s) (Session.ClientIP s) (Session.UserAgent s) f).

Definition revoke_sessions (p : Session.t -> Prop) `{Hp : !forall s, Decision (p s)} (now : Z) (reason actor : string)
  : DB -> Result (DB * Z) := update_table sessions set_sessions p (revoke_row now reason actor) no_check.

Definition RevokeSession (id userID reason actor : string) (now : Z) : M unit :=
  n ← map_err (Errorf "revoke session") (tx_exec (revoke_sessions
    (fun s => Session.ID s = id /\ Session.UserID s = userID /\ Session.RevokedAt s = None) now reason actor));
  requireAffected n.

Definition RevokeOtherSessions (userID currentSessionID reason actor : string) (now : Z) : M Z :=
  map_err (Errorf "revoke other sessions") (tx_exec (revoke_sessions
    (fun s => Session.UserID s = userID /\ Session.ID s <> currentSessionID /\ Session.RevokedAt s = None /\
              now < Session.ExpiresAt s) now reason actor)).

Definition RevokeUserSessions (userID reason actor : string) (now : Z) : M Z :=
  map_err (Errorf "revoke user sessions") (tx_exec (revoke_sessions
    (fun s => Session.UserID s = userID /\ Session.RevokedAt s = None /\ now < Session.ExpiresAt s)
    now reason actor)).

Definition RevokeSessionByID (id reason actor : string) (version now : Z) : M unit :=
  n ← map_err (Errorf "administratively revoke session") (tx_exec (revoke_sessions
    (fun s => Session.ID s = id /\ Version (Session.fields s) = version /\ Session.RevokedAt s = None)
    now reason actor));
  requireAffected n.

Definition RevokeOwnedSessionByID (id userID reason actor : string) (version now : Z) : M unit :=
  n ← map_err (Errorf "revoke owned session") (tx_exec (revoke_sessions
    (fun s => Session.ID s = id /\ Session.UserID s = userID /\ Version (Session.fields s) = version /\
              Session.RevokedAt s = None) now reason actor));
  requireAffected n.

Definition RevokeTenantSessions (userID tenantID reason actor : string) (now : Z) : M Z :=
  map_err (Errorf "revoke tenant sessions") (db_exec (revoke_sessions
    (fun s => Session.UserID s = userID /\ Session.TenantID s = tenantID /\ Session.RevokedAt s = None)
    now reason actor)).

(** ** Service accounts *)

Definition GetServiceAccount (id : string) : M ServiceAccount.t :=
  get_row service_accounts (fun a => ServiceAccount.ID a = id) "select service account".

Definition accounts_where (keyword status : string) (a : ServiceAccount.t) : Prop :=
  (TrimSpace status <> "" -> ServiceAccount.Status a = TrimSpace status) /\
  (TrimSpace keyword <> "" ->
     let pattern := sql_lower ("%" +:+ TrimSpace keyword +:+ "%") in
     sql_like (sql_lower (ServiceAccount.ClientID a)) pattern = true \/
     sql_like (sql_lower (ServiceAccount.Name a)) pattern = true).
#[global] Instance accounts_where_dec k s a : Decision (accounts_where k s a).
Proof. unfold accounts_where. apply _. Defined.

Definition ListServiceAccounts (keyword status : string) (limit offset : Z) : M (list ServiceAccount.t * Z) :=
  list_rows service_accounts (accounts_where keyword status)
    (order_desc (fun a => CreatedAt (ServiceAccount.fields a)) ServiceAccount.ID) (fun _ a => Some a)
    "count service accounts" "list service accounts" limit offset.

Definition account_id_le (a b : ServiceAccount.t) : Prop :=
  sql_text_le (ServiceAccount.ID a) (ServiceAccount.ID b) = true.
#[global] Instance account_id_le_dec a b : Decision (account_id_le a b).
Proof. unfold account_id_le. apply _. Defined.

(** [sqlx.In] refuses an empty slice. *)
Definition BatchGetServiceAccounts (ids : list string) : M (list ServiceAccount.t) :=
  if decide (ids = [])
  then throw (Errorf "build batch service account query" (ErrorsNew "empty slice passed to 'in' query"))
  else map_err (Errorf "batch get service accounts")
         (db_query (fun _ d => Ok (merge_sort account_id_le
            (sql_rows (fun a => ServiceAccount.ID a ∈ ids) (service_accounts d))))).

Definition insert_account (a : ServiceAccount.t) (d : DB) : Result (DB * unit) :=
  if decide (is_Some (service_accounts d !! ServiceAccount.ID a) \/
             clash ServiceAccount.ClientID a (service_accounts d))
  then violation UniqueViolation
  else let row := ServiceAccount.mk (ServiceAccount.ID a) (ServiceAccount.ClientID a) (ServiceAccount.Name a)
                    (ServiceAccount.SecretHash a) (ServiceAccount.Status a) (ServiceAccount.AudiencesJSON a)
                    [] (ServiceAccount.fields a) in
       Ok (set_service_accounts (<[ServiceAccount.ID a := row]> (service_accounts d)) d, tt).

Definition CreateServiceAccount (account : ServiceAccount.t) : M unit :=
  map_err (conflict_or "insert service account") (tx_exec (insert_account account)).

Definition ServiceAccountByClientID (clientID : string) : M ServiceAccount.t :=
  get_row service_accounts (fun a => ServiceAccount.ClientID a = clientID) "select service account by client".

Definition UpdateServiceAccountStatus (id status actor : string) (version now : Z) : M unit :=
  n ← map_err (Errorf "update service account status") (tx_exec (update_table service_accounts set_service_accounts
    (fun a => ServiceAccount.ID a = id /\ Version (ServiceAccount.fields a) = version)
    (fun a => f ← bump now actor (ServiceAccount.fields a);
              Some (ServiceAccount.mk (ServiceAccount.ID a) (ServiceAccount.ClientID a) (ServiceAccount.Name a)
                      (ServiceAccount.SecretHash a) status (ServiceAccount.AudiencesJSON a)
                      (ServiceAccount.Audiences a) f))
    no_check));
  requireAffected n.

Definition RotateServiceAccountSecret (id secretHash actor : string) (version now : Z) : M unit :=
  n ← map_err (Errorf "rotate service account secret") (tx_exec (update_table service_accounts set_service_accounts
    (fun a => ServiceAccount.ID a = id /\ Version (ServiceAccount.fields a) = version)
    (fun a => f ← bump now actor (ServiceAccount.fields a);
              Some (ServiceAccount.mk (ServiceAccount.ID a) (ServiceAccount.ClientID a) (ServiceAccount.Name a)
                      secretHash (ServiceAccount.Status a) (ServiceAccount.AudiencesJSON a)
                      (ServiceAccount.Audiences a) f))
    no_check));
  requireAffected n.
End repository.
End Repository.
