(* ===== verification/MFARepository.v ===== *)
(** * The repository: MFA and password-reset challenges

    [internal/identity/mfa_repository.go] and
    [internal/identity/password_reset_repository.go]; conventions as in
    [Repository.v]. *)

From S2P Require Import Prelude.
From S2P Require Import GoStrings.
From S2P Require Import AppError.
From S2P Require Import Platform.
From S2P Require Import Table.
From S2P Require Import Model.
From S2P Require Import Runtime.
From S2P Require Import Repository.
Open Scope Z_scope.

Module MFARepository.
Section mfa_repository.
Context {env : Env} {sql : SQLServer} {uc : UnicodeCase}.

Definition GetMFA (userID : string) : M MFAEnrollment.t :=
  get_row user_mfa (fun m => MFAEnrollment.UserID m = userID) "select user mfa".

(** The [CHECK] constraints of [user_mfa]. *)
Definition mfa_check (m : MFAEnrollment.t) : Prop :=
  MFAEnrollment.Method m = "totp" /\
  MFAEnrollment.Status m ∈ [MFAStatusPending; MFAStatusEnabled; MFAStatusDisabled].
#[global] Instance mfa_check_dec m : Decision (mfa_check m).
Proof. unfold mfa_check. apply _. Defined.

Definition insert_mfa (m : MFAEnrollment.t) (d : DB) : Result (DB * unit) :=
  if decide (~ mfa_check m) then violation CheckViolation
  else if decide (is_Some (user_mfa d !! MFAEnrollment.UserID m)) then violation UniqueViolation
  else if decide (is_Some (users d !! MFAEnrollment.UserID m)) then
    let row := MFAEnrollment.mk (MFAEnrollment.UserID m) (MFAEnrollment.Method m)
                 (MFAEnrollment.SecretCiphertext m) (MFAEnrollment.Status m) (MFAEnrollment.LastUsedStep m)
                 None (MFAEnrollment.fields m) in
    Ok (set_user_mfa (<[MFAEnrollment.UserID m := row]> (user_mfa d)) d, tt)
  else violation ForeignKeyViolation.

Definition InsertMFA (enrollment : MFAEnrollment.t) : M unit :=
  map_err (Errorf "insert user mfa") (tx_exec (insert_mfa enrollment)).

(** [UPDATE user_mfa SET .., version = version + 1, updated_at = ?, updated_by = ?]. *)
Definition mfa_set (secret : option string) (status : string) (step : Z) (enabledAt : option Z) (now : Z) (actor : string)
    (m : MFAEnrollment.t) : option MFAEnrollment.t :=
  f ← bump now actor (MFAEnrollment.fields m);
  Some (MFAEnrollment.mk (MFAEnrollment.UserID m) (MFAEnrollment.Method m)
          (default (MFAEnrollment.SecretCiphertext m) secret) status step enabledAt f).

Definition update_mfa (p : MFAEnrollment.t -> Prop) `{Hp : !forall m, Decision (p m)}
    (f : MFAEnrollment.t -> option MFAEnrollment.t) : DB -> Result (DB * Z) :=
  update_table user_mfa set_user_mfa p f no_check.

Definition ResetPendingMFA (userID secretCiphertext actor : string) (version now : Z) : M unit :=
  n ← map_err (Errorf "reset pending mfa") (tx_exec (update_mfa
    (fun m => MFAEnrollment.UserID m = userID /\ MFAEnrollment.Status m <> MFAStatusEnabled /\
              Version (MFAEnrollment.fields m) = version)
    (fun m => mfa_set (Some secretCiphertext) MFAStatusPending (-1) None now actor m)));
  requireAffected n.

Definition EnableMFA (userID : string) (step : Z) (actor : string) (version now : Z) : M unit :=
  n ← map_err (Errorf "enable mfa") (tx_exec (update_mfa
    (fun m => MFAEnrollment.UserID m = userID /\ MFAEnrollment.Status m = MFAStatusPending /\
              Version (MFAEnrollment.fields m) = version)
    (fun m => mfa_set None MFAStatusEnabled step (Some now) now actor m)));
  requireAffected n.

Definition DisableMFA (userID : string) (step : Z) (actor : string) (version now : Z) : M unit :=
  n ← map_err (Errorf "disable mfa") (tx_exec (update_mfa
    (fun m => MFAEnrollment.UserID m = userID /\ MFAEnrollment.Status m = MFAStatusEnabled /\
              MFAEnrollment.LastUsedStep m < step /\ Version (MFAEnrollment.fields m) = version)
    (fun m => mfa_set None MFAStatusDisabled step (MFAEnrollment.EnabledAt m) now actor m)));
  requireAffected n.

Definition AdminResetMFA (userID actor : string) (expectedVersion now : Z) : M unit :=
  n ← map_err (Errorf "administratively reset mfa") (tx_exec (update_mfa
    (fun m => MFAEnrollment.UserID m = userID /\ MFAEnrollment.Status m = MFAStatusEnabled /\
              Version (MFAEnrollment.fields m) = expectedVersion)
    (fun m => mfa_set None MFAStatusDisabled (-1) None now actor m)));
  requireAffected n.

Definition delete_codes (userID : string) : DB -> Result (DB * Z) :=
  delete_table mfa_recovery_codes set_recovery (fun c => MFARecoveryCode.UserID c = userID).

Definition insert_code (c : MFARecoveryCode.t) (d : DB) : Result (DB * unit) :=
  if decide (is_Some (mfa_recovery_codes d !! MFARecoveryCode.ID c) \/
             clash (fun v => (MFARecoveryCode.UserID v, MFARecoveryCode.CodeHash v)) c (mfa_recovery_codes d))
  then violation UniqueViolation
  else if decide (is_Some (users d !! MFARecoveryCode.UserID c)) then
    let row := MFARecoveryCode.mk (MFARecoveryCode.ID c) (MFARecoveryCode.UserID c)
                 (MFARecoveryCode.CodeHash c) None (MFARecoveryCode.fields c) in
    Ok (set_recovery (<[MFARecoveryCode.ID c := row]> (mfa_recovery_codes d)) d, tt)
  else violation ForeignKeyViolation.

(** The loop [for _, code := range codes]. *)
Fixpoint insert_codes (codes : list MFARecoveryCode.t) : M unit :=
  match codes with
  | [] => mret tt
  | code :: rest =>
      map_err (Errorf "insert recovery code") (tx_exec (insert_code code));; insert_codes rest
  end.

Definition ReplaceRecoveryCodes (codes : list MFARecoveryCode.t) : M unit :=
  match codes with
  | [] => throw (ErrorsNew "replace recovery codes: codes are required")
  | c0 :: _ =>
      map_err (Errorf "delete recovery codes") (tx_exec (delete_codes (MFARecoveryCode.UserID c0)));;
      insert_codes codes
  end.

Definition DeleteRecoveryCodes (userID : string) : M unit :=
  map_err (Errorf "delete recovery codes") (tx_exec (delete_codes userID));; mret tt.

Definition CountRecoveryCodes (userID : string) : M Z :=
  map_err (Errorf "count recovery codes") (db_query (fun _ d =>
    Ok (sql_count (fun c => MFARecoveryCode.UserID c = userID /\ MFARecoveryCode.ConsumedAt c = None)
          (mfa_recovery_codes d)))).

Definition AdvanceMFAStep (userID : string) (step : Z) (actor : string) (now : Z) : M unit :=
  n ← map_err (Errorf "advance mfa step") (tx_exec (update_mfa
    (fun m => MFAEnrollment.UserID m = userID /\ MFAEnrollment.Status m = MFAStatusEnabled /\
              MFAEnrollment.LastUsedStep m < step)
    (fun m => mfa_set None (MFAEnrollment.Status m) step (MFAEnrollment.EnabledAt m) now actor m)));
  requireAffected n.

Definition AdvanceMFAStepAtVersion (userID : string) (step : Z) (actor : string) (expectedVersion now : Z) : M unit :=
  n ← map_err (Errorf "advance mfa step at version") (tx_exec (update_mfa
    (fun m => MFAEnrollment.UserID m = userID /\ MFAEnrollment.Status m = MFAStatusEnabled /\
              MFAEnrollment.LastUsedStep m < step /\ Version (MFAEnrollment.fields m) = expectedVersion)
    (fun m => mfa_set None (MFAEnrollment.Status m) step (MFAEnrollment.EnabledAt m) now actor m)));
  requireAffected n.

Definition ConsumeRecoveryCode (userID codeHash actor : string) (now : Z) : M unit :=
  n ← map_err (Errorf "consume recovery code") (tx_exec (update_table mfa_recovery_codes set_recovery
    (fun c => MFARecoveryCode.UserID c = userID /\ MFARecoveryCode.CodeHash c = codeHash /\
              MFARecoveryCode.ConsumedAt c = None)
    (fun c => f ← bump now actor (MFARecoveryCode.fields c);
              Some (MFARecoveryCode.mk (MFARecoveryCode.ID c) (MFARecoveryCode.UserID c)
                      (MFARecoveryCode.CodeHash c) (Some now) f))
    no_check));
  requireAffected n.

Definition insert_mfa_challenge (c : MFALoginChallenge.t) (d : DB) : Result (DB * unit) :=
  if decide (is_Some (mfa_login_challenges d !! MFALoginChallenge.TokenHash c)) then violation UniqueViolation
  else if decide (is_Some (users d !! MFALoginChallenge.UserID c)) then
    let row := MFALoginChallenge.mk (MFALoginChallenge.TokenHash c) (MFALoginChallenge.UserID c)
                 (MFALoginChallenge.ClientIP c) (MFALoginChallenge.UserAgent c) (MFALoginChallenge.ExpiresAt c)
                 None (MFALoginChallenge.fields c) in
    Ok (set_mfa_challenges (<[MFALoginChallenge.TokenHash c := row]> (mfa_login_challenges d)) d, tt)
  else violation ForeignKeyViolation.

Definition InsertMFAChallenge (challenge : MFALoginChallenge.t) : M unit :=
  map_err (Errorf "insert mfa login challenge") (tx_exec (insert_mfa_challenge challenge)).

Definition GetMFAChallenge (tokenHash : string) : M MFALoginChallenge.t :=
  get_row mfa_login_challenges (fun c => MFALoginChallenge.TokenHash c = tokenHash) "select mfa login challenge".

Definition ConsumeMFAChallenge (tokenHash actor : string) (version now : Z) : M unit :=
  n ← map_err (Errorf "consume mfa login challenge") (tx_exec (update_table mfa_login_challenges set_mfa_challenges
    (fun c => MFALoginChallenge.TokenHash c = tokenHash /\ MFALoginChallenge.ConsumedAt c = None /\
              now < MFALoginChallenge.ExpiresAt c /\ Version (MFALoginChallenge.fields c) = version)
    (fun c => f ← bump now actor (MFALoginChallenge.fields c);
              Some (MFALoginChallenge.mk (MFALoginChallenge.TokenHash c) (MFALoginChallenge.UserID c)
                      (MFALoginChallenge.ClientIP c) (MFALoginChallenge.UserAgent c)
                      (MFALoginChallenge.ExpiresAt c) (Some now) f))
    no_check));
  requireAffected n.

Definition DeleteExpiredMFAChallengesBefore (before limit : Z) : M Z :=
  hashes ← Repository.select_keys mfa_login_challenges (fun c => MFALoginChallenge.ExpiresAt c < before)
             MFALoginChallenge.ExpiresAt MFALoginChallenge.TokenHash limit;
  if decide (hashes = []) then mret 0
  else map_err (Errorf "delete expired mfa challenges") (db_exec (delete_table mfa_login_challenges set_mfa_challenges
         (fun c => MFALoginChallenge.TokenHash c ∈ hashes /\ MFALoginChallenge.ExpiresAt c < before))).

(** ** Password-reset challenges *)

Definition GetPasswordResetChallenge (tokenHash : string) : M PasswordResetChallenge.t :=
  get_row password_reset_challenges (fun c => PasswordResetChallenge.TokenHash c = tokenHash)
    "select password reset challenge".

Definition consume_reset (now : Z) (actor : string) (c : PasswordResetChallenge.t) : option PasswordResetChallenge.t :=
  f ← bump now actor (PasswordResetChallenge.fields c);
  Some (PasswordResetChallenge.mk (PasswordResetChallenge.TokenHash c) (PasswordResetChallenge.UserID c)
          (PasswordResetChallenge.Reason c) (PasswordResetChallenge.ExpiresAt c) (Some now) f).

Definition InvalidatePasswordResetChallenges (userID actor : string) (now : Z) : M unit :=
  map_err (Errorf "invalidate password reset challenges") (tx_exec (update_table
    password_reset_challenges set_reset_challenges
    (fun c => PasswordResetChallenge.UserID c = userID /\ PasswordResetChallenge.ConsumedAt c = None)
    (consume_reset now actor) no_check));;
  mret tt.

Definition insert_reset (c : PasswordResetChallenge.t) (d : DB) : Result (DB * unit) :=
  if decide (is_Some (password_reset_challenges d !! PasswordResetChallenge.TokenHash c)) then violation UniqueViolation
  else if decide (is_Some (users d !! PasswordResetChallenge.UserID c)) then
    let row := PasswordResetChallenge.mk (PasswordResetChallenge.TokenHash c) (PasswordResetChallenge.UserID c)
                 (PasswordResetChallenge.Reason c) (PasswordResetChallenge.ExpiresAt c) None
                 (PasswordResetChallenge.fields c) in
    Ok (set_reset_challenges (<[PasswordResetChallenge.TokenHash c := row]> (password_reset_challenges d)) d, tt)
  else violation ForeignKeyViolation.

Definition InsertPasswordResetChallenge (challenge : PasswordResetChallenge.t) : M unit :=
  map_err (Errorf "insert password reset challenge") (tx_exec (insert_reset challenge)).

Definition ConsumePasswordResetChallenge (tokenHash : string) (expectedVersion : Z) (actor : string) (now : Z) : M unit :=
  n ← map_err (Errorf "consume password reset challenge") (tx_exec (update_table
    password_reset_challenges set_reset_challenges
    (fun c => PasswordResetChallenge.TokenHash c = tokenHash /\ PasswordResetChallenge.ConsumedAt c = None /\
              now < PasswordResetChallenge.ExpiresAt c /\ Version (PasswordResetChallenge.fields c) = expectedVersion)
    (consume_reset now actor) no_check));
  requireAffected n.

Definition DeleteExpiredPasswordResetChallengesBefore (before limit : Z) : M Z :=
  hashes ← Repository.select_keys password_reset_challenges (fun c => PasswordResetChallenge.ExpiresAt c < before)
             PasswordResetChallenge.ExpiresAt PasswordResetChallenge.TokenHash limit;
  if decide (hashes = []) then mret 0
  else map_err (Errorf "delete expired password reset challenges") (db_exec (delete_table
         password_reset_challenges set_reset_challenges
         (fun c => PasswordResetChallenge.TokenHash c ∈ hashes /\ PasswordResetChallenge.ExpiresAt c < before))).
End mfa_repository.
End MFARepository.
