(* ===== verification/Evolution.v ===== *)
(** * How the tables evolve

    The guarantee every write of the repository gives: rows keep their
    identity, a changed row has a strictly larger version, revoked sessions and
    consumed challenges are never changed again, outbox events are never lost,
    and the schema invariant of [Model.v] is kept. *)

From S2P Require Import Prelude.
From S2P Require Import GoStrings.
From S2P Require Import AppError.
From S2P Require Import Platform.
From S2P Require Import Table.
From S2P Require Import Model.
From S2P Require Import Runtime.
From S2P Require Import Repository.
From S2P Require Import MFARepository.
Open Scope Z_scope.

(** ** Rows *)
Section rows.
Context {A K : Type} (key : A -> K) (fl : A -> Fields) (frozen : A -> Prop).

(** [r'] is a later state of the row [r]. *)
Definition evolves (r r' : A) : Prop :=
  key r' = key r /\
  (r' = r \/ (Version (fl r) < Version (fl r') /\ CreatedAt (fl r') = CreatedAt (fl r) /\
              CreatedBy (fl r') = CreatedBy (fl r) /\ ~ frozen r)).

#[global] Instance evolves_preorder : PreOrder evolves.
Proof.
  split.
  - intros r. split; auto.
  - intros r1 r2 r3 [Hk1 H1] [Hk2 H2]. split; [congruence|].
    destruct H1 as [->|(V1 & C1 & B1 & F1)], H2 as [->|(V2 & C2 & B2 & F2)]; [auto|auto|auto|].
    right. split_and!; [lia|congruence|congruence|done].
Qed.

Lemma evolves_frozen r r' : evolves r r' -> frozen r -> r' = r.
Proof. intros [_ [->|(_ & _ & _ & Hf)]]; [done|]. by intros. Qed.

Lemma evolves_version r r' : evolves r r' -> Version (fl r) <= Version (fl r') /\ (Version (fl r') = Version (fl r) -> r' = r).
Proof. intros [_ [->|(V & _)]]; split; (done || lia || (intros; lia)). Qed.

Lemma evolves_bump now actor r r' f :
  bump now actor (fl r) = Some f -> fl r' = f -> key r' = key r -> ~ frozen r -> evolves r r'.
Proof.
  intros [-> Hv]%bump_Some Hf Hk Hfr. split; [done|]. right. rewrite Hf. simpl. split_and!; [lia|done..].
Qed.
End rows.

(** Every row of [t] is still in [t'], in a later state. *)
Definition rows_evolve {A} (R : relation A) (t t' : gmap string A) : Prop :=
  forall k r, t !! k = Some r -> exists r', t' !! k = Some r' /\ R r r'.

#[global] Instance rows_evolve_preorder {A} (R : relation A) {HR : PreOrder R} : PreOrder (rows_evolve R).
Proof.
  split.
  - intros t k r Hk. exists r. split; [done|]. reflexivity.
  - intros t1 t2 t3 H12 H23 k r Hk. destruct (H12 k r Hk) as (r2 & H2 & R12).
    destruct (H23 k r2 H2) as (r3 & H3 & R23). exists r3. split; [done|]. by etrans.
Qed.

Lemma rows_evolve_update {A} (R : relation A) {HR : PreOrder R} (p : A -> Prop) `{Hp : !forall r, Decision (p r)} f t t' n :
  (forall r r', p r -> f r = Some r' -> R r r') -> sql_update p f t = Some (t', n) -> rows_evolve R t t'.
Proof.
  intros Hf Hu k r Hk. destruct (sql_update_forward _ _ _ _ _ _ _ Hu Hk) as (r' & Hk' & Hr).
  exists r'. split; [done|]. unfold update_row in Hr. case_decide; [by apply Hf|]. by simplify_eq.
Qed.

Lemma rows_evolve_insert {A} (R : relation A) {HR : PreOrder R} t k r :
  t !! k = None -> rows_evolve R t (<[k := r]> t).
Proof.
  intros Hn k' r' Hk'. exists r'. split; [|reflexivity].
  rewrite lookup_insert_ne; [done|]. intros ->. congruence.
Qed.

(** ** Tables *)

Definition user_evolves : relation User.t :=
  evolves (fun u => (User.ID u, User.Username u)) User.fields (fun _ => False).
Definition credential_evolves : relation Credential.t :=
  evolves (fun c => (Credential.ID c, Credential.UserID c, Credential.Type_ c, Credential.Status c))
    Credential.fields (fun _ => False).
Definition session_evolves : relation Session.t :=
  evolves (fun s => (Session.ID s, Session.UserID s, Session.ExpiresAt s, Session.ClientIP s, Session.UserAgent s))
    Session.fields (fun s => Session.RevokedAt s <> None).
Definition account_evolves : relation ServiceAccount.t :=
  evolves (fun a => (ServiceAccount.ID a, ServiceAccount.ClientID a, ServiceAccount.Name a, ServiceAccount.AudiencesJSON a))
    ServiceAccount.fields (fun _ => False).
Definition mfa_evolves : relation MFAEnrollment.t :=
  evolves (fun m => (MFAEnrollment.UserID m, MFAEnrollment.Method m)) MFAEnrollment.fields (fun _ => False).
Definition challenge_evolves : relation MFALoginChallenge.t :=
  evolves (fun c => (MFALoginChallenge.TokenHash c, MFALoginChallenge.UserID c, MFALoginChallenge.ExpiresAt c))
    MFALoginChallenge.fields (fun c => MFALoginChallenge.ConsumedAt c <> None).
Definition reset_evolves : relation PasswordResetChallenge.t :=
  evolves (fun c => (PasswordResetChallenge.TokenHash c, PasswordResetChallenge.UserID c,
                     PasswordResetChallenge.Reason c, PasswordResetChallenge.ExpiresAt c))
    PasswordResetChallenge.fields (fun c => PasswordResetChallenge.ConsumedAt c <> None).

Record db_evolves (d d' : DB) : Prop := {
  ev_users : rows_evolve user_evolves (users d) (users d');
  ev_credentials : rows_evolve credential_evolves (credentials d) (credentials d');
  ev_sessions : rows_evolve session_evolves (sessions d) (sessions d');
  ev_accounts : rows_evolve account_evolves (service_accounts d) (service_accounts d');
  ev_mfa : rows_evolve mfa_evolves (user_mfa d) (user_mfa d');
  ev_challenges : rows_evolve challenge_evolves (mfa_login_challenges d) (mfa_login_challenges d');
  ev_resets : rows_evolve reset_evolves (password_reset_challenges d) (password_reset_challenges d');
  ev_outbox : outbox_events d ⊆ outbox_events d';
}.

#[global] Instance db_evolves_preorder : PreOrder db_evolves.
Proof.
  split.
  - intros d. split; reflexivity.
  - intros d1 d2 d3 [] []. split; etrans; eassumption.
Qed.

Section guarantee.
Context {sql : SQLServer}.

(** What one write of the repository guarantees. *)
Definition safe_step (d d' : DB) : Prop := schema_ok d -> db_evolves d d' /\ schema_ok d'.

#[global] Instance safe_step_preorder : PreOrder safe_step.
Proof.
  split.
  - intros d Hd. split; [reflexivity|done].
  - intros d1 d2 d3 H12 H23 Hd. destruct (H12 Hd) as [E12 Hd2]. destruct (H23 Hd2) as [E23 Hd3].
    split; [by etrans|done].
Qed.

(** The server enforces the constraints of the migrations: whatever it shows to
    a statement satisfies them. *)
Class Enforced {env : Env} : Prop := enforced : forall i d, schema_ok (env_interfere i d).

(** What one batch of the retention jobs guarantees. *)
Record db_cleans (d d' : DB) : Prop := {
  cl_users : users d' = users d;
  cl_credentials : credentials d' = credentials d;
  cl_sessions : sessions d' ⊆ sessions d;
  cl_accounts : service_accounts d' = service_accounts d;
  cl_mfa : user_mfa d' = user_mfa d;
  cl_codes : mfa_recovery_codes d' = mfa_recovery_codes d;
  cl_challenges : mfa_login_challenges d' ⊆ mfa_login_challenges d;
  cl_resets : password_reset_challenges d' ⊆ password_reset_challenges d;
  cl_outbox : outbox_events d' = outbox_events d;
}.

(** *** Foreign keys *)

Lemma fk_target {A} (ref : A -> string) (t : gmap string A) (us us' : gmap string User.t) :
  (forall k, is_Some (us !! k) -> is_Some (us' !! k)) ->
  map_Forall (fun _ r => is_Some (us !! ref r)) t -> map_Forall (fun _ r => is_Some (us' !! ref r)) t.
Proof using. intros Hk Hf k r Hr. apply Hk. by eapply Hf. Qed.

Lemma fk_update {A} (ref : A -> string) (us : gmap string User.t) (p : A -> Prop) `{Hp : !forall r, Decision (p r)} f t t' n :
  (forall r r', p r -> f r = Some r' -> ref r' = ref r) -> sql_update p f t = Some (t', n) ->
  map_Forall (fun _ r => is_Some (us !! ref r)) t -> map_Forall (fun _ r => is_Some (us !! ref r)) t'.
Proof using.
  intros Hf Hu Hfk k r' Hr'. destruct (sql_update_backward _ _ _ _ _ _ _ Hu Hr') as (r & Hr & E).
  unfold update_row in E. specialize (Hfk k r Hr). simpl in Hfk.
  case_decide; simplify_eq; [by rewrite (Hf r r')|done].
Qed.

Lemma fk_subset {A} (ref : A -> string) (us : gmap string User.t) (t t' : gmap string A) :
  t' ⊆ t -> map_Forall (fun _ r => is_Some (us !! ref r)) t -> map_Forall (fun _ r => is_Some (us !! ref r)) t'.
Proof using. intros Hs Hf k r Hr. eapply (Hf k). by eapply lookup_weaken. Qed.

Lemma insert_keeps {A} (us : gmap string A) k v k' : is_Some (us !! k') -> is_Some (<[k := v]> us !! k').
Proof using. intros. by apply lookup_insert_is_Some'; right. Qed.

Lemma update_keeps {A} (p : A -> Prop) `{Hp : !forall r, Decision (p r)} f t t' n k :
  sql_update p f t = Some (t', n) -> is_Some (t !! k) -> is_Some (t' !! k).
Proof using.
  intros Hu [r Hr]. destruct (sql_update_forward _ _ _ _ _ _ _ Hu Hr) as (r' & Hr' & _). eauto.
Qed.

Lemma update_table_Ok {A} (get : DB -> gmap string A) set (p : A -> Prop) `{Hp : !forall r, Decision (p r)} f ok d d' n :
  update_table get set p f ok d = Ok (d', n) ->
  exists t', sql_update p f (get d) = Some (t', n) /\ ok t' = true /\ d' = set t' d.
Proof using.
  unfold update_table. destruct (sql_update _ _ _) as [[t' n']|] eqn:E; [|done].
  destruct (ok t') eqn:Eo; [|done]. intros [= <- <-]. eauto.
Qed.

(** *** One lemma per table for updates *)

Ltac evolve_rest := solve [reflexivity].
Ltac schema_rest Hd := solve [apply Hd].

Lemma update_users_safe p `{Hp : !forall u, Decision (p u)} f ok d d' n :
  update_table users set_users p f ok d = Ok (d', n) ->
  (forall u u', p u -> f u = Some u' -> user_evolves u u') ->
  (forall t', unique_on (fun u => sql_lower (User.Email u)) (users d) -> sql_update p f (users d) = Some (t', n) ->
     ok t' = true -> unique_on (fun u => sql_lower (User.Email u)) t') ->
  safe_step d d'.
Proof using.
  intros (t' & Hu & Hok & ->)%update_table_Ok Hev Hemail Hd.
  assert (forall u u', p u -> f u = Some u' -> User.ID u' = User.ID u /\ User.Username u' = User.Username u) as Hkey.
  { intros u u' Pu Fu. destruct (Hev u u' Pu Fu) as [[= ? ?] _]. done. }
  assert (forall k, is_Some (users d !! k) -> is_Some (t' !! k)) as Hk by (intros k; by eapply update_keeps).
  split.
  - split; simpl; try evolve_rest. eapply rows_evolve_update; [apply evolves_preorder|exact Hev|exact Hu].
  - split; simpl; try schema_rest Hd; try solve [eapply fk_target; [exact Hk|apply Hd]].
    + eapply keyed_by_update; [|exact Hu|apply Hd]. intros; by apply Hkey.
    + eapply unique_on_update; [|exact Hu|apply Hd]. intros u u' Pu Fu. by rewrite (proj2 (Hkey u u' Pu Fu)).
    + by apply Hemail; [apply Hd|..].
Qed.

Lemma update_credentials_safe p `{Hp : !forall u, Decision (p u)} f d d' n :
  update_table credentials set_credentials p f no_check d = Ok (d', n) ->
  (forall c c', p c -> f c = Some c' -> credential_evolves c c') -> safe_step d d'.
Proof using.
  intros (t' & Hu & _ & ->)%update_table_Ok Hev Hd.
  assert (forall c c', p c -> f c = Some c' -> Credential.ID c' = Credential.ID c /\
            Credential.UserID c' = Credential.UserID c /\ Credential.Type_ c' = Credential.Type_ c) as Hkey.
  { intros c c' Pc Fc. destruct (Hev c c' Pc Fc) as [[= ? ? ? ?] _]. done. }
  split.
  - split; simpl; try evolve_rest. eapply rows_evolve_update; [apply evolves_preorder|exact Hev|exact Hu].
  - split; simpl; try schema_rest Hd.
    + eapply keyed_by_update; [|exact Hu|apply Hd]. intros; by apply Hkey.
    + eapply unique_on_update; [|exact Hu|apply Hd]. intros c c' Pc Fc. by destruct (Hkey c c' Pc Fc) as (_ & -> & ->).
    + eapply fk_update; [|exact Hu|apply Hd]. intros; by apply Hkey.
Qed.

Lemma update_sessions_safe p `{Hp : !forall u, Decision (p u)} f ok d d' n :
  update_table sessions set_sessions p f ok d = Ok (d', n) ->
  (forall s s', p s -> f s = Some s' -> session_evolves s s') ->
  (forall t', unique_on Session.RefreshTokenHash (sessions d) -> sql_update p f (sessions d) = Some (t', n) ->
     ok t' = true -> unique_on Session.RefreshTokenHash t') ->
  safe_step d d'.
Proof using.
  intros (t' & Hu & Hok & ->)%update_table_Ok Hev Hhash Hd.
  assert (forall s s', p s -> f s = Some s' -> Session.ID s' = Session.ID s /\ Session.UserID s' = Session.UserID s) as Hkey.
  { intros s s' Ps Fs. destruct (Hev s s' Ps Fs) as [[= ? ? ? ? ?] _]. done. }
  split.
  - split; simpl; try evolve_rest. eapply rows_evolve_update; [apply evolves_preorder|exact Hev|exact Hu].
  - split; simpl; try schema_rest Hd.
    + eapply keyed_by_update; [|exact Hu|apply Hd]. intros; by apply Hkey.
    + by apply Hhash; [apply Hd|..].
    + eapply fk_update; [|exact Hu|apply Hd]. intros; by apply Hkey.
Qed.

Lemma update_accounts_safe p `{Hp : !forall u, Decision (p u)} f d d' n :
  update_table service_accounts set_service_accounts p f no_check d = Ok (d', n) ->
  (forall a a', p a -> f a = Some a' -> account_evolves a a') -> safe_step d d'.
Proof using.
  intros (t' & Hu & _ & ->)%update_table_Ok Hev Hd.
  assert (forall a a', p a -> f a = Some a' -> ServiceAccount.ID a' = ServiceAccount.ID a /\
            ServiceAccount.ClientID a' = ServiceAccount.ClientID a) as Hkey.
  { intros a a' Pa Fa. destruct (Hev a a' Pa Fa) as [[= ? ? ? ?] _]. done. }
  split.
  - split; simpl; try evolve_rest. eapply rows_evolve_update; [apply evolves_preorder|exact Hev|exact Hu].
  - split; simpl; try schema_rest Hd.
    + eapply keyed_by_update; [|exact Hu|apply Hd]. intros; by apply Hkey.
    + eapply unique_on_update; [|exact Hu|apply Hd]. intros; by apply Hkey.
Qed.

Lemma update_mfa_safe p `{Hp : !forall u, Decision (p u)} f d d' n :
  MFARepository.update_mfa p f d = Ok (d', n) ->
  (forall m m', p m -> f m = Some m' -> mfa_evolves m m') -> safe_step d d'.
Proof using.
  intros (t' & Hu & _ & ->)%update_table_Ok Hev Hd.
  assert (forall m m', p m -> f m = Some m' -> MFAEnrollment.UserID m' = MFAEnrollment.UserID m) as Hkey.
  { intros m m' Pm Fm. destruct (Hev m m' Pm Fm) as [[= ? ?] _]. done. }
  split.
  - split; simpl; try evolve_rest. eapply rows_evolve_update; [apply evolves_preorder|exact Hev|exact Hu].
  - split; simpl; try schema_rest Hd.
    + eapply keyed_by_update; [|exact Hu|apply Hd]. intros; by apply Hkey.
    + eapply fk_update; [|exact Hu|apply Hd]. intros; by apply Hkey.
Qed.

Lemma update_codes_safe p `{Hp : !forall u, Decision (p u)} f d d' n :
  update_table mfa_recovery_codes set_recovery p f no_check d = Ok (d', n) ->
  (forall c c', p c -> f c = Some c' -> MFARecoveryCode.ID c' = MFARecoveryCode.ID c /\
     MFARecoveryCode.UserID c' = MFARecoveryCode.UserID c /\ MFARecoveryCode.CodeHash c' = MFARecoveryCode.CodeHash c) ->
  safe_step d d'.
Proof using.
  intros (t' & Hu & _ & ->)%update_table_Ok Hkey Hd. split.
  - split; simpl; evolve_rest.
  - split; simpl; try schema_rest Hd.
    + eapply keyed_by_update; [|exact Hu|apply Hd]. intros; by apply Hkey.
    + eapply unique_on_update; [|exact Hu|apply Hd]. intros c c' Pc Fc. by destruct (Hkey c c' Pc Fc) as (_ & -> & ->).
    + eapply fk_update; [|exact Hu|apply Hd]. intros; by apply Hkey.
Qed.

Lemma update_challenges_safe p `{Hp : !forall u, Decision (p u)} f d d' n :
  update_table mfa_login_challenges set_mfa_challenges p f no_check d = Ok (d', n) ->
  (forall c c', p c -> f c = Some c' -> challenge_evolves c c') -> safe_step d d'.
Proof using.
  intros (t' & Hu & _ & ->)%update_table_Ok Hev Hd. split.
  - split; simpl; try evolve_rest. eapply rows_evolve_update; [apply evolves_preorder|exact Hev|exact Hu].
  - split; simpl; try schema_rest Hd.
    + eapply keyed_by_update; [|exact Hu|apply Hd].
      intros c c' Pc Fc. by destruct (Hev c c' Pc Fc) as [[= ? ? ?] _].
    + eapply fk_update; [|exact Hu|apply Hd].
      intros c c' Pc Fc. by destruct (Hev c c' Pc Fc) as [[= ? ? ?] _].
Qed.

Lemma update_resets_safe p `{Hp : !forall u, Decision (p u)} f d d' n :
  update_table password_reset_challenges set_reset_challenges p f no_check d = Ok (d', n) ->
  (forall c c', p c -> f c = Some c' -> reset_evolves c c') -> safe_step d d'.
Proof using.
  intros (t' & Hu & _ & ->)%update_table_Ok Hev Hd. split.
  - split; simpl; try evolve_rest. eapply rows_evolve_update; [apply evolves_preorder|exact Hev|exact Hu].
  - split; simpl; try schema_rest Hd.
    + eapply keyed_by_update; [|exact Hu|apply Hd].
      intros c c' Pc Fc. by destruct (Hev c c' Pc Fc) as [[= ? ? ? ?] _].
    + eapply fk_update; [|exact Hu|apply Hd].
      intros c c' Pc Fc. by destruct (Hev c c' Pc Fc) as [[= ? ? ? ?] _].
Qed.
End guarantee.
