(* ===== verification/Guarantee.v ===== *)
(** * What the repository guarantees

    Every write of the repository is a [safe_step] (see [Evolution.v]), as a
    statement of a transaction ([TxSteps]) or on its own ([Steps]); reads make
    no step.  The lemmas are hints of the tactics [solve_txsteps] and
    [solve_steps], which follow the structure of the service code. *)

From S2P Require Import Prelude.
From S2P Require Import GoStrings.
From S2P Require Import AppError.
From S2P Require Import Platform.
From S2P Require Import Table.
From S2P Require Import Model.
From S2P Require Import Runtime.
From S2P Require Import Repository.
From S2P Require Import MFARepository.
From S2P Require Import Evolution.
Open Scope Z_scope.

Section inserts.
Context {env : Env} {sql : SQLServer} {uc : UnicodeCase}.

Ltac evolve_rest := solve [reflexivity].
Ltac schema_rest Hd := solve [apply Hd].

Lemma fk_insert {A} (ref : A -> string) (us : gmap string User.t) (t : gmap string A) k r :
  is_Some (us !! ref r) -> map_Forall (fun _ r => is_Some (us !! ref r)) t ->
  map_Forall (fun _ r => is_Some (us !! ref r)) (<[k := r]> t).
Proof using. intros Hr Ht. by apply map_Forall_insert_2. Qed.

Lemma insert_user_safe u d d' x : Repository.insert_user u d = Ok (d', x) -> safe_step d d'.
Proof using.
  unfold Repository.insert_user. case_decide as Hc; [done|]. intros [= <- _] Hd.
  apply Decidable.not_or in Hc as [Hn [Hu He]%Decidable.not_or]. apply eq_None_not_Some in Hn.
  assert (forall k v, is_Some (users d !! k) -> is_Some (<[User.ID u := v]> (users d) !! k)) as Hk
    by (intros; by apply insert_keeps).
  split.
  - split; simpl; try evolve_rest. by apply rows_evolve_insert; [apply evolves_preorder|].
  - split; simpl; try schema_rest Hd; try solve [eapply fk_target; [|apply Hd]; eauto].
    + by apply keyed_by_insert; [apply Hd|].
    + apply unique_on_insert; [apply Hd|done|exact Hu].
    + apply unique_on_insert; [apply Hd|done|exact He].
Qed.

Lemma insert_credential_safe c d d' x : Repository.insert_credential c d = Ok (d', x) -> safe_step d d'.
Proof using.
  unfold Repository.insert_credential. case_decide as Hc; [done|]. case_decide as Hf; [|done]. intros [= <- _] Hd.
  apply Decidable.not_or in Hc as [Hn Hu]. apply eq_None_not_Some in Hn. split.
  - split; simpl; try evolve_rest. by apply rows_evolve_insert; [apply evolves_preorder|].
  - split; simpl; try schema_rest Hd.
    + by apply keyed_by_insert; [apply Hd|].
    + apply unique_on_insert; [apply Hd|done|exact Hu].
    + apply fk_insert; [done|apply Hd].
Qed.

Lemma insert_outbox_safe e d d' x : Repository.insert_outbox e d = Ok (d', x) -> safe_step d d'.
Proof using.
  unfold Repository.insert_outbox. case_decide as Hc; [done|]. intros [= <- _] Hd.
  apply eq_None_not_Some in Hc. split.
  - split; simpl; try evolve_rest. by apply insert_subseteq.
  - split; simpl; try schema_rest Hd. by apply map_Forall_insert_2; [|apply Hd].
Qed.

Lemma insert_session_safe s d d' x : Repository.insert_session s d = Ok (d', x) -> safe_step d d'.
Proof using.
  unfold Repository.insert_session. case_decide as Hc; [done|]. case_decide as Hf; [|done]. intros [= <- _] Hd.
  apply Decidable.not_or in Hc as [Hn Hu]. apply eq_None_not_Some in Hn. split.
  - split; simpl; try evolve_rest. by apply rows_evolve_insert; [apply evolves_preorder|].
  - split; simpl; try schema_rest Hd.
    + by apply keyed_by_insert; [apply Hd|].
    + apply unique_on_insert; [apply Hd|done|exact Hu].
    + apply (fk_insert Session.UserID); [done|apply Hd].
Qed.

Lemma insert_account_safe a d d' x : Repository.insert_account a d = Ok (d', x) -> safe_step d d'.
Proof using.
  unfold Repository.insert_account. case_decide as Hc; [done|]. intros [= <- _] Hd.
  apply Decidable.not_or in Hc as [Hn Hu]. apply eq_None_not_Some in Hn. split.
  - split; simpl; try evolve_rest. by apply rows_evolve_insert; [apply evolves_preorder|].
  - split; simpl; try schema_rest Hd.
    + by apply keyed_by_insert; [apply Hd|].
    + apply unique_on_insert; [apply Hd|done|exact Hu].
Qed.

Lemma insert_mfa_safe m d d' x : MFARepository.insert_mfa m d = Ok (d', x) -> safe_step d d'.
Proof using.
  unfold MFARepository.insert_mfa. case_decide; [done|]. case_decide as Hn; [done|]. case_decide as Hf; [|done].
  intros [= <- _] Hd. apply eq_None_not_Some in Hn. split.
  - split; simpl; try evolve_rest. by apply rows_evolve_insert; [apply evolves_preorder|].
  - split; simpl; try schema_rest Hd.
    + by apply keyed_by_insert; [apply Hd|].
    + apply (fk_insert MFAEnrollment.UserID); [done|apply Hd].
Qed.

Lemma insert_code_safe c d d' x : MFARepository.insert_code c d = Ok (d', x) -> safe_step d d'.
Proof using.
  unfold MFARepository.insert_code. case_decide as Hc; [done|]. case_decide as Hf; [|done]. intros [= <- _] Hd.
  apply Decidable.not_or in Hc as [Hn Hu]. apply eq_None_not_Some in Hn. split.
  - split; simpl; evolve_rest.
  - split; simpl; try schema_rest Hd.
    + by apply keyed_by_insert; [apply Hd|].
    + apply unique_on_insert; [apply Hd|done|exact Hu].
    + apply (fk_insert MFARecoveryCode.UserID); [done|apply Hd].
Qed.

Lemma insert_mfa_challenge_safe c d d' x : MFARepository.insert_mfa_challenge c d = Ok (d', x) -> safe_step d d'.
Proof using.
  unfold MFARepository.insert_mfa_challenge. case_decide as Hn; [done|]. case_decide as Hf; [|done].
  intros [= <- _] Hd. apply eq_None_not_Some in Hn. split.
  - split; simpl; try evolve_rest. by apply rows_evolve_insert; [apply evolves_preorder|].
  - split; simpl; try schema_rest Hd.
    + by apply keyed_by_insert; [apply Hd|].
    + apply (fk_insert MFALoginChallenge.UserID); [done|apply Hd].
Qed.

Lemma insert_reset_safe c d d' x : MFARepository.insert_reset c d = Ok (d', x) -> safe_step d d'.
Proof using.
  unfold MFARepository.insert_reset. case_decide as Hn; [done|]. case_decide as Hf; [|done].
  intros [= <- _] Hd. apply eq_None_not_Some in Hn. split.
  - split; simpl; try evolve_rest. by apply rows_evolve_insert; [apply evolves_preorder|].
  - split; simpl; try schema_rest Hd.
    + by apply keyed_by_insert; [apply Hd|].
    + apply (fk_insert PasswordResetChallenge.UserID); [done|apply Hd].
Qed.

Lemma delete_codes_safe u d d' n : MFARepository.delete_codes u d = Ok (d', n) -> safe_step d d'.
Proof using.
  unfold MFARepository.delete_codes, delete_table. intros [= <- _] Hd. split.
  - split; simpl; evolve_rest.
  - split; simpl; try schema_rest Hd.
    + eapply keyed_by_subset; [apply map_filter_subseteq|apply Hd].
    + eapply unique_on_subset; [apply map_filter_subseteq|apply Hd].
    + eapply fk_subset; [apply map_filter_subseteq|apply Hd].
Qed.
End inserts.

(** ** Structural tactics *)

Lemma requireAffected_same `{!Env} n w : w_db (requireAffected n w).2 = w_db w.
Proof. unfold requireAffected, reject. by case_decide. Qed.

Create HintDb txsteps discriminated.
#[export] Hint Constants Opaque : txsteps.
Create HintDb steps discriminated.
#[export] Hint Constants Opaque : steps.

Ltac txsteps_step :=
  match goal with
  | |- PreOrder _ => apply _
  | |- forall _, _ => intro
  | |- TxSteps _ (mbind _ _) => apply TxSteps_bind
  | |- TxSteps _ (map_err _ _) => apply TxSteps_map_err
  | |- TxSteps _ (requireAffected _) => apply TxSteps_same; [apply _|]; intros; apply requireAffected_same
  | |- TxSteps _ (mret _) => apply TxSteps_same; [apply _|]; intros; reflexivity
  | |- TxSteps _ (throw _) => apply TxSteps_same; [apply _|]; intros; reflexivity
  | |- TxSteps _ (lift _) => apply TxSteps_same; [apply _|]; intros; reflexivity
  | |- TxSteps _ now => apply TxSteps_same; [apply _|]; intros; reflexivity
  | |- TxSteps _ (rand_Read _) => apply TxSteps_same; [apply _|]; intros; reflexivity
  | |- TxSteps _ (reject _ _) => apply TxSteps_same; [apply _|]; intros; unfold reject; by case_decide
  | |- TxSteps _ (attempt _) => apply TxSteps_attempt
  | |- TxSteps _ (db_query _) => apply TxSteps_db_query; assumption
  | |- TxSteps _ uuid_NewString => apply TxSteps_same; [apply _|]; intros; reflexivity
  | |- TxSteps _ (match ?x with _ => _ end) => destruct x
  | |- TxSteps _ (tx_exec _) => apply TxSteps_tx_exec
  | |- TxSteps _ _ => solve [eauto with txsteps]
  | |- TxSteps _ ?m => let h := get_head m in unfold h
  end.
Ltac solve_txsteps := repeat txsteps_step.

(** A row update that bumps the version. *)
Ltac row_evolves :=
  let r := fresh "r" in let r' := fresh "r'" in let P := fresh "P" in let F := fresh "F" in
  intros r r' P F; cbn beta in P, F;
  repeat case_match; try done;
  apply bind_Some in F as (? & ? & [= <-]);
  eapply evolves_bump; [eassumption|done|done|];
  first [ by intros [] | (let Hz := fresh in intros Hz; apply Hz; tauto) | idtac ].

Section writes.
Context {env : Env} {sql : SQLServer} {uc : UnicodeCase}.

Lemma keep_email p `{Hp : !forall u, Decision (p u)} f t t' n :
  (forall u u', p u -> f u = Some u' -> User.Email u' = User.Email u) ->
  unique_on (fun u => sql_lower (User.Email u)) t -> sql_update p f t = Some (t', n) ->
  unique_on (fun u => sql_lower (User.Email u)) t'.
Proof using. intros Hf Hu Hs. eapply unique_on_update; [|exact Hs|exact Hu]. intros u u' Pu Fu. by rewrite (Hf u u'). Qed.

Lemma keep_hash p `{Hp : !forall u, Decision (p u)} f t t' n :
  (forall u u', p u -> f u = Some u' -> Session.RefreshTokenHash u' = Session.RefreshTokenHash u) ->
  unique_on Session.RefreshTokenHash t -> sql_update p f t = Some (t', n) -> unique_on Session.RefreshTokenHash t'.
Proof using. intros Hf Hu Hs. by eapply unique_on_update. Qed.

Lemma email_unique_sound t : Repository.email_unique t = true -> unique_on (fun u => sql_lower (User.Email u)) t.
Proof using. intros H%bool_decide_eq_true k1 k2 r1 r2 H1 H2. by apply (H k1 r1 H1 k2 r2 H2). Qed.

Lemma hash_unique_sound t : Repository.hash_unique t = true -> unique_on Session.RefreshTokenHash t.
Proof using. intros H%bool_decide_eq_true k1 k2 r1 r2 H1 H2. by apply (H k1 r1 H1 k2 r2 H2). Qed.

Ltac keeps :=
  let F := fresh in intros ? ? ? F; cbn beta in F; repeat case_match; try done;
  apply bind_Some in F as (? & ? & [= <-]); done.

Lemma CreateUser_tx u c : TxSteps safe_step (Repository.CreateUser u c).
Proof using.
  unfold Repository.CreateUser. solve_txsteps; [by eapply insert_user_safe|by eapply insert_credential_safe].
Qed.
Lemma InsertOutbox_tx e : TxSteps safe_step (Repository.InsertOutbox e).
Proof using. unfold Repository.InsertOutbox. solve_txsteps. eapply insert_outbox_safe; eassumption. Qed.
Lemma UpdatePasswordCredential_tx id h a v n : TxSteps safe_step (Repository.UpdatePasswordCredential id h a v n).
Proof using. unfold Repository.UpdatePasswordCredential. solve_txsteps. eapply update_credentials_safe; [eassumption|]. row_evolves. Qed.
Lemma UpdateUserStatus_tx id st a v n : TxSteps safe_step (Repository.UpdateUserStatus id st a v n).
Proof using. unfold Repository.UpdateUserStatus. solve_txsteps. eapply update_users_safe; [eassumption|row_evolves|]. intros t' Hu Hs _. eapply keep_email; [|exact Hu|exact Hs]. keeps. Qed.
Lemma UpdateUserProfile_tx id dn em ph a v n : TxSteps safe_step (Repository.UpdateUserProfile id dn em ph a v n).
Proof using. unfold Repository.UpdateUserProfile. solve_txsteps. eapply update_users_safe; [eassumption|row_evolves|]. intros t' _ _. apply email_unique_sound. Qed.
Lemma CreateSession_tx x : TxSteps safe_step (Repository.CreateSession x).
Proof using. unfold Repository.CreateSession. solve_txsteps. by eapply insert_session_safe. Qed.
Lemma RotateSession_tx x h : TxSteps safe_step (Repository.RotateSession x h).
Proof using. unfold Repository.RotateSession. solve_txsteps. eapply update_sessions_safe; [eassumption|row_evolves|]. intros t' _ _. apply hash_unique_sound. Qed.
Lemma ScopeSession_tx sid u t m a n : TxSteps safe_step (Repository.ScopeSession sid u t m a n).
Proof using. unfold Repository.ScopeSession. solve_txsteps. eapply update_sessions_safe; [eassumption|row_evolves|]. intros t' Hu Hs _. eapply keep_hash; [|exact Hu|exact Hs]. keeps. Qed.

Lemma revoke_sessions_safe p `{Hp : !forall x, Decision (p x)} n reason actor d d' k :
  (forall x, p x -> Session.RevokedAt x = None) ->
  Repository.revoke_sessions p n reason actor d = Ok (d', k) -> safe_step d d'.
Proof using.
  intros Hlive Hr. eapply update_sessions_safe; [exact Hr| |].
  - intros x x' P (f & Hb & [= <-])%bind_Some. eapply evolves_bump; [exact Hb|done|done|].
    intros Hz. apply Hz. by apply Hlive.
  - intros t' Hu Hs _. eapply keep_hash; [|exact Hu|exact Hs]. unfold Repository.revoke_row. keeps.
Qed.

Lemma RevokeSession_tx id u r a n : TxSteps safe_step (Repository.RevokeSession id u r a n).
Proof using. unfold Repository.RevokeSession. solve_txsteps. eapply revoke_sessions_safe; [|eassumption]. cbn beta. tauto. Qed.
Lemma RevokeOtherSessions_tx u c r a n : TxSteps safe_step (Repository.RevokeOtherSessions u c r a n).
Proof using. unfold Repository.RevokeOtherSessions. solve_txsteps. eapply revoke_sessions_safe; [|eassumption]. cbn beta. tauto. Qed.
Lemma RevokeUserSessions_tx u r a n : TxSteps safe_step (Repository.RevokeUserSessions u r a n).
Proof using. unfold Repository.RevokeUserSessions. solve_txsteps. eapply revoke_sessions_safe; [|eassumption]. cbn beta. tauto. Qed.
Lemma RevokeSessionByID_tx id r a v n : TxSteps safe_step (Repository.RevokeSessionByID id r a v n).
Proof using. unfold Repository.RevokeSessionByID. solve_txsteps. eapply revoke_sessions_safe; [|eassumption]. cbn beta. tauto. Qed.
Lemma RevokeOwnedSessionByID_tx id u r a v n : TxSteps safe_step (Repository.RevokeOwnedSessionByID id u r a v n).
Proof using. unfold Repository.RevokeOwnedSessionByID. solve_txsteps. eapply revoke_sessions_safe; [|eassumption]. cbn beta. tauto. Qed.
Lemma CreateServiceAccount_tx x : TxSteps safe_step (Repository.CreateServiceAccount x).
Proof using. unfold Repository.CreateServiceAccount. solve_txsteps. by eapply insert_account_safe. Qed.
Lemma UpdateServiceAccountStatus_tx id st a v n : TxSteps safe_step (Repository.UpdateServiceAccountStatus id st a v n).
Proof using. unfold Repository.UpdateServiceAccountStatus. solve_txsteps. eapply update_accounts_safe; [eassumption|]. row_evolves. Qed.
Lemma RotateServiceAccountSecret_tx id h a v n : TxSteps safe_step (Repository.RotateServiceAccountSecret id h a v n).
Proof using. unfold Repository.RotateServiceAccountSecret. solve_txsteps. eapply update_accounts_safe; [eassumption|]. row_evolves. Qed.
Lemma InsertMFA_tx x : TxSteps safe_step (MFARepository.InsertMFA x).
Proof using. unfold MFARepository.InsertMFA. solve_txsteps. by eapply insert_mfa_safe. Qed.
Lemma ResetPendingMFA_tx u c a v n : TxSteps safe_step (MFARepository.ResetPendingMFA u c a v n).
Proof using. unfold MFARepository.ResetPendingMFA. solve_txsteps. eapply update_mfa_safe; [eassumption|]. unfold MFARepository.mfa_set. row_evolves. Qed.
Lemma EnableMFA_tx u st a v n : TxSteps safe_step (MFARepository.EnableMFA u st a v n).
Proof using. unfold MFARepository.EnableMFA. solve_txsteps. eapply update_mfa_safe; [eassumption|]. unfold MFARepository.mfa_set. row_evolves. Qed.
Lemma DisableMFA_tx u st a v n : TxSteps safe_step (MFARepository.DisableMFA u st a v n).
Proof using. unfold MFARepository.DisableMFA. solve_txsteps. eapply update_mfa_safe; [eassumption|]. unfold MFARepository.mfa_set. row_evolves. Qed.
Lemma AdminResetMFA_tx u a v n : TxSteps safe_step (MFARepository.AdminResetMFA u a v n).
Proof using. unfold MFARepository.AdminResetMFA. solve_txsteps. eapply update_mfa_safe; [eassumption|]. unfold MFARepository.mfa_set. row_evolves. Qed.
Lemma AdvanceMFAStep_tx u st a n : TxSteps safe_step (MFARepository.AdvanceMFAStep u st a n).
Proof using. unfold MFARepository.AdvanceMFAStep. solve_txsteps. eapply update_mfa_safe; [eassumption|]. unfold MFARepository.mfa_set. row_evolves. Qed.
Lemma AdvanceMFAStepAtVersion_tx u st a v n : TxSteps safe_step (MFARepository.AdvanceMFAStepAtVersion u st a v n).
Proof using. unfold MFARepository.AdvanceMFAStepAtVersion. solve_txsteps. eapply update_mfa_safe; [eassumption|]. unfold MFARepository.mfa_set. row_evolves. Qed.
Lemma insert_codes_tx l : TxSteps safe_step (MFARepository.insert_codes l).
Proof using.
  induction l as [|c l IH]; cbn [MFARepository.insert_codes]; solve_txsteps. by eapply insert_code_safe.
Qed.
#[local] Hint Resolve insert_codes_tx : txsteps.
Lemma DeleteRecoveryCodes_tx u : TxSteps safe_step (MFARepository.DeleteRecoveryCodes u).
Proof using. unfold MFARepository.DeleteRecoveryCodes. solve_txsteps. by eapply delete_codes_safe. Qed.
Lemma ReplaceRecoveryCodes_tx l : TxSteps safe_step (MFARepository.ReplaceRecoveryCodes l).
Proof using.
  unfold MFARepository.ReplaceRecoveryCodes. solve_txsteps. by eapply delete_codes_safe.
Qed.
Lemma ConsumeRecoveryCode_tx u h a n : TxSteps safe_step (MFARepository.ConsumeRecoveryCode u h a n).
Proof using.
  unfold MFARepository.ConsumeRecoveryCode. solve_txsteps. eapply update_codes_safe; [eassumption|].
  intros c c' _ (? & ? & [= <-])%bind_Some. done.
Qed.
Lemma InsertMFAChallenge_tx x : TxSteps safe_step (MFARepository.InsertMFAChallenge x).
Proof using. unfold MFARepository.InsertMFAChallenge. solve_txsteps. by eapply insert_mfa_challenge_safe. Qed.
Lemma InsertPasswordResetChallenge_tx x : TxSteps safe_step (MFARepository.InsertPasswordResetChallenge x).
Proof using. unfold MFARepository.InsertPasswordResetChallenge. solve_txsteps. by eapply insert_reset_safe. Qed.
Lemma ConsumeMFAChallenge_tx h a v n : TxSteps safe_step (MFARepository.ConsumeMFAChallenge h a v n).
Proof using. unfold MFARepository.ConsumeMFAChallenge. solve_txsteps. eapply update_challenges_safe; [eassumption|]. row_evolves. Qed.
Lemma InvalidatePasswordResetChallenges_tx u a n : TxSteps safe_step (MFARepository.InvalidatePasswordResetChallenges u a n).
Proof using. unfold MFARepository.InvalidatePasswordResetChallenges. solve_txsteps. eapply update_resets_safe; [eassumption|]. unfold MFARepository.consume_reset. row_evolves. Qed.
Lemma ConsumePasswordResetChallenge_tx h v a n : TxSteps safe_step (MFARepository.ConsumePasswordResetChallenge h v a n).
Proof using. unfold MFARepository.ConsumePasswordResetChallenge. solve_txsteps. eapply update_resets_safe; [eassumption|]. unfold MFARepository.consume_reset. row_evolves. Qed.

(** *** Autocommitted writes *)

Lemma record_failure_Some th l n u u' :
  Repository.record_failure th l n u = Some u' ->
  User.FailedLoginCount u + 1 < 2 ^ 31 /\
  exists f, bump n "identity:login" (User.fields u) = Some f /\
    u' = User.mk (User.ID u) (User.Username u) (User.DisplayName u) (User.Email u) (User.Phone u)
           (User.Status u) (User.FailedLoginCount u + 1)
           (if decide (th <= User.FailedLoginCount u + 1) then Some l else User.LockedUntil u) f.
Proof using.
  unfold Repository.record_failure. case_decide as Hc; [|done]. intros (f & Hb & Hf)%bind_Some.
  split; [done|]. exists f. split; [done|]. by simplify_eq.
Qed.

Lemma RecordFailedLogin_steps u th l n : Steps safe_step (Repository.RecordFailedLogin u th l n).
Proof using.
  unfold Repository.RecordFailedLogin. apply Steps_bind; [|intros; apply ReadOnly_Steps, ReadOnly_ret].
  apply Steps_map_err, Steps_db_exec. intros d d' k H. eapply update_users_safe; [exact H| |].
  - intros x x' _ F. apply record_failure_Some in F as (_ & f & Hb & ->).
    eapply evolves_bump; [exact Hb|done|done|by intros []].
  - intros t' Hu Hs _. eapply keep_email; [|exact Hu|exact Hs].
    intros x x' _ F. by apply record_failure_Some in F as (_ & f & _ & ->).
Qed.
Lemma ResetFailedLogin_steps u n : Steps safe_step (Repository.ResetFailedLogin u n).
Proof using.
  unfold Repository.ResetFailedLogin. apply Steps_bind; [|intros; apply ReadOnly_Steps, ReadOnly_ret].
  apply Steps_map_err, Steps_db_exec. intros d d' k H. eapply update_users_safe; [exact H| |].
  - unfold Repository.reset_failure. row_evolves.
  - intros t' Hu Hs _. eapply keep_email; [|exact Hu|exact Hs]. unfold Repository.reset_failure. keeps.
Qed.
Lemma RevokeTenantSessions_steps u t r a n : Steps safe_step (Repository.RevokeTenantSessions u t r a n).
Proof using.
  unfold Repository.RevokeTenantSessions. apply Steps_map_err, Steps_db_exec. intros d d' k H.
  eapply revoke_sessions_safe; [|exact H]. cbn beta. tauto.
Qed.
End writes.

#[export] Hint Resolve CreateUser_tx InsertOutbox_tx UpdatePasswordCredential_tx UpdateUserStatus_tx UpdateUserProfile_tx CreateSession_tx RotateSession_tx ScopeSession_tx RevokeSession_tx RevokeOtherSessions_tx RevokeUserSessions_tx RevokeSessionByID_tx RevokeOwnedSessionByID_tx CreateServiceAccount_tx UpdateServiceAccountStatus_tx RotateServiceAccountSecret_tx InsertMFA_tx ResetPendingMFA_tx EnableMFA_tx DisableMFA_tx AdminResetMFA_tx AdvanceMFAStep_tx AdvanceMFAStepAtVersion_tx insert_codes_tx DeleteRecoveryCodes_tx ReplaceRecoveryCodes_tx ConsumeRecoveryCode_tx InsertMFAChallenge_tx InsertPasswordResetChallenge_tx ConsumeMFAChallenge_tx InvalidatePasswordResetChallenges_tx ConsumePasswordResetChallenge_tx : txsteps.
#[export] Hint Resolve RecordFailedLogin_steps ResetFailedLogin_steps RevokeTenantSessions_steps : steps.

Lemma ReadOnly_insert_codes `{!Env} `{!SQLServer} l : ReadOnly (MFARepository.insert_codes l).
Proof. induction l as [|c l IH]; cbn [MFARepository.insert_codes]; solve_readonly. Qed.
#[export] Hint Resolve ReadOnly_insert_codes : readonly.

Ltac steps_step :=
  match goal with
  | |- forall _, _ => intro
  | |- Steps _ (mbind _ _) => apply Steps_bind
  | |- Steps _ (attempt _) => apply Steps_attempt
  | |- Steps _ (map_err _ _) => apply Steps_map_err
  | |- Steps _ (Within _ _) => apply Steps_Within; [solve_readonly | solve_txsteps]
  | |- Steps _ (match ?x with _ => _ end) => destruct x
  | |- Steps _ _ => solve [eauto with steps]
  | |- Steps _ _ => solve [apply ReadOnly_Steps; solve_readonly]
  | |- Steps _ ?m => let h := get_head m in unfold h
  end.
Ltac solve_steps := repeat steps_step.
