(* ===== verification/Inversion.v ===== *)
(** * Inversion of runs

    What a successful call of the repository did, and the tactic [inv_run]
    that takes a successful run of service code apart, call by call. *)

From S2P Require Import Prelude.
From S2P Require Import GoStrings.
From S2P Require Import AppError.
From S2P Require Import Platform.
From S2P Require Import Table.
From S2P Require Import Model.
From S2P Require Import Runtime.
From S2P Require Import Repository.
From S2P Require Import MFARepository.
From S2P Require Import Evolution.
From S2P Require Import Guarantee.
Open Scope Z_scope.

Section calls.
Context {env : Env} {sql : SQLServer} {uc : UnicodeCase}.

(** [UPDATE] followed by [requireAffected]. *)
Lemma guarded_update_Ok {A} (get : DB -> gmap string A) set (p : A -> Prop) `{Hp : !forall r, Decision (p r)} f ok g w u w' :
  (n ← map_err g (tx_exec (update_table get set p f ok)); requireAffected n) w = (Ok u, w') ->
  exists t' n, sql_update p f (get (w_db w)) = Some (t', n) /\ n <> 0 /\ ok t' = true /\
    w_db w' = set t' (w_db w) /\ w_log w' = w_log w.
Proof using.
  intros (n & w1 & H1 & H2)%bind_Ok. apply map_err_Ok, tx_exec_Ok in H1 as [H1 Hl].
  apply reject_Ok in H2 as [Hn ->]. apply update_table_Ok in H1 as (t' & Hu & Hok & ->). eauto 10.
Qed.

(** The number of affected rows as the result. *)
Lemma counted_update_Ok {A} (get : DB -> gmap string A) set (p : A -> Prop) `{Hp : !forall r, Decision (p r)} f ok g w n w' :
  map_err g (tx_exec (update_table get set p f ok)) w = (Ok n, w') ->
  exists t', sql_update p f (get (w_db w)) = Some (t', n) /\ w_db w' = set t' (w_db w) /\ w_log w' = w_log w.
Proof using.
  intros [H1 Hl]%map_err_Ok%tx_exec_Ok. apply update_table_Ok in H1 as (t' & Hu & _ & ->). eauto.
Qed.

Lemma InsertOutbox_Ok e w u w' :
  Repository.InsertOutbox e w = (Ok u, w') ->
  w_db w' = set_outbox (<[(OutboxEvent.ID e, CreatedAt (OutboxEvent.fields e)) := e]> (outbox_events (w_db w))) (w_db w) /\
  w_log w' = w_log w.
Proof using.
  unfold Repository.InsertOutbox. intros [H1 Hl]%map_err_Ok%tx_exec_Ok.
  unfold Repository.insert_outbox in H1. case_decide; [done|]. injection H1 as <-. done.
Qed.

(** A row read outside transactions. *)
Lemma get_row_Ok {A} (get : DB -> gmap string A) (p : A -> Prop) `{Hp : !forall r, Decision (p r)} msg w r w' :
  get_row get p msg w = (Ok r, w') ->
  (exists k, get (w_db w') !! k = Some r) /\ p r /\ w_log w' = w_log w.
Proof using.
  unfold get_row. intros (Hd & Hq & Hl)%map_err_Ok%db_query_Ok.
  destruct (sql_get _ _ _) as [r'|] eqn:E; [|done]. injection Hq as ->.
  apply sql_get_Some in E as (k & Hk & Hr). eauto.
Qed.

Lemma get_row_clk {A} (get : DB -> gmap string A) (p : A -> Prop) `{Hp : !forall r, Decision (p r)} msg w r w' :
  get_row get p msg w = (r, w') -> w_clk w' = w_clk w.
Proof using.
  unfold get_row, map_err, db_query. simpl. destruct (env_fault _); [by intros [= _ <-]|].
  destruct (sql_get _ _ _); by intros [= _ <-].
Qed.

(** The database a read sees, and its place in the run. *)
Lemma get_row_at {A} (get : DB -> gmap string A) (p : A -> Prop) `{Hp : !forall r, Decision (p r)} msg w r w' :
  get_row get p msg w = (r, w') ->
  w_db w' = env_interfere (w_stm w) (w_db w) /\ w_stm w' = S (w_stm w) /\ w_clk w' = w_clk w.
Proof using.
  unfold get_row, map_err, db_query. simpl. destruct (env_fault _); [by intros [= _ <-]|].
  destruct (sql_get _ _ _); by intros [= _ <-].
Qed.

(** [ErrNotFound] is only returned when no row is selected. *)
Lemma get_row_NotFound {A} (get : DB -> gmap string A) (p : A -> Prop) `{Hp : !forall r, Decision (p r)} msg w e w' :
  get_row get p msg w = (Err e, w') -> errors_Is e ErrNotFound = true ->
  forall k r, get (w_db w') !! k = Some r -> ~ p r.
Proof using.
  unfold get_row, map_err, db_query. simpl. destruct (env_fault _); [by intros [= <- <-]|].
  destruct (sql_get _ _ _) eqn:E; [done|]. intros [= <- <-] _ k r. simpl. by eapply sql_get_None.
Qed.

(** ... by primary key. *)
Lemma get_row_key {A} (get : DB -> gmap string A) key (p : A -> Prop) `{Hp : !forall r, Decision (p r)} k msg w r w' :
  keyed_by key (get (w_db w')) -> (forall r, p r -> key r = k) ->
  get_row get p msg w = (Ok r, w') -> get (w_db w') !! k = Some r /\ p r.
Proof using.
  intros Hk Hkey H. apply get_row_Ok in H as ((k' & Hr) & Hpr & _). split; [|done].
  by rewrite <-(Hkey r Hpr), (Hk k' r Hr).
Qed.

(** An update by primary key and version changes exactly that row. *)
Lemma update_one {A} key (p : A -> Prop) `{Hp : !forall r, Decision (p r)} f t t' n k :
  keyed_by key t -> (forall r, p r -> key r = k) -> sql_update p f t = Some (t', n) -> n <> 0 ->
  exists r r', t !! k = Some r /\ p r /\ f r = Some r' /\ t' = <[k := r']> t /\ n = 1.
Proof using.
  intros Hk Hkey Hu Hn. pose proof (sql_update_count _ _ _ _ _ Hu) as Hc.
  assert (0 < sql_count p t) as (k' & r & Hr & Hpr)%sql_count_pos by (unfold sql_count in *; lia).
  assert (k' = k) as -> by (rewrite <-(Hk k' r Hr); by apply Hkey).
  destruct (sql_update_key key p f t t' n k r Hk Hkey Hu Hr Hpr) as (r' & Hf & -> & ->). eauto 10.
Qed.
End calls.

(** [w'] was reached from [w] by exactly one atomic step, from [d0] to [d1]. *)
Definition one_step (w w' : World) (d0 d1 : DB) : Prop :=
  w_log w' = w_log w ++ [(d0, d1)] /\ w_db w' = d1.

(** A committed transaction is one step; it starts from what the other
    requests left. *)
Lemma Within_one {env : Env} {sql : SQLServer} {A} t (fn : M A) w a w' :
  ReadOnly fn -> Within t fn w = (Ok a, w') ->
  exists w0 w1, fn w0 = (Ok a, w1) /\ one_step w w' (w_db w0) (w_db w1) /\
    (Rely safe_step -> safe_step (w_db w) (w_db w0)).
Proof.
  intros Hro (w0 & w1 & Hd & Hl & _ & Hf & Hd' & Hl')%Within_Ok. exists w0, w1.
  split; [done|]. split; [|intros Hr; rewrite Hd; apply Hr].
  split; [|done]. rewrite Hl', (ReadOnly_run _ _ _ _ Hro Hf). by rewrite Hl.
Qed.

(** ** The databases of a run

    [seen w n d]: what statement [n] of a run that starts in [w] works on, when
    [d] is what the statement before it left (the other requests may have
    changed it since).  A transaction body counts as its [BEGIN]. *)
Definition seen {env : Env} (w : World) (n : nat) (d : DB) : DB := env_interfere (n + w_stm w) d.

Lemma Within_at {env : Env} {A} t (fn : M A) w a w' :
  ReadOnly fn -> Within t fn w = (Ok a, w') ->
  exists w0 w1, fn w0 = (Ok a, w1) /\ one_step w w' (w_db w0) (w_db w1) /\
    w_db w0 = env_interfere (w_stm w) (w_db w).
Proof.
  intros Hro (w0 & w1 & Hd & Hl & _ & Hf & Hd' & Hl')%Within_Ok. exists w0, w1.
  split; [done|]. split; [|done]. split; [|done]. rewrite Hl', (ReadOnly_run _ _ _ _ Hro Hf). by rewrite Hl.
Qed.

(** [m] sends no statement to the database. *)
Definition Offline {A} (m : M A) : Prop := forall w, w_db (m w).2 = w_db w /\ w_stm (m w).2 = w_stm w.

Section offline.
Context {env : Env}.

Lemma Offline_bind {A B} (m : M A) (k : A -> M B) : Offline m -> (forall a, Offline (k a)) -> Offline (m ≫= k).
Proof using.
  intros Hm Hk w. unfold mbind, M_bind. specialize (Hm w). destruct (m w) as [[a|e] w1]; simpl in *; [|done].
  destruct Hm as [<- <-]. apply Hk.
Qed.
Lemma Offline_map_err {A} f (m : M A) : Offline m -> Offline (map_err f m).
Proof using. intros H w. unfold map_err. specialize (H w). by destruct (m w) as [[]]. Qed.
Lemma Offline_reject P `{Hp : !Decision P} e : Offline (reject P e).
Proof using. intros w. unfold reject. by case_decide. Qed.
Lemma Offline_now : Offline now.
Proof using. done. Qed.
Lemma Offline_run {A} (m : M A) w r w' : Offline m -> m w = (r, w') -> w_db w' = w_db w /\ w_stm w' = w_stm w.
Proof using. intros H E. specialize (H w). by rewrite E in H. Qed.
End offline.

Ltac offline_step :=
  match goal with
  | |- forall _, _ => intro
  | |- Offline (mbind _ _) => apply Offline_bind
  | |- Offline (map_err _ _) => apply Offline_map_err
  | |- Offline (reject _ _) => apply Offline_reject
  | |- Offline (match ?x with _ => _ end) => destruct x
  | |- Offline (mret _) => done
  | |- Offline (throw _) => done
  | |- Offline (lift _) => done
  | |- Offline now => apply Offline_now
  | |- Offline uuid_NewString => done
  | |- Offline (rand_Read _) => done
  | |- Offline ?m => let h := get_head m in unfold h
  end.
Ltac solve_offline := repeat offline_step.

Lemma now_at {env : Env} w t w' : now w = (Ok t, w') ->
  w_db w' = w_db w /\ w_stm w' = w_stm w /\ t = env_clock (w_clk w).
Proof. by intros [= <- <-]. Qed.
Lemma rand_at {env : Env} n w l w' : rand_Read n w = (Ok l, w') -> w_db w' = w_db w /\ w_stm w' = w_stm w.
Proof. unfold rand_Read. destruct (env_rand _ _); [|done]. by intros [= _ <-]. Qed.

Lemma now_reading {env : Env} w t w' : now w = (Ok t, w') -> exists i, t = env_clock i.
Proof. intros [-> _]%now_Ok. eauto. Qed.

(** The database of a later world was reached by [safe_step]s. *)
Ltac chain :=
  first
  [ reflexivity
  | assumption
  | match goal with
    | H : ?m ?w = (_, ?w1) |- safe_step _ (w_db ?w1) =>
        transitivity (w_db w); [chain | eapply (TxSteps_run safe_step); [|exact H]; solve [solve_txsteps]]
    end ].

(** Take a run apart: [H : m w = (Ok a, w')].  Repository calls are left as
    hypotheses. *)
Ltac inv_run H :=
  cbv beta zeta in H;
  lazymatch type of H with
  | mbind _ _ _ = (Ok _, _) =>
      let x := fresh "x" in let w1 := fresh "w" in let H1 := fresh "R" in
      apply bind_Ok in H as (x & w1 & H1 & H); inv_run H1; inv_run H
  | map_err _ _ _ = (Ok _, _) => apply map_err_Ok in H; inv_run H
  | reject _ _ _ = (Ok _, _) =>
      let Hn := fresh "Hguard" in apply reject_Ok in H as [Hn ->]; try apply dec_stable in Hn
  | lift _ _ = (Ok _, _) => let E := fresh "E" in apply lift_Ok in H as [E ->]
  | mret _ _ = (Ok _, _) => let E := fresh "E" in apply ret_Ok in H as [E ->]
  | throw _ _ = (Ok _, _) => by apply throw_Ok in H
  | attempt _ _ = (Ok _, _) => apply attempt_Ok in H
  | (let '(_, _) := ?p in _) _ = _ => destruct p; inv_run H
  | (match ?c with _ => _ end) _ = _ => let E := fresh "E" in destruct c eqn:E; inv_run H
  | _ => idtac
  end.

(** Nothing was written between two worlds. *)
Ltac log_chain :=
  first
  [ reflexivity
  | match goal with
    | H : ?m ?w = (_, ?w1) |- w_log ?w1 = _ =>
        transitivity (w_log w); [eapply ReadOnly_run; [|exact H]; solve [solve_readonly] | log_chain]
    end ].

Lemma one_step_shift w0 w w' d0 d1 : one_step w w' d0 d1 -> w_log w = w_log w0 -> one_step w0 w' d0 d1.
Proof. intros [H1 H2] Hl. split; [by rewrite H1, Hl|done]. Qed.

(** Take a committed transaction apart. *)
Tactic Notation "inv_tx" hyp(H) "as" ident(wa) ident(wb) ident(Hstep) ident(Hsafe) :=
  apply Within_one in H; [|solve [solve_readonly]];
  destruct H as (wa & wb & H & Hstep & Hsafe); inv_run H.

(** Forward execution. *)
Section forward.
Context {env : Env} {sql : SQLServer}.

Lemma run_bind {A B} (m : M A) (k : A -> M B) w a w1 : m w = (Ok a, w1) -> (m ≫= k) w = k a w1.
Proof using. intros E. unfold mbind, M_bind. by rewrite E. Qed.
Lemma run_bind_err {A B} (m : M A) (k : A -> M B) w e w1 : m w = (Err e, w1) -> (m ≫= k) w = (Err e, w1).
Proof using. intros E. unfold mbind, M_bind. by rewrite E. Qed.
Lemma run_map_err {A} f (m : M A) w a w1 : m w = (Ok a, w1) -> map_err f m w = (Ok a, w1).
Proof using. intros E. unfold map_err. by rewrite E. Qed.
Lemma run_reject P `{Hdec : !Decision P} e w : ~ P -> reject P e w = (Ok tt, w).
Proof using. intros HP. unfold reject. by rewrite decide_False. Qed.
Lemma run_reject_err P `{Hdec : !Decision P} e w : P -> reject P e w = (Err e, w).
Proof using. intros HP. unfold reject. by rewrite decide_True. Qed.

(** A quiet autocommitted update by primary key. *)
Lemma run_update_key {A} (get : DB -> gmap string A) set key (p : A -> Prop) `{Hp : !forall r, Decision (p r)} f w k r r' :
  Quiet -> keyed_by key (get (w_db w)) -> (forall r, p r -> key r = k) ->
  get (w_db w) !! k = Some r -> p r -> f r = Some r' ->
  exists w', db_exec (update_table get set p f no_check) w = (Ok 1, w') /\
    w_db w' = set (<[k := r']> (get (w_db w))) (w_db w) /\ w_clk w' = w_clk w.
Proof using.
  intros Hq Hk Hkey Hr Hpr Hf. unfold db_exec. simpl. rewrite quiet_fault, quiet_interfere.
  assert (exists t' n, sql_update p f (get (w_db w)) = Some (t', n)) as (t' & n & Hu).
  { unfold sql_update. rewrite decide_True; [eauto|]. intros k' r'' Hr''. unfold update_row. case_decide as Hd; [|eauto].
    assert (k' = k) as -> by (rewrite <-(Hk _ _ Hr''); by apply Hkey). simplify_eq. eauto. }
  destruct (sql_update_key key p f _ _ _ k r Hk Hkey Hu Hr Hpr) as (r'' & Hf' & -> & ->).
  unfold update_table. rewrite Hu. simplify_eq. cbn. eexists. split; [reflexivity|]. done.
Qed.

Lemma quiet_db_query {A} (q : nat -> DB -> Result A) w : Quiet -> w_db (db_query q w).2 = w_db w.
Proof using. intros Hq. unfold db_query. simpl. apply quiet_interfere. Qed.
End forward.
