(* ===== verification/Password.v ===== *)
(** * Password hashing

    [internal/identity/password.go]: Argon2id parameters, the encoded form
    [$argon2id$v=..$m=..,t=..,p=..$salt$key] and its verification.  The key
    derivation itself is the parameter [argon2_IDKey]. *)

From S2P Require Import Prelude.
From S2P Require Import GoStrings.
From S2P Require Import Encoding.
From S2P Require Import AppError.
From S2P Require Import Platform.
From S2P Require Import Table.
From S2P Require Import Model.
From S2P Require Import Runtime.
Open Scope Z_scope.

(** [uint32] and [uint8] fields. *)
Record PasswordParameters := mkParameters {
  Memory : Z;
  Iterations : Z;
  Parallelism : Z;
  SaltLength : Z;
  KeyLength : Z;
}.
#[global] Instance PasswordParameters_eq_dec : EqDecision PasswordParameters.
Proof. solve_decision. Defined.

Definition parameters_width (p : PasswordParameters) : Prop :=
  0 <= Memory p < 2 ^ 32 /\ 0 <= Iterations p < 2 ^ 32 /\ 0 <= Parallelism p < 2 ^ 8 /\
  0 <= SaltLength p < 2 ^ 32 /\ 0 <= KeyLength p < 2 ^ 32.

Definition DefaultPasswordParameters : PasswordParameters := mkParameters (64 * 1024) 3 2 16 32.

Record PasswordHasher := mkHasher { parameters : PasswordParameters }.

Definition NewPasswordHasher (p : PasswordParameters) : Result PasswordHasher :=
  if decide (Memory p < 8 * 1024 \/ Iterations p = 0 \/ Parallelism p = 0 \/ SaltLength p < 16 \/ KeyLength p < 16)
  then Err (ErrorsNew "unsafe Argon2id parameters")
  else Ok (mkHasher p).

Definition validatePassword (password : string) : Result unit :=
  if decide (go_len password < 12 \/ 1024 < go_len password)
  then Err (ErrorsNew "password must contain between 12 and 1024 bytes")
  else Ok tt.

Section password.
Context {argon : Argon2}.

(** [fmt.Sprintf("$argon2id$v=%d$m=%d,t=%d,p=%d$%s$%s", ..)]. *)
Definition format_hash (p : PasswordParameters) (salt key : bytes) : string :=
  "$argon2id$v=" +:+ itoa argon2_Version +:+ "$m=" +:+ itoa (Memory p) +:+ ",t=" +:+ itoa (Iterations p)
  +:+ ",p=" +:+ itoa (Parallelism p) +:+ "$" +:+ EncodeToString RawStdEncoding salt
  +:+ "$" +:+ EncodeToString RawStdEncoding key.

(** [fmt.Sscanf(s, "v=%d", &version)]. *)
Definition scan_version (s : string) : option Z :=
  l ← scan_lit (bytes_of "v=") (bytes_of s);
  '(v, _) ← scan_int l;
  Some v.

(** [fmt.Sscanf(s, "m=%d,t=%d,p=%d", ..)] into two [uint32] and a [uint8]. *)
Definition scan_parameters (s : string) : option (Z * Z * Z) :=
  l ← scan_lit (bytes_of "m=") (bytes_of s);
  '(m, l) ← scan_uint 32 l;
  l ← scan_lit (bytes_of ",t=") l;
  '(t, l) ← scan_uint 32 l;
  l ← scan_lit (bytes_of ",p=") l;
  '(p, _) ← scan_uint 8 l;
  Some (m, t, p).

Definition parsePasswordHash (encoded : string) : Result (PasswordParameters * bytes * bytes) :=
  match Split encoded (chr 36) with
  | [_; alg; ver; pars; salt64; key64] =>
      if decide (alg <> "argon2id") then Err (ErrorsNew "invalid Argon2id hash format")
      else match scan_version ver with
      | None => Err (ErrorsNew "unsupported Argon2id version")
      | Some version =>
        if decide (version <> argon2_Version) then Err (ErrorsNew "unsupported Argon2id version")
        else match scan_parameters pars with
        | None => Err (ErrorsNew "invalid Argon2id parameters")
        | Some (m, t, p) =>
          match DecodeString RawStdEncodingStrict salt64 with
          | None => Err (ErrorsNew "invalid Argon2id salt")
          | Some salt =>
            match DecodeString RawStdEncodingStrict key64 with
            | None => Err (ErrorsNew "invalid Argon2id key")
            | Some key =>
              let pp := mkParameters m t p (uint32_of (Z.of_nat (length salt))) (uint32_of (Z.of_nat (length key))) in
              match NewPasswordHasher pp with
              | Err e => Err e
              | Ok _ => Ok (pp, salt, key)
              end
            end
          end
        end
      end
  | _ => Err (ErrorsNew "invalid Argon2id hash format")
  end.

(** [Verify]: (valid, needsRehash). *)
Definition Verify (h : PasswordHasher) (password encoded : string) : Result (bool * bool) :=
  '(p, salt, expected) ← parsePasswordHash encoded;
  let actual := argon2_IDKey (bytes_of password) salt (Iterations p) (Memory p) (Parallelism p)
                  (uint32_of (Z.of_nat (length expected))) in
  let valid := bool_decide (actual = expected) in
  Ok (valid, valid && bool_decide (p <> parameters h)).

Context {env : Env}.

Definition Hash (h : PasswordHasher) (password : string) : M string :=
  lift (validatePassword password);;
  salt ← map_err (Errorf "generate password salt") (rand_Read (Z.to_nat (SaltLength (parameters h))));
  let p := parameters h in
  let key := argon2_IDKey (bytes_of password) salt (Iterations p) (Memory p) (Parallelism p) (KeyLength p) in
  mret (format_hash p salt key).
End password.

(** ** Round trip *)
Section roundtrip.
Context {argon : Argon2} {laws : Argon2Laws}.

Lemma dollar_not_digit n : 0 <= n -> chr 36 ∉ itoa_bytes n.
Proof using.
  intros Hn Hin. pose proof (itoa_digits n Hn) as Hd. rewrite forallb_forall in Hd.
  apply list_elem_of_In, Hd in Hin. by vm_compute in Hin.
Qed.

Lemma dollar_not_base64 l : chr 36 ∉ EncodeRaw RawStdEncoding l.
Proof using.
  intros Hin. pose proof (EncodeRaw_alphabet _ RawStdEncoding_ok l) as Ha.
  rewrite Forall_forall in Ha. apply Ha in Hin. revert Hin.
  apply (bool_decide_unpack _). vm_compute. exact I.
Qed.

Lemma bytes_of_itoa n : bytes_of (itoa n) = itoa_bytes n.
Proof using. apply bytes_of_string_of. Qed.

(** The separators of the encoded form are found where they were written. *)
Lemma split_format p salt key :
  parameters_width p ->
  Split (format_hash p salt key) (chr 36) =
    [""; "argon2id"; "v=" +:+ itoa argon2_Version;
     "m=" +:+ itoa (Memory p) +:+ ",t=" +:+ itoa (Iterations p) +:+ ",p=" +:+ itoa (Parallelism p);
     EncodeToString RawStdEncoding salt; EncodeToString RawStdEncoding key].
Proof using laws.
  intros (Hm & Ht & Hp & _). pose proof version_range as Hv.
  unfold Split, format_hash. rewrite !bytes_of_app, !bytes_of_itoa.
  unfold EncodeToString. cbn [padded RawStdEncoding base64_with]. rewrite !bytes_of_string_of.
  set (v := itoa_bytes argon2_Version).
  set (mtp := bytes_of "m=" ++ itoa_bytes (Memory p) ++ bytes_of ",t=" ++ itoa_bytes (Iterations p)
              ++ bytes_of ",p=" ++ itoa_bytes (Parallelism p)).
  match goal with |- _ <$> split_bytes _ ?l = _ =>
    replace l with ([] ++ (chr 36 :: (bytes_of "argon2id" ++ (chr 36 :: ((bytes_of "v=" ++ v) ++ (chr 36 ::
      (mtp ++ (chr 36 :: (EncodeRaw RawStdEncoding salt ++ (chr 36 :: EncodeRaw RawStdEncoding key))))))))))
  end.
  2:{ unfold mtp. rewrite <-!app_assoc. reflexivity. }
  assert (forall n, 0 <= n -> chr 36 ∉ itoa_bytes n) as Hd by exact dollar_not_digit.
  assert ((chr 36 ∉ bytes_of "argon2id") /\ (chr 36 ∉ bytes_of "v=") /\ (chr 36 ∉ bytes_of "m=") /\
          (chr 36 ∉ bytes_of ",t=") /\ (chr 36 ∉ bytes_of ",p=")) as (? & ? & ? & ? & ?).
  { split_and!; apply (bool_decide_unpack _); vm_compute; exact I. }
  rewrite split_bytes_app by (apply not_elem_of_nil).
  rewrite split_bytes_app by done.
  rewrite split_bytes_app by (unfold v; rewrite elem_of_app; intros [?|?]; [done|eapply Hd; eauto; lia]).
  rewrite split_bytes_app.
  2:{ unfold mtp. rewrite !elem_of_app. intros [?|[?|[?|[?|[?|?]]]]]; try done; eapply Hd; eauto; lia. }
  rewrite split_bytes_app by apply dollar_not_base64.
  rewrite split_bytes_none by apply dollar_not_base64. cbn [fmap list_fmap].
  unfold v, mtp. rewrite !string_of_app, !string_of_bytes_of. reflexivity.
Qed.

Lemma scan_version_format : scan_version ("v=" +:+ itoa argon2_Version) = Some argon2_Version.
Proof using laws.
  unfold scan_version. rewrite bytes_of_app, scan_lit_app, bytes_of_itoa. simpl.
  pose proof version_range. rewrite <-(app_nil_r (itoa_bytes _)), scan_int_itoa by done. done.
Qed.

Lemma scan_parameters_format p :
  parameters_width p ->
  scan_parameters ("m=" +:+ itoa (Memory p) +:+ ",t=" +:+ itoa (Iterations p) +:+ ",p=" +:+ itoa (Parallelism p))
    = Some (Memory p, Iterations p, Parallelism p).
Proof using.
  intros (Hm & Ht & Hp & _). unfold scan_parameters. rewrite !bytes_of_app, !bytes_of_itoa, scan_lit_app.
  cbn [mbind option_bind]. rewrite scan_uint_itoa by (done || reflexivity). cbn [mbind option_bind].
  rewrite scan_lit_app. cbn [mbind option_bind]. rewrite scan_uint_itoa by (done || reflexivity).
  cbn [mbind option_bind]. rewrite scan_lit_app. cbn [mbind option_bind].
  rewrite <-(app_nil_r (itoa_bytes (Parallelism p))), scan_uint_itoa by (done || reflexivity). done.
Qed.

Lemma decode_b64 l : DecodeString RawStdEncodingStrict (EncodeToString RawStdEncoding l) = Some l.
Proof using. apply (decode_encode_string RawStdEncodingStrict); [apply RawStdEncodingStrict_ok|done]. Qed.

(** Parsing inverts formatting for parameters that [NewPasswordHasher] accepts. *)
Lemma parse_format p salt key h :
  parameters_width p -> NewPasswordHasher p = Ok h ->
  Z.of_nat (length salt) = SaltLength p -> Z.of_nat (length key) = KeyLength p ->
  parsePasswordHash (format_hash p salt key) = Ok (p, salt, key).
Proof using laws.
  intros Hw Hh Hs Hk. unfold parsePasswordHash. rewrite split_format by done.
  rewrite decide_False by (intros Hne; by apply Hne).
  rewrite scan_version_format, decide_False by (intros Hne; by apply Hne).
  rewrite scan_parameters_format, !decode_b64 by done.
  destruct Hw as (_ & _ & _ & Hsw & Hkw). unfold uint32_of. rewrite Hs, Hk, !Z.mod_small by done.
  destruct p as [m t pl sl kl]. cbn [Memory Iterations Parallelism SaltLength KeyLength].
  by rewrite Hh.
Qed.
End roundtrip.
