(* ===== verification/Token.v ===== *)
(** * Access tokens

    [internal/identity/token.go]: the issuer of Ed25519-signed JWTs, its set
    of verification keys and the published key set.  The JWT library and
    Ed25519 are parameters ([JWT], [Ed25519]); [JWTLaws] states what the
    library documents about [SignedString] and [ParseWithClaims] with the
    options the code passes. *)

From S2P Require Import Prelude.
From S2P Require Import GoStrings.
From S2P Require Import Encoding.
From S2P Require Import AppError.
From S2P Require Import Platform.
From S2P Require Import Table.
From S2P Require Import Model.
From S2P Require Import Runtime.
Open Scope Z_scope.

(** [TokenClaims] with the registered claims the code sets; instants have the
    precision of [jwt.NumericDate], whole seconds. *)
Record TokenClaims := mkClaims {
  SubjectType : string;
  SessionID : string;
  TenantID : string;
  MembershipID : string;
  Issuer : string;
  Subject : string;
  Audience : list string;
  IssuedAt : option Z;
  NotBefore : option Z;
  ExpiresAt : option Z;
  TokenID : string;
}.

(** [jwt.NewNumericDate(t)] truncates to seconds. *)
Definition NewNumericDate (t : Z) : Z := t / Second * Second.

Lemma NewNumericDate_range t : NewNumericDate t <= t < NewNumericDate t + Second.
Proof. unfold NewNumericDate, Second. pose proof (Z.div_mod t 1000000000). pose proof (Z.mod_pos_bound t 1000000000). lia. Qed.

Class Ed25519 := {
  NewKeyFromSeed : bytes -> bytes;
  Public : bytes -> bytes;
  PrivateKeySize : Z;
  PublicKeySize : Z;
}.

Class Ed25519Laws `{!Ed25519} := {
  seed_key_size s : length s = 32%nat -> Z.of_nat (length (NewKeyFromSeed s)) = PrivateKeySize;
  public_key_size k : Z.of_nat (length k) = PrivateKeySize -> Z.of_nat (length (Public k)) = PublicKeySize;
}.

Class JWT := {
  (** [NewWithClaims(SigningMethodEdDSA, claims)], [Header["kid"] = kid],
      [SignedString(key)]. *)
  SignedString : string -> TokenClaims -> bytes -> Result string;
  (** The claims and header of a token, if it is well formed: signing method,
      key id and claims. *)
  jwt_content : string -> option (string * string * TokenClaims);
  (** The signature is valid under this public key. *)
  jwt_verifies : bytes -> string -> bool;
  (** [ParseWithClaims(raw, _, keyfunc, WithIssuer, WithAudience,
      WithExpirationRequired, WithIssuedAt, WithTimeFunc)]. *)
  ParseWithClaims : (string -> string -> Result bytes) -> string -> string -> Z -> string -> Result TokenClaims;
}.

(** The validation the options ask for. *)
Definition claims_valid (issuer aud : string) (now : Z) (c : TokenClaims) : Prop :=
  Issuer c = issuer /\ aud ∈ Audience c /\
  (exists e, ExpiresAt c = Some e /\ now < e) /\
  (forall n, NotBefore c = Some n -> n <= now) /\
  (forall i, IssuedAt c = Some i -> i <= now).

Class JWTLaws `{!JWT, !Ed25519} := {
  sign_content kid c key raw :
    SignedString kid c key = Ok raw ->
    jwt_content raw = Some ("EdDSA", kid, c) /\ jwt_verifies (Public key) raw = true;
  sign_total kid c key : Z.of_nat (length key) = PrivateKeySize -> exists raw, SignedString kid c key = Ok raw;
  parse_spec keyfunc issuer aud now raw c :
    ParseWithClaims keyfunc issuer aud now raw = Ok c <->
    exists method kid key, jwt_content raw = Some (method, kid, c) /\ keyfunc method kid = Ok key /\
      jwt_verifies key raw = true /\ claims_valid issuer aud now c;
}.

Record TokenIssuer := mkIssuer {
  issuer : string;
  audiences : list string;
  keyID : string;
  privateKey : bytes;
  publicKey : bytes;
  verificationKeys : gmap string bytes;
  ttl : Z;
}.

Record JWK := mkJWK { KeyType : string; Use : string; KeyID : string; Curve : string; Algorithm : string; X : string }.

Section token.
Context {ed : Ed25519} {jwt : JWT}.

Definition NewTokenIssuer (iss : string) (auds : list string) (kid : string) (key : bytes) (t : Z) : Result TokenIssuer :=
  if decide (iss = "" \/ auds = [] \/ kid = "" \/ Z.of_nat (length key) <> PrivateKeySize \/ t <= 0)
  then Err (ErrorsNew "issuer, audience, key id, Ed25519 private key, and positive ttl are required")
  else Ok (mkIssuer iss auds kid key (Public key) {[kid := Public key]} t).

Definition AddVerificationKey (i : TokenIssuer) (kid : string) (key : bytes) : Result TokenIssuer :=
  if decide (kid = "" \/ Z.of_nat (length key) <> PublicKeySize)
  then Err (ErrorsNew "key id and Ed25519 public key are required")
  else Ok (mkIssuer (issuer i) (audiences i) (keyID i) (privateKey i) (publicKey i)
             (<[kid := key]> (verificationKeys i)) (ttl i)).

(** The key function of [Parse]. *)
Definition keyfunc (i : TokenIssuer) (method kid : string) : Result bytes :=
  match verificationKeys i !! kid with
  | Some key => if decide (method <> "EdDSA") then Err (ErrorsNew "unexpected token signing key or method") else Ok key
  | None => Err (ErrorsNew "unexpected token signing key or method")
  end.

(** [Parse] at the instant [now]; [audiences[0]] exists by construction. *)
Definition ParseAt (i : TokenIssuer) (now : Z) (raw : string) : Result TokenClaims :=
  match ParseWithClaims (keyfunc i) (issuer i) (default "" (head (audiences i))) now raw with
  | Ok c => Ok c
  | Err e => Err (Errorf "parse access token" e)
  end.

Definition key_le (a b : string) : Prop := String.leb a b = true.
#[global] Instance key_le_dec a b : Decision (key_le a b).
Proof. unfold key_le. apply _. Defined.

(** [JWKS]: the verification keys in the order of [sort.Strings]. *)
Definition JWKS (i : TokenIssuer) : list JWK :=
  (fun kid => mkJWK "OKP" "sig" kid "Ed25519" "EdDSA"
                (EncodeToString RawURLEncoding (default [] (verificationKeys i !! kid))))
  <$> merge_sort key_le (fst <$> map_to_list (verificationKeys i)).

Context {env : Env}.

Definition randomTokenID : M string :=
  value ← rand_Read 16; mret (EncodeToString RawURLEncoding value).

Definition Issue (i : TokenIssuer) (subject subjectType sessionID tenantID membershipID : string) : M (string * Z) :=
  reject (subject = "" \/ subjectType = "") (ErrorsNew "token subject and subject type are required");;
  now ← now;
  let expiresAt := now + ttl i in
  tokenID ← map_err (Errorf "generate token id") randomTokenID;
  let claims := mkClaims subjectType sessionID tenantID membershipID (issuer i) subject (audiences i)
                  (Some (NewNumericDate now)) (Some (NewNumericDate now)) (Some (NewNumericDate expiresAt)) tokenID in
  signed ← map_err (Errorf "sign access token") (lift (SignedString (keyID i) claims (privateKey i)));
  mret (signed, expiresAt).

Definition Parse (i : TokenIssuer) (raw : string) : M TokenClaims :=
  now ← now; lift (ParseAt i now raw).
End token.
