(* ===== verification/MFACrypto.v ===== *)
(** * MFA cryptography

    [internal/identity/mfa_crypto.go]: time-based one-time passwords (RFC
    6238 over HMAC-SHA1), the encryption of enrolment secrets and the recovery
    codes.  SHA-1, SHA-256 and HMAC are computed ([Digest.v]); the
    authenticated cipher AES-GCM is the interface [AEAD]. *)

From Stdlib Require Import Ascii.
From S2P Require Import Prelude.
From S2P Require Import GoStrings.
From S2P Require Import Encoding.
From S2P Require Import Digest.
From S2P Require Import AppError.
From S2P Require Import Platform.
From S2P Require Import Table.
From S2P Require Import Model.
From S2P Require Import Runtime.
Open Scope Z_scope.

Definition totpPeriod : Z := 30 * Second.
Definition totpDigits : Z := 6.
Definition totpWindow : Z := 1.
Definition totpSecretBytes : nat := 20.
Definition recoveryCodeCount : nat := 10.
Definition recoveryCodeBytes : nat := 10.

(** [cipher.AEAD]. *)
Record AEAD := mkAEAD {
  NonceSize : nat;
  Seal : bytes -> bytes -> bytes -> bytes;           (** nonce, plaintext, additional data *)
  Open_ : bytes -> bytes -> bytes -> option bytes;   (** nonce, ciphertext, additional data *)
}.

(** [aes.NewCipher] and [cipher.NewGCM]. *)
Class AESGCM := { NewGCM : bytes -> Result AEAD }.

Record AEAD_ok (a : AEAD) : Prop := {
  open_seal nonce p ad : length nonce = NonceSize a -> Open_ a nonce (Seal a nonce p ad) ad = Some p;
}.

(** Documented behaviour: a 32-byte key selects AES-256, whose GCM mode
    decrypts what it encrypted. *)
Class AESGCMLaws `{!AESGCM} := {
  NewGCM_ok key : length key = 32%nat -> exists a, NewGCM key = Ok a /\ AEAD_ok a;
}.

Record MFACrypto := mkMFACrypto { aead : AEAD; recoveryPepper : bytes; mfaIssuer : string }.

Fixpoint first_key (encodings : list Encoding) (value : string) : option bytes :=
  match encodings with
  | [] => None
  | e :: rest =>
      match DecodeString e value with
      | Some l => if decide (length l = 32%nat) then Some l else first_key rest value
      | None => first_key rest value
      end
  end.

Definition decodeMFAKey (value : string) : Result bytes :=
  match first_key [StdEncoding; RawStdEncoding; URLEncoding; RawURLEncoding] (TrimSpace value) with
  | Some l => Ok l
  | None => Err (ErrorsNew "key must be base64 encoded 32 bytes")
  end.

Definition NewMFACrypto `{!AESGCM} (issuer encryptionKey pepper : string) : Result MFACrypto :=
  match decodeMFAKey encryptionKey with
  | Err e => Err (Errorf "decode mfa encryption key" e)
  | Ok key =>
    match decodeMFAKey pepper with
    | Err e => Err (Errorf "decode mfa recovery pepper" e)
    | Ok pep =>
      match NewGCM key with
      | Err e => Err (Errorf "create mfa cipher" e)
      | Ok a =>
        if decide (TrimSpace issuer = "") then Err (ErrorsNew "mfa issuer is required")
        else Ok (mkMFACrypto a pep (TrimSpace issuer))
      end
    end
  end.

(** ** [net/url] escaping *)

Definition unreserved (a : ascii) : bool :=
  is_upper (code a) || is_lower (code a) || is_digit a ||
  bool_decide (a ∈ [chr 45; chr 95; chr 46; chr 126]).
(** Also left as they are in a path: [$ & + , / : ; = @]. *)
Definition path_plain (a : ascii) : bool :=
  unreserved a || bool_decide (a ∈ [chr 36; chr 38; chr 43; chr 44; chr 47; chr 58; chr 59; chr 61; chr 64]).
Definition hex_upper (d : Z) : ascii := if d <? 10 then chr (48 + d) else chr (55 + d).
Definition percent (a : ascii) : bytes := [chr 37; hex_upper (code a / 16); hex_upper (code a mod 16)].
Definition PathEscape (s : string) : string :=
  string_of (mjoin ((fun a => if path_plain a then [a] else percent a) <$> bytes_of s)).
Definition QueryEscape (s : string) : string :=
  string_of (mjoin ((fun a => if unreserved a then [a] else if code a =? 32 then [chr 43] else percent a) <$> bytes_of s)).

(** ** HOTP *)

(** [fmt.Sprintf("%0*d", n, v)]. *)
Definition pad_zero (n : Z) (v : Z) : string :=
  let d := itoa_bytes v in string_of (replicate (Z.to_nat n - length d) (chr 48) ++ d).

(** The loop [for range digits { modulus *= 10 }] on a [uint32]. *)
Fixpoint modulus (digits : nat) : Z :=
  match digits with O => 1 | S k => uint32_of (modulus k * 10) end.

Definition hotp (secret : bytes) (counter : Z) (digits : Z) : string :=
  let sum := hmac sha1 secret (be_bytes 8 counter) in
  let offset := Z.to_nat (Z.land (code (default (chr 0) (last sum))) 0x0f) in
  let value := Z.land (be_value (take 4 (drop offset sum))) 0x7fffffff in
  pad_zero digits (value mod modulus (Z.to_nat digits)).

Section totp.
Context {uc : UnicodeCase}.

(** [now.Unix()]. *)
Definition Unix (t : Z) : Z := t / Second.

(** The loop over [offset]; [strings] of different lengths never compare
    equal in [ConstantTimeCompare]. *)
Fixpoint try_steps (secret : bytes) (code : string) (step : Z) (offsets : list Z) : option Z :=
  match offsets with
  | [] => None
  | offset :: rest =>
      let candidate := step + offset in
      if decide (candidate < 0) then try_steps secret code step rest
      else if decide (hotp secret candidate totpDigits = code) then Some candidate
      else try_steps secret code step rest
  end.

Definition ValidateTOTP (secret code : string) (now : Z) : option Z :=
  match DecodeString base32NoPadding (ToUpper (TrimSpace secret)) with
  | None => None
  | Some secretBytes =>
      if decide (secretBytes = [] \/ go_len code <> totpDigits) then None
      else try_steps secretBytes code (Z.quot (Unix now) (totpPeriod / Second))
             (seqZ (- totpWindow) (2 * totpWindow + 1))
  end.

Definition RecoveryCodeHash (m : MFACrypto) (code : string) : string :=
  let normalized := ToUpper (remove_byte (chr 45) (TrimSpace code)) in
  EncodeToString RawURLEncoding (hmac sha256 (recoveryPepper m) (bytes_of normalized)).

Definition DecryptSecret (m : MFACrypto) (userID encrypted : string) : Result string :=
  match DecodeString RawURLEncoding encrypted with
  | None => Err (ErrorsNew "invalid encrypted mfa secret")
  | Some payload =>
      if decide (length payload < NonceSize (aead m))%nat then Err (ErrorsNew "invalid encrypted mfa secret")
      else match Open_ (aead m) (take (NonceSize (aead m)) payload) (drop (NonceSize (aead m)) payload) (bytes_of userID) with
           | None => Err (ErrorsNew "decrypt mfa secret")
           | Some plain => Ok (string_of plain)
           end
  end.

Context {env : Env}.

Definition GenerateTOTP (m : MFACrypto) (account : string) : M (string * string) :=
  raw ← map_err (Errorf "generate totp secret") (rand_Read totpSecretBytes);
  let secret := EncodeToString base32NoPadding raw in
  let label := mfaIssuer m +:+ ":" +:+ TrimSpace account in
  let query := "algorithm=SHA1&digits=" +:+ itoa totpDigits +:+ "&issuer=" +:+ QueryEscape (mfaIssuer m)
               +:+ "&period=" +:+ itoa (totpPeriod / Second) +:+ "&secret=" +:+ QueryEscape secret in
  mret (secret, "otpauth://totp" +:+ PathEscape ("/" +:+ label) +:+ "?" +:+ query).

Definition EncryptSecret (m : MFACrypto) (userID secret : string) : M string :=
  nonce ← map_err (Errorf "generate mfa nonce") (rand_Read (NonceSize (aead m)));
  mret (EncodeToString RawURLEncoding (nonce ++ Seal (aead m) nonce (bytes_of secret) (bytes_of userID))).

(** [compact[:4] + "-" + compact[4:8] + "-" + compact[8:12] + "-" + compact[12:]]. *)
Definition dashed (compact : bytes) : bytes :=
  take 4 compact ++ [chr 45] ++ take 4 (drop 4 compact) ++ [chr 45] ++ take 4 (drop 8 compact) ++ [chr 45] ++ drop 12 compact.

Fixpoint recovery_codes (m : MFACrypto) (n : nat) : M (list string * list string) :=
  match n with
  | O => mret ([], [])
  | S k =>
      raw ← map_err (Errorf "generate recovery code") (rand_Read recoveryCodeBytes);
      let code := string_of (dashed (bytes_of (EncodeToString base32NoPadding raw))) in
      '(codes, hashes) ← recovery_codes m k;
      mret (code :: codes, RecoveryCodeHash m code :: hashes)
  end.

Definition GenerateRecoveryCodes (m : MFACrypto) : M (list string * list string) :=
  recovery_codes m recoveryCodeCount.
End totp.

Lemma ReadOnly_recovery_codes `{!UnicodeCase, !Env} m n : ReadOnly (recovery_codes m n).
Proof. induction n as [|n IH]; cbn [recovery_codes]; solve_readonly. Qed.
#[export] Hint Resolve ReadOnly_recovery_codes : readonly.

(** RFC 4226, appendix D. *)
Example hotp_rfc4226 :
  hotp (bytes_of "12345678901234567890") 0 6 = "755224" /\ hotp (bytes_of "12345678901234567890") 9 6 = "520489".
Proof. vm_compute. done. Qed.
