(* ===== verification/ServiceBase.v ===== *)
(** * The identity service: construction and shared helpers

    [Service], [NewService], [newOutboxEvent], [protoIdentityUser], refresh
    tokens, [truncateUTF8] and paging of [internal/identity/service.go].
    The operations are in the files that follow, grouped by subject. *)

From S2P Require Import Prelude.
From S2P Require Import GoStrings.
From S2P Require Import Encoding.
From S2P Require Import Digest.
From S2P Require Import AppError.
From S2P Require Import Platform.
From S2P Require Import Table.
From S2P Require Import Model.
From S2P Require Import Runtime.
From S2P Require Import Repository.
From S2P Require Import Password.
From S2P Require Import Token.
From S2P Require Import MFACrypto.
Open Scope Z_scope.

Definition refreshTTL : Z := 30 * 24 * Hour.
Definition loginFailureThreshold : Z := 5.
Definition loginLockDuration : Z := 15 * Minute.

(** The libraries the whole service uses, in one class. *)
Class Libs := {
  wp_codes :: ErrorCodes;
  wp_unicode :: UnicodeCase;
  wp_sql :: SQLServer;
  wp_platform :: Platform;
  wp_argon :: Argon2;
  wp_ed :: Ed25519;
  wp_jwt :: JWT;
  wp_gcm :: AESGCM;
  wp_json :: JSONStrings;
}.

Record Service := mkService {
  transactor : Transactor;
  hasher : PasswordHasher;
  tokens : TokenIssuer;
  mfa : option MFACrypto;
  mfaChallengeTTL : Z;
}.

(** The part of [config.Config] that [NewService] reads. *)
Record ServiceConfig := mkServiceConfig {
  AppName : string;
  JWTSecret : string;
  JWTKeyID : string;
  JWTIssuer : string;
  JWTAudiences : list string;
  JWTTTL : Z;
  JWTPreviousSecrets : gmap string string;
  MFAEnabled : bool;
  MFAIssuer : string;
  MFAEncryptionKey : string;
  MFARecoveryPepper : string;
  MFAChallengeTTLConfig : Z;
}.

Section base.
Context {libs : Libs} {env : Env}.

Definition key_from_secret (secret : string) : bytes := NewKeyFromSeed (sha256 (bytes_of secret)).

(** [for previousKeyID, secret := range cfg.JWT.PreviousSecrets]. *)
Fixpoint add_previous (i : TokenIssuer) (previous : list (string * string)) : Result TokenIssuer :=
  match previous with
  | [] => Ok i
  | (kid, secret) :: rest =>
      i' ← AddVerificationKey i kid (Public (key_from_secret secret));
      add_previous i' rest
  end.

Definition NewService (t : Transactor) (cfg : ServiceConfig) : Result Service :=
  h ← NewPasswordHasher DefaultPasswordParameters;
  let kid := if decide (JWTKeyID cfg = "") then "identity-current" else JWTKeyID cfg in
  let auds := if decide (JWTAudiences cfg = []) then [AppName cfg] else JWTAudiences cfg in
  i ← NewTokenIssuer (JWTIssuer cfg) auds kid (key_from_secret (JWTSecret cfg)) (JWTTTL cfg);
  i ← add_previous i (map_to_list (JWTPreviousSecrets cfg));
  m ← (if MFAEnabled cfg
       then Some <$> NewMFACrypto (MFAIssuer cfg) (MFAEncryptionKey cfg) (MFARecoveryPepper cfg)
       else Ok None);
  Ok (mkService t h i m (MFAChallengeTTLConfig cfg)).

Definition newOutboxEvent (ctx : Ctx) (subject eventType aggregateID : string) (occurredAt : Z) (payload : Payload)
  : M OutboxEvent.t :=
  actor ← lift (principal_Require ctx);
  id ← uuid_NewString;
  encoded ← lift (marshal_envelope
    (mkMetadata id eventType aggregateID "identity" 1 (PID actor) (PType actor) occurredAt) payload);
  mret (OutboxEvent.mk id subject encoded occurredAt
          (mkFields 1 occurredAt occurredAt (PID actor) (PID actor))).

(** The name of the [identityv1.UserStatus] value; a string that is not one
    of the four statuses maps to the zero value. *)
Definition proto_status (status : string) : string :=
  if decide (status = StatusActive) then "USER_STATUS_ACTIVE"
  else if decide (status = StatusDisabled) then "USER_STATUS_DISABLED"
  else if decide (status = StatusLocked) then "USER_STATUS_LOCKED"
  else if decide (status = StatusClosed) then "USER_STATUS_CLOSED"
  else "USER_STATUS_UNSPECIFIED".

(** [identityv1.UserStatus_value["USER_STATUS_" + strings.ToUpper(status)]]. *)
Definition UserStatus_value (status : string) : string :=
  let name := "USER_STATUS_" +:+ ToUpper status in
  if decide (name ∈ ["USER_STATUS_ACTIVE"; "USER_STATUS_DISABLED"; "USER_STATUS_LOCKED"; "USER_STATUS_CLOSED"])
  then name else "USER_STATUS_UNSPECIFIED".

(** [protoIdentityUser], as the user of a payload constructor. *)
Definition protoIdentityUser {A} (make : string -> string -> string -> string -> string -> string -> Fields -> A)
    (u : User.t) : A :=
  make (User.ID u) (User.Username u) (User.DisplayName u) (User.Email u) (User.Phone u)
    (proto_status (User.Status u)) (User.fields u).

Definition hash_token (raw : string) : string := EncodeToString RawURLEncoding (sha256 (bytes_of raw)).
Definition hashRefreshToken (raw : string) : string := hash_token raw.

Definition newRefreshToken : M (string * string) :=
  raw ← map_err (Errorf "generate refresh token") (rand_Read 32);
  let token := EncodeToString RawURLEncoding raw in
  mret (token, hashRefreshToken token).

(** [for maxBytes > 0 && !utf8.ValidString(value[:maxBytes]) { maxBytes-- }]:
    the search downwards stops at 0, where the empty prefix is valid. *)
Definition truncate_bytes (value : bytes) (maxBytes : nat) : bytes :=
  if decide (length value <= maxBytes)%nat then value
  else take (search_down (fun n => ValidString (take n value)) maxBytes) value.
Definition truncateUTF8 (value : string) (maxBytes : nat) : string :=
  string_of (truncate_bytes (bytes_of value) maxBytes).

(** [if page < 1 { page = 1 }; if pageSize < 1 || pageSize > 100 { pageSize = 20 }]
    and the offset [(page-1)*pageSize], computed in an [int]. *)
Definition clamp_page (page : Z) : Z := if decide (page < 1) then 1 else page.
Definition clamp_size (pageSize : Z) : Z := if decide (pageSize < 1 \/ 100 < pageSize) then 20 else pageSize.
Definition page_offset (page pageSize : Z) : Z := wrap64 ((page - 1) * pageSize).
End base.

Section base_lemmas.
Context {libs : Libs} {env : Env}.

Lemma newRefreshToken_Ok w raw hash w' : newRefreshToken w = (Ok (raw, hash), w') -> hash = hashRefreshToken raw.
Proof using. unfold newRefreshToken. intros (l & w1 & _ & [= <- <- _])%bind_Ok. done. Qed.
End base_lemmas.
