(* ===== verification/Concrete.v ===== *)
(** * A concrete world

    Instances of every library parameter, with the laws the theorems assume
    about them, and a quiet environment.  They show that the assumptions are
    consistent and let witnesses evaluate the service. *)

From Stdlib Require Import Ascii.
From stdpp Require Import countable.
From S2P Require Import Prelude.
From S2P Require Import GoStrings.
From S2P Require Import Encoding.
From S2P Require Import AppError.
From S2P Require Import Platform.
From S2P Require Import Table.
From S2P Require Import Model.
From S2P Require Import Runtime.
From S2P Require Import Evolution.
From S2P Require Import Password.
From S2P Require Import Token.
From S2P Require Import MFACrypto.
From S2P Require Import ServiceBase.
Open Scope Z_scope.

Module Concrete.

(** ** Text and errors *)
Definition unicode : UnicodeCase := {| unicode_lower := fun r => r; unicode_upper := fun r => r |}.

Definition codes : ErrorCodes := {|
  CodeOK := 0; CodeInvalidArgument := 1; CodeNotFound := 2; CodeRequestTimeout := 3; CodeTooManyRequests := 4;
  CodeUnauthorized := 5; CodeForbidden := 6; CodeConflict := 7; CodeRequestInProgress := 8; CodeStaleVersion := 9;
  CodeInternal := 10; CodeDependencyUnavailable := 11 |}.

(** ** The SQL server *)
Definition server : SQLServer := {|
  sql_lower := fun s => string_of (ascii_lower <$> bytes_of s);
  violation_text := fun k => match k with
    | UniqueViolation => "duplicate key value violates unique constraint"
    | _ => "constraint violation" end;
  sql_like := fun s p => Contains s (string_of (filter (fun a => a <> chr 37) (bytes_of p)));
  sql_text_le := String.leb;
  sql_arrange := fun A _ l => l |}.

(** ** The platform library *)

(** A context is the record of the values it carries; the metadata of an
    incoming call are a list of pairs. *)
Record context := mkContext {
  c_principal : option Principal;
  c_requestid : option string;
  c_environment : option string;
  c_idempotency : option string;
  c_metadata : list (string * string);
}.
Definition background : context := mkContext None None None None [].
Definition set_principal (p : Principal) (c : context) : context :=
  mkContext (Some p) (c_requestid c) (c_environment c) (c_idempotency c) (c_metadata c).

Definition platform : Platform := {|
  Ctx := context;
  principal_Require := fun c => match c_principal c with Some p => Ok p | None => Err (ErrorsNew "no principal") end;
  principal_SystemContext := fun c id => set_principal (mkPrincipal id "system" "" "" "") c;
  TypeUser := "user"; TypeServiceAccount := "service_account"; TypeSystem := "system";
  audit_New := fun c t => match c_principal c with
    | Some p => Ok (mkFields 1 t t (PID p) (PID p))
    | None => Err (ErrorsNew "no principal") end;
  marshal_envelope := fun m _ => Ok (bytes_of (EventType m)) |}.

#[global] Instance platform_laws : @PlatformLaws platform.
Proof.
  split.
  - intros c id. by exists (mkPrincipal id "system" "" "" "").
  - intros c t p. simpl. destruct (c_principal c); [|done]. by intros [= ->].
  - intros c t e. simpl. destruct (c_principal c); [done|]. eauto.
  - by split.
Qed.

(** ** Argon2 *)
Definition argon : Argon2 := {|
  argon2_IDKey := fun pw salt _ _ _ n => take (Z.to_nat n) (pw ++ salt ++ replicate (Z.to_nat n) (chr 0));
  argon2_Version := 19 |}.

#[global] Instance argon_laws : @Argon2Laws argon.
Proof.
  split.
  - intros pw salt t m p n Hn. simpl. rewrite length_take, !length_app, length_replicate. lia.
  - simpl. unfold int64_max. lia.
Qed.

(** ** Ed25519 and JWT *)
Definition ed : Ed25519 := {|
  NewKeyFromSeed := fun s => s ++ s; Public := fun k => take 32 k; PrivateKeySize := 64; PublicKeySize := 32 |}.

#[global] Instance ed_laws : @Ed25519Laws ed.
Proof.
  split.
  - intros s Hs. simpl. rewrite length_app, Hs. done.
  - intros k Hk. simpl in *. rewrite length_take. lia.
Qed.

(** A token is the list of the bits of its content. *)
Fixpoint bits (p : positive) : bytes :=
  match p with xH => [] | xO q => chr 48 :: bits q | xI q => chr 49 :: bits q end.
Fixpoint unbits (l : bytes) : positive :=
  match l with [] => xH | a :: l' => if code a =? 48 then xO (unbits l') else xI (unbits l') end.
Lemma unbits_bits p : unbits (bits p) = p.
Proof. induction p as [p IH|p IH|]; simpl; [by rewrite IH|by rewrite IH|done]. Qed.

Definition claims_tuple (c : TokenClaims) :=
  (SubjectType c, SessionID c, TenantID c, MembershipID c, Issuer c, Subject c, Audience c,
   IssuedAt c, NotBefore c, ExpiresAt c, TokenID c).
Definition tuple_claims (t : string * string * string * string * string * string * list string *
    option Z * option Z * option Z * string) : TokenClaims :=
  let '(a, b, c, d, e, f, g, h, i, j, k) := t in mkClaims a b c d e f g h i j k.
#[global] Instance claims_eq_dec : EqDecision TokenClaims.
Proof. solve_decision. Defined.
#[global] Instance claims_countable : Countable TokenClaims.
Proof. apply (inj_countable' claims_tuple tuple_claims). by intros []. Defined.

Definition sign (kid : string) (c : TokenClaims) (key : bytes) : string :=
  string_of (bits (encode (kid, c, string_of key))).
Definition unsign (raw : string) : option (string * TokenClaims * string) := decode (unbits (bytes_of raw)).

Lemma unsign_sign kid c key : unsign (sign kid c key) = Some (kid, c, string_of key).
Proof. unfold unsign, sign. by rewrite bytes_of_string_of, unbits_bits, decode_encode. Qed.

Definition valid_now (issuer aud : string) (now : Z) (c : TokenClaims) : bool :=
  bool_decide (Issuer c = issuer) && bool_decide (aud ∈ Audience c) &&
  match ExpiresAt c with Some e => now <? e | None => false end &&
  match NotBefore c with Some n => n <=? now | None => true end &&
  match IssuedAt c with Some i => i <=? now | None => true end.

Lemma valid_now_spec i a n c : valid_now i a n c = true <-> claims_valid i a n c.
Proof.
  unfold valid_now, claims_valid. rewrite !andb_true_iff, !bool_decide_eq_true.
  destruct (ExpiresAt c) as [e|], (NotBefore c) as [nb|], (IssuedAt c) as [ia|];
    (split;
      [ intros ((((? & ?) & ?) & ?) & ?); try done; split_and!; try done;
        first [ (eexists; split; [done|lia]) | (intros ? [= <-]; lia) ]
      | intros (? & ? & (e' & [= <-] & ?) & Hn & Hi); split_and!; try done; try lia;
        try (specialize (Hn _ eq_refl); lia); try (specialize (Hi _ eq_refl); lia) ]).
Qed.

Definition jwt : JWT := {|
  SignedString := fun kid c key => Ok (sign kid c (take 32 key));
  jwt_content := fun raw => match unsign raw with Some (kid, c, _) => Some ("EdDSA", kid, c) | None => None end;
  jwt_verifies := fun key raw => match unsign raw with Some (_, _, k) => bool_decide (k = string_of key) | None => false end;
  ParseWithClaims := fun keyfunc iss aud now raw =>
    match unsign raw with
    | Some (kid, c, k) =>
        match keyfunc "EdDSA" kid with
        | Ok key => if bool_decide (k = string_of key) && valid_now iss aud now c then Ok c
                    else Err (ErrorsNew "token is invalid")
        | Err e => Err e
        end
    | None => Err (ErrorsNew "token is malformed")
    end |}.

#[global] Instance jwt_laws : @JWTLaws jwt ed.
Proof.
  split.
  - intros kid c key raw [= <-]. simpl. rewrite unsign_sign. split; [done|]. by apply bool_decide_eq_true.
  - intros kid c key _. simpl. eauto.
  - intros keyfunc i a n raw c. simpl. destruct (unsign raw) as [[[kid c'] k]|].
    2:{ split; [done|]. by intros (? & ? & ? & ? & _). }
    destruct (keyfunc "EdDSA" kid) as [key|e] eqn:Ek.
    + split.
      * intros H. destruct (bool_decide _) eqn:Eb; [|done]. simpl in H. destruct (valid_now i a n c') eqn:Ev; [|done].
        simplify_eq. exists "EdDSA", kid, key. apply valid_now_spec in Ev. rewrite Eb. done.
      * intros (m & kid' & key' & [= <- <- <-] & Hk & Hb & Hv).
        rewrite Ek in Hk. injection Hk as <-. apply valid_now_spec in Hv. rewrite Hv, andb_true_r. by rewrite Hb.
    + split; [done|]. intros (m & kid' & key' & [= <- <- <-] & Hk & _). congruence.
Qed.

(** ** AES-GCM and JSON *)
Definition cipher : AEAD := mkAEAD 12 (fun _ p _ => p) (fun _ c _ => Some c).
Definition gcm : AESGCM := {| NewGCM := fun _ => Ok cipher |}.
#[global] Instance gcm_laws : @AESGCMLaws gcm.
Proof. split. intros key _. exists cipher. split; [done|]. by split. Qed.

Definition json : JSONStrings := {|
  json_Marshal := fun l => Ok (foldr (fun a b => a +:+ "," +:+ b) "" l);
  json_Unmarshal := fun s => Ok (Some [s]) |}.

#[global] Instance libs : Libs := {|
  wp_codes := codes; wp_unicode := unicode; wp_sql := server; wp_platform := platform; wp_argon := argon;
  wp_ed := ed; wp_jwt := jwt; wp_gcm := gcm; wp_json := json |}.

#[global] Instance server_laws : @SQLServerLaws server unicode.
Proof.
  split.
  - left. vm_compute. reflexivity.
  - done.
  - exact String.leb_total.
  - intros a b c Hab Hbc. apply Is_true_true. change (String.le a c).
    transitivity b; apply Is_true_true; [exact Hab|exact Hbc].
Qed.

(** ** A quiet environment that starts counting identifiers and random bytes at [seed] *)
Definition noon : Z := 1700000000 * Second.
Definition quiet (clock : Z) (seed : nat) : Env := {|
  env_clock := fun _ => clock;
  env_rand := fun i n => Some ((fun j => chr ((Z.of_nat (seed + i) * 7 + Z.of_nat j * 13) mod 256)) <$> seq 0 n);
  env_uuid := fun i => "id-" +:+ itoa (Z.of_nat (seed + i));
  env_fault := fun _ => None;
  env_pick := fun _ => O;
  env_interfere := fun _ d => d |}.

#[global] Instance quiet_is_quiet clock seed : @Quiet (quiet clock seed).
Proof. split; simpl; eauto. Qed.
#[global] Instance quiet_laws clock seed : @EnvLaws (quiet clock seed).
Proof. split. intros i n l. simpl. intros [= <-]. by rewrite length_fmap, length_seq. Qed.

(** A service as [NewService] builds it, with a fixed signing key. *)
Definition signing_key : bytes := replicate 64 (chr 7).
Definition issuer : TokenIssuer :=
  mkIssuer "identity" ["identity"] "k1" signing_key (Public signing_key) {[ "k1" := Public signing_key ]} Hour.
Definition crypto : MFACrypto := mkMFACrypto cipher (replicate 32 (chr 9)) "Identity".
Definition service : Service :=
  mkService (mkTransactor true) (mkHasher DefaultPasswordParameters) issuer (Some crypto) (5 * Minute).
Definition nobody : Ctx := background.
Definition admin : Ctx := set_principal (mkPrincipal "admin" "service_account" "" "" "") background.
Definition alice_ctx : Ctx := set_principal (mkPrincipal "u1" "user" "" "" "s1") background.
Definition bob_ctx : Ctx := set_principal (mkPrincipal "u2" "user" "" "" "s9") background.
Definition client : SessionClient := mkSessionClient "10.0.0.1" "curl".

(** ** A small database *)

(** Executable form of [schema_ok]. *)
Definition keyed_check {A} (key : A -> string) (t : gmap string A) : bool :=
  bool_decide (map_Forall (fun k r => key r = k) t).
Definition unique_check {A K} `{!EqDecision K} (f : A -> K) (t : gmap string A) : bool :=
  bool_decide (map_Forall (fun k1 r1 => map_Forall (fun k2 r2 => f r1 = f r2 -> k1 = k2) t) t).
Definition fk_check {A} (f : A -> string) (t : gmap string A) (us : gmap string User.t) : bool :=
  bool_decide (map_Forall (fun _ r => is_Some (us !! f r)) t).
Definition schema_check (d : DB) : bool :=
  keyed_check User.ID (users d) && unique_check (fun u => sql_lower (User.Username u)) (users d) &&
  unique_check (fun u => sql_lower (User.Email u)) (users d) &&
  keyed_check Credential.ID (credentials d) &&
  unique_check (fun c => (Credential.UserID c, Credential.Type_ c)) (credentials d) &&
  fk_check Credential.UserID (credentials d) (users d) &&
  keyed_check Session.ID (sessions d) && unique_check Session.RefreshTokenHash (sessions d) &&
  fk_check Session.UserID (sessions d) (users d) &&
  keyed_check ServiceAccount.ID (service_accounts d) && unique_check ServiceAccount.ClientID (service_accounts d) &&
  bool_decide (map_Forall (fun k e => k = (OutboxEvent.ID e, CreatedAt (OutboxEvent.fields e))) (outbox_events d)) &&
  keyed_check MFAEnrollment.UserID (user_mfa d) && fk_check MFAEnrollment.UserID (user_mfa d) (users d) &&
  keyed_check MFARecoveryCode.ID (mfa_recovery_codes d) &&
  unique_check (fun c => (MFARecoveryCode.UserID c, MFARecoveryCode.CodeHash c)) (mfa_recovery_codes d) &&
  fk_check MFARecoveryCode.UserID (mfa_recovery_codes d) (users d) &&
  keyed_check MFALoginChallenge.TokenHash (mfa_login_challenges d) &&
  fk_check MFALoginChallenge.UserID (mfa_login_challenges d) (users d) &&
  keyed_check PasswordResetChallenge.TokenHash (password_reset_challenges d) &&
  fk_check PasswordResetChallenge.UserID (password_reset_challenges d) (users d).

Lemma keyed_check_sound {A} key (t : gmap string A) : keyed_check key t = true -> keyed_by key t.
Proof. intros H%bool_decide_eq_true k r Hr. by apply (H k r). Qed.
Lemma unique_check_sound {A K} `{Hdec : !EqDecision K} (f : A -> K) t : unique_check f t = true -> unique_on f t.
Proof. intros H%bool_decide_eq_true k1 k2 r1 r2 H1 H2. by apply (H k1 r1 H1 k2 r2). Qed.

Lemma schema_check_sound d : schema_check d = true -> schema_ok d.
Proof.
  unfold schema_check. rewrite !andb_true_iff. intros H. destr_all.
  split; first [ by apply keyed_check_sound | by eapply unique_check_sound
               | (eapply bool_decide_eq_true; eassumption) ].
Qed.

Lemma keyed_check_complete {A} key (t : gmap string A) : keyed_by key t -> keyed_check key t = true.
Proof. intros H. apply bool_decide_eq_true. exact H. Qed.
Lemma unique_check_complete {A K} `{Hdec : !EqDecision K} (f : A -> K) t : unique_on f t -> unique_check f t = true.
Proof. intros H. apply bool_decide_eq_true. intros k1 r1 H1 k2 r2 H2 Hf. by apply (H k1 k2 r1 r2). Qed.
Lemma schema_check_complete d : schema_ok d -> schema_check d = true.
Proof.
  intros []. unfold schema_check. rewrite !andb_true_iff.
  split_and!; first [ by apply keyed_check_complete | by apply unique_check_complete | by apply bool_decide_eq_true ].
Qed.

(** No other request; a database that breaks a constraint is not shown. *)
Definition guarded (clock : Z) (seed : nat) : Env := {|
  env_clock := @env_clock (quiet clock seed); env_rand := @env_rand (quiet clock seed);
  env_uuid := @env_uuid (quiet clock seed); env_fault := fun _ => None; env_pick := fun _ => O;
  env_interfere := fun _ d => if schema_check d then d else empty_db |}.

Definition old : Fields := mkFields 1 (noon - Hour) (noon - Hour) "seed" "seed".
Definition password : string := "correct horse battery".
Definition salt : bytes := replicate 16 (chr 65).
Definition hash_of (pw : string) : string :=
  format_hash DefaultPasswordParameters salt (argon2_IDKey (bytes_of pw) salt 3 65536 2 32).

(** Alice has a password and two live sessions; Bob has MFA, two recovery
    codes and a pending login challenge. *)
Definition alice : User.t := User.mk "u1" "alice" "Alice" "alice@example.com" "" StatusActive 4 None old.
Definition bob : User.t := User.mk "u2" "bob" "Bob" "bob@example.com" "" StatusActive 0 None old.
Definition session (id user hash : string) (expires : Z) : Session.t :=
  Session.mk id user "" "" hash "" "" expires None "" (noon - Hour) "10.0.0.1" "curl" old.
Definition totp_secret : string := "GEZDGNBVGY3TQOJQGEZDGNBVGY3TQOJQ".
Definition ciphertext : string :=
  EncodeToString RawURLEncoding (replicate 12 (chr 1) ++ bytes_of totp_secret).

Definition db : DB := mkDB
  {[ "u1" := alice; "u2" := bob ]}
  {[ "c1" := Credential.mk "c1" "u1" "password" (hash_of password) StatusActive old;
     "c2" := Credential.mk "c2" "u2" "password" (hash_of password) StatusActive old ]}
  {[ "s1" := session "s1" "u1" (hash_token "refresh-1") (noon + Hour);
     "s2" := session "s2" "u1" (hash_token "refresh-2") (noon + Hour) ]}
  {[ "a1" := ServiceAccount.mk "a1" "svc_1" "worker" (hash_of "service secret value") StatusActive "x" [] old ]}
  ∅
  {[ "u2" := MFAEnrollment.mk "u2" "totp" ciphertext MFAStatusEnabled 5 (Some (noon - Hour)) old ]}
  {[ "r1" := MFARecoveryCode.mk "r1" "u2" (RecoveryCodeHash crypto "AAAA-BBBB-CCCC-DDDD") None old;
     "r2" := MFARecoveryCode.mk "r2" "u2" (RecoveryCodeHash crypto "AAAA-BBBB-CCCC-EEEE") None old ]}
  {[ hash_token "challenge" :=
       MFALoginChallenge.mk (hash_token "challenge") "u2" "10.0.0.2" "curl" (noon + Minute) None old ]}
  {[ hash_token "reset" :=
       PasswordResetChallenge.mk (hash_token "reset") "u1" "forgotten" (noon + Minute) None old ]}.

Lemma db_ok : schema_ok db.
Proof. apply schema_check_sound. vm_compute. reflexivity. Qed.

Lemma empty_ok : schema_ok empty_db.
Proof. apply schema_check_sound. vm_compute. reflexivity. Qed.
#[global] Instance guarded_enforced clock seed : @Enforced _ (guarded clock seed).
Proof.
  intros i d. cbn. destruct (schema_check d) eqn:E; [by apply schema_check_sound|apply empty_ok].
Qed.
#[global] Instance guarded_rely clock seed : @Rely (guarded clock seed) safe_step.
Proof. intros i d Hd. cbn. rewrite (schema_check_complete d Hd). split; [reflexivity|done]. Qed.

#[global] Instance quiet_rely clock seed : @Rely (quiet clock seed) safe_step.
Proof. intros i d. simpl. reflexivity. Qed.
End Concrete.
