(* ===== verification/BaseSpec.v ===== *)
(** * Theorems on the shared helpers *)

From S2P Require Import Prelude.
From S2P Require Import GoStrings.
From S2P Require Import Encoding.
From S2P Require Import AppError.
From S2P Require Import Platform.
From S2P Require Import Table.
From S2P Require Import Model.
From S2P Require Import Runtime.
From S2P Require Import Repository.
From S2P Require Import Password.
From S2P Require Import Token.
From S2P Require Import MFACrypto.
From S2P Require Import ServiceBase.
From S2P Require Import Concrete.
Open Scope Z_scope.

(** C37: Truncation to a byte limit keeps whole characters: the result is a
    prefix within the limit; a short value is returned as it is; of the
    prefixes within the limit that are valid UTF-8 it is the longest; and if
    the value is valid UTF-8, so is the result, and at most 3 bytes below the
    limit are given up. *)
Theorem truncate_keeps_characters (value : bytes) (maxBytes : nat) :
  let r := truncate_bytes value maxBytes in
  r `prefix_of` value /\ (length r <= maxBytes)%nat /\
  ((length value <= maxBytes)%nat -> r = value) /\
  ((maxBytes < length value)%nat -> ValidString r = true) /\
  (forall n, (n <= maxBytes)%nat -> (maxBytes < length value)%nat -> ValidString (take n value) = true -> (n <= length r)%nat) /\
  (ValidString value = true -> ValidString r = true /\ ((maxBytes < length value)%nat -> (maxBytes <= length r + 3)%nat)).
Proof.
  intros r. unfold r, truncate_bytes. case_decide as Hl.
  - split_and!; try (intros; lia); [done|done|intros Hv; split; [done|lia]].
  - set (p := fun n => ValidString (take n value)). set (k := search_down p maxBytes).
    assert (length (take k value) = k) as Hk.
    { rewrite length_take. pose proof (search_down_le p maxBytes) as Hle. fold k in Hle. lia. }
    assert (ValidString (take k value) = true) as Hv by (apply (search_down_sat p); done).
    assert (k <= maxBytes)%nat as Hle by apply search_down_le.
    split_and!; try done.
    + by exists (drop k value); rewrite take_drop.
    + by rewrite Hk.
    + intros n Hn _ Hvn. rewrite Hk. by apply search_down_max.
    + intros Hvalue. split; [done|]. intros _. rewrite Hk.
      destruct (ValidString_boundary value Hvalue maxBytes ltac:(lia)) as (j & Hj1 & Hj2 & Hj3).
      pose proof (search_down_max p maxBytes j Hj1 Hj3) as Hjk. fold k in Hjk. lia.
Qed.

(** The offset of a page is exact as long as it fits an [int]: the first
    row of page [n] directly follows the last row of page [n-1]. *)
Theorem page_offset_exact page pageSize :
  (clamp_page page - 1) * clamp_size pageSize <= int64_max ->
  page_offset (clamp_page page) (clamp_size pageSize) = (clamp_page page - 1) * clamp_size pageSize /\
  0 <= page_offset (clamp_page page) (clamp_size pageSize).
Proof.
  unfold page_offset, int64_max. intros H.
  assert (1 <= clamp_page page) by (unfold clamp_page; case_decide; lia).
  assert (1 <= clamp_size pageSize <= 100) by (unfold clamp_size; case_decide; lia).
  rewrite wrap64_id; [nia|]. unfold int64_min, int64_max. nia.
Qed.

Lemma page_offset_exact_witness : page_offset (clamp_page 3) (clamp_size 50) = 100.
Proof. apply (page_offset_exact 3 50). vm_compute. discriminate. Defined.

(** Beyond it the product wraps: the requested page 2^58+1 of size 64 is
    answered with the first page, and other pages have a negative offset. *)
Lemma page_offset_wraps :
  page_offset (clamp_page (2 ^ 58 + 1)) (clamp_size 64) = 0 /\
  page_offset (clamp_page (2 ^ 57 + 1)) (clamp_size 64) < 0.
Proof. vm_compute. split; reflexivity. Qed.
