(* ===== verification/CryptoSpec.v ===== *)
(** * Theorems on password hashes, tokens and MFA secrets *)

From Stdlib Require Import Ascii.
From S2P Require Import Prelude.
From S2P Require Import GoStrings.
From S2P Require Import Encoding.
From S2P Require Import Digest.
From S2P Require Import AppError.
From S2P Require Import Platform.
From S2P Require Import Table.
From S2P Require Import Model.
From S2P Require Import Runtime.
From S2P Require Import Repository.
From S2P Require Import MFARepository.
From S2P Require Import Evolution.
From S2P Require Import Guarantee.
From S2P Require Import Inversion.
From S2P Require Import Password.
From S2P Require Import Token.
From S2P Require Import MFACrypto.
From S2P Require Import ServiceBase.
From S2P Require Import Concrete.
Open Scope Z_scope.

Section password_spec.
Context {argon : Argon2} {laws : Argon2Laws} {env : Env} {elaws : EnvLaws}.

(** Shared with the theorems on registration. *)
Lemma hash_run p h password w encoded w' :
  parameters_width p -> NewPasswordHasher p = Ok h ->
  Hash h password w = (Ok encoded, w') ->
  12 <= go_len password <= 1024 /\
  exists salt, Z.of_nat (length salt) = SaltLength p /\ forall h' other,
    let key pw := argon2_IDKey (bytes_of pw) salt (Iterations p) (Memory p) (Parallelism p) (KeyLength p) in
    Verify h' other encoded =
      Ok (bool_decide (key other = key password),
          bool_decide (key other = key password) && bool_decide (p <> parameters h')).
Proof using laws elaws.
  intros Hw Hh H. assert (parameters h = p) as Hp by (unfold NewPasswordHasher in Hh; case_decide; [done|]; by injection Hh as <-).
  unfold Hash in H. inv_run H. rewrite Hp in *.
  assert (12 <= go_len password <= 1024) as Hlen by (unfold validatePassword in E; case_decide; [done|lia]).
  apply rand_Ok in R as (Hs & _). apply rand_length in Hs. split; [done|].
  destruct Hw as (Hm & Ht & Hpl & Hsl & Hkl). exists x0. split; [lia|]. intros h' other key. subst encoded.
  unfold Verify. rewrite (parse_format p x0 _ h); [|done|done|lia|apply length_IDKey; lia].
  cbn [mbind Res_bind]. rewrite length_IDKey by lia. unfold uint32_of. rewrite Z.mod_small by lia. done.
Qed.

(** C39: Hashing and verification agree.  If a hasher with accepted
    parameters hashes a password, any hasher decodes the stored text and
    accepts exactly the passwords with the same derived key; the original
    password is accepted, and a rehash is asked for exactly when the
    verifying hasher has other parameters. *)
Theorem hash_then_verify p h password w encoded w' :
  parameters_width p -> NewPasswordHasher p = Ok h ->
  Hash h password w = (Ok encoded, w') ->
  12 <= go_len password <= 1024 /\
  exists salt, Z.of_nat (length salt) = SaltLength p /\ forall h' other,
    let key pw := argon2_IDKey (bytes_of pw) salt (Iterations p) (Memory p) (Parallelism p) (KeyLength p) in
    Verify h' other encoded =
      Ok (bool_decide (key other = key password),
          bool_decide (key other = key password) && bool_decide (p <> parameters h')).
Proof using laws elaws. apply hash_run. Qed.
End password_spec.

Lemma hash_then_verify_witness : exists encoded w' (salt : bytes),
  @Hash Concrete.argon (Concrete.quiet 0 0) (mkHasher DefaultPasswordParameters) "correct horse battery" (start empty_db)
    = (Ok encoded, w') /\
  @Verify Concrete.argon (mkHasher DefaultPasswordParameters) "correct horse battery" encoded = Ok (true, false) /\
  Z.of_nat (length salt) = 16.
Proof.
  by_running (@Hash Concrete.argon (Concrete.quiet 0 0) (mkHasher DefaultPasswordParameters) "correct horse battery" (start empty_db))
    as a w E.
  destruct (hash_then_verify (elaws := Concrete.quiet_laws 0 0) DefaultPasswordParameters (mkHasher DefaultPasswordParameters)
    "correct horse battery" (start empty_db) a w) as (_ & salt & Hl & Hv).
  - unfold parameters_width. cbn. lia.
  - reflexivity.
  - exact E.
  - exists a, w, salt. split; [exact E|]. split; [|exact Hl]. rewrite Hv, bool_decide_true by reflexivity.
    rewrite bool_decide_false by (intros Hn; apply Hn; reflexivity). reflexivity.
Defined.

Section token_spec.
Context {ed : Ed25519} {edl : Ed25519Laws} {jwt : JWT} {jl : JWTLaws} {env : Env}.

(** The issuer can verify what it signs. *)
Definition issuer_ok (i : TokenIssuer) : Prop :=
  verificationKeys i !! keyID i = Some (Public (privateKey i)) /\ audiences i <> [].

Lemma NewTokenIssuer_ok iss auds kid key t i : NewTokenIssuer iss auds kid key t = Ok i -> issuer_ok i.
Proof using.
  unfold NewTokenIssuer. case_decide as Hc; [done|]. intros [= <-]. split; simpl; [by rewrite lookup_singleton_eq|tauto].
Qed.

Lemma AddVerificationKey_ok i kid key i' :
  AddVerificationKey i kid key = Ok i' -> kid <> keyID i -> issuer_ok i -> issuer_ok i'.
Proof using.
  unfold AddVerificationKey. case_decide as Hc; [done|]. intros [= <-] Hne [Hk Ha].
  split; simpl; [by rewrite lookup_insert_ne|done].
Qed.

(** A previous secret under the current key id replaces the key that
    verifies the tokens the issuer signs. *)
Lemma previous_key_shadows_current i key i' :
  AddVerificationKey i (keyID i) key = Ok i' -> key <> Public (privateKey i) -> ~ issuer_ok i'.
Proof using.
  unfold AddVerificationKey. case_decide as Hc; [done|]. intros [= <-] Hne [Hk _]. simpl in Hk.
  rewrite lookup_insert_eq in Hk. congruence.
Qed.

(** Shared with the theorems on service accounts. *)
Lemma issue_run i subject ty sid tid mid w raw exp w' :
  issuer_ok i -> Issue i subject ty sid tid mid w = (Ok (raw, exp), w') ->
  subject <> "" /\ ty <> "" /\ exp = env_clock (w_clk w) + ttl i /\
  exists c, Subject c = subject /\ SubjectType c = ty /\ SessionID c = sid /\ TenantID c = tid /\ MembershipID c = mid /\
    forall now, ParseAt i now raw = Ok c <->
      NewNumericDate (env_clock (w_clk w)) <= now < NewNumericDate (env_clock (w_clk w) + ttl i).
Proof using jl.
  intros [Hkey Haud] H. unfold Issue in H. inv_run H. injection E0 as -> <-.
  apply now_Ok in R as (-> & _). apply sign_content in E as [Hc Hv].
  split; [tauto|]. split; [tauto|]. split; [done|].
  match type of Hc with _ = Some (_, _, ?cl) => exists cl end. do 5 (split; [reflexivity|]).
  intros n. unfold ParseAt. split.
  - destruct (ParseWithClaims _ _ _ _ _) as [c|] eqn:Ep; [|done]. intros [= ->].
    apply parse_spec in Ep as (m & kid & key & _ & _ & _ & (_ & _ & (e & He & Hlt) & Hnb & _)).
    cbn in *. injection He as <-. specialize (Hnb _ eq_refl). lia.
  - intros [Hn1 Hn2].
    destruct (ParseWithClaims _ _ _ _ _) as [c|] eqn:Ep.
    + apply parse_spec in Ep as (m & kid & key & Hc' & _). rewrite Hc in Hc'. by injection Hc' as <- <- <-.
    + exfalso. match type of Hc with _ = Some (_, _, ?cl) =>
        assert (ParseWithClaims (keyfunc i) (Token.issuer i) (default "" (head (audiences i))) n raw = Ok cl) as Hok end.
      { apply parse_spec. exists "EdDSA", (keyID i), (Public (privateKey i)). split; [exact Hc|].
        split; [unfold keyfunc; rewrite Hkey, decide_False by (intros Hz; by apply Hz); done|]. split; [done|].
        split_and!; cbn; [done| |by eexists|by intros ? [= <-]|by intros ? [= <-]].
        destruct (audiences i); [done|]. apply list_elem_of_here. }
      congruence.
Qed.

(** C40: Tokens round trip.  What [Issue] returns is accepted by [Parse] of
    the same issuer exactly between the (second-precision) time of issue and
    expiry, and then yields the subject, session, tenant and membership it
    was issued for; the reported expiry is the time of issue plus the
    lifetime. *)
Theorem issue_then_parse i subject ty sid tid mid w raw exp w' :
  issuer_ok i -> Issue i subject ty sid tid mid w = (Ok (raw, exp), w') ->
  subject <> "" /\ ty <> "" /\ exp = env_clock (w_clk w) + ttl i /\
  exists c, Subject c = subject /\ SubjectType c = ty /\ SessionID c = sid /\ TenantID c = tid /\ MembershipID c = mid /\
    forall now, ParseAt i now raw = Ok c <->
      NewNumericDate (env_clock (w_clk w)) <= now < NewNumericDate (env_clock (w_clk w) + ttl i).
Proof using jl. apply issue_run. Qed.

(** [Parse] is sound: a token is accepted only if it is an EdDSA token
    whose signature verifies under the verification key registered for its
    key id, it was issued by this issuer for its first audience, and it
    carries an expiry that has not passed. *)
Theorem parse_only_trusted i now raw c :
  ParseAt i now raw = Ok c ->
  exists kid key e, jwt_content raw = Some ("EdDSA", kid, c) /\ verificationKeys i !! kid = Some key /\
    jwt_verifies key raw = true /\ Token.Issuer c = Token.issuer i /\ default "" (head (audiences i)) ∈ Audience c /\
    ExpiresAt c = Some e /\ now < e.
Proof using jl.
  unfold ParseAt. destruct (ParseWithClaims _ _ _ _ _) as [c'|] eqn:Ep; [|done]. intros [= ->].
  apply parse_spec in Ep as (m & kid & key & Hc & Hk & Hv & (Hi & Ha & (e & He & Hlt) & _)).
  unfold keyfunc in Hk. destruct (verificationKeys i !! kid) as [key'|] eqn:Ek; [|done].
  case_decide as Hm; [done|]. subst m. injection Hk as ->. eauto 12.
Qed.

(** The published key set lists every verification key exactly once, in
    the order of its key ids, and a client that decodes an entry obtains the
    key that [Parse] uses for that key id. *)
Theorem jwks_publishes_keys i :
  (forall kid key, verificationKeys i !! kid = Some key <->
     exists j, j ∈ JWKS i /\ KeyID j = kid /\ DecodeString RawURLEncoding (X j) = Some key) /\
  NoDup (KeyID <$> JWKS i) /\ Sorted key_le (KeyID <$> JWKS i).
Proof using.
  assert (KeyID <$> JWKS i = merge_sort key_le (fst <$> map_to_list (verificationKeys i))) as Hids.
  { unfold JWKS. rewrite <-list_fmap_compose. apply list_fmap_id. }
  split; [|split].
  - intros kid key. split.
    + intros Hk. eexists. split; [|split; [|]].
      * unfold JWKS. apply list_elem_of_fmap_2. rewrite merge_sort_Permutation.
        apply list_elem_of_fmap. exists (kid, key). split; [reflexivity|]. by apply elem_of_map_to_list.
      * reflexivity.
      * cbn [X fst]. rewrite Hk. apply decode_encode_string; [apply RawURLEncoding_ok|done].
    + intros (j & Hj & <- & Hd). unfold JWKS in Hj. apply list_elem_of_fmap in Hj as (k & -> & Hin).
      cbn [X KeyID] in *. rewrite decode_encode_string in Hd; [|apply RawURLEncoding_ok|done].
      rewrite merge_sort_Permutation in Hin. apply list_elem_of_fmap in Hin as ([k' v] & -> & Hkv%elem_of_map_to_list).
      simpl in *. rewrite Hkv in *. by injection Hd as <-.
  - rewrite Hids, merge_sort_Permutation. apply NoDup_fst_map_to_list.
  - rewrite Hids. apply Sorted_merge_sort. intros a b. unfold key_le. apply String.leb_total.
Qed.
End token_spec.

(** ** One-time passwords *)

Lemma modulus_six : modulus 6 = 1000000.
Proof. reflexivity. Qed.

Lemma dec_value_zeros n l : dec_value 0 (replicate n (chr 48) ++ l) = dec_value 0 l.
Proof. induction n as [|n IH]; [done|]. unfold dec_value in *. simpl. rewrite <-IH. f_equal. Qed.

(** A number below 10^n is written with exactly [n] digits. *)
Lemma pad_zero_spec n v : 0 < n -> 0 <= v < 10 ^ n ->
  go_len (pad_zero n v) = n /\ forallb is_digit (bytes_of (pad_zero n v)) = true /\
  dec_value 0 (bytes_of (pad_zero n v)) = v.
Proof.
  intros Hn Hv. unfold pad_zero, go_len. rewrite bytes_of_string_of. split_and!.
  - assert (length (itoa_bytes v) <= Z.to_nat n)%nat.
    { unfold itoa_bytes. etrans; [apply (length_dec_digits _ _ _ (Z.to_nat n)); [|lia]|simpl; lia].
      by rewrite Z2Nat.id by lia. }
    rewrite length_app, length_replicate. lia.
  - rewrite forallb_app, itoa_digits by lia. rewrite andb_true_r.
    induction (Z.to_nat n - length (itoa_bytes v))%nat as [|k IH]; [done|]. exact IH.
  - rewrite dec_value_zeros, itoa_value; lia.
Qed.

Lemma hotp_length secret counter : go_len (hotp secret counter totpDigits) = 6.
Proof. apply pad_zero_spec; [done|]. apply Z.mod_pos_bound. done. Qed.

(** HOTP codes are well formed and follow RFC 4226: dynamic truncation
    reads four bytes inside the 20-byte HMAC-SHA1 value, and the code has
    exactly six decimal digits, whose value is the 31-bit truncated value
    modulo 10^6. *)
Theorem hotp_follows_rfc4226 (secret : bytes) (counter : Z) :
  let sum := hmac sha1 secret (be_bytes 8 counter) in
  let offset := Z.to_nat (Z.land (code (default (chr 0) (last sum))) 0x0f) in
  let otp := hotp secret counter totpDigits in
  length sum = 20%nat /\ (offset + 4 <= length sum)%nat /\
  go_len otp = 6 /\ forallb is_digit (bytes_of otp) = true /\
  dec_value 0 (bytes_of otp) = (be_value (take 4 (drop offset sum)) mod 2 ^ 31) mod 10 ^ 6.
Proof.
  intros sum offset otp. assert (length sum = 20%nat) as Hs by apply length_hmac_sha1.
  assert (offset <= 15)%nat as Ho.
  { unfold offset. change 0x0f with (Z.ones 4). rewrite Z.land_ones by lia.
    pose proof (Z.mod_pos_bound (code (default (chr 0) (last sum))) (2 ^ 4)). lia. }
  assert (otp = pad_zero 6 ((be_value (take 4 (drop offset sum)) mod 2 ^ 31) mod 10 ^ 6)) as Hotp.
  { unfold otp, hotp. fold sum. fold offset. change 0x7fffffff with (Z.ones 31). rewrite Z.land_ones by lia. reflexivity. }
  rewrite Hotp. destruct (pad_zero_spec 6 ((be_value (take 4 (drop offset sum)) mod 2 ^ 31) mod 10 ^ 6)) as (H1 & H2 & H3);
    [lia|apply Z.mod_pos_bound; lia|].
  split_and!; [done|lia|done|done|done].
Qed.

Section totp_spec.
Context {uc : UnicodeCase}.

Lemma try_steps_Some secret code step offsets k :
  try_steps secret code step offsets = Some k ->
  exists o, o ∈ offsets /\ k = step + o /\ 0 <= k /\ hotp secret k totpDigits = code.
Proof using.
  induction offsets as [|o offsets IH]; simpl; [done|].
  repeat case_decide; [|intros [= <-]|].
  - intros (o' & Hin & ?)%IH. exists o'. split; [by right|done].
  - exists o. split_and!; [left|done|lia|done].
  - intros (o' & Hin & ?)%IH. exists o'. split; [by right|done].
Qed.

Lemma try_steps_None secret code step offsets o :
  try_steps secret code step offsets = None -> o ∈ offsets -> 0 <= step + o ->
  hotp secret (step + o) totpDigits <> code.
Proof using.
  induction offsets as [|o' offsets IH]; simpl; [by intros _ ?%elem_of_nil|].
  repeat case_decide; intros HN Hin Ho; try done.
  - apply elem_of_cons in Hin as [->|Hin]; [lia|]. by apply IH.
  - apply elem_of_cons in Hin as [->|Hin]; [done|]. by apply IH.
Qed.

(** C36: A one-time password is accepted for a step exactly if the secret
    decodes to a non-empty key and the code is the HOTP value of a
    non-negative step at most one period away from the current one: every
    accepted step is such a step, and if such a step exists the code is
    accepted. *)
Theorem validate_totp_window secret code now :
  let current := Z.quot (Unix now) 30 in
  let good key k := key <> [] /\ current - 1 <= k <= current + 1 /\ 0 <= k /\ hotp key k totpDigits = code in
  (forall k, ValidateTOTP secret code now = Some k ->
     exists key, DecodeString base32NoPadding (ToUpper (TrimSpace secret)) = Some key /\ good key k) /\
  (forall key k, DecodeString base32NoPadding (ToUpper (TrimSpace secret)) = Some key -> good key k ->
     exists k', ValidateTOTP secret code now = Some k' /\ good key k').
Proof using.
  intros current good. unfold ValidateTOTP. change (totpPeriod / Second) with 30. fold current.
  change (seqZ (- totpWindow) (2 * totpWindow + 1)) with [-1; 0; 1].
  assert (forall o, o ∈ [-1; 0; 1] <-> -1 <= o <= 1) as Hw.
  { intros o. rewrite !elem_of_cons, elem_of_nil. lia. }
  destruct (DecodeString _ _) as [key|] eqn:Ed; [|split; [done|by intros]].
  split.
  - intros k. case_decide as Hc; [done|]. intros (o & Ho%Hw & -> & Hk & Hh)%try_steps_Some.
    exists key. split; [done|]. split_and!; try done; [tauto|lia|lia].
  - intros key' k [= <-] (Hne & Hr & Hk & Hh).
    assert (go_len code = 6) as Hlen.
    { rewrite <-Hh. apply hotp_length. }
    rewrite decide_False by (unfold totpDigits; tauto).
    destruct (try_steps key code current [-1; 0; 1]) as [k'|] eqn:Et.
    + exists k'. split; [done|]. apply try_steps_Some in Et as (o & Ho%Hw & -> & Hk' & Hh').
      split_and!; try done; lia.
    + exfalso. eapply (try_steps_None _ _ _ _ (k - current) Et); [apply Hw; lia|lia|].
      by replace (current + (k - current)) with k by lia.
Qed.
End totp_spec.

(** ** Enrolment secrets and recovery codes *)

(** Characters of recovery codes and secrets: capitals, digits and dashes. *)
Definition code_char (a : ascii) : Prop := plain a /\ is_lower (code a) = false.

Lemma base32_chars l : Forall code_char (EncodeRaw base32NoPadding l).
Proof.
  eapply Forall_impl; [apply (EncodeRaw_alphabet _ base32NoPadding_ok)|]. intros a Ha.
  assert (Forall (fun a => code_char a) base32_alphabet) as Hal.
  { unfold code_char, plain. apply (bool_decide_unpack _). vm_compute. exact I. }
  rewrite Forall_forall in Hal. by apply Hal.
Qed.

Lemma take_drop_app {A} n m (l : list A) : take n (drop m l) ++ drop (m + n) l = drop m l.
Proof. rewrite <-drop_drop. apply take_drop. Qed.

Section secrets_spec.
Context {uc : UnicodeCase}.

Lemma code_chars_ascii l : Forall code_char l -> is_ascii l = true.
Proof using.
  induction 1 as [|a l [Ha _] _ IH]; [done|]. unfold plain in Ha. unfold is_ascii in *. cbn [forallb].
  rewrite IH. replace (code a <? 128) with true by lia. done.
Qed.

Lemma upper_code_chars l : Forall code_char l -> ToUpper (string_of l) = string_of l.
Proof using.
  intros Hl. unfold ToUpper. rewrite bytes_of_string_of, code_chars_ascii by done. f_equal.
  induction Hl as [|a l [_ Ha] _ IH]; [done|]. cbn [fmap list_fmap]. rewrite IH. unfold ascii_upper. by rewrite Ha.
Qed.

Lemma trim_code_chars l : Forall code_char l -> TrimSpace (string_of l) = string_of l.
Proof using.
  intros Hl. unfold TrimSpace. rewrite bytes_of_string_of, trim_plain; [done|].
  eapply Forall_impl; [exact Hl|]. by intros a [].
Qed.

(** A recovery code may be typed with or without its dashes: for every
    random value, the code shown to the user and the same code
    without dashes have the same stored hash, which is the keyed hash of
    the undashed text. *)
Theorem recovery_code_dashes_optional (m : MFACrypto) (raw : bytes) :
  let compact := bytes_of (EncodeToString base32NoPadding raw) in
  RecoveryCodeHash m (string_of (dashed compact)) = RecoveryCodeHash m (string_of compact) /\
  RecoveryCodeHash m (string_of compact) =
    EncodeToString RawURLEncoding (hmac sha256 (recoveryPepper m) compact).
Proof using.
  intros compact. assert (Forall code_char compact) as Hc.
  { unfold compact, EncodeToString. cbn [padded base32NoPadding]. rewrite bytes_of_string_of. apply base32_chars. }
  assert (code_char (chr 45)) as Hdash by (split; [unfold plain; vm_compute; split; congruence|reflexivity]).
  assert (Forall code_char (dashed compact)) as Hd.
  { unfold dashed. repeat (apply Forall_app; split); try (by repeat constructor);
      repeat first [apply Forall_take | apply Forall_drop | exact Hc]. }
  assert (Forall (fun a => a <> chr 45) compact) as Hnd.
  { unfold compact, EncodeToString. cbn [padded base32NoPadding]. rewrite bytes_of_string_of.
    eapply Forall_impl; [apply (EncodeRaw_alphabet _ base32NoPadding_ok)|]. intros a Ha ->. revert Ha.
    apply (bool_decide_unpack _). vm_compute. exact I. }
  assert (forall l, Forall (fun a => a <> chr 45) l -> filter (fun a => a <> chr 45) l = l) as Hf
    by (intros l; apply filter_all).
  assert (filter (fun a => a <> chr 45) (dashed compact) = compact) as Hfd.
  { unfold dashed. rewrite !filter_app, (Hf (take 4 compact)), (Hf (take 4 (drop 4 compact))),
      (Hf (take 4 (drop 8 compact))), (Hf (drop 12 compact)) by (repeat first [apply Forall_take | apply Forall_drop | exact Hnd]).
    change (filter (fun a => a <> chr 45) [chr 45]) with ([] : bytes). cbn [app].
    change (drop 12 compact) with (drop (8 + 4) compact). rewrite take_drop_app.
    change (drop 8 compact) with (drop (4 + 4) compact). rewrite take_drop_app. apply take_drop. }
  unfold RecoveryCodeHash, remove_byte. rewrite !trim_code_chars, !bytes_of_string_of, Hfd, Hf by done.
  by rewrite upper_code_chars, bytes_of_string_of by done.
Qed.

Context {env : Env} {elaws : EnvLaws}.

(** Shared with the theorem on enrolment. *)
Lemma encrypt_run (m : MFACrypto) userID secret w encrypted w' :
  AEAD_ok (aead m) -> EncryptSecret m userID secret w = (Ok encrypted, w') ->
  DecryptSecret m userID encrypted = Ok secret.
Proof using elaws.
  intros Ha H. unfold EncryptSecret in H. inv_run H. subst encrypted.
  apply rand_Ok in R as (Hn & _). apply rand_length in Hn.
  unfold DecryptSecret. rewrite decode_encode_string; [|apply RawURLEncoding_ok|done].
  rewrite decide_False by (rewrite length_app; lia).
  rewrite take_app_length', drop_app_length' by done. rewrite (open_seal _ Ha) by done.
  by rewrite string_of_bytes_of.
Qed.

(** Encrypted enrolment secrets decrypt to themselves, for the same user
    and with a cipher whose [Open] inverts [Seal]. *)
Theorem encrypt_then_decrypt (m : MFACrypto) userID secret w encrypted w' :
  AEAD_ok (aead m) -> EncryptSecret m userID secret w = (Ok encrypted, w') ->
  DecryptSecret m userID encrypted = Ok secret.
Proof using elaws. apply encrypt_run. Qed.

(** The secret handed out at enrolment works: for every time at or after
    1970, the six-digit code computed from its twenty random bytes for the
    current period is accepted. *)
Theorem generated_secret_validates (m : MFACrypto) account w secret uri w' now :
  0 <= now -> GenerateTOTP m account w = (Ok (secret, uri), w') ->
  exists raw, length raw = totpSecretBytes /\
    is_Some (ValidateTOTP secret (hotp raw (Z.quot (Unix now) 30) totpDigits) now).
Proof using elaws.
  intros Hnow H. unfold GenerateTOTP in H. inv_run H. injection E as <- _.
  apply rand_Ok in R as (Hr & _). apply rand_length in Hr. exists x. split; [done|].
  assert (0 <= Z.quot (Unix now) 30) as Hq.
  { apply Z.quot_pos; [|lia]. unfold Unix. apply Z.div_pos; unfold Second; lia. }
  assert (DecodeString base32NoPadding (ToUpper (TrimSpace (EncodeToString base32NoPadding x))) = Some x) as Hd.
  { unfold EncodeToString. cbn [padded base32NoPadding].
    rewrite trim_code_chars, upper_code_chars by apply base32_chars.
    apply (decode_encode_string base32NoPadding x); [apply base32NoPadding_ok|done]. }
  unfold ValidateTOTP. rewrite Hd. change (totpPeriod / Second) with 30.
  rewrite decide_False.
  2:{ intros [->|Hl]; [done|]. apply Hl, hotp_length. }
  destruct (try_steps _ _ _ _) as [k|] eqn:Et; [by eexists|]. exfalso.
  eapply (try_steps_None _ _ _ _ 0 Et); [|lia|by rewrite Z.add_0_r].
  change (seqZ (- totpWindow) (2 * totpWindow + 1)) with [-1; 0; 1]. set_solver.
Qed.
End secrets_spec.

(** ** Witnesses *)
Section witnesses.
Import Concrete.
#[local] Instance env0 : Env := quiet noon 0.

Lemma concrete_issuer_ok : issuer_ok issuer.
Proof. split; [vm_compute; reflexivity|discriminate]. Qed.

Lemma issue_then_parse_witness : exists raw exp w' c,
  Issue issuer "u1" "user" "s1" "" "" (start empty_db) = (Ok (raw, exp), w') /\
  ParseAt issuer noon raw = Ok c /\ Subject c = "u1".
Proof.
  by_running (Issue issuer "u1" "user" "s1" "" "" (start empty_db)) as a w E. destruct a as [raw exp].
  destruct (issue_then_parse issuer "u1" "user" "s1" "" "" (start empty_db) raw exp w concrete_issuer_ok E)
    as (_ & _ & _ & c & Hs & _ & _ & _ & _ & Hp).
  exists raw, exp, w, c. split; [exact E|]. split; [|exact Hs]. apply Hp. vm_compute. split; [discriminate|reflexivity].
Defined.

Lemma parse_only_trusted_witness : exists raw c kid,
  ParseAt issuer noon raw = Ok c /\ jwt_content raw = Some ("EdDSA", kid, c).
Proof.
  set (raw := match Issue issuer "u1" "user" "s1" "" "" (start empty_db) with (Ok (r, _), _) => r | _ => "" end).
  assert (is_ok (ParseAt issuer noon raw) = true) as Hok by (vm_compute; reflexivity).
  destruct (ParseAt issuer noon raw) as [c|] eqn:E; [|discriminate Hok].
  destruct (parse_only_trusted issuer noon raw c E) as (kid & key & e & Hc & _).
  exists raw, c, kid. split; [exact E|exact Hc].
Defined.

Lemma encrypt_then_decrypt_witness : exists c w',
  EncryptSecret crypto "u1" "GEZDGNBV" (start empty_db) = (Ok c, w') /\ DecryptSecret crypto "u1" c = Ok "GEZDGNBV".
Proof.
  by_running (EncryptSecret crypto "u1" "GEZDGNBV" (start empty_db)) as a w E. exists a, w. split; [exact E|].
  refine (encrypt_then_decrypt (elaws := quiet_laws noon 0) crypto "u1" "GEZDGNBV" (start empty_db) a w _ E).
  split. reflexivity.
Defined.

Lemma generated_secret_validates_witness : exists secret uri w' raw,
  GenerateTOTP crypto "alice@example.com" (start empty_db) = (Ok (secret, uri), w') /\
  is_Some (ValidateTOTP secret (hotp raw (Z.quot (Unix noon) 30) totpDigits) noon).
Proof.
  by_running (GenerateTOTP crypto "alice@example.com" (start empty_db)) as a w E. destruct a as [secret uri].
  destruct (generated_secret_validates (elaws := quiet_laws noon 0) crypto "alice@example.com" (start empty_db) secret uri w noon)
    as (raw & _ & Hv); [unfold noon, Second; lia|exact E|].
  exists secret, uri, w, raw. split; [exact E|exact Hv].
Defined.
End witnesses.
