(* ===== verification/Sessions.v ===== *)
(** * Sessions

    The session operations of [internal/identity/service.go]: creation,
    refresh-token rotation, logout, validation, listing, revocation and
    tenant scoping. *)

From S2P Require Import Prelude.
From S2P Require Import GoStrings.
From S2P Require Import Encoding.
From S2P Require Import Digest.
From S2P Require Import AppError.
From S2P Require Import Platform.
From S2P Require Import Table.
From S2P Require Import Model.
From S2P Require Import Runtime.
From S2P Require Import Repository.
From S2P Require Import Password.
From S2P Require Import Token.
From S2P Require Import MFACrypto.
From S2P Require Import ServiceBase.
Open Scope Z_scope.

Module Sessions.
Section sessions.
Context {libs : Libs} {env : Env} (s : Service).

Definition prepareSession (ctx : Ctx) (userID tenantID membershipID : string) (client : SessionClient)
  : M (Session.t * Tokens) :=
  now ← now;
  '(rawRefresh, refreshHash) ← map_err Internal newRefreshToken;
  fields ← map_err (fun _ => Unauthorized "authenticated actor is required") (lift (audit_New ctx now));
  id ← uuid_NewString;
  let session := Session.mk id userID "" "" refreshHash tenantID membershipID (now + refreshTTL) None ""
                   now (truncateUTF8 (TrimSpace (ClientIP client)) 128)
                   (truncateUTF8 (TrimSpace (ClientUserAgent client)) 1024) fields in
  '(access, expiresAt) ← map_err Internal (Issue (tokens s) userID "user" id tenantID membershipID);
  mret (session, mkTokens access rawRefresh "Bearer" expiresAt id).

Definition createSession (ctx : Ctx) (userID tenantID membershipID : string) (client : SessionClient) : M Tokens :=
  '(session, toks) ← prepareSession ctx userID tenantID membershipID client;
  map_err translateIdentityError (Within (transactor s) (Repository.CreateSession session));;
  mret toks.

Definition Refresh (ctx : Ctx) (refreshToken : string) : M Tokens :=
  let hash := hashRefreshToken refreshToken in
  reject (refreshToken = "") (Unauthorized "invalid refresh token");;
  session ← map_err (fun _ => Unauthorized "invalid refresh token") (Repository.SessionByRefreshHash hash);
  reject (Session.RevokedAt session <> None) (Unauthorized "invalid refresh token");;
  t ← now;
  reject (~ After (Session.ExpiresAt session) t) (Unauthorized "invalid refresh token");;
  user ← map_err (fun _ => Unauthorized "account is unavailable") (Repository.GetUser (Session.UserID session));
  reject (User.Status user <> StatusActive) (Unauthorized "account is unavailable");;
  '(rawRefresh, newHash) ← map_err Internal newRefreshToken;
  now ← now;
  let f := Session.fields session in
  let updated := Session.mk (Session.ID session) (Session.UserID session) (Session.Username session)
                   (Session.UserDisplayName session) newHash (Session.TenantID session)
                   (Session.MembershipID session) (Session.ExpiresAt session) (Session.RevokedAt session)
                   (Session.RevokeReason session) now (Session.ClientIP session) (Session.UserAgent session)
                   (mkFields (Version f) (CreatedAt f) now (CreatedBy f) (Session.UserID session)) in
  '(access, expiresAt) ← map_err Internal (Issue (tokens s) (User.ID user) "user" (Session.ID session)
                            (Session.TenantID session) (Session.MembershipID session));
  map_err (fun _ => Unauthorized "refresh token was already used")
    (Within (transactor s) (Repository.RotateSession updated hash));;
  mret (mkTokens access rawRefresh "Bearer" expiresAt (Session.ID session)).

Definition revoked_event (ctx : Ctx) (session : Session.t) (now : Z) (reason : string) : M OutboxEvent.t :=
  newOutboxEvent ctx "platform.identity.session.revoked.v1" "platform.identity.v1.SessionRevoked"
    (Session.ID session) now
    (SessionRevokedEvent (Session.ID session) (Session.UserID session) (Session.TenantID session) reason).

Definition Logout (ctx : Ctx) (sessionID reason : string) : M unit :=
  actor ← map_err (fun _ => Unauthorized "authenticated actor is required") (lift (principal_Require ctx));
  let reason := if decide (reason = "") then "logout" else reason in
  now ← now;
  session ← map_err translateIdentityError (Repository.GetSession sessionID (PID actor));
  event ← map_err Internal (revoked_event ctx session now reason);
  map_err translateIdentityError (Within (transactor s)
    (Repository.RevokeSession sessionID (PID actor) reason (PID actor) now;;
     Repository.InsertOutbox event)).

Definition no_session : Session.t :=
  Session.mk "" "" "" "" "" "" "" zero_time None "" zero_time "" "" (mkFields 0 zero_time zero_time "" "").

Definition ValidateSession (ctx : Ctx) (id userID : string) : M (Session.t * bool) :=
  r ← attempt (Repository.GetSession id userID);
  match r with
  | Err e => if errors_Is e ErrNotFound then mret (no_session, false) else throw (translateIdentityError e)
  | Ok session =>
      if decide (Session.RevokedAt session = None) then
        t ← now; mret (session, bool_decide (After (Session.ExpiresAt session) t))
      else mret (session, false)
  end.

Definition ListSessions (ctx : Ctx) (userID tenantID status : string) (page pageSize : Z) : M (Page Session.t) :=
  reject (status <> "" /\ status <> "active" /\ status <> "revoked" /\ status <> "expired")
    (Invalid "invalid session status" None);;
  let page := clamp_page page in
  let pageSize := clamp_size pageSize in
  t ← now;
  '(items, total) ← map_err translateIdentityError
    (Repository.ListSessions (TrimSpace userID) (TrimSpace tenantID) status t pageSize (page_offset page pageSize));
  mret (mkPage items total page pageSize).

Definition ListOwnSessions (ctx : Ctx) (status : string) (page pageSize : Z) : M (Page Session.t) :=
  actor ← map_err (fun _ => Unauthorized "authenticated user is required") (lift (principal_Require ctx));
  reject (PType actor <> TypeUser) (Unauthorized "authenticated user is required");;
  ListSessions ctx (PID actor) "" status page pageSize.

Definition RevokeOwnSessionByID (ctx : Ctx) (id reason : string) (version : Z) : M Session.t :=
  actor ← map_err (fun _ => Unauthorized "authenticated user is required") (lift (principal_Require ctx));
  reject (PType actor <> TypeUser) (Unauthorized "authenticated user is required");;
  let id := TrimSpace id in
  current ← map_err translateIdentityError (Repository.GetSession id (PID actor));
  let reason := if decide (TrimSpace reason = "") then "user security revocation" else TrimSpace reason in
  now ← now;
  event ← map_err Internal (revoked_event ctx current now reason);
  map_err translateIdentityError (Within (transactor s)
    (Repository.RevokeOwnedSessionByID (Session.ID current) (PID actor) reason (PID actor) version now;;
     Repository.InsertOutbox event));;
  Repository.GetSession (Session.ID current) (PID actor).

Definition RevokeSessionByID (ctx : Ctx) (id reason : string) (version : Z) : M Session.t :=
  actor ← map_err (fun _ => Unauthorized "authenticated actor is required") (lift (principal_Require ctx));
  current ← map_err translateIdentityError (Repository.GetSessionByID (TrimSpace id));
  let reason := if decide (TrimSpace reason = "") then "administrative revocation" else TrimSpace reason in
  now ← now;
  event ← map_err Internal (revoked_event ctx current now reason);
  map_err translateIdentityError (Within (transactor s)
    (Repository.RevokeSessionByID (Session.ID current) reason (PID actor) version now;;
     Repository.InsertOutbox event));;
  Repository.GetSessionByID (Session.ID current).

Definition GetSessionByID (ctx : Ctx) (id : string) : M Session.t :=
  map_err (fun _ => Unauthorized "authenticated actor is required") (lift (principal_Require ctx));;
  let id := TrimSpace id in
  reject (id = "") (Invalid "session_id is required" None);;
  map_err translateIdentityError (Repository.GetSessionByID id).

Definition RevokeTenantSessions (ctx : Ctx) (userID tenantID reason : string) : M Z :=
  actor ← map_err (fun _ => Unauthorized "authenticated actor is required") (lift (principal_Require ctx));
  t ← now;
  map_err translateIdentityError (Repository.RevokeTenantSessions userID tenantID reason (PID actor) t).

Definition IssueTenantToken (ctx : Ctx) (userID tenantID membershipID sessionID : string) : M (string * Z) :=
  actor ← map_err (fun _ => Unauthorized "authenticated actor is required") (lift (principal_Require ctx));
  reject (PType actor <> TypeServiceAccount /\ PType actor <> TypeSystem)
    (AppErr CodeForbidden "tenant tokens may only be issued by a trusted service" 403 None);;
  let userID := TrimSpace userID in
  let tenantID := TrimSpace tenantID in
  let membershipID := TrimSpace membershipID in
  let sessionID := TrimSpace sessionID in
  reject (userID = "" \/ tenantID = "" \/ membershipID = "" \/ sessionID = "")
    (Invalid "user_id, tenant_id, membership_id, and session_id are required" None);;
  '(token, expiresAt) ← map_err Internal (Issue (tokens s) userID "user" sessionID tenantID membershipID);
  now ← now;
  map_err translateIdentityError (Within (transactor s)
    (Repository.ScopeSession sessionID userID tenantID membershipID (PID actor) now));;
  mret (token, expiresAt).
End sessions.
End Sessions.
