(* ===== verification/Users.v ===== *)
(** * Users, login and passwords

    Registration, the password step of login, password change, user
    administration ([internal/identity/service.go]) and
    [issueMFAChallenge] of [mfa_service.go], which login calls. *)

From S2P Require Import Prelude.
From S2P Require Import GoStrings.
From S2P Require Import Encoding.
From S2P Require Import Digest.
From S2P Require Import AppError.
From S2P Require Import Platform.
From S2P Require Import Table.
From S2P Require Import Model.
From S2P Require Import Runtime.
From S2P Require Import Repository.
From S2P Require Import MFARepository.
From S2P Require Import Password.
From S2P Require Import Token.
From S2P Require Import MFACrypto.
From S2P Require Import ServiceBase.
From S2P Require Import Sessions.
Open Scope Z_scope.

Module Users.
Section users.
Context {libs : Libs} {env : Env} (s : Service).

Definition Register (ctx : Ctx) (username displayName email phone password : string) : M User.t :=
  let username := ToLower (TrimSpace username) in
  let displayName := TrimSpace displayName in
  let email := ToLower (TrimSpace email) in
  let phone := TrimSpace phone in
  reject (username = "" \/ displayName = "" \/ email = "")
    (Invalid "username, display_name, and email are required" None);;
  hash ← map_err (fun e => Invalid (error_text e) (Some e)) (Hash (hasher s) password);
  t ← now;
  fields ← map_err (fun _ => Unauthorized "authenticated actor is required") (lift (audit_New ctx t));
  userID ← uuid_NewString;
  let user := User.mk userID username displayName email phone StatusActive 0 None fields in
  credID ← uuid_NewString;
  let credential := Credential.mk credID userID "password" hash StatusActive fields in
  event ← map_err Internal (newOutboxEvent ctx "platform.identity.user.created.v1"
    "platform.identity.v1.UserCreated" userID (CreatedAt fields) (protoIdentityUser UserCreatedEvent user));
  map_err translateIdentityError (Within (transactor s)
    (Repository.CreateUser user credential;; Repository.InsertOutbox event));;
  mret user.

Definition hashMFAChallengeToken (token : string) : string := hash_token token.

Definition issueMFAChallenge (ctx : Ctx) (userID : string) (client : SessionClient) : M LoginResult :=
  raw ← map_err Internal (rand_Read 32);
  let token := EncodeToString RawURLEncoding raw in
  let tokenHash := hashMFAChallengeToken token in
  now ← now;
  let expiresAt := now + mfaChallengeTTL s in
  let challengeContext := principal_SystemContext ctx "identity:login" in
  fields ← map_err Internal (lift (audit_New challengeContext now));
  let challenge := MFALoginChallenge.mk tokenHash userID (truncateUTF8 (TrimSpace (ClientIP client)) 128)
                     (truncateUTF8 (TrimSpace (ClientUserAgent client)) 1024) expiresAt None fields in
  map_err translateIdentityError (Within (transactor s) (MFARepository.InsertMFAChallenge challenge));;
  mret (mkLoginResult no_tokens true token (Some expiresAt)).

Definition locked (u : User.t) (now : Z) : Prop :=
  match User.LockedUntil u with Some t => After t now | None => False end.
#[global] Instance locked_dec u now : Decision (locked u now).
Proof. unfold locked. destruct (User.LockedUntil u); apply _. Defined.

Definition Login (ctx : Ctx) (login password : string) (client : SessionClient) : M LoginResult :=
  let login := TrimSpace login in
  reject (login = "" \/ password = "") (Invalid "login and password are required" None);;
  '(user, credential) ← map_err (fun _ => Unauthorized "invalid credentials") (Repository.UserByLogin login);
  now ← now;
  reject (User.Status user <> StatusActive \/ locked user now \/ Credential.Status credential <> StatusActive)
    (Unauthorized "account is unavailable");;
  match Verify (hasher s) password (Credential.SecretHash credential) with
  | Ok (true, _) =>
      map_err Internal (Repository.ResetFailedLogin (User.ID user) now);;
      r ← attempt (MFARepository.GetMFA (User.ID user));
      match r with
      | Ok enrollment =>
          if decide (MFAEnrollment.Status enrollment = MFAStatusEnabled) then
            match mfa s with
            | None => throw (Unavailable "mfa verification is unavailable" None)
            | Some _ => issueMFAChallenge ctx (User.ID user) client
            end
          else
            toks ← Sessions.createSession s (principal_SystemContext ctx "identity:login") (User.ID user) "" "" client;
            mret (mkLoginResult toks false "" None)
      | Err e =>
          if errors_Is e ErrNotFound then
            toks ← Sessions.createSession s (principal_SystemContext ctx "identity:login") (User.ID user) "" "" client;
            mret (mkLoginResult toks false "" None)
          else throw (translateIdentityError e)
      end
  | _ =>
      attempt (Repository.RecordFailedLogin (User.ID user) loginFailureThreshold (now + loginLockDuration) now);;
      throw (Unauthorized "invalid credentials")
  end.

Definition ChangePassword (ctx : Ctx) (currentPassword newPassword : string) : M Z :=
  actor ← map_err (fun _ => Unauthorized "authenticated user session is required") (lift (principal_Require ctx));
  reject (PType actor <> TypeUser \/ PSessionID actor = "") (Unauthorized "authenticated user session is required");;
  credential ← map_err (fun e => if errors_Is e ErrNotFound then Unauthorized "current password is invalid"
                                 else translateIdentityError e) (Repository.PasswordCredential (PID actor));
  reject (Credential.Status credential <> StatusActive) (Unauthorized "current password is invalid");;
  '(valid, _) ← map_err (fun _ => Unauthorized "current password is invalid")
                  (lift (Verify (hasher s) currentPassword (Credential.SecretHash credential)));
  reject (valid = false) (Unauthorized "current password is invalid");;
  '(samePassword, _) ← map_err (fun e => Invalid "new password is invalid" (Some e))
                         (lift (Verify (hasher s) newPassword (Credential.SecretHash credential)));
  reject (samePassword = true) (Invalid "new password must differ from current password" None);;
  secretHash ← map_err (fun e => Invalid (error_text e) (Some e)) (Hash (hasher s) newPassword);
  now ← now;
  map_err translateIdentityError (Within (transactor s)
    (Repository.UpdatePasswordCredential (Credential.ID credential) secretHash (PID actor)
       (Version (Credential.fields credential)) now;;
     count ← Repository.RevokeOtherSessions (PID actor) (PSessionID actor) "password changed" (PID actor) now;
     event ← newOutboxEvent ctx "platform.identity.user.password-changed.v1" "platform.identity.v1.PasswordChanged"
               (PID actor) now
               (PasswordChangedEvent (PID actor) count "PASSWORD_CHANGE_TYPE_SELF_SERVICE" "user changed password");
     Repository.InsertOutbox event;;
     mret count)).

Definition GetUser (ctx : Ctx) (id : string) : M User.t := map_err translateIdentityError (Repository.GetUser id).

Definition ListUsers (ctx : Ctx) (keyword status : string) (page pageSize : Z) : M (Page User.t) :=
  reject (status <> "" /\ ~ status ∈ [StatusActive; StatusDisabled; StatusLocked; StatusClosed])
    (Invalid "invalid user status" None);;
  let page := clamp_page page in
  let pageSize := clamp_size pageSize in
  '(items, total) ← map_err translateIdentityError
    (Repository.ListUsers keyword status pageSize (page_offset page pageSize));
  mret (mkPage items total page pageSize).

Definition UpdateUserStatus (ctx : Ctx) (id status reason : string) (version : Z) : M User.t :=
  reject (~ status ∈ [StatusActive; StatusDisabled; StatusLocked; StatusClosed]) (Invalid "invalid user status" None);;
  actor ← map_err (fun _ => Unauthorized "authenticated actor is required") (lift (principal_Require ctx));
  current ← map_err translateIdentityError (Repository.GetUser id);
  now ← now;
  event ← map_err Internal (newOutboxEvent ctx "platform.identity.user.status-changed.v1"
    "platform.identity.v1.UserStatusChanged" id now
    (UserStatusChangedEvent id (UserStatus_value (User.Status current)) (UserStatus_value status) reason));
  map_err translateIdentityError (Within (transactor s)
    (Repository.UpdateUserStatus id status (PID actor) version now;;
     (if decide (status <> StatusActive)
      then Repository.RevokeUserSessions id ("user status changed to " +:+ status) (PID actor) now;; mret tt
      else mret tt);;
     Repository.InsertOutbox event));;
  Repository.GetUser id.

Definition UpdateUserProfile (ctx : Ctx) (id displayName email phone reason : string) (version : Z) : M User.t :=
  let id := TrimSpace id in
  let displayName := TrimSpace displayName in
  let email := ToLower (TrimSpace email) in
  let phone := TrimSpace phone in
  let reason := TrimSpace reason in
  reject (id = "" \/ displayName = "" \/ email = "" \/ reason = "" \/ version < 1)
    (Invalid "id, display_name, email, reason, and a positive version are required" None);;
  actor ← map_err (fun _ => Unauthorized "authenticated actor is required") (lift (principal_Require ctx));
  current ← map_err translateIdentityError (Repository.GetUser id);
  now ← now;
  let f := User.fields current in
  let updated := User.mk (User.ID current) (User.Username current) displayName email phone (User.Status current)
                   (User.FailedLoginCount current) (User.LockedUntil current)
                   (mkFields (wrap64 (version + 1)) (CreatedAt f) now (CreatedBy f) (PID actor)) in
  event ← map_err Internal (newOutboxEvent ctx "platform.identity.user.profile-updated.v1"
    "platform.identity.v1.UserProfileUpdated" id now
    (protoIdentityUser UserProfileUpdatedEvent updated reason));
  map_err translateIdentityError (Within (transactor s)
    (Repository.UpdateUserProfile id displayName email phone (PID actor) version now;;
     Repository.InsertOutbox event));;
  Repository.GetUser id.

(** The loop of [BatchGetUsers] and [BatchGetServiceAccounts]: trim, refuse
    the empty id, drop repetitions. *)
Fixpoint normalize_ids (msg : string) (ids : list string) (seen : list string) : Result (list string) :=
  match ids with
  | [] => Ok []
  | id :: rest =>
      let id := TrimSpace id in
      if decide (id = "") then Err (Invalid msg None)
      else if decide (id ∈ seen) then normalize_ids msg rest seen
      else out ← normalize_ids msg rest (id :: seen); Ok (id :: out)
  end.

Definition BatchGetUsers (ctx : Ctx) (ids : list string) : M (list User.t) :=
  reject (100 < length ids)%nat (Invalid "at most 100 user IDs are allowed" None);;
  normalized ← lift (normalize_ids "user IDs must not be empty" ids []);
  map_err translateIdentityError (Repository.BatchGetUsers normalized).
End users.
End Users.
