(* ===== verification/ServiceAccounts.v ===== *)
(** * Service accounts

    The service-account operations of [internal/identity/service.go]. *)

From S2P Require Import Prelude.
From S2P Require Import GoStrings.
From S2P Require Import Encoding.
From S2P Require Import Digest.
From S2P Require Import AppError.
From S2P Require Import Platform.
From S2P Require Import Table.
From S2P Require Import Model.
From S2P Require Import Runtime.
From S2P Require Import Repository.
From S2P Require Import Password.
From S2P Require Import Token.
From S2P Require Import MFACrypto.
From S2P Require Import ServiceBase.
From S2P Require Import Users.
Open Scope Z_scope.

Module ServiceAccounts.
Section accounts.
Context {libs : Libs} {env : Env} (s : Service).

Definition decodeServiceAccountAudiences (a : ServiceAccount.t) : Result ServiceAccount.t :=
  match json_Unmarshal (ServiceAccount.AudiencesJSON a) with
  | Err e => Err (Errorf "decode service account audiences" e)
  | Ok auds =>
      Ok (ServiceAccount.mk (ServiceAccount.ID a) (ServiceAccount.ClientID a) (ServiceAccount.Name a)
            (ServiceAccount.SecretHash a) (ServiceAccount.Status a) (ServiceAccount.AudiencesJSON a)
            (default [] auds) (ServiceAccount.fields a))
  end.

(** [for index := range items { decodeServiceAccountAudiences(&items[index]) }]. *)
Fixpoint decode_all (items : list ServiceAccount.t) : Result (list ServiceAccount.t) :=
  match items with
  | [] => Ok []
  | a :: rest => a' ← decodeServiceAccountAudiences a; rest' ← decode_all rest; Ok (a' :: rest')
  end.

Definition GetServiceAccount (ctx : Ctx) (id : string) : M ServiceAccount.t :=
  account ← map_err translateIdentityError (Repository.GetServiceAccount id);
  map_err Internal (lift (decodeServiceAccountAudiences account)).

Definition ListServiceAccounts (ctx : Ctx) (keyword status : string) (page pageSize : Z) : M (Page ServiceAccount.t) :=
  reject (status <> "" /\ status <> StatusActive /\ status <> StatusDisabled)
    (Invalid "invalid service account status" None);;
  let page := clamp_page page in
  let pageSize := clamp_size pageSize in
  '(items, total) ← map_err translateIdentityError
    (Repository.ListServiceAccounts keyword status pageSize (page_offset page pageSize));
  items ← map_err Internal (lift (decode_all items));
  mret (mkPage items total page pageSize).

Definition BatchGetServiceAccounts (ctx : Ctx) (ids : list string) : M (list ServiceAccount.t) :=
  unique ← lift (Users.normalize_ids "service_account_ids must not contain empty values" ids []);
  if decide (unique = []) then mret []
  else
    reject (100 < length unique)%nat (Invalid "service_account_ids must not contain more than 100 values" None);;
    items ← map_err translateIdentityError (Repository.BatchGetServiceAccounts unique);
    map_err Internal (lift (decode_all items)).

Definition newServiceAccountSecret : M (string * string) :=
  raw ← map_err (Errorf "generate service account secret") (rand_Read 32);
  let secret := EncodeToString RawURLEncoding raw in
  hash ← map_err (Errorf "hash service account secret") (Hash (hasher s) secret);
  mret (secret, hash).

Definition CreateServiceAccount (ctx : Ctx) (name : string) (auds : list string) : M (ServiceAccount.t * string) :=
  let name := TrimSpace name in
  reject (name = "" \/ auds = []) (Invalid "name and audiences are required" None);;
  t ← now;
  fields ← map_err (fun _ => Unauthorized "authenticated actor is required") (lift (audit_New ctx t));
  '(secret, hash) ← map_err Internal newServiceAccountSecret;
  encoded ← map_err (fun e => Invalid "invalid audiences" (Some e)) (lift (json_Marshal auds));
  id ← uuid_NewString;
  cid ← uuid_NewString;
  let account := ServiceAccount.mk id ("svc_" +:+ cid) name hash StatusActive encoded auds fields in
  event ← map_err Internal (newOutboxEvent ctx "platform.identity.service-account.status-changed.v1"
    "platform.identity.v1.ServiceAccountStatusChanged" id (CreatedAt fields)
    (ServiceAccountStatusChangedEvent id "" StatusActive "created"));
  map_err translateIdentityError (Within (transactor s)
    (Repository.CreateServiceAccount account;; Repository.InsertOutbox event));;
  mret (account, secret).

Definition RotateServiceAccountSecret (ctx : Ctx) (id : string) (version : Z) : M (string * Z) :=
  let id := TrimSpace id in
  reject (id = "" \/ version < 1) (Invalid "service account id and version are required" None);;
  actor ← map_err (fun _ => Unauthorized "authenticated actor is required") (lift (principal_Require ctx));
  '(secret, hash) ← map_err Internal newServiceAccountSecret;
  now ← now;
  let nextVersion := wrap64 (version + 1) in
  event ← map_err Internal (newOutboxEvent ctx "platform.identity.service-account.secret-rotated.v1"
    "platform.identity.v1.ServiceAccountSecretRotated" id now (ServiceAccountSecretRotatedEvent id nextVersion));
  map_err translateIdentityError (Within (transactor s)
    (Repository.RotateServiceAccountSecret id hash (PID actor) version now;; Repository.InsertOutbox event));;
  mret (secret, nextVersion).

Definition UpdateServiceAccountStatus (ctx : Ctx) (id status : string) (version : Z) : M unit :=
  reject (status <> StatusActive /\ status <> StatusDisabled) (Invalid "status must be active or disabled" None);;
  actor ← map_err (fun _ => Unauthorized "authenticated actor is required") (lift (principal_Require ctx));
  current ← map_err translateIdentityError (Repository.GetServiceAccount id);
  now ← now;
  event ← map_err Internal (newOutboxEvent ctx "platform.identity.service-account.status-changed.v1"
    "platform.identity.v1.ServiceAccountStatusChanged" id now
    (ServiceAccountStatusChangedEvent id (ServiceAccount.Status current) status "administrative update"));
  map_err translateIdentityError (Within (transactor s)
    (Repository.UpdateServiceAccountStatus id status (PID actor) version now;; Repository.InsertOutbox event)).

Definition ServiceAccountToken (ctx : Ctx) (clientID secret : string) : M (string * Z) :=
  account ← map_err (fun _ => Unauthorized "invalid service credentials") (Repository.ServiceAccountByClientID clientID);
  reject (ServiceAccount.Status account <> StatusActive) (Unauthorized "invalid service credentials");;
  '(valid, _) ← map_err (fun _ => Unauthorized "invalid service credentials")
                  (lift (Verify (hasher s) secret (ServiceAccount.SecretHash account)));
  reject (valid = false) (Unauthorized "invalid service credentials");;
  Issue (tokens s) (ServiceAccount.ID account) "service_account" "" "" "".

Definition ParseToken (raw : string) : M TokenClaims := Parse (tokens s) raw.
Definition PublishedKeys : list JWK := JWKS (tokens s).
End accounts.
End ServiceAccounts.
