(* ===== verification/MFAService.v ===== *)
(** * Multi-factor authentication

    The operations of [internal/identity/mfa_service.go]: verification of a
    login challenge, enrolment, disabling, recovery codes and administrative
    reset. *)

From S2P Require Import Prelude.
From S2P Require Import GoStrings.
From S2P Require Import Encoding.
From S2P Require Import Digest.
From S2P Require Import AppError.
From S2P Require Import Platform.
From S2P Require Import Table.
From S2P Require Import Model.
From S2P Require Import Runtime.
From S2P Require Import Repository.
From S2P Require Import MFARepository.
From S2P Require Import Password.
From S2P Require Import Token.
From S2P Require Import MFACrypto.
From S2P Require Import ServiceBase.
From S2P Require Import Sessions.
From S2P Require Import Users.
Open Scope Z_scope.

Definition mfaSetupTTL : Z := 10 * Minute.

Module MFA.
Section mfa_ops.
Context {libs : Libs} {env : Env} (s : Service).

Definition requireMFAUser (ctx : Ctx) : M Principal :=
  actor ← map_err (fun _ => Unauthorized "authenticated user session is required") (lift (principal_Require ctx));
  reject (PType actor <> TypeUser \/ PSessionID actor = "") (Unauthorized "authenticated user session is required");;
  mret actor.

Definition verifyCurrentPassword (userID password : string) : M unit :=
  credential ← map_err (fun _ => Unauthorized "current password is invalid") (Repository.PasswordCredential userID);
  reject (Credential.Status credential <> StatusActive) (Unauthorized "current password is invalid");;
  '(valid, _) ← map_err (fun _ => Unauthorized "current password is invalid")
                  (lift (Verify (hasher s) password (Credential.SecretHash credential)));
  reject (valid = false) (Unauthorized "current password is invalid").

Definition require_mfa (msg : string) : M MFACrypto :=
  match mfa s with None => throw (Unavailable msg None) | Some m => mret m end.

Definition VerifyMFAChallenge (ctx : Ctx) (challengeToken code recoveryCode : string) : M Tokens :=
  m ← require_mfa "mfa verification is unavailable";
  let challengeToken := TrimSpace challengeToken in
  let code := TrimSpace code in
  let recoveryCode := TrimSpace recoveryCode in
  reject (challengeToken = "" \/ (code = "" <-> recoveryCode = ""))
    (Invalid "challenge_token and exactly one verification code are required" None);;
  let tokenHash := Users.hashMFAChallengeToken challengeToken in
  challenge ← map_err (fun _ => Unauthorized "invalid or expired mfa challenge") (MFARepository.GetMFAChallenge tokenHash);
  now ← now;
  reject (MFALoginChallenge.ConsumedAt challenge <> None \/ ~ After (MFALoginChallenge.ExpiresAt challenge) now)
    (Unauthorized "invalid or expired mfa challenge");;
  user ← map_err (fun _ => Unauthorized "account is unavailable") (Repository.GetUser (MFALoginChallenge.UserID challenge));
  reject (User.Status user <> StatusActive) (Unauthorized "account is unavailable");;
  enrollment ← map_err (fun _ => Unauthorized "mfa is not enabled") (MFARepository.GetMFA (MFALoginChallenge.UserID challenge));
  reject (MFAEnrollment.Status enrollment <> MFAStatusEnabled) (Unauthorized "mfa is not enabled");;
  let verifyContext := principal_SystemContext ctx "identity:mfa" in
  '(step, recoveryHash) ←
    (if decide (code <> "") then
       secret ← map_err Internal (lift (DecryptSecret m (MFALoginChallenge.UserID challenge)
                                          (MFAEnrollment.SecretCiphertext enrollment)));
       match ValidateTOTP secret code now with
       | None => throw (Unauthorized "invalid or already used mfa code")
       | Some step =>
           reject (step <= MFAEnrollment.LastUsedStep enrollment) (Unauthorized "invalid or already used mfa code");;
           mret (step, "")
       end
     else mret (0, RecoveryCodeHash m recoveryCode));
  '(session, toks) ← Sessions.prepareSession s verifyContext (MFALoginChallenge.UserID challenge) "" ""
    (mkSessionClient (MFALoginChallenge.ClientIP challenge) (MFALoginChallenge.UserAgent challenge));
  map_err (fun e => if errors_Is e ErrStale then Unauthorized "invalid or already used mfa verification"
                    else translateIdentityError e)
    (Within (transactor s)
      (MFARepository.ConsumeMFAChallenge tokenHash "identity:mfa" (Version (MFALoginChallenge.fields challenge)) now;;
       (if decide (recoveryHash <> "")
        then MFARepository.ConsumeRecoveryCode (MFALoginChallenge.UserID challenge) recoveryHash "identity:mfa" now
        else MFARepository.AdvanceMFAStep (MFALoginChallenge.UserID challenge) step "identity:mfa" now);;
       Repository.CreateSession session));;
  mret toks.

(** The common tail of [MFAStatus] and [AdminMFAStatus]. *)
Definition status_of (userID : string) : M MFAStatusView :=
  r ← attempt (MFARepository.GetMFA userID);
  match r with
  | Err e => if errors_Is e ErrNotFound then mret (mkMFAStatus true false MFAStatusDisabled 0 0 None)
             else throw (translateIdentityError e)
  | Ok enrollment =>
      remaining ← (if decide (MFAEnrollment.Status enrollment = MFAStatusEnabled)
                   then map_err translateIdentityError (MFARepository.CountRecoveryCodes userID)
                   else mret 0);
      mret (mkMFAStatus true (bool_decide (MFAEnrollment.Status enrollment = MFAStatusEnabled))
              (MFAEnrollment.Status enrollment) remaining (Version (MFAEnrollment.fields enrollment))
              (MFAEnrollment.EnabledAt enrollment))
  end.

Definition MFAStatus (ctx : Ctx) : M MFAStatusView :=
  actor ← requireMFAUser ctx;
  match mfa s with
  | None => mret (mkMFAStatus false false MFAStatusDisabled 0 0 None)
  | Some _ => status_of (PID actor)
  end.

Definition AdminMFAStatus (ctx : Ctx) (userID : string) : M MFAStatusView :=
  map_err (fun _ => Unauthorized "authenticated actor is required") (lift (principal_Require ctx));;
  let userID := TrimSpace userID in
  reject (userID = "") (Invalid "user_id is required" None);;
  map_err translateIdentityError (Repository.GetUser userID);;
  status_of userID.

Definition StartMFASetup (ctx : Ctx) (currentPassword : string) : M MFASetup :=
  actor ← requireMFAUser ctx;
  m ← require_mfa "mfa is not configured";
  verifyCurrentPassword (PID actor) currentPassword;;
  user ← map_err translateIdentityError (Repository.GetUser (PID actor));
  '(secret, uri) ← map_err Internal (GenerateTOTP m (User.Email user));
  encrypted ← map_err Internal (EncryptSecret m (PID actor) secret);
  now ← now;
  fields ← map_err (fun _ => Unauthorized "authenticated actor is required") (lift (audit_New ctx now));
  r ← attempt (MFARepository.GetMFA (PID actor));
  version ←
    match r with
    | Ok current =>
        reject (MFAEnrollment.Status current = MFAStatusEnabled) (Conflict "mfa is already enabled" None);;
        map_err translateIdentityError (Within (transactor s)
          (MFARepository.ResetPendingMFA (PID actor) encrypted (PID actor) (Version (MFAEnrollment.fields current)) now;;
           MFARepository.DeleteRecoveryCodes (PID actor);;
           mret (wrap64 (Version (MFAEnrollment.fields current) + 1))))
    | Err e =>
        if errors_Is e ErrNotFound then
          map_err translateIdentityError (Within (transactor s)
            (MFARepository.InsertMFA (MFAEnrollment.mk (PID actor) "totp" encrypted MFAStatusPending (-1) None fields);;
             mret 1))
        else throw (translateIdentityError e)
    end;
  mret (mkMFASetup secret uri version (now + mfaSetupTTL)).

(** The loop that pairs each hash with a fresh identifier. *)
Fixpoint recovery_rows (userID : string) (fields : Fields) (hashes : list string) : M (list MFARecoveryCode.t) :=
  match hashes with
  | [] => mret []
  | hash :: rest =>
      id ← uuid_NewString;
      rows ← recovery_rows userID fields rest;
      mret (MFARecoveryCode.mk id userID hash None fields :: rows)
  end.

Definition mfa_event (ctx : Ctx) (userID : string) (now : Z) (payload : Payload) : M OutboxEvent.t :=
  newOutboxEvent ctx "platform.identity.mfa.status-changed.v1" "platform.identity.v1.MFAStatusChanged"
    userID now payload.

Definition ConfirmMFASetup (ctx : Ctx) (code : string) (version : Z) : M MFAConfirmation :=
  actor ← requireMFAUser ctx;
  m ← require_mfa "mfa is not configured";
  enrollment ← map_err translateIdentityError (MFARepository.GetMFA (PID actor));
  now ← now;
  reject (MFAEnrollment.Status enrollment <> MFAStatusPending \/
          ~ After (UpdatedAt (MFAEnrollment.fields enrollment) + mfaSetupTTL) now)
    (Invalid "mfa setup is not pending or has expired" None);;
  secret ← map_err Internal (lift (DecryptSecret m (PID actor) (MFAEnrollment.SecretCiphertext enrollment)));
  step ← match ValidateTOTP secret (TrimSpace code) now with
         | None => throw (Unauthorized "invalid mfa code")
         | Some step => mret step
         end;
  '(codes, hashes) ← map_err Internal (GenerateRecoveryCodes m);
  fields ← map_err (fun _ => Unauthorized "authenticated actor is required") (lift (audit_New ctx now));
  recoveryCodes ← recovery_rows (PID actor) fields hashes;
  event ← map_err Internal (mfa_event ctx (PID actor) now
    (MFAStatusChangedEvent (PID actor) true (uint32_of (Z.of_nat (length recoveryCodes)))
       "MFA_STATUS_CHANGE_TYPE_ENABLED" "user enabled mfa"));
  revokedSessions ← map_err translateIdentityError (Within (transactor s)
    (MFARepository.EnableMFA (PID actor) step (PID actor) version now;;
     MFARepository.ReplaceRecoveryCodes recoveryCodes;;
     revoked ← Repository.RevokeOtherSessions (PID actor) (PSessionID actor) "mfa enabled" (PID actor) now;
     Repository.InsertOutbox event;;
     mret revoked));
  mret (mkMFAConfirmation codes revokedSessions (wrap64 (version + 1))).

Definition DisableMFA (ctx : Ctx) (currentPassword code : string) (version : Z) : M Z :=
  actor ← requireMFAUser ctx;
  m ← require_mfa "mfa is not configured";
  verifyCurrentPassword (PID actor) currentPassword;;
  enrollment ← map_err translateIdentityError (MFARepository.GetMFA (PID actor));
  reject (MFAEnrollment.Status enrollment <> MFAStatusEnabled) (Invalid "mfa is not enabled" None);;
  secret ← map_err Internal (lift (DecryptSecret m (PID actor) (MFAEnrollment.SecretCiphertext enrollment)));
  now ← now;
  step ← match ValidateTOTP secret (TrimSpace code) now with
         | None => throw (Unauthorized "invalid or already used mfa code")
         | Some step => mret step
         end;
  reject (step <= MFAEnrollment.LastUsedStep enrollment) (Unauthorized "invalid or already used mfa code");;
  event ← map_err Internal (mfa_event ctx (PID actor) now
    (MFAStatusChangedEvent (PID actor) false 0 "MFA_STATUS_CHANGE_TYPE_DISABLED" "user disabled mfa"));
  map_err translateIdentityError (Within (transactor s)
    (MFARepository.DisableMFA (PID actor) step (PID actor) version now;;
     MFARepository.DeleteRecoveryCodes (PID actor);;
     revoked ← Repository.RevokeOtherSessions (PID actor) (PSessionID actor) "mfa disabled" (PID actor) now;
     Repository.InsertOutbox event;;
     mret revoked)).

Definition RegenerateMFARecoveryCodes (ctx : Ctx) (currentPassword code : string) (version : Z) : M MFARecoveryRotation :=
  actor ← requireMFAUser ctx;
  m ← require_mfa "mfa is not configured";
  verifyCurrentPassword (PID actor) currentPassword;;
  enrollment ← map_err translateIdentityError (MFARepository.GetMFA (PID actor));
  reject (MFAEnrollment.Status enrollment <> MFAStatusEnabled) (Invalid "mfa is not enabled" None);;
  secret ← map_err Internal (lift (DecryptSecret m (PID actor) (MFAEnrollment.SecretCiphertext enrollment)));
  now ← now;
  step ← match ValidateTOTP secret (TrimSpace code) now with
         | None => throw (Unauthorized "invalid or already used mfa code")
         | Some step => mret step
         end;
  reject (step <= MFAEnrollment.LastUsedStep enrollment) (Unauthorized "invalid or already used mfa code");;
  '(codes, hashes) ← map_err Internal (GenerateRecoveryCodes m);
  fields ← map_err (fun _ => Unauthorized "authenticated actor is required") (lift (audit_New ctx now));
  recoveryCodes ← recovery_rows (PID actor) fields hashes;
  event ← map_err Internal (mfa_event ctx (PID actor) now
    (MFAStatusChangedEvent (PID actor) true (uint32_of (Z.of_nat (length recoveryCodes)))
       "MFA_STATUS_CHANGE_TYPE_RECOVERY_CODES_ROTATED" "user rotated mfa recovery codes"));
  map_err translateIdentityError (Within (transactor s)
    (MFARepository.AdvanceMFAStepAtVersion (PID actor) step (PID actor) version now;;
     MFARepository.ReplaceRecoveryCodes recoveryCodes;;
     Repository.InsertOutbox event));;
  mret (mkMFARotation codes (wrap64 (version + 1))).

Definition newAdministrativeMFAResetEvent (userID reason : string) : Payload :=
  MFAStatusChangedEvent userID false 0 "MFA_STATUS_CHANGE_TYPE_ADMINISTRATIVE_RESET" (TrimSpace reason).

Definition AdminResetMFA (ctx : Ctx) (userID reason : string) (version : Z) : M AdminMFAResetResult :=
  actor ← map_err (fun _ => Unauthorized "authenticated actor is required") (lift (principal_Require ctx));
  let userID := TrimSpace userID in
  let reason := TrimSpace reason in
  reject (userID = "" \/ reason = "" \/ version < 1) (Invalid "user_id, reason, and version are required" None);;
  reject (PType actor = TypeUser /\ PID actor = userID) (Invalid "use self-service mfa disable for the current user" None);;
  enrollment ← map_err translateIdentityError (MFARepository.GetMFA userID);
  reject (MFAEnrollment.Status enrollment <> MFAStatusEnabled) (Invalid "mfa is not enabled" None);;
  now ← now;
  event ← map_err Internal (mfa_event ctx userID now (newAdministrativeMFAResetEvent userID reason));
  revokedSessions ← map_err translateIdentityError (Within (transactor s)
    (MFARepository.AdminResetMFA userID (PID actor) version now;;
     MFARepository.DeleteRecoveryCodes userID;;
     revoked ← Repository.RevokeUserSessions userID ("mfa administratively reset: " +:+ reason) (PID actor) now;
     Repository.InsertOutbox event;;
     mret revoked));
  mret (mkAdminReset userID true revokedSessions (wrap64 (version + 1))).
End mfa_ops.
End MFA.

Lemma ReadOnly_recovery_rows `{!Env} u f l : ReadOnly (MFA.recovery_rows u f l).
Proof. induction l as [|h l IH]; cbn [MFA.recovery_rows]; solve_readonly. Qed.
#[export] Hint Resolve ReadOnly_recovery_rows : readonly.
