(* ===== verification/PasswordReset.v ===== *)
(** * Password recovery

    [internal/identity/password_reset_service.go]: an operator issues a
    one-time token for a user, who sets a new password with it. *)

From S2P Require Import Prelude.
From S2P Require Import GoStrings.
From S2P Require Import Encoding.
From S2P Require Import Digest.
From S2P Require Import AppError.
From S2P Require Import Platform.
From S2P Require Import Table.
From S2P Require Import Model.
From S2P Require Import Runtime.
From S2P Require Import Repository.
From S2P Require Import MFARepository.
From S2P Require Import Password.
From S2P Require Import Token.
From S2P Require Import MFACrypto.
From S2P Require Import ServiceBase.
Open Scope Z_scope.

Definition passwordResetTTL : Z := 30 * Minute.

Module PasswordReset.
Section reset.
Context {libs : Libs} {env : Env} (s : Service).

Definition hashPasswordResetToken (token : string) : string := hash_token token.

Definition IssuePasswordReset (ctx : Ctx) (userID reason : string) : M PasswordResetIssue :=
  actor ← map_err (fun _ => Unauthorized "authenticated actor is required") (lift (principal_Require ctx));
  let userID := TrimSpace userID in
  let reason := TrimSpace reason in
  reject (userID = "" \/ reason = "") (Invalid "user_id and reason are required" None);;
  reject (PType actor = TypeUser /\ PID actor = userID)
    (Invalid "use self-service password change for the current user" None);;
  user ← map_err translateIdentityError (Repository.GetUser userID);
  reject (User.Status user <> StatusActive) (Invalid "password reset requires an active user" None);;
  raw ← map_err Internal (rand_Read 32);
  let token := EncodeToString RawURLEncoding raw in
  now ← now;
  fields ← map_err (fun _ => Unauthorized "authenticated actor is required") (lift (audit_New ctx now));
  let challenge := PasswordResetChallenge.mk (hashPasswordResetToken token) userID reason
                     (now + passwordResetTTL) None fields in
  map_err translateIdentityError (Within (transactor s)
    (MFARepository.InvalidatePasswordResetChallenges userID (PID actor) now;;
     MFARepository.InsertPasswordResetChallenge challenge));;
  mret (mkResetIssue token (now + passwordResetTTL)).

Definition ConfirmPasswordReset (ctx : Ctx) (resetToken newPassword : string) : M PasswordResetResult :=
  let resetToken := TrimSpace resetToken in
  reject (resetToken = "") (Invalid "reset_token is required" None);;
  secretHash ← map_err (fun e => Invalid (error_text e) (Some e)) (Hash (hasher s) newPassword);
  let tokenHash := hashPasswordResetToken resetToken in
  challenge ← map_err (fun _ => Unauthorized "invalid or expired password reset token")
                (MFARepository.GetPasswordResetChallenge tokenHash);
  now ← now;
  reject (PasswordResetChallenge.ConsumedAt challenge <> None \/ ~ After (PasswordResetChallenge.ExpiresAt challenge) now)
    (Unauthorized "invalid or expired password reset token");;
  user ← map_err (fun _ => Unauthorized "account is unavailable") (Repository.GetUser (PasswordResetChallenge.UserID challenge));
  reject (User.Status user <> StatusActive) (Unauthorized "account is unavailable");;
  credential ← map_err (fun _ => Unauthorized "account is unavailable")
                 (Repository.PasswordCredential (PasswordResetChallenge.UserID challenge));
  reject (Credential.Status credential <> StatusActive) (Unauthorized "account is unavailable");;
  '(samePassword, _) ← map_err Internal (lift (Verify (hasher s) newPassword (Credential.SecretHash credential)));
  reject (samePassword = true) (Invalid "new password must differ from current password" None);;
  let resetContext := principal_SystemContext ctx "identity:password-reset" in
  revokedSessions ← map_err (fun e => if errors_Is e ErrStale then Unauthorized "password reset token was already used"
                                      else translateIdentityError e)
    (Within (transactor s)
      (MFARepository.ConsumePasswordResetChallenge tokenHash (Version (PasswordResetChallenge.fields challenge))
         "identity:password-reset" now;;
       Repository.UpdatePasswordCredential (Credential.ID credential) secretHash "identity:password-reset"
         (Version (Credential.fields credential)) now;;
       revoked ← Repository.RevokeUserSessions (PasswordResetChallenge.UserID challenge)
                   "password administratively recovered" "identity:password-reset" now;
       event ← newOutboxEvent resetContext "platform.identity.user.password-changed.v1"
                 "platform.identity.v1.PasswordChanged" (PasswordResetChallenge.UserID challenge) now
                 (PasswordChangedEvent (PasswordResetChallenge.UserID challenge) revoked
                    "PASSWORD_CHANGE_TYPE_ADMINISTRATIVE_RECOVERY" (PasswordResetChallenge.Reason challenge));
       Repository.InsertOutbox event;;
       mret revoked));
  mret (mkResetResult true revokedSessions).
End reset.
End PasswordReset.
