(* ===== verification/Cleanup.v ===== *)
(** * Retention jobs

    [internal/identity/session_cleanup.go]: the cleaner deletes, in batches,
    old sessions and challenges.  [ticks] is the number of rounds
    before the cancellation; start and stop of the goroutine as a lifecycle
    hook are in [Startup]. *)

From S2P Require Import Prelude.
From S2P Require Import GoStrings.
From S2P Require Import AppError.
From S2P Require Import Platform.
From S2P Require Import Table.
From S2P Require Import Model.
From S2P Require Import Runtime.
From S2P Require Import Repository.
From S2P Require Import MFARepository.
From S2P Require Import ServiceBase.
Open Scope Z_scope.

(** [sessionRetentionStore]. *)
Record RetentionStore := mkRetentionStore {
  DeleteExpiredOrRevokedSessionsBefore : Z -> Z -> M Z;
  DeleteExpiredMFAChallengesBefore : Z -> Z -> M Z;
  DeleteExpiredPasswordResetChallengesBefore : Z -> Z -> M Z;
}.

Record SessionCleaner := mkCleaner {
  store : RetentionStore;
  retention : Z;
  interval : Z;
  batchSize : Z;
  enabled : bool;
}.

(** The part of the configuration that the cleaner reads. *)
Record CleanerConfig := mkCleanerConfig {
  SessionRetention : Z;
  SessionCleanupInterval : Z;
  SessionCleanupBatchSize : Z;
  DatabaseEnabled : bool;
}.

Section cleanup.
Context {libs : Libs} {env : Env}.

Definition repository_store : RetentionStore :=
  mkRetentionStore Repository.DeleteExpiredOrRevokedSessionsBefore
    MFARepository.DeleteExpiredMFAChallengesBefore MFARepository.DeleteExpiredPasswordResetChallengesBefore.

(** [store] and [logger] may be nil; the logger itself is not modelled. *)
Definition newSessionCleaner (st : option RetentionStore) (has_logger : bool) (cfg : CleanerConfig)
  : Result (option SessionCleaner) :=
  match st with
  | None => Ok None
  | Some st =>
      if has_logger then
        Ok (Some (mkCleaner st
          (if decide (SessionRetention cfg <= 0) then 30 * 24 * Hour else SessionRetention cfg)
          (if decide (SessionCleanupInterval cfg <= 0) then Hour else SessionCleanupInterval cfg)
          (if decide (SessionCleanupBatchSize cfg <= 0) then 500 else SessionCleanupBatchSize cfg)
          (DatabaseEnabled cfg)))
      else Err (ErrorsNew "identity session cleaner logger is required")
  end.

(** One of the three [for] loops: batches until one is not full.  [None] is
    an exhausted fuel, not an outcome of the code. *)
Fixpoint clean_loop (fuel : nat) (delete : Z -> Z -> M Z) (age batch : Z) : M (option unit) :=
  match fuel with
  | O => mret None
  | S k =>
      t ← now;
      deleted ← delete (t - age) batch;
      if decide (deleted < batch) then mret (Some tt) else clean_loop k delete age batch
  end.

(** [f1; f2] for fuelled loops. *)
Definition then_loop (m k : M (option unit)) : M (option unit) :=
  r ← m; match r with None => mret None | Some _ => k end.

Definition clean (fuel : nat) (c : SessionCleaner) : M (option unit) :=
  then_loop (clean_loop fuel (DeleteExpiredOrRevokedSessionsBefore (store c)) (retention c) (batchSize c))
    (then_loop (clean_loop fuel (DeleteExpiredMFAChallengesBefore (store c)) (24 * Hour) (batchSize c))
      (clean_loop fuel (DeleteExpiredPasswordResetChallengesBefore (store c)) (24 * Hour) (batchSize c))).

(** The goroutine of [start] until it is cancelled after [n] ticks: it cleans
    on every tick, and an error is logged and forgotten. *)
Fixpoint ticks (n fuel : nat) (c : SessionCleaner) : M unit :=
  match n with
  | O => mret tt
  | S k => attempt (clean fuel c);; ticks k fuel c
  end.
Definition start_cleaner (n fuel : nat) (c : SessionCleaner) : M unit :=
  if enabled c then ticks n fuel c else mret tt.
End cleanup.
