(* ===== verification/System.v ===== *)
(** * The whole service

    A request is one call of an operation; the system is any number of
    requests, each with its own clock, randomness, faults and interference,
    and the retention jobs.  [step] is one atomic change of the database made
    by one of them; [SystemSpec.v] has the invariants of its runs. *)

From S2P Require Import Prelude.
From S2P Require Import GoStrings.
From S2P Require Import AppError.
From S2P Require Import Platform.
From S2P Require Import Table.
From S2P Require Import Model.
From S2P Require Import Runtime.
From S2P Require Import Repository.
From S2P Require Import MFARepository.
From S2P Require Import Evolution.
From S2P Require Import Guarantee.
From S2P Require Import Password.
From S2P Require Import Token.
From S2P Require Import MFACrypto.
From S2P Require Import ServiceBase.
From S2P Require Import Sessions.
From S2P Require Import Users.
From S2P Require Import ServiceAccounts.
From S2P Require Import MFAService.
From S2P Require Import PasswordReset.
From S2P Require Import Cleanup.
Open Scope Z_scope.

Section system.
Context {libs : Libs}.

Inductive Request :=
| Register (ctx : Ctx) (username displayName email phone password : string)
| Login (ctx : Ctx) (login password : string) (client : SessionClient)
| Refresh (ctx : Ctx) (refreshToken : string)
| Logout (ctx : Ctx) (sessionID reason : string)
| ChangePassword (ctx : Ctx) (currentPassword newPassword : string)
| GetUser (ctx : Ctx) (id : string)
| ListUsers (ctx : Ctx) (keyword status : string) (page pageSize : Z)
| UpdateUserStatus (ctx : Ctx) (id status reason : string) (version : Z)
| UpdateUserProfile (ctx : Ctx) (id displayName email phone reason : string) (version : Z)
| BatchGetUsers (ctx : Ctx) (ids : list string)
| ValidateSession (ctx : Ctx) (id userID : string)
| ListSessions (ctx : Ctx) (userID tenantID status : string) (page pageSize : Z)
| ListOwnSessions (ctx : Ctx) (status : string) (page pageSize : Z)
| RevokeOwnSessionByID (ctx : Ctx) (id reason : string) (version : Z)
| RevokeSessionByID (ctx : Ctx) (id reason : string) (version : Z)
| GetSessionByID (ctx : Ctx) (id : string)
| RevokeTenantSessions (ctx : Ctx) (userID tenantID reason : string)
| IssueTenantToken (ctx : Ctx) (userID tenantID membershipID sessionID : string)
| GetServiceAccount (ctx : Ctx) (id : string)
| ListServiceAccounts (ctx : Ctx) (keyword status : string) (page pageSize : Z)
| BatchGetServiceAccounts (ctx : Ctx) (ids : list string)
| CreateServiceAccount (ctx : Ctx) (name : string) (auds : list string)
| RotateServiceAccountSecret (ctx : Ctx) (id : string) (version : Z)
| UpdateServiceAccountStatus (ctx : Ctx) (id status : string) (version : Z)
| ServiceAccountToken (ctx : Ctx) (clientID secret : string)
| VerifyMFAChallenge (ctx : Ctx) (challengeToken code recoveryCode : string)
| MFAStatus (ctx : Ctx)
| AdminMFAStatus (ctx : Ctx) (userID : string)
| StartMFASetup (ctx : Ctx) (currentPassword : string)
| ConfirmMFASetup (ctx : Ctx) (code : string) (version : Z)
| DisableMFA (ctx : Ctx) (currentPassword code : string) (version : Z)
| RegenerateMFARecoveryCodes (ctx : Ctx) (currentPassword code : string) (version : Z)
| AdminResetMFA (ctx : Ctx) (userID reason : string) (version : Z)
| IssuePasswordReset (ctx : Ctx) (userID reason : string)
| ConfirmPasswordReset (ctx : Ctx) (resetToken newPassword : string).

Definition drop_result {A} (m : M A) : M unit := m;; mret tt.

(** The operation a request calls. *)
Definition handle {env : Env} (s : Service) (r : Request) : M unit :=
  match r with
  | Register c u n e p pw => drop_result (Users.Register s c u n e p pw)
  | Login c l pw cl => drop_result (Users.Login s c l pw cl)
  | Refresh c t => drop_result (Sessions.Refresh s c t)
  | Logout c i re => Sessions.Logout s c i re
  | ChangePassword c p n => drop_result (Users.ChangePassword s c p n)
  | GetUser c i => drop_result (Users.GetUser c i)
  | ListUsers c k st p n => drop_result (Users.ListUsers c k st p n)
  | UpdateUserStatus c i st re v => drop_result (Users.UpdateUserStatus s c i st re v)
  | UpdateUserProfile c i n e p re v => drop_result (Users.UpdateUserProfile s c i n e p re v)
  | BatchGetUsers c ids => drop_result (Users.BatchGetUsers c ids)
  | ValidateSession c i u => drop_result (Sessions.ValidateSession c i u)
  | ListSessions c u t st p n => drop_result (Sessions.ListSessions c u t st p n)
  | ListOwnSessions c st p n => drop_result (Sessions.ListOwnSessions c st p n)
  | RevokeOwnSessionByID c i re v => drop_result (Sessions.RevokeOwnSessionByID s c i re v)
  | RevokeSessionByID c i re v => drop_result (Sessions.RevokeSessionByID s c i re v)
  | GetSessionByID c i => drop_result (Sessions.GetSessionByID c i)
  | RevokeTenantSessions c u t re => drop_result (Sessions.RevokeTenantSessions c u t re)
  | IssueTenantToken c u t m i => drop_result (Sessions.IssueTenantToken s c u t m i)
  | GetServiceAccount c i => drop_result (ServiceAccounts.GetServiceAccount c i)
  | ListServiceAccounts c k st p n => drop_result (ServiceAccounts.ListServiceAccounts c k st p n)
  | BatchGetServiceAccounts c ids => drop_result (ServiceAccounts.BatchGetServiceAccounts c ids)
  | CreateServiceAccount c n a => drop_result (ServiceAccounts.CreateServiceAccount s c n a)
  | RotateServiceAccountSecret c i v => drop_result (ServiceAccounts.RotateServiceAccountSecret s c i v)
  | UpdateServiceAccountStatus c i st v => ServiceAccounts.UpdateServiceAccountStatus s c i st v
  | ServiceAccountToken c i x => drop_result (ServiceAccounts.ServiceAccountToken s c i x)
  | VerifyMFAChallenge c t x y => drop_result (MFA.VerifyMFAChallenge s c t x y)
  | MFAStatus c => drop_result (MFA.MFAStatus s c)
  | AdminMFAStatus c u => drop_result (MFA.AdminMFAStatus c u)
  | StartMFASetup c p => drop_result (MFA.StartMFASetup s c p)
  | ConfirmMFASetup c x v => drop_result (MFA.ConfirmMFASetup s c x v)
  | DisableMFA c p x v => drop_result (MFA.DisableMFA s c p x v)
  | RegenerateMFARecoveryCodes c p x v => drop_result (MFA.RegenerateMFARecoveryCodes s c p x v)
  | AdminResetMFA c u re v => drop_result (MFA.AdminResetMFA s c u re v)
  | IssuePasswordReset c u re => drop_result (PasswordReset.IssuePasswordReset s c u re)
  | ConfirmPasswordReset c t n => drop_result (PasswordReset.ConfirmPasswordReset s c t n)
  end.

(** Every atomic change a request makes is a [safe_step]. *)
Lemma handle_steps {env : Env} s r : Steps safe_step (handle s r).
Proof using. destruct r; cbn [handle]; unfold drop_result; solve_steps. Qed.

(** Requests that do nothing but read after their (single) transaction, or
    that write before it: all others are all-or-nothing. *)
Definition all_or_nothing (r : Request) : bool :=
  match r with
  | Login _ _ _ _ | UpdateUserStatus _ _ _ _ _ | UpdateUserProfile _ _ _ _ _ _ _
  | RevokeOwnSessionByID _ _ _ _ | RevokeSessionByID _ _ _ _ => false
  | _ => true
  end.

Lemma FailClean_drop {env : Env} {A} (m : M A) : FailClean m -> FailClean (drop_result m).
Proof using.
  intros Hm w e w'. unfold drop_result, mbind, M_bind. destruct (m w) as [[a|e'] w1] eqn:E; [done|].
  intros [= -> ->]. by eapply Hm.
Qed.

(** The atomic changes of a computation that starts in [w]. *)
Definition changes {A} (m : M A) (w : World) : list (DB * DB) := drop (length (w_log w)) (w_log (m w).2).

(** One atomic change, by a request or by the retention jobs, in some
    environment and from any state of it. *)
Inductive step (s : Service) : relation DB :=
| step_request (env : Env) r w d d' :
    (d, d') ∈ changes (handle s r) w -> step s d d'
| step_cleanup (env : Env) fuel c w d d' :
    store c = repository_store -> (d, d') ∈ changes (clean fuel c) w -> step s d d'.

(** *** The retention jobs *)

Definition clean_step (d d' : DB) : Prop := schema_ok d -> db_cleans d d' /\ schema_ok d'.

Lemma delete_sessions_clean p `{Hp : !forall x, Decision (p x)} d d' n :
  delete_table sessions set_sessions p d = Ok (d', n) -> clean_step d d'.
Proof using.
  intros [= <- _] Hd. split.
  - split; simpl; try done. apply map_filter_subseteq.
  - split; simpl; try apply Hd.
    + eapply keyed_by_subset; [apply map_filter_subseteq|apply Hd].
    + eapply unique_on_subset; [apply map_filter_subseteq|apply Hd].
    + eapply fk_subset; [apply map_filter_subseteq|apply Hd].
Qed.

Lemma delete_challenges_clean p `{Hp : !forall x, Decision (p x)} d d' n :
  delete_table mfa_login_challenges set_mfa_challenges p d = Ok (d', n) -> clean_step d d'.
Proof using.
  intros [= <- _] Hd. split.
  - split; simpl; try done. apply map_filter_subseteq.
  - split; simpl; try apply Hd.
    + eapply keyed_by_subset; [apply map_filter_subseteq|apply Hd].
    + eapply fk_subset; [apply map_filter_subseteq|apply Hd].
Qed.

Lemma delete_resets_clean p `{Hp : !forall x, Decision (p x)} d d' n :
  delete_table password_reset_challenges set_reset_challenges p d = Ok (d', n) -> clean_step d d'.
Proof using.
  intros [= <- _] Hd. split.
  - split; simpl; try done. apply map_filter_subseteq.
  - split; simpl; try apply Hd.
    + eapply keyed_by_subset; [apply map_filter_subseteq|apply Hd].
    + eapply fk_subset; [apply map_filter_subseteq|apply Hd].
Qed.

Lemma clean_loop_steps {env : Env} fuel del age batch :
  (forall t b, Steps clean_step (del t b)) -> Steps clean_step (clean_loop fuel del age batch).
Proof using.
  intros Hdel. induction fuel as [|k IH]; cbn [clean_loop]; solve_steps.
Qed.

Lemma clean_steps {env : Env} fuel c : store c = repository_store -> Steps clean_step (clean fuel c).
Proof using.
  intros Hs. unfold clean, then_loop. rewrite Hs. cbn [repository_store DeleteExpiredOrRevokedSessionsBefore
    DeleteExpiredMFAChallengesBefore DeleteExpiredPasswordResetChallengesBefore].
  repeat first [ apply clean_loop_steps | steps_step ].
  all: unfold Repository.DeleteExpiredOrRevokedSessionsBefore, MFARepository.DeleteExpiredMFAChallengesBefore,
         MFARepository.DeleteExpiredPasswordResetChallengesBefore; solve_steps.
  all: apply Steps_db_exec; intros *.
  - apply delete_sessions_clean.
  - apply delete_challenges_clean.
  - apply delete_resets_clean.
Qed.

Lemma steps_elem {env : Env} (G : relation DB) {A} (m : M A) w d d' :
  Steps G m -> (d, d') ∈ changes m w -> G d d'.
Proof using.
  intros Hm. unfold changes. destruct (Hm w) as (l & Hl & HF). rewrite Hl, drop_app_length. intros Hin.
  rewrite Forall_forall in HF. apply (HF _ Hin).
Qed.

Lemma step_cases s d d' : step s d d' -> safe_step d d' \/ clean_step d d'.
Proof using.
  intros [env r w e e' Hin|env fuel c w e e' Hs Hin].
  - left. eapply steps_elem; [apply handle_steps|exact Hin].
  - right. eapply steps_elem; [by apply clean_steps|exact Hin].
Qed.

Lemma empty_schema : schema_ok empty_db.
Proof using.
  split; simpl; try (intros ? ? H; by rewrite lookup_empty in H);
    try (intros ? ? ? ? H; by rewrite lookup_empty in H).
Qed.

Lemma step_schema s d d' : step s d d' -> schema_ok d -> schema_ok d'.
Proof using. intros [H|H]%step_cases Hd; by apply H. Qed.

(** Tables that the retention jobs do not touch evolve row by row. *)
Lemma step_users s d d' : schema_ok d -> step s d d' ->
  rows_evolve user_evolves (users d) (users d') /\ outbox_events d ⊆ outbox_events d'.
Proof using.
  intros Hd [H|H]%step_cases; destruct (H Hd) as [E _].
  - split; apply E.
  - by rewrite (cl_users _ _ E), (cl_outbox _ _ E).
Qed.

Lemma step_session s d d' k x :
  schema_ok d -> step s d d' -> is_Some (sessions d' !! k) -> sessions d !! k = Some x ->
  exists x', sessions d' !! k = Some x' /\ session_evolves x x'.
Proof using.
  intros Hd [H|H]%step_cases [x' Hx'] Hk; destruct (H Hd) as [E _].
  - by apply (ev_sessions _ _ E).
  - exists x'. split; [done|]. pose proof (lookup_weaken _ _ _ _ Hx' (cl_sessions _ _ E)).
    simplify_eq. reflexivity.
Qed.
End system.
