(* ===== verification/SystemSpec.v ===== *)
(** * The whole service: theorems *)

From S2P Require Import Prelude.
From S2P Require Import GoStrings.
From S2P Require Import AppError.
From S2P Require Import Platform.
From S2P Require Import Table.
From S2P Require Import Model.
From S2P Require Import Runtime.
From S2P Require Import Repository.
From S2P Require Import MFARepository.
From S2P Require Import Evolution.
From S2P Require Import Guarantee.
From S2P Require Import Password.
From S2P Require Import Token.
From S2P Require Import MFACrypto.
From S2P Require Import ServiceBase.
From S2P Require Import Concrete.
From S2P Require Import Sessions.
From S2P Require Import Users.
From S2P Require Import ServiceAccounts.
From S2P Require Import MFAService.
From S2P Require Import PasswordReset.
From S2P Require Import Cleanup.
From S2P Require Import System.
Open Scope Z_scope.

Section system_spec.
Context {libs : Libs}.

(** C1: The schema invariant holds in every reachable database.  Starting
    from the empty database, after any sequence of atomic changes by any
    requests and retention jobs, in any environment and any interleaving,
    rows are stored under their keys, usernames, emails, refresh tokens,
    client ids, credentials per user and recovery codes are unique, events of
    the outbox have different ids, and every credential, session, enrolment,
    recovery code, login challenge and password reset belongs to an existing
    user: the primary keys, unique indexes and foreign keys of the migrations. *)
Theorem schema_invariant s d : rtc (step s) empty_db d -> schema_ok d.
Proof using.
  intros H. assert (schema_ok empty_db) as Hd by apply empty_schema. revert Hd.
  induction H as [|d1 d2 d3 H12 _ IH]; [done|]. intros Hd. apply IH. by eapply step_schema.
Qed.

(** ** Optimistic locking *)

(** The user, service account or enrolment version that a request names. *)
Definition user_target (r : Request) : option (string * Z) :=
  match r with
  | UpdateUserStatus _ id _ _ v => Some (id, v)
  | UpdateUserProfile _ id _ _ _ _ v => Some (TrimSpace id, v)
  | _ => None
  end.
Definition account_target (r : Request) : option (string * Z) :=
  match r with
  | RotateServiceAccountSecret _ id v => Some (TrimSpace id, v)
  | UpdateServiceAccountStatus _ id _ v => Some (id, v)
  | _ => None
  end.
Definition factor_target (r : Request) : option Z :=
  match r with
  | ConfirmMFASetup _ _ v | DisableMFA _ _ _ v | RegenerateMFARecoveryCodes _ _ _ v | AdminResetMFA _ _ _ v => Some v
  | _ => None
  end.

(** Only rows with [P] are replaced, and none is added or removed. *)
Definition replaces_only {A} (P : A -> Prop) (t t' : gmap string A) : Prop :=
  forall k, t' !! k = t !! k \/ (exists x, t !! k = Some x /\ P x) /\ is_Some (t' !! k).

#[local] Instance replaces_only_preorder {A} (P : A -> Prop) : PreOrder (replaces_only P).
Proof using.
  split; [by left|]. intros t1 t2 t3 H12 H23 k.
  destruct (H12 k) as [E|[HP H2]], (H23 k) as [E'|[(x & Hx & Px) H3]]; [left; congruence|right|right..].
  - rewrite <-E. eauto.
  - rewrite E'. eauto.
  - eauto.
Qed.

Lemma replaces_only_update {A} (P p : A -> Prop) `{Hp : !forall x, Decision (p x)} f t t' n :
  (forall x, p x -> P x) -> sql_update p f t = Some (t', n) -> replaces_only P t t'.
Proof using.
  intros HP Hu k. destruct (t !! k) as [x|] eqn:Hx; [|left; by apply (sql_update_None_key _ _ _ _ _ k Hu)].
  destruct (decide (p x)) as [Hpx|Hpx]; [|left; by eapply sql_update_miss].
  right. split; [by eauto|]. by eapply update_keeps.
Qed.

(** A request that names a version, statement by statement. *)
Definition replaces {A} (get : DB -> gmap string A) (P : A -> Prop) (d d' : DB) : Prop :=
  replaces_only P (get d) (get d').
#[local] Instance replaces_preorder {A} (get : DB -> gmap string A) (P : A -> Prop) : PreOrder (replaces get P).
Proof using.
  split; [intros d; unfold replaces; reflexivity|]. intros d1 d2 d3. unfold replaces. by transitivity (get d2).
Qed.

Lemma insert_codes_replaces {env : Env} {A} (get : DB -> gmap string A) P l :
  (forall t d, get (set_recovery t d) = get d) -> TxSteps (replaces get P) (MFARepository.insert_codes l).
Proof using.
  intros Hget. induction l as [|c l IH]; cbn [MFARepository.insert_codes]; solve_txsteps; try exact IH.
  unfold MFARepository.insert_code in *. repeat case_decide; try done. simplify_eq. unfold replaces. by rewrite Hget.
Qed.

(** A statement writes another table, or updates the rows it names. *)
Ltac solve_replaces :=
  solve_txsteps; try (apply insert_codes_replaces; done);
  unfold replaces, Repository.revoke_sessions, MFARepository.update_mfa, MFARepository.delete_codes, delete_table,
    Repository.insert_outbox, MFARepository.insert_code in *;
  try match goal with
  | H : update_table _ _ _ _ _ ?d = Ok _ |- _ =>
      apply update_table_Ok in H as (? & H & _ & ->); first
        [ reflexivity | (eapply replaces_only_update; [|exact H]; cbn beta; tauto) ]
  | H : _ = Ok _ |- _ => repeat case_decide; (done || (injection H as <- _; reflexivity))
  end.
Ltac solve_target :=
  cbn [handle]; unfold drop_result;
  repeat match goal with
  | |- Steps _ (Within _ _) => apply Steps_Within; [solve_readonly | solve_replaces]
  | _ => steps_step
  end.

Section targets.
Context {env : Env} (s : Service) (r : Request).

Lemma user_target_steps id v :
  user_target r = Some (id, v) ->
  Steps (replaces users (fun u => User.ID u = id /\ Version (User.fields u) = v)) (handle s r).
Proof using. destruct r; try done; cbn [user_target]; intros [= <- <-]; solve_target. Qed.

Lemma account_target_steps id v :
  account_target r = Some (id, v) ->
  Steps (replaces service_accounts (fun a => ServiceAccount.ID a = id /\ Version (ServiceAccount.fields a) = v)) (handle s r).
Proof using. destruct r; try done; cbn [account_target]; intros [= <- <-]; solve_target. Qed.

Lemma factor_target_steps v :
  factor_target r = Some v ->
  Steps (replaces user_mfa (fun m => Version (MFAEnrollment.fields m) = v)) (handle s r).
Proof using. destruct r; try done; cbn [factor_target]; intros [= <-]; solve_target. Qed.
End targets.

(** Rows of these tables are never removed, by requests or jobs. *)
Lemma reach_rows s d d' : schema_ok d -> rtc (step s) d d' ->
  schema_ok d' /\ rows_evolve user_evolves (users d) (users d') /\
  rows_evolve account_evolves (service_accounts d) (service_accounts d') /\
  rows_evolve mfa_evolves (user_mfa d) (user_mfa d').
Proof using.
  intros Hd Hr. induction Hr as [|d1 d2 d3 H12 _ IH]; [split; [done|]; split_and!; reflexivity|].
  destruct (IH (step_schema _ _ _ H12 Hd)) as (Hs & Hu & Ha & Hm). split; [done|].
  apply step_cases in H12 as [H|H]; destruct (H Hd) as [E _].
  - split_and!; (etrans; [|eassumption]); apply E.
  - rewrite (cl_users _ _ E) in Hu. rewrite (cl_accounts _ _ E) in Ha. by rewrite (cl_mfa _ _ E) in Hm.
Qed.

Lemma replaces_seen {A K} (key : A -> K) fl frozen (id : A -> string) (P : A -> Prop) (t1 t t' : gmap string A) v :
  keyed_by id t -> rows_evolve (evolves key fl frozen) t1 t -> replaces_only P t t' -> (forall x, P x -> Version (fl x) = v) ->
  replaces_only (fun x => P x /\ forall x1, t1 !! id x = Some x1 -> Version (fl x1) = v -> x = x1) t t'.
Proof using.
  intros Hk Hev Hr HP k. destruct (Hr k) as [E|[(x & Hx & Px) Hs]]; [by left|right].
  split; [|done]. exists x. split_and!; [done..|]. intros x1 Hx1 Hv.
  rewrite (Hk _ _ Hx) in Hx1. destruct (Hev _ _ Hx1) as (x2 & Hx2 & He). simplify_eq.
  apply (evolves_version _ _ _ _ _ He). by rewrite (HP _ Px).
Qed.


(** The outbox is append-only: an event that was stored with the change
    it announces is never lost or altered, by any request or job. *)
Theorem outbox_append_only s d d' : schema_ok d -> rtc (step s) d d' -> outbox_events d ⊆ outbox_events d'.
Proof using.
  intros Hd Hr. induction Hr as [|d1 d2 d3 H12 _ IH]; [done|].
  transitivity (outbox_events d2); [by eapply step_users|]. apply IH. by eapply step_schema.
Qed.

(** Revocation is final: as long as the row of a revoked session exists,
    no request and no job changes it in any way, so it is never live again. *)
Theorem revoked_is_final s d d' k x :
  schema_ok d -> rtc (fun a b => step s a b /\ is_Some (sessions b !! k)) d d' ->
  sessions d !! k = Some x -> Session.RevokedAt x <> None -> sessions d' !! k = Some x.
Proof using.
  intros Hd Hr Hk Hx. induction Hr as [|d1 d2 d3 [H12 Hp] _ IH]; [done|]. apply IH.
  - by eapply step_schema.
  - destruct (step_session _ _ _ _ _ Hd H12 Hp Hk) as (x' & Hx' & He).
    by rewrite (evolves_frozen _ _ _ _ _ He Hx) in Hx'.
Qed.

(** C2: A failed request changes nothing.  Except for login (which counts
    failed attempts and clears the counter on its own) and the four
    administrative updates that read the row back after committing, a
    request that returns an error has made no change to the database,
    whatever failed and whenever. *)
Theorem failed_request_changes_nothing {env : Env} s r w e w' :
  all_or_nothing r = true -> handle s r w = (Err e, w') -> w_log w' = w_log w.
Proof using.
  intros Hr. revert w e w'. change (FailClean (handle s r)). revert Hr.
  destruct r; cbn [handle all_or_nothing]; intros Hr; try done; try (apply FailClean_drop).
  all: solve_failclean.
Qed.
End system_spec.

(** ** Witnesses *)
Section witnesses.
Import Concrete.
#[local] Instance env0 : Env := quiet noon 0.

(** The database after the last atomic step of a request. *)
Definition after (r : Request) (d : DB) : DB :=
  match last (w_log (handle service r (start d)).2) with Some (_, d') => d' | None => d end.

Definition register_carol : Request := Register admin "carol" "Carol" "carol@example.com" "" "a long password".
Definition disable_alice : Request := UpdateUserStatus admin "u1" "disabled" "left" 1.
Definition logout_alice : Request := Logout alice_ctx "s1" "".
Definition refresh_s2 : Request := Refresh nobody "refresh-2".

Lemma one_request r d : w_log (handle service r (start d)).2 = [(d, after r d)] -> step service d (after r d).
Proof. intros H. apply (step_request service env0 r (start d)). unfold changes. rewrite H. apply list_elem_of_here. Qed.

Lemma schema_invariant_witness : schema_ok (after register_carol empty_db) /\ users (after register_carol empty_db) <> ∅.
Proof.
  split.
  - apply (schema_invariant service). apply rtc_once, one_request. vm_compute. reflexivity.
  - intros H. apply (f_equal size) in H. vm_compute in H. discriminate H.
Defined.


Lemma outbox_append_only_witness : outbox_events db ⊆ outbox_events (after disable_alice db) /\
  outbox_events (after disable_alice db) <> ∅.
Proof.
  split.
  - apply (outbox_append_only service); [exact db_ok|]. apply rtc_once, one_request. vm_compute. reflexivity.
  - intros H. apply (f_equal size) in H. vm_compute in H. discriminate H.
Defined.

Lemma revoked_is_final_witness : exists x,
  sessions (after logout_alice db) !! "s1" = Some x /\ Session.RevokedAt x <> None /\
  sessions (after refresh_s2 (after logout_alice db)) !! "s1" = Some x.
Proof.
  assert (schema_ok (after logout_alice db)) as Hd by (apply schema_check_sound; vm_compute; reflexivity).
  assert (match sessions (after logout_alice db) !! "s1" with
          | Some x => bool_decide (Session.RevokedAt x <> None) | None => false end = true) as Hb by (vm_compute; reflexivity).
  destruct (sessions (after logout_alice db) !! "s1") as [x|] eqn:Ex; [|discriminate Hb].
  apply bool_decide_eq_true in Hb. exists x. split; [reflexivity|]. split; [exact Hb|].
  apply (revoked_is_final service (after logout_alice db) _ "s1" x Hd); [|exact Ex|exact Hb].
  apply rtc_once. split; [apply one_request; vm_compute; reflexivity|vm_compute; eexists; reflexivity].
Defined.

Lemma failed_request_witness : exists e w',
  handle service (Refresh nobody "unknown") (start db) = (Err e, w') /\ w_log w' = [].
Proof.
  assert (is_ok (handle service (Refresh nobody "unknown") (start db)).1 = false) as Hb by (vm_compute; reflexivity).
  destruct (handle service (Refresh nobody "unknown") (start db)) as [[a|e] w'] eqn:E; [discriminate Hb|].
  exists e, w'. split; [reflexivity|].
  exact (failed_request_changes_nothing service (Refresh nobody "unknown") (start db) e w' eq_refl E).
Defined.
End witnesses.
