(* ===== verification/SessionsSpec.v ===== *)
(** * Session theorems *)

From S2P Require Import Prelude.
From S2P Require Import GoStrings.
From S2P Require Import Encoding.
From S2P Require Import Digest.
From S2P Require Import AppError.
From S2P Require Import Platform.
From S2P Require Import Table.
From S2P Require Import Model.
From S2P Require Import Runtime.
From S2P Require Import Repository.
From S2P Require Import MFARepository.
From S2P Require Import Evolution.
From S2P Require Import Guarantee.
From S2P Require Import Inversion.
From S2P Require Import Password.
From S2P Require Import Token.
From S2P Require Import MFACrypto.
From S2P Require Import ServiceBase.
From S2P Require Import Concrete.
From S2P Require Import Sessions.
Open Scope Z_scope.

Section sessions_spec.
Context {libs : Libs} {env : Env}.

(** The row [RotateSession] writes. *)
Definition rotated (x : Session.t) (hash : string) (at_ : Z) (by_ : string) : Session.t :=
  let f := Session.fields x in
  Session.mk (Session.ID x) (Session.UserID x) (Session.Username x) (Session.UserDisplayName x) hash
    (Session.TenantID x) (Session.MembershipID x) (Session.ExpiresAt x) (Session.RevokedAt x)
    (Session.RevokeReason x) at_ (Session.ClientIP x) (Session.UserAgent x)
    (mkFields (Version f + 1) (CreatedAt f) at_ (CreatedBy f) by_).

Lemma RotateSession_Ok x h w u w' :
  Repository.RotateSession x h w = (Ok u, w') -> schema_ok (w_db w) ->
  UpdatedAt (Session.fields x) = Session.LastUsedAt x ->
  exists y, sessions (w_db w) !! Session.ID x = Some y /\ Session.RefreshTokenHash y = h /\
    Session.RevokedAt y = None /\ Version (Session.fields y) = Version (Session.fields x) /\
    w_db w' = set_sessions (<[Session.ID x := rotated y (Session.RefreshTokenHash x) (Session.LastUsedAt x)
      (UpdatedBy (Session.fields x))]> (sessions (w_db w))) (w_db w).
Proof using.
  intros (t' & n & Hu & Hn & Hok & Hd & _)%guarded_update_Ok Hs Hat.
  apply (update_one Session.ID) with (k := Session.ID x) in Hu
    as (y & y' & Hy & (Hid & Hh & Hr & Hv) & Hf & -> & _); [|apply Hs|cbn beta; tauto|done].
  apply bind_Some in Hf as (f & [-> _]%bump_Some & [= <-]). exists y. split_and!; try done.
  rewrite Hd. unfold rotated. by rewrite Hat.
Qed.

Lemma session_same_version x y : session_evolves x y -> Version (Session.fields x) = Version (Session.fields y) -> y = x.
Proof using. intros He Hv. by apply (evolves_version _ _ _ _ _ He). Qed.

Lemma session_frozen x y : session_evolves x y -> Session.RevokedAt x <> None -> y = x.
Proof using. intros He Hv. by apply (evolves_frozen _ _ _ _ _ He). Qed.

(** Shared by the theorems on [Refresh]. *)
Lemma refresh_run s ctx tok w t w' :
  Rely safe_step -> schema_ok (w_db w) ->
  Sessions.Refresh s ctx tok w = (Ok t, w') ->
  exists d0 x now,
    one_step w w' d0 (set_sessions (<[Session.ID x := rotated x (hashRefreshToken (RefreshToken t)) now (Session.UserID x)]>
                        (sessions d0)) d0) /\
    sessions d0 !! Session.ID x = Some x /\ TokSessionID t = Session.ID x /\
    Session.RefreshTokenHash x = hashRefreshToken tok /\ Session.RevokedAt x = None /\
    (exists i, env_clock i < Session.ExpiresAt x) /\ (exists i, now = env_clock i) /\ schema_ok d0.
Proof using.
  intros Hrely Hd H. unfold Sessions.Refresh in H. inv_run H.
  inv_tx R5 as wa wb Hstep Hsafe. specialize (Hsafe Hrely).
  assert (safe_step (w_db w) (w_db w0)) as S0 by chain.
  assert (safe_step (w_db w0) (w_db wa)) as S1 by (transitivity (w_db w5); [chain|done]).
  assert (w_log w5 = w_log w) as Hlog by log_chain.
  destruct (S0 Hd) as [_ Hd0]. destruct (S1 Hd0) as [E1 Hda].
  apply get_row_Ok in R as ((k & Hk) & Hh & _). pose proof (sess_key _ Hd0 k x0 Hk) as <-.
  apply RotateSession_Ok in R5 as (y & Hy & Hhy & Hry & Hvy & Hdb); [|done|done].
  destruct (ev_sessions _ _ E1 _ _ Hk) as (y' & Hy' & He). cbn [Session.ID] in Hy. rewrite Hy in Hy'.
  injection Hy' as <-. apply session_same_version in He; [|done]. subst y.
  apply newRefreshToken_Ok in R2 as ->. subst t.
  exists (w_db wa), x0, x6. split; [|split_and!; try done; eauto using now_reading].
  - rewrite Hdb in Hstep. eapply one_step_shift; [exact Hstep|done].
  - apply now_reading in R0 as [i ->]. eauto.
Qed.

(** C10: A successful refresh is one atomic step that replaces the refresh
    token of exactly one session: the session that holds the presented
    token, which is neither revoked nor expired at the time of the check.
    The new row keeps the user, tenant, client and the absolute expiry, and
    its version is one larger.  This holds for every interleaving with other
    requests of the service. *)
Theorem refresh_rotates s ctx tok w t w' :
  Rely safe_step -> schema_ok (w_db w) ->
  Sessions.Refresh s ctx tok w = (Ok t, w') ->
  exists d0 x now,
    one_step w w' d0 (set_sessions (<[Session.ID x := rotated x (hashRefreshToken (RefreshToken t)) now (Session.UserID x)]>
                        (sessions d0)) d0) /\
    sessions d0 !! Session.ID x = Some x /\ TokSessionID t = Session.ID x /\
    Session.RefreshTokenHash x = hashRefreshToken tok /\ Session.RevokedAt x = None /\
    (exists i, env_clock i < Session.ExpiresAt x) /\ (exists i, now = env_clock i).
Proof using.
  intros Hr Hd H. destruct (refresh_run _ _ _ _ _ _ Hr Hd H) as (d0 & x & n & ?). destr_all. eauto 12.
Qed.

(** No session holds this refresh token. *)
Definition hash_absent (h : string) (d : DB) : Prop :=
  forall k x, sessions d !! k = Some x -> Session.RefreshTokenHash x <> h.

Lemma refresh_absent s ctx tok w :
  (forall i d, hash_absent (hashRefreshToken tok) d -> hash_absent (hashRefreshToken tok) (env_interfere i d)) ->
  hash_absent (hashRefreshToken tok) (w_db w) ->
  exists w', Sessions.Refresh s ctx tok w = (Err (Unauthorized "invalid refresh token"), w') /\ w_log w' = w_log w.
Proof using.
  intros Hi Ha. unfold Sessions.Refresh, reject. case_decide; [by eexists|].
  unfold Repository.SessionByRefreshHash, get_row, map_err, db_query, mbind, M_bind, mret, M_ret. simpl.
  destruct (env_fault _); [by eexists|].
  rewrite sql_get_absent; [by eexists|]. intros k x Hx. by eapply (Hi _ _ Ha).
Qed.

(** C11: Refresh tokens are single-use.  After a successful refresh whose new
    token does not collide with the presented one, presenting the old token
    again fails as an invalid token and writes nothing, unless somebody else
    stores the same token hash in between. *)
Theorem refresh_single_use s ctx tok w t w' :
  Rely safe_step -> schema_ok (w_db w) ->
  (forall i d, hash_absent (hashRefreshToken tok) d -> hash_absent (hashRefreshToken tok) (env_interfere i d)) ->
  Sessions.Refresh s ctx tok w = (Ok t, w') ->
  hashRefreshToken (RefreshToken t) <> hashRefreshToken tok ->
  exists w'', Sessions.Refresh s ctx tok w' = (Err (Unauthorized "invalid refresh token"), w'') /\ w_log w'' = w_log w'.
Proof using.
  intros Hr Hd Hi H Hne. apply refresh_absent; [done|].
  destruct (refresh_run _ _ _ _ _ _ Hr Hd H) as (d0 & x & n & [_ ->] & Hx & _ & Hh & _ & _ & _ & Hd0).
  intros k y. simpl. intros [[<- <-]|[Hk Hy]]%lookup_insert_Some; [done|].
  intros Hhy. apply Hk. symmetry. eapply (sess_hash _ Hd0); [exact Hy|exact Hx|congruence].
Qed.

(** ** Revocation *)

Definition revoked_row (now : Z) (reason actor : string) (x : Session.t) : Session.t :=
  let f := Session.fields x in
  Session.mk (Session.ID x) (Session.UserID x) (Session.Username x) (Session.UserDisplayName x)
    (Session.RefreshTokenHash x) (Session.TenantID x) (Session.MembershipID x) (Session.ExpiresAt x)
    (Some now) reason (Session.LastUsedAt x) (Session.ClientIP x) (Session.UserAgent x)
    (mkFields (Version f + 1) (CreatedAt f) now (CreatedBy f) actor).

Lemma revoke_row_Some now reason actor x x' :
  Repository.revoke_row now reason actor x = Some x' -> x' = revoked_row now reason actor x.
Proof using. intros (f & [-> _]%bump_Some & [= <-])%bind_Some. done. Qed.

(** The single-session revocations: [UPDATE .. WHERE id = ? AND .. AND revoked_at IS NULL]. *)
Lemma revoke_one_Ok p `{Hp : !forall x, Decision (p x)} id now reason actor g w u w' :
  (n ← map_err g (tx_exec (Repository.revoke_sessions p now reason actor)); requireAffected n) w = (Ok u, w') ->
  schema_ok (w_db w) -> (forall x, p x -> Session.ID x = id) ->
  exists x, sessions (w_db w) !! id = Some x /\ p x /\
    w_db w' = set_sessions (<[id := revoked_row now reason actor x]> (sessions (w_db w))) (w_db w).
Proof using.
  intros (t' & n & Hu & Hn & _ & Hd & _)%guarded_update_Ok Hs Hid.
  apply (update_one Session.ID) with (k := id) in Hu as (x & x' & Hx & Hpx & Hf & -> & _); [|apply Hs|done|done].
  apply revoke_row_Some in Hf as ->. eauto.
Qed.

(** [e] is the outbox event with this subject; the transaction stores it. *)
Definition with_event (subject : string) (d d' : DB) : Prop :=
  exists e, OutboxEvent.Subject e = subject /\
    d' = set_outbox (<[(OutboxEvent.ID e, CreatedAt (OutboxEvent.fields e)) := e]> (outbox_events d)) d.

Lemma newOutboxEvent_Ok ctx subject ty agg at_ payload w e w' :
  newOutboxEvent ctx subject ty agg at_ payload w = (Ok e, w') ->
  OutboxEvent.Subject e = subject /\ OutboxEvent.AvailableAt e = at_ /\
  exists p, principal_Require ctx = Ok p /\ OutboxEvent.fields e = mkFields 1 at_ at_ (PID p) (PID p).
Proof using. unfold newOutboxEvent. intros H. inv_run H. subst. eauto. Qed.

Lemma newOutboxEvent_db ctx subject ty agg at_ payload w r w' :
  newOutboxEvent ctx subject ty agg at_ payload w = (r, w') -> w_db w' = w_db w.
Proof using.
  intros H. symmetry. eapply (TxSteps_run eq); [|exact H]. solve_txsteps.
Qed.

Lemma insert_event e w u w' :
  Repository.InsertOutbox e w = (Ok u, w') -> with_event (OutboxEvent.Subject e) (w_db w) (w_db w').
Proof using. intros [-> _]%InsertOutbox_Ok. exists e. done. Qed.

(** Logout revokes exactly the caller's own session, in one atomic step
    that also stores the [session.revoked] event: the row is marked revoked
    at the current time with the given reason ([logout] if empty), its
    version grows by one, and no other row of any table changes. *)
Theorem logout_revokes s ctx id reason w w' u :
  Rely safe_step -> schema_ok (w_db w) ->
  Sessions.Logout s ctx id reason w = (Ok u, w') ->
  exists actor d0 d1 x now,
    principal_Require ctx = Ok actor /\ one_step w w' d0 d1 /\
    sessions d0 !! id = Some x /\ Session.UserID x = PID actor /\ Session.RevokedAt x = None /\
    (exists i, now = env_clock i) /\
    with_event "platform.identity.session.revoked.v1"
      (set_sessions (<[id := revoked_row now (if decide (reason = "") then "logout" else reason) (PID actor) x]> (sessions d0)) d0) d1.
Proof using.
  intros Hr Hd H. unfold Sessions.Logout in H. inv_run H.
  assert (safe_step (w_db w) (w_db w2)) as S0 by chain.
  assert (w_log w2 = w_log w) as Hlog by log_chain.
  inv_tx H as wa wb Hstep Hsafe. specialize (Hsafe Hr).
  destruct (S0 Hd) as [_ Hd2]. destruct (Hsafe Hd2) as [_ Hda].
  apply revoke_one_Ok with (id := id) in R2 as (y & Hy & (_ & Hu & Hl) & Hdb); [|done|by intros ? []].
  apply newOutboxEvent_Ok in R1 as [Hsub _]. apply insert_event in H. rewrite Hsub, Hdb in H.
  apply now_reading in R as [i ->].
  exists x, (w_db wa), (w_db wb), y, (env_clock i). split_and!; eauto using one_step_shift.
Qed.

(** The administrative revocation by id is optimistic: it succeeds only
    against the version the caller named, revokes exactly that live session
    in one step with its event, and the row it returns is the revoked row,
    whatever other requests do before it is read back. *)
Theorem revoke_by_id_checks_version s ctx id reason version w w' r :
  Rely safe_step -> schema_ok (w_db w) ->
  Sessions.RevokeSessionByID s ctx id reason version w = (Ok r, w') ->
  exists actor d0 d1 x now,
    principal_Require ctx = Ok actor /\ w_log w' = w_log w ++ [(d0, d1)] /\
    sessions d0 !! TrimSpace id = Some x /\ Version (Session.fields x) = version /\ Session.RevokedAt x = None /\
    r = revoked_row now (if decide (TrimSpace reason = "") then "administrative revocation" else TrimSpace reason)
          (PID actor) x /\
    with_event "platform.identity.session.revoked.v1"
      (set_sessions (<[TrimSpace id := r]> (sessions d0)) d0) d1.
Proof using.
  intros Hr Hd H. unfold Sessions.RevokeSessionByID in H. inv_run H.
  assert (safe_step (w_db w) (w_db w2)) as S0 by chain.
  assert (w_log w2 = w_log w) as Hlog by log_chain. assert (w_log w' = w_log w3) as Hlog' by log_chain.
  assert (safe_step (w_db w3) (w_db w')) as S3 by chain.
  pose proof R as Rid. apply get_row_Ok in Rid as (_ & Hcur & _). cbn beta in Hcur.
  inv_tx R2 as wa wb Hstep Hsafe. specialize (Hsafe Hr).
  assert (safe_step (w_db wa) (w_db wb)) as Sab by chain.
  destruct (S0 Hd) as [_ Hd2]. destruct (Hsafe Hd2) as [_ Hda]. destruct (Sab Hda) as [_ Hdb].
  rewrite Hcur in *.
  apply revoke_one_Ok with (id := TrimSpace id) in R3 as (y & Hy & (_ & Hv & Hl) & Hset); [|done|by intros ? []].
  apply newOutboxEvent_Ok in R1 as [Hsub _]. apply insert_event in R2. rewrite Hsub, Hset in R2.
  destruct Hstep as [Hst Hst']. rewrite Hst' in S3. destruct (S3 Hdb) as [E3 Hd'].
  apply (get_row_key sessions Session.ID) with (k := TrimSpace id) in H as [Hrow _]; [|apply Hd'|done].
  assert (sessions (w_db wb) !! TrimSpace id = Some (revoked_row x1
    (if decide (TrimSpace reason = "") then "administrative revocation" else TrimSpace reason) (PID x) y)) as Hrev.
  { destruct R2 as (e & _ & ->). simpl. by rewrite lookup_insert_eq. }
  destruct (ev_sessions _ _ E3 _ _ Hrev) as (r' & Hr' & He). rewrite Hrow in Hr'. injection Hr' as <-.
  apply session_frozen in He; [|done]. rewrite <-He in R2.
  exists x, (w_db wa), (w_db wb), y, x1. split_and!; try done. by rewrite Hlog', Hst, Hlog.
Qed.

(** ** Validation *)

(** A session validates exactly when, in the database the query sees, a
    row with that id and user exists, is not revoked and expires after the
    current time. *)
Theorem validate_session_iff ctx id userID w x b w' :
  Sessions.ValidateSession ctx id userID w = (Ok (x, b), w') -> schema_ok (w_db w') ->
  b = true <-> sessions (w_db w') !! id = Some x /\ Session.UserID x = userID /\ Session.RevokedAt x = None /\
               env_clock (w_clk w) < Session.ExpiresAt x.
Proof using.
  intros H Hd. unfold Sessions.ValidateSession in H. apply bind_Ok in H as (r & w1 & R & H). apply attempt_Ok in R.
  pose proof (get_row_clk _ _ _ _ _ _ R) as Hc. destruct r as [y|e].
  - case_decide as Hl.
    + inv_run H. apply now_Ok in R0 as (-> & Hw & _). rewrite Hc in E. injection E as -> <-.
      rewrite Hw in *. apply (get_row_key sessions Session.ID) with (k := id) in R as [Hx [Hid Hu]]; [|apply Hd|by intros ? []].
      rewrite bool_decide_eq_true. unfold After. tauto.
    + inv_run H. injection E as -> <-. split; [done|]. by intros (_ & _ & ? & _).
  - destruct (errors_Is e ErrNotFound) eqn:Ee; inv_run H. injection E as <- <-. split; [done|].
    intros (Hx & Hu & _). exfalso. eapply (get_row_NotFound _ _ _ _ _ _ R Ee); [exact Hx|].
    split; [|done]. by apply (sess_key _ Hd).
Qed.

(** ** Bulk revocation *)

Lemma revoke_bulk p `{Hp : !forall x, Decision (p x)} now reason actor t t' n :
  sql_update p (Repository.revoke_row now reason actor) t = Some (t', n) ->
  (forall k x, t !! k = Some x -> p x -> t' !! k = Some (revoked_row now reason actor x)) /\
  (forall k x, t !! k = Some x -> ~ p x -> t' !! k = Some x) /\
  (forall k, t !! k = None -> t' !! k = None) /\ n = sql_count p t.
Proof using.
  intros Hu. split_and!.
  - intros k x Hk Hx. destruct (sql_update_hit _ _ _ _ _ _ _ Hu Hk Hx) as (x' & ->%revoke_row_Some & Hk'). done.
  - intros k x Hk Hx. by eapply sql_update_miss.
  - intros k Hk. by apply (sql_update_None_key _ _ _ _ _ k Hu).
  - by eapply sql_update_count.
Qed.

(** Revoking a user's sessions of a tenant is one atomic step on the
    session table alone: it revokes exactly the unrevoked sessions of that
    user in that tenant, leaves every other session as it is, and returns
    how many there were. *)
Theorem revoke_tenant_sessions_exact ctx userID tenantID reason w n w' :
  Sessions.RevokeTenantSessions ctx userID tenantID reason w = (Ok n, w') ->
  let p := fun x => Session.UserID x = userID /\ Session.TenantID x = tenantID /\ Session.RevokedAt x = None in
  exists actor d0 t' now,
    principal_Require ctx = Ok actor /\ one_step w w' d0 (set_sessions t' d0) /\
    (forall k x, sessions d0 !! k = Some x -> p x -> t' !! k = Some (revoked_row now reason (PID actor) x)) /\
    (forall k x, sessions d0 !! k = Some x -> ~ p x -> t' !! k = Some x) /\
    (forall k, sessions d0 !! k = None -> t' !! k = None) /\ n = sql_count p (sessions d0).
Proof using.
  intros H p. unfold Sessions.RevokeTenantSessions in H. inv_run H.
  assert (w_log w0 = w_log w) as Hlog by log_chain.
  apply map_err_Ok, db_exec_Ok in H as (d0 & _ & Hu & Hl).
  apply update_table_Ok in Hu as (t' & Hu & _ & Hd). pose proof (revoke_bulk _ _ _ _ _ _ _ Hu) as (H1 & H2 & H3 & H4).
  exists x, d0, t', x0. rewrite Hd, Hlog in Hl. split_and!; try done. 
Qed.

(** ** Tenant tokens *)

(** A tenant token is issued only to a service account or a system
    actor, and only if in one atomic step the named live session of the
    named user is scoped to the (non-empty, trimmed) tenant and membership;
    the token is signed for that user, session, tenant and membership. *)
Theorem tenant_token_scopes_session s ctx userID tenantID membershipID sessionID w tok w' :
  Rely safe_step -> schema_ok (w_db w) ->
  Sessions.IssueTenantToken s ctx userID tenantID membershipID sessionID w = (Ok tok, w') ->
  exists actor d0 x x' now,
    principal_Require ctx = Ok actor /\ (PType actor = TypeServiceAccount \/ PType actor = TypeSystem) /\
    TrimSpace tenantID <> "" /\ TrimSpace membershipID <> "" /\
    one_step w w' d0 (set_sessions (<[TrimSpace sessionID := x']> (sessions d0)) d0) /\
    sessions d0 !! TrimSpace sessionID = Some x /\ Session.UserID x = TrimSpace userID /\
    Session.RevokedAt x = None /\ now < Session.ExpiresAt x /\ (exists i, now = env_clock i) /\
    session_evolves x x' /\ Session.TenantID x' = TrimSpace tenantID /\
    Session.MembershipID x' = TrimSpace membershipID /\ Session.RevokedAt x' = None /\
    Session.RefreshTokenHash x' = Session.RefreshTokenHash x /\
    exists w1 w2, Issue (tokens s) (TrimSpace userID) "user" (TrimSpace sessionID) (TrimSpace tenantID)
                    (TrimSpace membershipID) w1 = (Ok tok, w2).
Proof using.
  intros Hr Hd H. unfold Sessions.IssueTenantToken in H. inv_run H.
  assert (safe_step (w_db w) (w_db w1)) as S0 by chain. assert (w_log w1 = w_log w) as Hlog by log_chain.
  inv_tx R1 as wa wb Hstep Hsafe. destruct (S0 Hd) as [_ Hd1]. destruct (Hsafe Hr Hd1) as [_ Hda].
  unfold Repository.ScopeSession in R1.
  apply guarded_update_Ok in R1 as (t' & n & Hu & Hn & _ & Hset & _).
  apply (update_one Session.ID) with (k := TrimSpace sessionID) in Hu
    as (y & y' & Hy & (Hid & Huid & Hrev & Hexp) & Hf & -> & _); [|apply Hda|by intros ? []|done].
  apply bind_Some in Hf as (f & Hb & [= <-]). apply now_reading in R0. rewrite Hset in Hstep.
  exists x, (w_db wa), y, (Session.mk (Session.ID y) (Session.UserID y) (Session.Username y) (Session.UserDisplayName y)
                      (Session.RefreshTokenHash y) (TrimSpace tenantID) (TrimSpace membershipID) (Session.ExpiresAt y)
                      (Session.RevokedAt y) (Session.RevokeReason y) (Session.LastUsedAt y)
                      (Session.ClientIP y) (Session.UserAgent y) f), x2.
  split_and!; try done; try tauto.
  - destruct (decide (PType x = TypeServiceAccount)), (decide (PType x = TypeSystem)); tauto.
  - by eapply one_step_shift.
  - eapply evolves_bump; [exact Hb|done|done|]. intros Hz. by apply Hz.
  - subst tok. eauto.
Qed.

(** ** Listing *)

Lemma list_rows_Ok {A} (get : DB -> gmap string A) (p : A -> Prop) `{Hp : !forall r, Decision (p r)}
    (le : relation A) `{Hle : !forall x y, Decision (le x y)} view m1 m2 limit offset w items total w' :
  list_rows get p le view m1 m2 limit offset w = (Ok (items, total), w') ->
  Z.of_nat (length items) <= limit /\
  (forall y, y ∈ items -> exists d k x, get d !! k = Some x /\ p x /\ view d x = Some y).
Proof using.
  unfold list_rows. intros H. inv_run H. injection E as -> ->.
  apply db_query_Ok in R0 as (_ & Hq & _). destruct (sql_page _ _ _ _) as [l|] eqn:El; [|done]. injection Hq as ->.
  split; [by eapply sql_page_length|]. intros y Hy. eapply sql_page_elem in Hy; [|exact El].
  apply list_elem_of_omap in Hy as (z & Hz & Hv). apply elem_of_sql_rows in Hz as (k & Hk & Hpz). eauto 10.
Qed.

(** A user who lists sessions sees at most one page of at most 100 rows,
    and only rows of the user's own sessions with the requested status (the
    identifier of the actor is not blank). *)
Theorem list_own_sessions_scope ctx status page pageSize w pg w' actor :
  principal_Require ctx = Ok actor -> TrimSpace (PID actor) <> "" ->
  Sessions.ListOwnSessions ctx status page pageSize w = (Ok pg, w') ->
  PType actor = TypeUser /\ Z.of_nat (length (Items pg)) <= PageSize pg <= 100 /\ 1 <= PageNo pg /\
  (exists now, forall y, y ∈ Items pg -> Session.UserID y = TrimSpace (PID actor) /\
    (status = "active" -> Session.RevokedAt y = None /\ now < Session.ExpiresAt y) /\
    (status = "revoked" -> Session.RevokedAt y <> None)).
Proof using.
  intros Ha Hne H. unfold Sessions.ListOwnSessions, Sessions.ListSessions in H. inv_run H. simplify_eq. simpl.
  apply list_rows_Ok in R0 as [Hlen Hin]. unfold clamp_page, clamp_size in *.
  assert (x = actor) as -> by congruence.
  split_and!; [done|exact Hlen|clear; case_decide; lia|clear; case_decide; lia|]. exists x2. intros y Hy.
  destruct (Hin y Hy) as (d & k & z0 & Hz & (Hu & _ & Hact & Hrev & _) & Hv).
  apply bind_Some in Hv as (u & _ & [= <-]). simpl. split_and!; auto.
Qed.
End sessions_spec.

(** ** Witnesses: the theorems at the concrete database of [Concrete.v] *)
Section witnesses.
Import Concrete.
#[local] Instance env0 : Env := quiet noon 0.

Lemma refresh_rotates_witness : exists t w' d0 x now,
  Sessions.Refresh service nobody "refresh-1" (start db) = (Ok t, w') /\
  sessions d0 !! Session.ID x = Some x /\ Session.RefreshTokenHash x = hashRefreshToken "refresh-1" /\
  one_step (start db) w' d0
    (set_sessions (<[Session.ID x := rotated x (hashRefreshToken (RefreshToken t)) now (Session.UserID x)]> (sessions d0)) d0).
Proof.
  by_running (Sessions.Refresh service nobody "refresh-1" (start db)) as a w E.
  destruct (refresh_rotates service nobody "refresh-1" (start db) a w _ db_ok E) as (d0 & x & n & Hs & Hx & _ & Hh & _).
  exists a, w, d0, x, n. exact (conj E (conj Hx (conj Hh Hs))).
Defined.

Lemma refresh_single_use_witness : exists t w' w'',
  Sessions.Refresh service nobody "refresh-1" (start db) = (Ok t, w') /\
  Sessions.Refresh service nobody "refresh-1" w' = (Err (Unauthorized "invalid refresh token"), w'').
Proof.
  assert (match Sessions.Refresh service nobody "refresh-1" (start db) with
          | (Ok t, _) => bool_decide (hashRefreshToken (RefreshToken t) <> hashRefreshToken "refresh-1")
          | _ => false end = true) as Hne by (vm_compute; reflexivity).
  by_running (Sessions.Refresh service nobody "refresh-1" (start db)) as a w E.
  rewrite E in Hne. apply bool_decide_eq_true in Hne.
  assert (forall i d, hash_absent (hashRefreshToken "refresh-1") d ->
            hash_absent (hashRefreshToken "refresh-1") (env_interfere i d)) as Hi by (intros i d Hd; exact Hd).
  destruct (refresh_single_use service nobody "refresh-1" (start db) a w _ db_ok Hi E Hne) as (w'' & H & _).
  exact (ex_intro _ a (ex_intro _ w (ex_intro _ w'' (conj E H)))).
Defined.

Lemma logout_revokes_witness : exists u w' d0 x,
  Sessions.Logout service alice_ctx "s1" "" (start db) = (Ok u, w') /\
  sessions d0 !! "s1" = Some x /\ Session.RevokedAt x = None.
Proof.
  by_running (Sessions.Logout service alice_ctx "s1" "" (start db)) as a w E.
  destruct (logout_revokes service alice_ctx "s1" "" (start db) w a _ db_ok E)
    as (p & d0 & d1 & x & n & _ & _ & Hx & _ & Hr & _).
  exists a, w, d0, x. exact (conj E (conj Hx Hr)).
Defined.

Lemma revoke_by_id_witness : exists r w',
  Sessions.RevokeSessionByID service admin "s2" "" 1 (start db) = (Ok r, w') /\ Session.RevokeReason r = "administrative revocation".
Proof.
  by_running (Sessions.RevokeSessionByID service admin "s2" "" 1 (start db)) as a w E.
  destruct (revoke_by_id_checks_version service admin "s2" "" 1 (start db) w a _ db_ok E)
    as (p & d0 & d1 & x & n & _ & _ & _ & _ & _ & Hr & _).
  exists a, w. split; [exact E|]. rewrite Hr. reflexivity.
Defined.

Lemma validate_session_witness : exists x w',
  Sessions.ValidateSession nobody "s1" "u1" (start db) = (Ok (x, true), w') /\ Session.RevokedAt x = None.
Proof.
  assert (match Sessions.ValidateSession nobody "s1" "u1" (start db) with (Ok (_, b), _) => b | _ => false end = true) as Hb
    by (vm_compute; reflexivity).
  assert (w_db (Sessions.ValidateSession nobody "s1" "u1" (start db)).2 = db) as Hdb by (vm_compute; reflexivity).
  by_running (Sessions.ValidateSession nobody "s1" "u1" (start db)) as a w E. 
  rewrite E in Hb, Hdb. destruct a as [x b]. subst b. simpl in Hdb.
  exists x, w. split; [exact E|].
  eapply (validate_session_iff nobody "s1" "u1" (start db) x true w E); [rewrite Hdb; apply db_ok|reflexivity].
Defined.

Lemma revoke_tenant_sessions_witness : exists n w' d0,
  Sessions.RevokeTenantSessions admin "u1" "" "closed" (start db) = (Ok n, w') /\
  n = sql_count (fun x => Session.UserID x = "u1" /\ Session.TenantID x = "" /\ Session.RevokedAt x = None) (sessions d0).
Proof.
  by_running (Sessions.RevokeTenantSessions admin "u1" "" "closed" (start db)) as a w E.
  destruct (revoke_tenant_sessions_exact admin "u1" "" "closed" (start db) a w E) as (p & d0 & t' & n & _ & _ & _ & _ & _ & Hn).
  exists a, w, d0. exact (conj E Hn).
Defined.

Lemma tenant_token_witness : exists tok w' d0 x,
  Sessions.IssueTenantToken service admin "u1" "t1" "m1" "s1" (start db) = (Ok tok, w') /\
  sessions d0 !! TrimSpace "s1" = Some x /\ Session.RevokedAt x = None.
Proof.
  by_running (Sessions.IssueTenantToken service admin "u1" "t1" "m1" "s1" (start db)) as a w E.
  destruct (tenant_token_scopes_session service admin "u1" "t1" "m1" "s1" (start db) a w _ db_ok E)
    as (p & d0 & x & x' & n & _ & _ & _ & _ & _ & Hx & _ & Hr & _).
  exists a, w, d0, x. exact (conj E (conj Hx Hr)).
Defined.

Lemma list_own_sessions_witness : exists pg w',
  Sessions.ListOwnSessions alice_ctx "active" 1 1 (start db) = (Ok pg, w') /\ Z.of_nat (length (Items pg)) <= PageSize pg.
Proof.
  by_running (Sessions.ListOwnSessions alice_ctx "active" 1 1 (start db)) as a w E.
  destruct (list_own_sessions_scope alice_ctx "active" 1 1 (start db) a w
              (mkPrincipal "u1" "user" "" "" "s1") eq_refl ltac:(by vm_compute) E) as (_ & [Hl _] & _).
  exists a, w. exact (conj E Hl).
Defined.
End witnesses.
