(* ===== verification/UsersSpec.v ===== *)
(** * Login, passwords and users: theorems *)

From S2P Require Import Prelude.
From S2P Require Import GoStrings.
From S2P Require Import Encoding.
From S2P Require Import Digest.
From S2P Require Import AppError.
From S2P Require Import Platform.
From S2P Require Import Table.
From S2P Require Import Model.
From S2P Require Import Runtime.
From S2P Require Import Repository.
From S2P Require Import MFARepository.
From S2P Require Import Evolution.
From S2P Require Import Guarantee.
From S2P Require Import Inversion.
From S2P Require Import Password.
From S2P Require Import Token.
From S2P Require Import MFACrypto.
From S2P Require Import ServiceBase.
From S2P Require Import Concrete.
From S2P Require Import CryptoSpec.
From S2P Require Import Sessions.
From S2P Require Import Users.
From S2P Require Import SessionsSpec.
Open Scope Z_scope.

Section users_spec.
Context {libs : Libs} {env : Env}.

(** ** Building blocks *)

(** The session that [prepareSession] makes for [userID]. *)
Definition new_session (userID tenantID membershipID : string) (x : Session.t) (t : Tokens) : Prop :=
  Session.UserID x = userID /\ Session.TenantID x = tenantID /\ Session.MembershipID x = membershipID /\
  Session.RevokedAt x = None /\ TokSessionID t = Session.ID x /\
  Session.RefreshTokenHash x = hashRefreshToken (RefreshToken t) /\
  exists i, Session.ExpiresAt x = env_clock i + refreshTTL /\ Session.LastUsedAt x = env_clock i.

Lemma prepareSession_Ok s ctx u tn m cl w x t w' :
  Sessions.prepareSession s ctx u tn m cl w = (Ok (x, t), w') -> new_session u tn m x t /\ Session.RevokeReason x = "" /\
  Session.Username x = "" /\ Session.UserDisplayName x = "".
Proof using.
  unfold Sessions.prepareSession. intros H. inv_run H. injection E0 as <- <-.
  apply newRefreshToken_Ok in R0 as ->. apply now_reading in R as [i ->].
  unfold new_session; cbn; eauto 12.
Qed.

Lemma prepareSession_offline s ctx u tn m cl : Offline (Sessions.prepareSession s ctx u tn m cl).
Proof using. solve_offline. Qed.

Lemma insert_session_Ok x w u w' :
  Repository.CreateSession x w = (Ok u, w') ->
  Session.RevokedAt x = None -> Session.RevokeReason x = "" -> Session.Username x = "" -> Session.UserDisplayName x = "" ->
  sessions (w_db w) !! Session.ID x = None /\ is_Some (users (w_db w) !! Session.UserID x) /\
  w_db w' = set_sessions (<[Session.ID x := x]> (sessions (w_db w))) (w_db w).
Proof using.
  unfold Repository.CreateSession. intros [H _]%map_err_Ok%tx_exec_Ok Hr Hrr Hn Hdn.
  unfold Repository.insert_session in H. case_decide as Hc; [done|]. case_decide as Hf; [|done].
  apply Decidable.not_or in Hc as [Hnone%eq_None_not_Some _]. injection H as <-. split_and!; try done.
  destruct x. cbn in *. by subst.
Qed.

Lemma createSession_Ok s ctx u tn m cl w t w' :
  Sessions.createSession s ctx u tn m cl w = (Ok t, w') ->
  exists x, let d0 := env_interfere (w_stm w) (w_db w) in
    one_step w w' d0 (set_sessions (<[Session.ID x := x]> (sessions d0)) d0) /\
    sessions d0 !! Session.ID x = None /\ new_session u tn m x t.
Proof using.
  unfold Sessions.createSession. intros H. inv_run H. subst.
  assert (w_log w0 = w_log w) as Hlog by log_chain.
  destruct (Offline_run _ _ _ _ (prepareSession_offline _ _ _ _ _ _) R) as [Hdb Hstm].
  apply prepareSession_Ok in R as (Hn & Hr & Hu & Hd).
  apply Within_at in R0 as (wa & wb & R0 & Hstep & Hwa); [|solve [solve_readonly]].
  apply insert_session_Ok in R0 as (Hnone & _ & Hset); try done; [|apply Hn].
  rewrite Hset, Hwa, Hdb, Hstm in Hstep. rewrite Hwa, Hdb, Hstm in Hnone. eauto 10 using one_step_shift.
Qed.

(** [db] is [da] with the failure count and the lock of user [id] cleared;
    the rest of [da] is kept. *)
Definition failures_cleared (id : string) (da db : DB) : Prop :=
  db = set_users (users db) da /\
  (forall k, k <> id -> users db !! k = users da !! k) /\
  (forall v, users db !! id = Some v -> User.FailedLoginCount v = 0 /\ User.LockedUntil v = None).

Lemma ResetFailedLogin_Ok id now w u w' :
  Repository.ResetFailedLogin id now w = (Ok u, w') -> Rely safe_step -> schema_ok (w_db w) ->
  let da := env_interfere (w_stm w) (w_db w) in
  w_log w' = w_log w ++ [(da, w_db w')] /\ schema_ok (w_db w') /\ w_stm w' = S (w_stm w) /\
  failures_cleared id da (w_db w').
Proof using.
  intros H Hr Hd da. pose proof (ResetFailedLogin_steps id now w) as (l & Hl' & HF). rewrite H in Hl'. simpl in Hl'.
  unfold Repository.ResetFailedLogin in H.
  apply bind_Ok in H as (n & w1 & R%map_err_Ok & [_ ->]%ret_Ok).
  assert (w_stm w1 = S (w_stm w)) as Hstm.
  { revert R. unfold db_exec. simpl. destruct (env_fault _); [done|]. destruct (update_table _ _ _ _ _ _) as [[]|]; [|done].
    by intros [= _ <-]. }
  apply db_exec_Ok in R as (d0 & -> & Hu & Hl). fold da in Hu, Hl.
  assert (schema_ok da) as Hs by (by apply Hr).
  rewrite Hl in Hl'. apply app_inv_head in Hl' as <-. rewrite Forall_singleton in HF. destruct (HF Hs) as [_ Hs'].
  split_and!; try done. apply update_table_Ok in Hu as (t' & Hu & _ & Hset). rewrite Hset. split_and!; [done| |]; simpl.
  - intros k Hk. destruct (users da !! k) as [v|] eqn:Hv; [|by apply (sql_update_None_key _ _ _ _ _ k Hu)].
    eapply sql_update_miss; [exact Hu|exact Hv|]. intros [Hid _]. apply Hk. by rewrite <-Hid, (users_key _ Hs _ _ Hv).
  - intros v Hv. destruct (sql_update_backward _ _ _ _ _ _ _ Hu Hv) as (v0 & Hv0 & Hrow). unfold update_row in Hrow.
    case_decide as Hc; [by apply bind_Some in Hrow as (f & _ & [= <-])|].
    injection Hrow as <-. rewrite (users_key _ Hs _ _ Hv0) in Hc. split.
    + destruct (decide (User.FailedLoginCount v0 = 0)); [done|]. exfalso. apply Hc. auto.
    + destruct (User.LockedUntil v0) as [t|] eqn:El; [|done]. exfalso. apply Hc. split; [done|]. right. by eexists.
Qed.

Lemma UserByLogin_Ok login w u c w' :
  Repository.UserByLogin login w = (Ok (u, c), w') -> Rely safe_step -> schema_ok (w_db w) ->
  let du := seen w 0 (w_db w) in let dc := seen w 1 du in
  users du !! User.ID u = Some u /\ credentials dc !! Credential.ID c = Some c /\
  (sql_lower (User.Username u) = sql_lower login \/ sql_lower (User.Email u) = sql_lower login) /\
  Credential.UserID c = User.ID u /\ Credential.Type_ c = "password" /\
  w_db w' = dc /\ w_stm w' = S (S (w_stm w)) /\ w_clk w' = w_clk w.
Proof using.
  unfold Repository.UserByLogin, seen. intros H Hr Hd. inv_run H. injection E as -> ->. simpl.
  assert (safe_step (w_db w) (w_db w0)) as S0 by chain. assert (safe_step (w_db w) (w_db w1)) as S1 by chain.
  destruct (S0 Hd) as [_ Hd0]. destruct (S1 Hd) as [_ Hd1].
  pose proof (get_row_at _ _ _ _ _ _ R) as (Hw0 & Hs0 & Hc0). pose proof (get_row_at _ _ _ _ _ _ R0) as (Hw1 & Hs1 & Hc1).
  apply get_row_Ok in R as ((k & Hk) & Hm & _). apply get_row_Ok in R0 as ((k' & Hk') & [Hu Ht] & _).
  pose proof (users_key _ Hd0 _ _ Hk) as Ek. pose proof (cred_key _ Hd1 _ _ Hk') as Ek'.
  rewrite Hs0 in Hw1. rewrite <-Hw0, <-Hw1, Ek, Ek'. split_and!; try done; congruence.
Qed.

(** A fresh login challenge for [userID] under the returned token. *)
Definition new_challenge (userID token : string) (ch : MFALoginChallenge.t) : Prop :=
  MFALoginChallenge.UserID ch = userID /\ MFALoginChallenge.TokenHash ch = hash_token token /\
  MFALoginChallenge.ConsumedAt ch = None.

Lemma issueMFAChallenge_Ok s ctx u cl w r w' :
  Users.issueMFAChallenge s ctx u cl w = (Ok r, w') ->
  MFARequired r = true /\ LoginTokens r = no_tokens /\
  exists ch, let d0 := env_interfere (w_stm w) (w_db w) in
    one_step w w' d0 (set_mfa_challenges (<[MFALoginChallenge.TokenHash ch := ch]> (mfa_login_challenges d0)) d0) /\
    new_challenge u (MFAChallengeToken r) ch.
Proof using.
  unfold Users.issueMFAChallenge. intros H. inv_run H. subst r. do 2 (split; [done|]).
  assert (w_log w1 = w_log w) as Hlog by log_chain.
  apply Within_at in R1 as (wa & wb & R1 & Hstep & Hwa); [|solve [solve_readonly]].
  unfold MFARepository.InsertMFAChallenge in R1. apply map_err_Ok, tx_exec_Ok in R1 as [Hi _].
  unfold MFARepository.insert_mfa_challenge in Hi. case_decide; [done|]. case_decide; [|done].
  injection Hi as Hi. apply rand_at in R as (Ha1 & Ha2). apply now_at in R0 as (Hb1 & Hb2 & _).
  rewrite <-Hi, Hwa, Hb1, Hb2, Ha1, Ha2 in Hstep. cbn in Hstep.
  eexists (MFALoginChallenge.mk _ _ _ _ _ _ _). split; [by eapply one_step_shift|]. done.
Qed.

(** What a successful login yields: a session, or an MFA challenge. *)
Definition login_result (uid : string) (r : LoginResult) (d0 d1 : DB) : Prop :=
  (MFARequired r = false /\ exists x, d1 = set_sessions (<[Session.ID x := x]> (sessions d0)) d0 /\
     sessions d0 !! Session.ID x = None /\ new_session uid "" "" x (LoginTokens r)) \/
  (MFARequired r = true /\ LoginTokens r = no_tokens /\
   exists ch, d1 = set_mfa_challenges (<[MFALoginChallenge.TokenHash ch := ch]> (mfa_login_challenges d0)) d0 /\
     new_challenge uid (MFAChallengeToken r) ch).

Lemma login_second_factor s ctx uid cl w r w' m :
  Rely safe_step -> schema_ok (w_db w) ->
  (r0 ← attempt (MFARepository.GetMFA uid);
   match r0 with
   | Ok enrollment =>
       if decide (MFAEnrollment.Status enrollment = MFAStatusEnabled) then
         match mfa s with
         | None => throw (Unavailable m None)
         | Some _ => Users.issueMFAChallenge s ctx uid cl
         end
       else
         toks ← Sessions.createSession s (principal_SystemContext ctx "identity:login") uid "" "" cl;
         mret (mkLoginResult toks false "" None)
   | Err e =>
       if errors_Is e ErrNotFound then
         toks ← Sessions.createSession s (principal_SystemContext ctx "identity:login") uid "" "" cl;
         mret (mkLoginResult toks false "" None)
       else throw (translateIdentityError e)
   end) w = (Ok r, w') ->
  let dm := seen w 0 (w_db w) in let d0 := seen w 1 dm in
  exists d1, one_step w w' d0 d1 /\ login_result uid r d0 d1 /\
    (MFARequired r = true <-> exists e, user_mfa dm !! uid = Some e /\ MFAEnrollment.Status e = MFAStatusEnabled).
Proof using.
  intros Hr Hd H. apply bind_Ok in H as (r0 & w1 & R & H). apply attempt_Ok in R.
  assert (safe_step (w_db w) (w_db w1)) as S1 by chain. destruct (S1 Hd) as [_ Hd1].
  assert (w_log w1 = w_log w) as Hlog by log_chain.
  pose proof (get_row_at _ _ _ _ _ _ R) as (Hw1 & Hs1 & _). unfold seen. simpl. rewrite <-Hw1, <-Hs1.
  destruct r0 as [e|e].
  - apply (get_row_key user_mfa MFAEnrollment.UserID) with (k := uid) in R as [He _]; [|apply Hd1|done].
    case_decide as Hs.
    + destruct (mfa s); [|done]. apply issueMFAChallenge_Ok in H as (Hm & Ht & ch & Hst & Hch).
      eexists. split; [by eapply one_step_shift|]. split; [right; eauto 10|]. split; eauto.
    + inv_run H. subst r. apply createSession_Ok in R as (y & Hst & Hn & Hy).
      eexists. split; [by eapply one_step_shift|]. split; [left; cbn; eauto 10|].
      split; [done|]. intros (e' & He' & Hs'). congruence.
  - destruct (errors_Is e ErrNotFound) eqn:Ee; [|done]. inv_run H. subst r.
    apply createSession_Ok in R0 as (y & Hst & Hn & Hy).
    eexists. split; [by eapply one_step_shift|]. split; [left; cbn; eauto 10|].
    split; [done|]. intros (e' & He' & _). exfalso. eapply (get_row_NotFound _ _ _ _ _ _ R Ee); [exact He'|].
    by apply (mfa_key _ Hd1).
Qed.

(** C8: What a successful login means.  The databases are those of the run:
    its five statements read the user ([du]), the credential ([dc]), clear the
    failures ([da] to [db]), read the enrolment ([dm]) and write ([d0] to
    [d1]); between two of them the other requests may change the database.
    The login name or email matches an active user that is not locked at the
    first clock reading, whose stored active password credential verifies the
    password.  Two atomic steps are made: the first clears the failure counter
    and the lock of the user and nothing else; the second creates one live
    30-day session for the user when no MFA enrolment of the user is enabled,
    and otherwise only stores an MFA challenge: no session and no token is
    then handed out. *)
Theorem login_outcomes s ctx login password client w r w' :
  Rely safe_step -> schema_ok (w_db w) ->
  Users.Login s ctx login password client w = (Ok r, w') ->
  let now := env_clock (w_clk w) in
  let du := seen w 0 (w_db w) in let dc := seen w 1 du in let da := seen w 2 dc in
  exists u c b db d1,
    let dm := seen w 3 db in let d0 := seen w 4 dm in
    users du !! User.ID u = Some u /\
    (sql_lower (User.Username u) = sql_lower (TrimSpace login) \/ sql_lower (User.Email u) = sql_lower (TrimSpace login)) /\
    User.Status u = StatusActive /\ ~ Users.locked u now /\
    credentials dc !! Credential.ID c = Some c /\
    Credential.UserID c = User.ID u /\ Credential.Type_ c = "password" /\ Credential.Status c = StatusActive /\
    Verify (hasher s) password (Credential.SecretHash c) = Ok (true, b) /\
    w_log w' = w_log w ++ [(da, db); (d0, d1)] /\ w_db w' = d1 /\
    failures_cleared (User.ID u) da db /\
    login_result (User.ID u) r d0 d1 /\
    (MFARequired r = true <-> exists e, user_mfa dm !! User.ID u = Some e /\ MFAEnrollment.Status e = MFAStatusEnabled).
Proof using.
  intros Hr Hd H. unfold Users.Login in H.
  apply bind_Ok in H as (? & w0 & [Hne ->]%reject_Ok & H).
  apply bind_Ok in H as ([u c] & w1 & R%map_err_Ok & H).
  apply bind_Ok in H as (now & w2 & Rn & H). apply bind_Ok in H as (? & w3 & [Hg ->]%reject_Ok & H).
  destruct (Verify (hasher s) password (Credential.SecretHash c)) as [[[] b]|] eqn:Ev; [|by inv_run H|by inv_run H].
  apply bind_Ok in H as (? & w4 & Rs%map_err_Ok & H).
  assert (safe_step (w_db w) (w_db w2)) as S2 by chain. destruct (S2 Hd) as [_ Hd2].
  assert (w_log w2 = w_log w) as Hlog by log_chain.
  destruct (UserByLogin_Ok _ _ _ _ _ R Hr Hd) as (Hu & Hc & Hm & Hc1 & Hc2 & Hw1 & Hs1 & Hk1).
  apply now_at in Rn as (Hw2 & Hs2 & ->). rewrite Hk1 in *.
  destruct (ResetFailedLogin_Ok _ _ _ _ _ Rs Hr Hd2) as (Hla & Hd4 & Hs4 & Hclear).
  apply login_second_factor in H as (d1 & [Hst Hw'] & Hres & Hmfa); [|done|done].
  unfold seen in *. rewrite Hw2, Hs2, Hs1, Hw1 in Hla, Hclear. rewrite Hs4, Hs2, Hs1 in Hst, Hres, Hmfa. simpl in *.
  exists u, c, b, (w_db w4), d1. split_and!; try done; try tauto.
  - destruct (decide (User.Status u = StatusActive)); tauto.
  - destruct (decide (Credential.Status c = StatusActive)); tauto.
  - rewrite Hst, Hla, Hlog. by rewrite <-app_assoc.
Qed.

(** A locked account is refused before its password is looked at: while
    the lock lasts, no password opens it, and nothing is written. *)
Theorem locked_account_refused s ctx login password client w u c w1 :
  TrimSpace login <> "" -> password <> "" ->
  Repository.UserByLogin (TrimSpace login) w = (Ok (u, c), w1) ->
  Users.locked u (env_clock (w_clk w1)) ->
  exists w', Users.Login s ctx login password client w = (Err (Unauthorized "account is unavailable"), w') /\
    w_log w' = w_log w.
Proof using.
  intros Hl Hp HR Hlock. assert (w_log w1 = w_log w) as Hlog by log_chain.
  unfold Users.Login. cbv zeta. erewrite run_bind by (apply run_reject; tauto).
  erewrite run_bind by (by apply run_map_err). cbv beta iota. erewrite run_bind by reflexivity.
  erewrite run_bind_err by (apply run_reject_err; auto). eexists. split; [reflexivity|]. exact Hlog.
Qed.

Lemma quiet_get_row {A} (get : DB -> gmap string A) (p : A -> Prop) `{Hp : !forall r, Decision (p r)} msg w r w' :
  Quiet -> get_row get p msg w = (r, w') -> w_db w' = w_db w.
Proof using.
  intros Hq. unfold get_row, map_err. intros H.
  match type of H with context [db_query ?q w] => pose proof (quiet_db_query q w Hq) as Hd; destruct (db_query q w) as [[]] end;
    by simplify_eq.
Qed.

(** The user row after one more failed attempt. *)
Definition failed_once (now : Z) (u : User.t) : User.t :=
  let f := User.fields u in
  User.mk (User.ID u) (User.Username u) (User.DisplayName u) (User.Email u) (User.Phone u) (User.Status u)
    (User.FailedLoginCount u + 1)
    (if decide (loginFailureThreshold <= User.FailedLoginCount u + 1) then Some (now + loginLockDuration) else User.LockedUntil u)
    (mkFields (Version f + 1) (CreatedAt f) now (CreatedBy f) "identity:login").

Lemma record_failure_some threshold l now u :
  User.FailedLoginCount u + 1 < 2 ^ 31 -> Version (User.fields u) < int64_max ->
  exists f, Repository.record_failure threshold l now u =
    Some (User.mk (User.ID u) (User.Username u) (User.DisplayName u) (User.Email u) (User.Phone u)
            (User.Status u) (User.FailedLoginCount u + 1)
            (if decide (threshold <= User.FailedLoginCount u + 1) then Some l else User.LockedUntil u) f) /\
    f = mkFields (Version (User.fields u) + 1) (CreatedAt (User.fields u)) now (CreatedBy (User.fields u)) "identity:login".
Proof using.
  intros Hc Hv. unfold Repository.record_failure, bump.
  rewrite (decide_True (P := User.FailedLoginCount u + 1 < 2 ^ 31)) by done.
  rewrite (decide_True (P := Version (User.fields u) < int64_max)) by done. eexists. split; reflexivity.
Qed.

(** A failed password attempt is counted: without faults and
    concurrent changes, a wrong password for an available account is answered
    with [invalid credentials], creates no session, and changes exactly the
    user's row: the failure count grows by one, and from the fifth failure
    on the account is locked for 15 minutes from now. *)
Theorem wrong_password_counted s ctx login password client w u c w1 :
  Quiet -> schema_ok (w_db w) -> TrimSpace login <> "" -> password <> "" ->
  Repository.UserByLogin (TrimSpace login) w = (Ok (u, c), w1) ->
  User.Status u = StatusActive -> Credential.Status c = StatusActive ->
  ~ Users.locked u (env_clock (w_clk w1)) ->
  (forall b, Verify (hasher s) password (Credential.SecretHash c) <> Ok (true, b)) ->
  User.FailedLoginCount u + 1 < 2 ^ 31 -> Version (User.fields u) < int64_max ->
  exists w', Users.Login s ctx login password client w = (Err (Unauthorized "invalid credentials"), w') /\
    w_db w' = set_users (<[User.ID u := failed_once (env_clock (w_clk w1)) u]> (users (w_db w))) (w_db w).
Proof using.
  intros Hq Hd Hl Hp HR Hu Hc Hlock Hv Hcount Hver.
  assert (w_db w1 = w_db w) as Hw1.
  { unfold Repository.UserByLogin in HR. inv_run HR.
    transitivity (w_db w0); by eapply quiet_get_row. }
  assert (users (w_db w) !! User.ID u = Some u) as Hrow.
  { unfold Repository.UserByLogin in HR. inv_run HR. simplify_eq.
    pose proof (quiet_get_row _ _ _ _ _ _ Hq R) as Hw0. apply get_row_Ok in R as ((k & Hk) & _ & _).
    rewrite Hw0 in Hk. by rewrite (users_key _ Hd _ _ Hk). }
  destruct (record_failure_some loginFailureThreshold (env_clock (w_clk w1) + loginLockDuration) (env_clock (w_clk w1)) u
              Hcount Hver) as (f & Hf & ->).
  unfold Users.Login. cbv zeta. erewrite run_bind by (apply run_reject; tauto).
  erewrite run_bind by (by apply run_map_err). cbv beta iota. erewrite run_bind by reflexivity.
  erewrite run_bind by (apply run_reject; tauto).
  set (w2 := mkWorld (w_db w1) (S (w_clk w1)) (w_rnd w1) (w_uid w1) (w_stm w1) (w_log w1)).
  destruct (run_update_key users set_users User.ID (fun v => User.ID v = User.ID u) _ w2 (User.ID u) u _ Hq
              ltac:(simpl; rewrite Hw1; apply Hd) ltac:(done) ltac:(simpl; by rewrite Hw1) eq_refl Hf) as (w3 & Hrun & Hdb & _).
  assert (Repository.RecordFailedLogin (User.ID u) loginFailureThreshold (env_clock (w_clk w1) + loginLockDuration)
            (env_clock (w_clk w1)) w2 = (Ok tt, w3)) as Hrec.
  { unfold Repository.RecordFailedLogin. erewrite run_bind by (by apply run_map_err). reflexivity. }
  exists w3. split; [|by rewrite Hdb; simpl; rewrite Hw1].
  destruct (Verify (hasher s) password (Credential.SecretHash c)) as [[[] b]|e] eqn:Ev; [by destruct (Hv b)| |];
    (erewrite run_bind by (unfold attempt; by rewrite Hrec)); reflexivity.
Qed.

(** ** Passwords and status *)

Lemma Hash_length h pw w e w' : Hash h pw w = (Ok e, w') -> 12 <= go_len pw <= 1024.
Proof using. unfold Hash. intros H. inv_run H. unfold validatePassword in E. case_decide; [done|lia]. Qed.

Lemma Hash_at h pw w e w' : Hash h pw w = (e, w') -> w_db w' = w_db w /\ w_stm w' = w_stm w /\ w_clk w' = w_clk w.
Proof using.
  unfold Hash, mbind, M_bind, map_err, lift, rand_Read. destruct (validatePassword pw); [|by intros [= _ <-]]. simpl.
  destruct (env_rand _ _); by intros [= _ <-].
Qed.

Lemma UpdatePasswordCredential_Ok id h a v now w u w' :
  Repository.UpdatePasswordCredential id h a v now w = (Ok u, w') -> schema_ok (w_db w) ->
  exists c c', credentials (w_db w) !! id = Some c /\ Version (Credential.fields c) = v /\
    Credential.Status c = StatusActive /\ Credential.Type_ c = "password" /\
    credential_evolves c c' /\ Credential.SecretHash c' = h /\
    Credential.fields c' = mkFields (v + 1) (CreatedAt (Credential.fields c)) now (CreatedBy (Credential.fields c)) a /\
    w_db w' = set_credentials (<[id := c']> (credentials (w_db w))) (w_db w).
Proof using.
  intros (t' & n & Hu & Hn & _ & Hd & _)%guarded_update_Ok Hs.
  apply (update_one Credential.ID) with (k := id) in Hu as (c & c' & Hc & (Hid & Ht & Hst & Hv) & Hf & -> & _);
    [|apply Hs|cbn beta; tauto|done].
  apply bind_Some in Hf as (f & Hb & [= <-]). 
  exists c, (Credential.mk (Credential.ID c) (Credential.UserID c) (Credential.Type_ c) h (Credential.Status c) f).
  split_and!; try done.
  - eapply evolves_bump; [exact Hb|done|done|by intros []].
  - cbn. apply bump_Some in Hb as [-> _]. by rewrite Hv.
Qed.

Lemma change_password_run s ctx current new w n w' :
  Rely safe_step -> schema_ok (seen w 0 (w_db w)) ->
  Users.ChangePassword s ctx current new w = (Ok n, w') ->
  let now := env_clock (w_clk w) in
  let dc := seen w 0 (w_db w) in let d0 := seen w 1 dc in
  exists actor c c' b b' t' d1,
    principal_Require ctx = Ok actor /\ PType actor = TypeUser /\ PSessionID actor <> "" /\
    12 <= go_len new <= 1024 /\
    Credential.UserID c = PID actor /\ Credential.Type_ c = "password" /\ Credential.Status c = StatusActive /\
    credentials dc !! Credential.ID c = Some c /\ credentials d0 !! Credential.ID c = Some c /\
    Verify (hasher s) current (Credential.SecretHash c) = Ok (true, b) /\
    Verify (hasher s) new (Credential.SecretHash c) = Ok (false, b') /\
    credential_evolves c c' /\ UpdatedAt (Credential.fields c') = now /\
    (exists w1 w2, Hash (hasher s) new w1 = (Ok (Credential.SecretHash c'), w2)) /\
    one_step w w' d0 d1 /\
    with_event "platform.identity.user.password-changed.v1"
      (set_sessions t' (set_credentials (<[Credential.ID c := c']> (credentials d0)) d0)) d1 /\
    let p x := Session.UserID x = PID actor /\ Session.ID x <> PSessionID actor /\
               Session.RevokedAt x = None /\ now < Session.ExpiresAt x in
    (forall k x, sessions d0 !! k = Some x -> p x -> t' !! k = Some (revoked_row now "password changed" (PID actor) x)) /\
    (forall k x, sessions d0 !! k = Some x -> ~ p x -> t' !! k = Some x) /\ n = sql_count p (sessions d0).
Proof using.
  intros Hr Hd H. unfold Users.ChangePassword in H. inv_run H.
  assert (w_log w2 = w_log w) as Hlog by log_chain.
  assert (safe_step (w_db w0) (w_db w2)) as S1 by chain.
  pose proof (get_row_at _ _ _ _ _ _ R) as (Hw0 & Hs0 & Hk0).
  apply Within_at in H as (wa & wb & H & Hstep & Hwa); [|solve [solve_readonly]]. inv_run H.
  assert (safe_step (w_db w2) (w_db wa)) as Hsafe by (rewrite Hwa; apply Hr).
  assert (schema_ok (w_db w0)) as Hd0 by (by rewrite Hw0). destruct (transitivity S1 Hsafe Hd0) as [V Hda].
  pose proof (Hash_at _ _ _ _ _ R0) as (Hw1 & Hs1 & Hk1). apply now_at in R1 as (Hw2 & Hs2 & ->).
  rewrite Hw2, Hs2, Hw1, Hs1, Hs0 in Hwa.
  pose proof R as Rc. apply get_row_Ok in Rc as ((k & Hk) & [Hcu Hct] & _).
  pose proof (cred_key _ Hd0 _ _ Hk) as <-.
  apply UpdatePasswordCredential_Ok in R2 as (c & c' & Hc & Hv & _ & _ & He & Hh & Hf & Hset); [|done].
  destruct (ev_credentials _ _ V _ _ Hk) as (c1 & Hc1 & He1). rewrite Hc in Hc1. injection Hc1 as <-.
  assert (c = x1) as -> by (by apply (evolves_version _ _ _ x1 c He1)).
  unfold Repository.RevokeOtherSessions in R3. apply counted_update_Ok in R3 as (t' & Hu & Hset' & _).
  rewrite Hset in Hu, Hset'. apply revoke_bulk in Hu as (H1 & H2 & _ & H4).
  pose proof (newOutboxEvent_db _ _ _ _ _ _ _ _ _ R4) as Hdb. apply newOutboxEvent_Ok in R4 as [Hsub _].
  apply insert_event in R5. rewrite Hsub, Hdb, Hset' in R5. subst x5 x8.
  assert (b = true) as -> by (by destruct b). assert (b1 = false) as -> by (by destruct b1).
  rewrite Hk1, Hk0 in *. rewrite Hwa, Hw0 in *. unfold seen. simpl.
  exists x, x1, c', b0, b2, t', (w_db w6). split_and!; eauto using one_step_shift; try done.
  - destruct (decide (PType x = TypeUser)); tauto.
  - by destruct (Hash_length _ _ _ _ _ R0).
  - by destruct (Hash_length _ _ _ _ _ R0).
  - by rewrite Hf.
Qed.

(** C16: Changing a password proves knowledge of the old one and takes
    effect everywhere at once.  The caller is a user with a session; the
    current password verifies against the caller's stored credential, read by
    the first statement and unchanged when the transaction begins, and the new
    one does not, and has 12 to 1024 bytes.  One atomic step stores a hash of
    the new password in that credential, revokes every other session of the
    user that is unexpired at the clock reading of the request and no other
    session, and adds the event; the result is the number of sessions
    revoked. *)
Theorem change_password_effect s ctx current new w n w' :
  Rely safe_step -> schema_ok (w_db w) ->
  Users.ChangePassword s ctx current new w = (Ok n, w') ->
  let now := env_clock (w_clk w) in
  let dc := seen w 0 (w_db w) in let d0 := seen w 1 dc in
  exists actor c c' b b' t' d1,
    principal_Require ctx = Ok actor /\ PType actor = TypeUser /\ PSessionID actor <> "" /\
    12 <= go_len new <= 1024 /\
    Credential.UserID c = PID actor /\ Credential.Type_ c = "password" /\ Credential.Status c = StatusActive /\
    credentials dc !! Credential.ID c = Some c /\ credentials d0 !! Credential.ID c = Some c /\
    Verify (hasher s) current (Credential.SecretHash c) = Ok (true, b) /\
    Verify (hasher s) new (Credential.SecretHash c) = Ok (false, b') /\
    credential_evolves c c' /\ UpdatedAt (Credential.fields c') = now /\
    (exists w1 w2, Hash (hasher s) new w1 = (Ok (Credential.SecretHash c'), w2)) /\
    one_step w w' d0 d1 /\
    with_event "platform.identity.user.password-changed.v1"
      (set_sessions t' (set_credentials (<[Credential.ID c := c']> (credentials d0)) d0)) d1 /\
    let p x := Session.UserID x = PID actor /\ Session.ID x <> PSessionID actor /\
               Session.RevokedAt x = None /\ now < Session.ExpiresAt x in
    (forall k x, sessions d0 !! k = Some x -> p x -> t' !! k = Some (revoked_row now "password changed" (PID actor) x)) /\
    (forall k x, sessions d0 !! k = Some x -> ~ p x -> t' !! k = Some x) /\ n = sql_count p (sessions d0).
Proof using. intros Hr Hd. apply change_password_run; [done|]. by apply Hr. Qed.

(** Changing the status of a user is optimistic and immediate.  It
    succeeds only against the named version; one atomic step sets the status,
    clears the failure counter and lock and stores the event; if the new
    status is not active, no unexpired session of the user remains
    unrevoked, and if it is active, the sessions are untouched. *)
Theorem update_status_effect s ctx id status reason version w r w' :
  Rely safe_step -> schema_ok (w_db w) ->
  Users.UpdateUserStatus s ctx id status reason version w = (Ok r, w') ->
  exists actor u u' d0 t' now d1,
    principal_Require ctx = Ok actor /\ status ∈ [StatusActive; StatusDisabled; StatusLocked; StatusClosed] /\
    w_log w' = w_log w ++ [(d0, d1)] /\
    users d0 !! id = Some u /\ Version (User.fields u) = version /\ user_evolves u u' /\
    User.Status u' = status /\ User.FailedLoginCount u' = 0 /\ User.LockedUntil u' = None /\
    with_event "platform.identity.user.status-changed.v1"
      (set_sessions t' (set_users (<[id := u']> (users d0)) d0)) d1 /\
    (status = StatusActive -> t' = sessions d0) /\
    (status <> StatusActive -> forall k x, t' !! k = Some x -> Session.UserID x = id -> now < Session.ExpiresAt x ->
       Session.RevokedAt x <> None).
Proof using.
  intros Hr Hd H. unfold Users.UpdateUserStatus in H. inv_run H.
  assert (w_log w2 = w_log w) as Hlog by log_chain. assert (w_log w' = w_log w3) as Hlog' by log_chain.
  assert (safe_step (w_db w) (w_db w2)) as S0 by chain.
  apply Within_one in R2 as (wa & wb & Htx & [Hst _] & Hsafe); [|solve [solve_readonly]].
  destruct (transitivity S0 (Hsafe Hr) Hd) as [_ Hda].
  apply bind_Ok in Htx as (? & wc & Rs & Htx). apply bind_Ok in Htx as (? & we & Rv & Ro).
  apply guarded_update_Ok in Rs as (t1 & n & Hu & Hn & _ & Hset & _).
  apply (update_one User.ID) with (k := id) in Hu as (u & u' & Hu & (Hid & Hv) & Hf & -> & _);
    [|apply Hda|cbn beta; tauto|done].
  apply bind_Some in Hf as (f & Hb & [= <-]).
  apply newOutboxEvent_Ok in R1 as [Hsub _]. apply insert_event in Ro. rewrite Hsub in Ro.
  assert (exists t', w_db we = set_sessions t' (w_db wc) /\ (status = StatusActive -> t' = sessions (w_db wc)) /\
    (status <> StatusActive -> forall k x, t' !! k = Some x -> Session.UserID x = id -> x2 < Session.ExpiresAt x ->
       Session.RevokedAt x <> None)) as (t' & Ht & Ht1 & Ht2).
  { case_decide as Hact; inv_run Rv.
    - match goal with Hrun : Repository.RevokeUserSessions _ _ _ _ _ = _ |- _ => rename Hrun into R9 end.
      unfold Repository.RevokeUserSessions in R9. apply counted_update_Ok in R9 as (t' & Hu' & Hs' & _).
      exists t'. split; [done|]. split; [done|]. intros _ k y Hy Huid Hexp.
      destruct (sql_update_backward _ _ _ _ _ _ _ Hu' Hy) as (y0 & Hy0 & Hrow). unfold update_row in Hrow.
      case_decide as Hp; [by apply revoke_row_Some in Hrow as ->|]. injection Hrow as <-. tauto.
    - exists (sessions (w_db wc)). split; [by destruct (w_db wc)|]. split; [done|]. by intros. }
  rewrite Ht, Hset in Ro. rewrite Hset in Ht1.
  exists x0, u, (User.mk (User.ID u) (User.Username u) (User.DisplayName u) (User.Email u) (User.Phone u) status 0 None f),
    (w_db wa), t', x2, (w_db wb).
  split_and!; try done; [by rewrite Hlog', Hst, Hlog|].
  eapply evolves_bump; [exact Hb|done|done|by intros []].
Qed.
End users_spec.

(** ** Witnesses *)
Section witnesses.
Import Concrete.
#[local] Instance env0 : Env := quiet noon 0.

Lemma login_outcomes_witness : exists r w' u c,
  Users.Login service nobody " alice " password client (start db) = (Ok r, w') /\
  (sql_lower (User.Username u) = sql_lower (TrimSpace " alice ") \/ sql_lower (User.Email u) = sql_lower (TrimSpace " alice ")) /\
  Credential.UserID c = User.ID u.
Proof.
  by_running (Users.Login service nobody " alice " password client (start db)) as a w E.
  destruct (login_outcomes service nobody " alice " password client (start db) a w _ db_ok E)
    as (u & c & b & d & d1 & _ & Hm & _ & _ & _ & Hc & _).
  exists a, w, u, c. exact (conj E (conj Hm Hc)).
Defined.

(** Alice after her fifth failure. *)
Definition locked_db : DB :=
  set_users (<["u1" := failed_once noon alice]> (users db)) db.

Lemma locked_account_witness : exists w',
  Users.Login service nobody "alice" password client (start locked_db) = (Err (Unauthorized "account is unavailable"), w').
Proof.
  by_running (Repository.UserByLogin (TrimSpace "alice") (start locked_db)) as a w E. destruct a as [u c].
  assert (match Repository.UserByLogin (TrimSpace "alice") (start locked_db) with
          | (Ok (u, _), w) => bool_decide (Users.locked u (env_clock (w_clk w))) | _ => false end = true) as Hl
    by (vm_compute; reflexivity).
  rewrite E in Hl. apply bool_decide_eq_true in Hl.
  destruct (locked_account_refused service nobody "alice" password client (start locked_db) u c w
              ltac:(by vm_compute) ltac:(by vm_compute) E Hl) as (w' & H & _).
  exists w'. exact H.
Defined.

(** What the hypotheses of [wrong_password_counted] ask of the row read, as a test. *)
Definition wrong_password_test (pw : string) (r : Result (User.t * Credential.t) * World) : bool :=
  match r with
  | (Ok (u, c), w) =>
      bool_decide (User.Status u = StatusActive /\ Credential.Status c = StatusActive /\
        ~ Users.locked u (env_clock (w_clk w)) /\
        User.FailedLoginCount u + 1 < 2 ^ 31 /\ Version (User.fields u) < int64_max) &&
      match Verify (hasher service) pw (Credential.SecretHash c) with Ok (true, _) => false | _ => true end
  | _ => false
  end.

Lemma wrong_password_witness : exists w' u,
  Users.Login service nobody "alice" "wrong password" client (start db) = (Err (Unauthorized "invalid credentials"), w') /\
  w_db w' = set_users (<[User.ID u := failed_once noon u]> (users db)) db.
Proof.
  by_running (Repository.UserByLogin (TrimSpace "alice") (start db)) as a w E. destruct a as [u c].
  assert (wrong_password_test "wrong password" (Repository.UserByLogin (TrimSpace "alice") (start db)) = true) as Hl
    by (vm_compute; reflexivity).
  rewrite E in Hl. unfold wrong_password_test in Hl. apply andb_prop in Hl as [Hl Hv].
  apply bool_decide_eq_true in Hl. destruct Hl as (H1 & H2 & H3 & H4 & H5).
  assert (forall b, Verify (hasher service) "wrong password" (Credential.SecretHash c) <> Ok (true, b)) as Hv'
    by (intros b Hb; rewrite Hb in Hv; discriminate Hv).
  destruct (wrong_password_counted service nobody "alice" "wrong password" client (start db) u c w
              (quiet_is_quiet noon 0) db_ok ltac:(by vm_compute) ltac:(by vm_compute) E H1 H2 H3 Hv' H4 H5) as (w' & H & Hd).
  exists w', u. exact (conj H Hd).
Defined.

Lemma change_password_witness : exists n w',
  Users.ChangePassword service alice_ctx password "another password" (start db) = (Ok n, w') /\
  12 <= go_len "another password" <= 1024.
Proof.
  by_running (Users.ChangePassword service alice_ctx password "another password" (start db)) as a w E.
  destruct (change_password_effect service alice_ctx password "another password" (start db) a w _ db_ok E)
    as (p & c & c' & b & b' & t' & d1 & _ & _ & _ & Hlen & _).
  exists a, w. exact (conj E Hlen).
Defined.

Lemma update_status_witness : exists r w' d0 d1,
  Users.UpdateUserStatus service admin "u1" "disabled" "left" 1 (start db) = (Ok r, w') /\ w_log w' = [(d0, d1)].
Proof.
  by_running (Users.UpdateUserStatus service admin "u1" "disabled" "left" 1 (start db)) as a w E.
  destruct (update_status_effect service admin "u1" "disabled" "left" 1 (start db) a w _ db_ok E)
    as (p & u & u' & d0 & t' & n & d1 & _ & _ & Hl & _).
  exists a, w, d0, d1. exact (conj E Hl).
Defined.

(** ** Ambiguous login names

    The schema does not keep a username from being the email of somebody
    else.  Mallory's username is Alice's email; both rows match the query of
    [UserByLogin], and whether Alice can log in with her email and password
    depends on which row the server sends first. *)
Definition mallory : User.t :=
  User.mk "u3" "alice@example.com" "Mallory" "mallory@example.com" "" StatusActive 0 None old.
Definition ambiguous_db : DB :=
  set_credentials (<["c3" := Credential.mk "c3" "u3" "password" (hash_of "mallory password") StatusActive old]> (credentials db))
    (set_users (<["u3" := mallory]> (users db)) db).
Definition picking (n : nat) : Env :=
  {| env_clock := fun _ => noon; env_rand := @env_rand env0; env_uuid := @env_uuid env0; env_fault := fun _ => None;
     env_pick := fun _ => n; env_interfere := fun _ d => d |}.

Lemma login_by_email_ambiguous : schema_ok ambiguous_db /\
  exists n1 n2,
    is_ok (@Users.Login libs (picking n1) service nobody "alice@example.com" password client (start ambiguous_db)).1 = true /\
    is_ok (@Users.Login libs (picking n2) service nobody "alice@example.com" password client (start ambiguous_db)).1 = false.
Proof.
  split; [apply schema_check_sound; vm_compute; reflexivity|].
  first [ (exists 0%nat, 1%nat; split; vm_compute; reflexivity) | (exists 1%nat, 0%nat; split; vm_compute; reflexivity) ].
Qed.
End witnesses.
