(* ===== verification/AccountsSpec.v ===== *)
(** * Registration, lookups and service accounts: theorems *)

From S2P Require Import Prelude.
From S2P Require Import GoStrings.
From S2P Require Import Encoding.
From S2P Require Import Digest.
From S2P Require Import AppError.
From S2P Require Import Platform.
From S2P Require Import Table.
From S2P Require Import Model.
From S2P Require Import Runtime.
From S2P Require Import Repository.
From S2P Require Import MFARepository.
From S2P Require Import Evolution.
From S2P Require Import Guarantee.
From S2P Require Import Inversion.
From S2P Require Import Password.
From S2P Require Import Token.
From S2P Require Import MFACrypto.
From S2P Require Import ServiceBase.
From S2P Require Import Concrete.
From S2P Require Import CryptoSpec.
From S2P Require Import Sessions.
From S2P Require Import Users.
From S2P Require Import ServiceAccounts.
From S2P Require Import SessionsSpec.
Open Scope Z_scope.

Section registration.
Context {libs : Libs} {env : Env} {alaws : Argon2Laws} {elaws : EnvLaws}.

(** The hasher of the service was accepted by [NewPasswordHasher]. *)
Definition hasher_ok (s : Service) : Prop :=
  exists p, parameters_width p /\ NewPasswordHasher p = Ok (hasher s).

Lemma hashed_verifies s pw w e w' :
  hasher_ok s -> Hash (hasher s) pw w = (Ok e, w') -> 12 <= go_len pw <= 1024 /\ Verify (hasher s) pw e = Ok (true, false).
Proof using alaws elaws.
  intros (p & Hw & Hp) H. pose proof (hash_run _ _ _ _ _ _ Hw Hp H) as (Hlen & salt & _ & Hv). split; [done|].
  rewrite Hv, bool_decide_true by done.
  assert (parameters (hasher s) = p) as -> by (unfold NewPasswordHasher in Hp; case_decide; [done|]; by injection Hp as <-).
  by rewrite bool_decide_false by (intros Hz; by apply Hz).
Qed.

Lemma CreateUser_Ok u c w x w' :
  Repository.CreateUser u c w = (Ok x, w') -> User.LockedUntil u = None ->
  users (w_db w) !! User.ID u = None /\
  ~ clash (fun v => sql_lower (User.Username v)) u (users (w_db w)) /\
  ~ clash (fun v => sql_lower (User.Email v)) u (users (w_db w)) /\
  credentials (w_db w) !! Credential.ID c = None /\
  w_db w' = set_credentials (<[Credential.ID c := c]> (credentials (w_db w)))
              (set_users (<[User.ID u := u]> (users (w_db w))) (w_db w)).
Proof using.
  unfold Repository.CreateUser. intros H Hl. inv_run H.
  apply tx_exec_Ok in R as [Hu _]. apply tx_exec_Ok in H as [Hc _].
  unfold Repository.insert_user in Hu. case_decide as H1; [done|]. injection Hu as Hu.
  unfold Repository.insert_credential in Hc. case_decide as H2; [done|]. case_decide; [|done]. injection Hc as Hc.
  apply Decidable.not_or in H1 as [Hn%eq_None_not_Some [Hun Hem]%Decidable.not_or].
  apply Decidable.not_or in H2 as [Hcn%eq_None_not_Some _].
  rewrite <-Hu in Hcn. split_and!; try done. rewrite <-Hc, <-Hu. destruct u. cbn in *. by subst.
Qed.

(** Registration stores what was asked for, once.  The new user has the
    lower-cased, trimmed and non-empty username and email, is active and
    unlocked; neither name was in use in any case before; the stored
    credential verifies the given password of 12 to 1024 bytes; user,
    credential and [user.created] event appear in one atomic step. *)
Theorem register_effect s ctx username displayName email phone password w r w' :
  hasher_ok s ->
  Users.Register s ctx username displayName email phone password w = (Ok r, w') ->
  exists c d0 d1,
    User.Username r = ToLower (TrimSpace username) /\ User.Username r <> "" /\
    User.Email r = ToLower (TrimSpace email) /\ User.Email r <> "" /\
    User.DisplayName r = TrimSpace displayName /\ User.DisplayName r <> "" /\ User.Phone r = TrimSpace phone /\
    User.Status r = StatusActive /\ User.FailedLoginCount r = 0 /\ User.LockedUntil r = None /\
    12 <= go_len password <= 1024 /\
    users d0 !! User.ID r = None /\
    ~ clash (fun v => sql_lower (User.Username v)) r (users d0) /\
    ~ clash (fun v => sql_lower (User.Email v)) r (users d0) /\
    Credential.UserID c = User.ID r /\ Credential.Type_ c = "password" /\ Credential.Status c = StatusActive /\
    Verify (hasher s) password (Credential.SecretHash c) = Ok (true, false) /\
    one_step w w' d0 d1 /\
    with_event "platform.identity.user.created.v1"
      (set_credentials (<[Credential.ID c := c]> (credentials d0)) (set_users (<[User.ID r := r]> (users d0)) d0)) d1.
Proof using alaws elaws.
  intros Hh H. unfold Users.Register in H. inv_run H. subst r.
  apply Decidable.not_or in Hguard as [G1 [G2 G3]%Decidable.not_or].
  assert (w_log w4 = w_log w) as Hlog by log_chain. inv_tx R4 as wa wb Hstep Hsafe.
  apply hashed_verifies in R as [Hlen Hv]; [|done].
  apply CreateUser_Ok in R5 as (Hn & Hun & Hem & _ & Hset); [|done].
  apply newOutboxEvent_Ok in R3 as [Hsub _]. apply insert_event in R4. rewrite Hsub, Hset in R4.
  eexists _, (w_db wa), (w_db wb). split_and!; [..|exact R4]; try done; [lia|lia|by eapply one_step_shift].
Qed.
End registration.

Section lookups.
Context {libs : Libs}.

Lemma normalize_ids_Ok msg ids seen out :
  Users.normalize_ids msg ids seen = Ok out ->
  NoDup out /\ (forall x, x ∈ out <-> ~ x ∈ seen /\ x ∈ (TrimSpace <$> ids)) /\ Forall (fun id => TrimSpace id <> "") ids.
Proof using.
  revert seen out. induction ids as [|id ids IH]; intros seen out; simpl.
  - intros [= <-]. split; [constructor|]. split; [|constructor]. intros x. rewrite elem_of_nil. tauto.
  - case_decide as Hne; [done|]. case_decide as Hs.
    + intros (Hnd & Hel & Hf)%IH. split; [done|]. split; [|by constructor]. intros x. rewrite Hel, elem_of_cons.
      destruct (decide (x = TrimSpace id)) as [->|]; tauto.
    + destruct (Users.normalize_ids msg ids (TrimSpace id :: seen)) as [out'|] eqn:E; [|done].
      intros [= <-]. apply IH in E as (Hnd & Hel & Hf). split_and!; [| |by constructor].
      * constructor; [|done]. rewrite Hel, elem_of_cons. tauto.
      * intros x. rewrite !elem_of_cons, Hel, elem_of_cons. destruct (decide (x = TrimSpace id)) as [->|]; tauto.
Qed.

Lemma NoDup_sql_rows {A} (key : A -> string) (p : A -> Prop) `{Hp : !forall r, Decision (p r)} t :
  keyed_by key t -> NoDup (sql_rows p t).
Proof using.
  intros Hk. apply (NoDup_fmap_1 key). unfold sql_rows. rewrite <-list_fmap_compose.
  rewrite (list_fmap_ext (key ∘ snd) fst); [apply NoDup_fst_map_to_list|].
  intros i [k r] Hi. apply list_elem_of_lookup_2, elem_of_map_to_list, sql_where_lookup in Hi as [Hr _]. simpl. by apply Hk.
Qed.

Context {env : Env} {slaws : SQLServerLaws}.

(** The batch lookup of users is a set lookup: it accepts at most 100
    identifiers, none of them blank, and returns without repetition exactly
    the users whose id is one of the trimmed identifiers; unknown ids are
    skipped. *)
Theorem batch_get_users_exact ctx ids w us w' :
  schema_ok (w_db w') ->
  Users.BatchGetUsers ctx ids w = (Ok us, w') ->
  (length ids <= 100)%nat /\ Forall (fun id => TrimSpace id <> "") ids /\ NoDup us /\
  (forall u, u ∈ us <-> exists id, id ∈ ids /\ users (w_db w') !! TrimSpace id = Some u).
Proof using slaws.
  intros Hd H. unfold Users.BatchGetUsers in H. inv_run H.
  apply normalize_ids_Ok in E as (Hnd & Hel & Hf). split; [lia|]. split; [done|].
  unfold Repository.BatchGetUsers in H. case_decide as Hemp.
  - inv_run H. subst us. split; [constructor|]. intros u. split; [by intros ?%elem_of_nil|].
    intros (id & Hid & _). assert (TrimSpace id ∈ x0) as Hx; [|by rewrite Hemp in Hx; apply elem_of_nil in Hx].
    apply Hel. split; [by intros ?%elem_of_nil|]. by apply list_elem_of_fmap_2.
  - apply map_err_Ok, db_query_Ok in H as (_ & [= <-] & _).
    split; [rewrite arrange_perm; apply (NoDup_sql_rows User.ID), Hd|]. intros u. rewrite arrange_perm, elem_of_sql_rows.
    split.
    + intros (k & Hk & Hin). pose proof (users_key _ Hd _ _ Hk) as <-.
      apply Hel in Hin as [_ (id & Hid & Hin)%list_elem_of_fmap]. exists id. split; [done|]. by rewrite <-Hid.
    + intros (id & Hid & Hu). exists (TrimSpace id). split; [done|]. rewrite (users_key _ Hd _ _ Hu).
      apply Hel. split; [by intros ?%elem_of_nil|]. by apply list_elem_of_fmap_2.
Qed.
End lookups.

Section accounts.
Context {libs : Libs} {env : Env} {alaws : Argon2Laws} {elaws : EnvLaws}.

Lemma newServiceAccountSecret_Ok s w secret hash w' :
  hasher_ok s -> ServiceAccounts.newServiceAccountSecret s w = (Ok (secret, hash), w') ->
  Verify (hasher s) secret hash = Ok (true, false).
Proof using alaws elaws.
  unfold ServiceAccounts.newServiceAccountSecret. intros Hh H. inv_run H. simplify_eq.
  by apply hashed_verifies in R0 as [_ Hv].
Qed.

Lemma CreateServiceAccount_Ok a w x w' :
  Repository.CreateServiceAccount a w = (Ok x, w') ->
  service_accounts (w_db w) !! ServiceAccount.ID a = None /\
  ~ clash ServiceAccount.ClientID a (service_accounts (w_db w)) /\
  exists row, w_db w' = set_service_accounts (<[ServiceAccount.ID a := row]> (service_accounts (w_db w))) (w_db w) /\
    ServiceAccount.ID row = ServiceAccount.ID a /\ ServiceAccount.ClientID row = ServiceAccount.ClientID a /\
    ServiceAccount.SecretHash row = ServiceAccount.SecretHash a /\ ServiceAccount.Status row = ServiceAccount.Status a /\
    ServiceAccount.AudiencesJSON row = ServiceAccount.AudiencesJSON a.
Proof using.
  unfold Repository.CreateServiceAccount. intros [H _]%map_err_Ok%tx_exec_Ok.
  unfold Repository.insert_account in H. case_decide as Hc; [done|]. injection H as <-.
  apply Decidable.not_or in Hc as [Hn%eq_None_not_Some Hcl]. split; [done|]. split; [done|].
  eexists. split; [reflexivity|]. done.
Qed.

(** Creating a service account adds exactly one active account, whose
    client id nobody had and whose stored hash verifies the secret returned
    to the caller, together with its event, in one atomic step. *)
Theorem create_account_effect s ctx name auds w a secret w' :
  hasher_ok s ->
  ServiceAccounts.CreateServiceAccount s ctx name auds w = (Ok (a, secret), w') ->
  exists row d0 d1,
    TrimSpace name <> "" /\ auds <> [] /\
    service_accounts d0 !! ServiceAccount.ID a = None /\
    ~ clash ServiceAccount.ClientID a (service_accounts d0) /\
    ServiceAccount.ID row = ServiceAccount.ID a /\ ServiceAccount.ClientID row = ServiceAccount.ClientID a /\
    ServiceAccount.Status row = StatusActive /\ json_Marshal auds = Ok (ServiceAccount.AudiencesJSON row) /\
    Verify (hasher s) secret (ServiceAccount.SecretHash row) = Ok (true, false) /\
    one_step w w' d0 d1 /\
    with_event "platform.identity.service-account.status-changed.v1"
      (set_service_accounts (<[ServiceAccount.ID a := row]> (service_accounts d0)) d0) d1.
Proof using alaws elaws.
  intros Hh H. unfold ServiceAccounts.CreateServiceAccount in H. inv_run H. injection E1 as <- <-.
  apply Decidable.not_or in Hguard as [G1 G2].
  assert (w_log w4 = w_log w) as Hlog by log_chain. inv_tx R4 as wa wb Hstep Hsafe.
  apply newServiceAccountSecret_Ok in R0; [|done].
  apply CreateServiceAccount_Ok in R5 as (Hn & Hcl & row & Hset & Hid & Hc & Hs & Hst & Ha).
  apply newOutboxEvent_Ok in R3 as [Hsub _]. apply insert_event in R4. rewrite Hsub, Hset in R4.
  exists row, (w_db wa), (w_db wb). split_and!; [..|exact R4]; try done; [by rewrite Ha|by rewrite Hs|].
  by eapply one_step_shift.
Qed.

(** Rotating a secret is optimistic and replaces it: it succeeds only
    against the named version of an existing account, changes that row alone
    (to the next version, keeping status and client id), stores the event in
    the same atomic step, and the stored hash verifies the returned secret. *)
Theorem rotate_secret_effect s ctx id version w secret v w' :
  Rely safe_step -> schema_ok (w_db w) -> hasher_ok s ->
  ServiceAccounts.RotateServiceAccountSecret s ctx id version w = (Ok (secret, v), w') ->
  exists a a' d0 d1,
    service_accounts d0 !! TrimSpace id = Some a /\ Version (ServiceAccount.fields a) = version /\ 1 <= version /\
    account_evolves a a' /\ Version (ServiceAccount.fields a') = v /\
    ServiceAccount.Status a' = ServiceAccount.Status a /\ ServiceAccount.ClientID a' = ServiceAccount.ClientID a /\
    Verify (hasher s) secret (ServiceAccount.SecretHash a') = Ok (true, false) /\
    one_step w w' d0 d1 /\
    with_event "platform.identity.service-account.secret-rotated.v1"
      (set_service_accounts (<[TrimSpace id := a']> (service_accounts d0)) d0) d1.
Proof using alaws elaws.
  intros Hr Hd Hh H. unfold ServiceAccounts.RotateServiceAccountSecret in H. inv_run H. injection E0 as <- <-.
  apply Decidable.not_or in Hguard as [G1 G2].
  assert (safe_step (w_db w) (w_db w2)) as S0 by chain.
  assert (w_log w2 = w_log w) as Hlog by log_chain. inv_tx R2 as wa wb Hstep Hsafe.
  destruct (transitivity S0 (Hsafe Hr) Hd) as [_ Hda].
  apply newServiceAccountSecret_Ok in R; [|done].
  apply guarded_update_Ok in R3 as (t' & n & Hu & Hn & _ & Hset & _).
  apply (update_one ServiceAccount.ID) with (k := TrimSpace id) in Hu as (a & a' & Ha & [Hid Hv] & Hf & -> & _);
    [|apply Hda|cbn beta; tauto|done].
  apply bind_Some in Hf as (f & Hb & [= <-]). pose proof Hb as [Hfe Hlt]%bump_Some.
  apply newOutboxEvent_Ok in R1 as [Hsub _]. apply insert_event in R2. rewrite Hsub, Hset in R2.
  exists a. eexists _, (w_db wa), (w_db wb). split_and!; [..|exact R2]; try done; [lia| | |by eapply one_step_shift].
  - eapply evolves_bump; [exact Hb|done|done|by intros []].
  - cbn. rewrite Hfe. cbn. rewrite wrap64_id; [lia|]. unfold int64_min, int64_max in *. lia.
Qed.

(** A service account obtains a token only with its own secret while
    it is active; the token then names the account as its subject, of type
    [service_account], without session, tenant or membership, and is
    accepted by the service until it expires. *)
Theorem account_token_sound {jlaws : JWTLaws} s ctx clientID secret w raw exp w' :
  Rely safe_step -> schema_ok (w_db w) -> issuer_ok (tokens s) ->
  ServiceAccounts.ServiceAccountToken s ctx clientID secret w = (Ok (raw, exp), w') ->
  exists d a b c i,
    service_accounts d !! ServiceAccount.ID a = Some a /\
    ServiceAccount.ClientID a = clientID /\ ServiceAccount.Status a = StatusActive /\
    Verify (hasher s) secret (ServiceAccount.SecretHash a) = Ok (true, b) /\
    Subject c = ServiceAccount.ID a /\ SubjectType c = "service_account" /\
    SessionID c = "" /\ TenantID c = "" /\ MembershipID c = "" /\ exp = env_clock i + ttl (tokens s) /\
    forall now, ParseAt (tokens s) now raw = Ok c <->
      NewNumericDate (env_clock i) <= now < NewNumericDate exp.
Proof using.
  intros Hr Hd Hi H. unfold ServiceAccounts.ServiceAccountToken in H. inv_run H.
  assert (safe_step (w_db w) (w_db w0)) as S0 by chain. destruct (S0 Hd) as [_ Hd0].
  apply get_row_Ok in R as ((k & Hk) & Hc & _). pose proof (sa_key _ Hd0 _ _ Hk) as <-.
  apply issue_run in H as (_ & _ & -> & c & Hs & Hty & H1 & H2 & H3 & Hp); [|done].
  exists (w_db w0), x, b0, c, (w_clk w0). split_and!; try done. by destruct b.
Qed.
End accounts.


(** ** Witnesses *)
Section witnesses.
Import Concrete.
#[local] Instance env0 : Env := quiet noon 0.

Lemma concrete_hasher : hasher_ok service.
Proof. exists DefaultPasswordParameters. split; [unfold parameters_width; cbn; lia|reflexivity]. Qed.

Lemma register_witness : exists r w',
  Users.Register service admin " Carol " "Carol" "Carol@example.com" "" "a long password" (start db) = (Ok r, w') /\
  User.Status r = StatusActive.
Proof.
  by_running (Users.Register service admin " Carol " "Carol" "Carol@example.com" "" "a long password" (start db)) as a w E.
  destruct (register_effect service admin " Carol " "Carol" "Carol@example.com" "" "a long password" (start db) a w
              concrete_hasher E) as (c & d0 & d1 & H'); skip_conj 7 H'; destruct H' as (Hst & _).
  exists a, w. exact (conj E Hst).
Defined.

Lemma batch_get_users_witness : exists us w',
  Users.BatchGetUsers nobody ["u1"; " u1"; "u7"] (start db) = (Ok us, w') /\ NoDup us.
Proof.
  assert (w_db (Users.BatchGetUsers nobody ["u1"; " u1"; "u7"] (start db)).2 = db) as Hdb by (vm_compute; reflexivity).
  by_running (Users.BatchGetUsers nobody ["u1"; " u1"; "u7"] (start db)) as a w E. rewrite E in Hdb. simpl in Hdb.
  exists a, w. split; [exact E|].
  eapply (batch_get_users_exact nobody ["u1"; " u1"; "u7"] (start db) a w); [rewrite Hdb; exact db_ok|exact E].
Defined.

Lemma create_account_witness : exists a secret w' row d,
  ServiceAccounts.CreateServiceAccount service admin "reports" ["api"] (start db) = (Ok (a, secret), w') /\
  service_accounts d !! ServiceAccount.ID a = None /\ Verify (hasher service) secret (ServiceAccount.SecretHash row) = Ok (true, false).
Proof.
  by_running (ServiceAccounts.CreateServiceAccount service admin "reports" ["api"] (start db)) as r w E. destruct r as [a secret].
  destruct (create_account_effect service admin "reports" ["api"] (start db) a secret w concrete_hasher E)
    as (row & d0 & d1 & _ & _ & Hn & _ & _ & _ & _ & _ & Hv & _).
  exists a, secret, w, row, d0. exact (conj E (conj Hn Hv)).
Defined.

Lemma rotate_secret_witness : exists secret v w' a',
  ServiceAccounts.RotateServiceAccountSecret service admin "a1" 1 (start db) = (Ok (secret, v), w') /\
  Verify (hasher service) secret (ServiceAccount.SecretHash a') = Ok (true, false).
Proof.
  by_running (ServiceAccounts.RotateServiceAccountSecret service admin "a1" 1 (start db)) as r w E. destruct r as [secret v].
  destruct (rotate_secret_effect service admin "a1" 1 (start db) secret v w _ db_ok concrete_hasher E)
    as (a & a' & d0 & d1 & H'); skip_conj 7 H'; destruct H' as (Hv & _).
  exists secret, v, w, a'. exact (conj E Hv).
Defined.

Lemma account_token_witness : exists raw exp w' c,
  ServiceAccounts.ServiceAccountToken service nobody "svc_1" "service secret value" (start db) = (Ok (raw, exp), w') /\
  SubjectType c = "service_account".
Proof.
  by_running (ServiceAccounts.ServiceAccountToken service nobody "svc_1" "service secret value" (start db)) as r w E.
  destruct r as [raw exp].
  destruct (account_token_sound service nobody "svc_1" "service secret value" (start db) raw exp w _ db_ok concrete_issuer_ok E)
    as (d & a & b & c & i & _ & _ & _ & _ & _ & Hty & _).
  exists raw, exp, w, c. exact (conj E Hty).
Defined.
End witnesses.
