(* ===== verification/MFASpec.v ===== *)
(** * Multi-factor authentication: theorems *)

From S2P Require Import Prelude.
From S2P Require Import GoStrings.
From S2P Require Import Encoding.
From S2P Require Import Digest.
From S2P Require Import AppError.
From S2P Require Import Platform.
From S2P Require Import Table.
From S2P Require Import Model.
From S2P Require Import Runtime.
From S2P Require Import Repository.
From S2P Require Import MFARepository.
From S2P Require Import Evolution.
From S2P Require Import Guarantee.
From S2P Require Import Inversion.
From S2P Require Import Password.
From S2P Require Import Token.
From S2P Require Import MFACrypto.
From S2P Require Import ServiceBase.
From S2P Require Import Concrete.
From S2P Require Import CryptoSpec.
From S2P Require Import Sessions.
From S2P Require Import Users.
From S2P Require Import MFAService.
From S2P Require Import SessionsSpec.
From S2P Require Import UsersSpec.
Open Scope Z_scope.

(** An update whose condition selects at most one row, and selects one. *)
Lemma update_unique {A} (p : A -> Prop) `{Hp : !forall r, Decision (p r)} f t t' n :
  sql_update p f t = Some (t', n) -> n <> 0 ->
  (forall k1 k2 r1 r2, t !! k1 = Some r1 -> t !! k2 = Some r2 -> p r1 -> p r2 -> k1 = k2) ->
  exists k r r', t !! k = Some r /\ p r /\ f r = Some r' /\ t' = <[k := r']> t.
Proof.
  intros Hu Hn Hun. pose proof (sql_update_count _ _ _ _ _ Hu) as Hc.
  assert (0 < sql_count p t) as (k & r & Hr & Hpr)%sql_count_pos by (unfold sql_count in *; lia).
  destruct (sql_update_hit _ _ _ _ _ _ _ Hu Hr Hpr) as (r' & Hf & Hr'). exists k, r, r'. split_and!; try done.
  apply map_eq. intros k2. destruct (decide (k2 = k)) as [->|Hne]; [by rewrite lookup_insert_eq|].
  rewrite lookup_insert_ne by done. destruct (t !! k2) as [r2|] eqn:E.
  - eapply sql_update_miss; [done..|]. intros Hp2. apply Hne. by eapply Hun.
  - by apply (sql_update_None_key _ _ _ _ _ k2 Hu).
Qed.

Section mfa_calls.
Context {libs : Libs} {env : Env}.

(** An update of one enrolment that requires a row. *)
Lemma mfa_update_Ok (p : MFAEnrollment.t -> Prop) `{Hp : !forall m, Decision (p m)} f g uid w u w' :
  (n ← map_err g (tx_exec (MFARepository.update_mfa p f)); requireAffected n) w = (Ok u, w') ->
  schema_ok (w_db w) -> (forall m, p m -> MFAEnrollment.UserID m = uid) ->
  exists m m', user_mfa (w_db w) !! uid = Some m /\ p m /\ f m = Some m' /\
    w_db w' = set_user_mfa (<[uid := m']> (user_mfa (w_db w))) (w_db w).
Proof using.
  intros (t' & n & Hu & Hn & _ & Hd & _)%guarded_update_Ok Hs Hid.
  apply (update_one MFAEnrollment.UserID) with (k := uid) in Hu as (m & m' & Hm & Hpm & Hf & -> & _); [|apply Hs|done|done].
  eauto 10.
Qed.

Lemma mfa_set_Some secret status step at_ now actor m m' :
  MFARepository.mfa_set secret status step at_ now actor m = Some m' ->
  mfa_evolves m m' /\ MFAEnrollment.Status m' = status /\ MFAEnrollment.LastUsedStep m' = step /\
  MFAEnrollment.EnabledAt m' = at_ /\ MFAEnrollment.SecretCiphertext m' = default (MFAEnrollment.SecretCiphertext m) secret /\
  Version (MFAEnrollment.fields m) < int64_max /\
  MFAEnrollment.fields m' = mkFields (Version (MFAEnrollment.fields m) + 1) (CreatedAt (MFAEnrollment.fields m)) now
                              (CreatedBy (MFAEnrollment.fields m)) actor.
Proof using.
  intros (f & Hb & [= <-])%bind_Some. pose proof Hb as [Hf Hv]%bump_Some. split_and!; try done.
  eapply evolves_bump; [exact Hb|done|done|by intros []].
Qed.

Lemma ConsumeMFAChallenge_Ok h actor v now w u w' :
  MFARepository.ConsumeMFAChallenge h actor v now w = (Ok u, w') -> schema_ok (w_db w) ->
  exists c c', mfa_login_challenges (w_db w) !! h = Some c /\ MFALoginChallenge.ConsumedAt c = None /\
    now < MFALoginChallenge.ExpiresAt c /\ Version (MFALoginChallenge.fields c) = v /\
    challenge_evolves c c' /\ MFALoginChallenge.ConsumedAt c' = Some now /\
    w_db w' = set_mfa_challenges (<[h := c']> (mfa_login_challenges (w_db w))) (w_db w).
Proof using.
  intros (t' & n & Hu & Hn & _ & Hd & _)%guarded_update_Ok Hs.
  apply (update_one MFALoginChallenge.TokenHash) with (k := h) in Hu
    as (c & c' & Hc & (Hh & Hc0 & He & Hv) & Hf & -> & _); [|apply Hs|by intros ? []|done].
  apply bind_Some in Hf as (f & Hb & [= <-]). eexists _, _. split_and!; [exact Hc|done..| | |exact Hd].
  - eapply evolves_bump; [exact Hb|done|done|]. intros Hz. by apply Hz.
  - done.
Qed.

Lemma ConsumeRecoveryCode_Ok uid h actor now w u w' :
  MFARepository.ConsumeRecoveryCode uid h actor now w = (Ok u, w') -> schema_ok (w_db w) ->
  exists k c c', mfa_recovery_codes (w_db w) !! k = Some c /\ MFARecoveryCode.UserID c = uid /\
    MFARecoveryCode.CodeHash c = h /\ MFARecoveryCode.ConsumedAt c = None /\
    MFARecoveryCode.ConsumedAt c' = Some now /\ MFARecoveryCode.CodeHash c' = h /\ MFARecoveryCode.UserID c' = uid /\
    w_db w' = set_recovery (<[k := c']> (mfa_recovery_codes (w_db w))) (w_db w).
Proof using.
  intros (t' & n & Hu & Hn & _ & Hd & _)%guarded_update_Ok Hs.
  apply update_unique in Hu as (k & c & c' & Hc & (Hu & Hh & Hc0) & Hf & ->); [|done|].
  - apply bind_Some in Hf as (f & _ & [= <-]). eexists k, c, _. split_and!; [done..| | | |exact Hd]; done.
  - intros k1 k2 r1 r2 H1 H2 (? & ? & _) (? & ? & _). eapply (rc_hash _ Hs); [done|done|]. cbn. congruence.
Qed.

Lemma AdvanceMFAStep_Ok uid step actor now w u w' :
  MFARepository.AdvanceMFAStep uid step actor now w = (Ok u, w') -> schema_ok (w_db w) ->
  exists e e', user_mfa (w_db w) !! uid = Some e /\ MFAEnrollment.Status e = MFAStatusEnabled /\
    MFAEnrollment.LastUsedStep e < step /\ mfa_evolves e e' /\ MFAEnrollment.LastUsedStep e' = step /\
    MFAEnrollment.Status e' = MFAStatusEnabled /\
    w_db w' = set_user_mfa (<[uid := e']> (user_mfa (w_db w))) (w_db w).
Proof using.
  intros H Hs. apply mfa_update_Ok with (uid := uid) in H as (e & e' & He & (_ & Hst & Hl) & Hf & Hd); [|done|by intros ? []].
  apply mfa_set_Some in Hf as (Hev & Hst' & Hl' & _). exists e, e'. split_and!; try done. congruence.
Qed.

Lemma recovery_hash_nonempty m code : RecoveryCodeHash m code <> "".
Proof using.
  unfold RecoveryCodeHash. intros H. set (x := hmac _ _ _) in H.
  pose proof (decode_encode_string RawURLEncoding x RawURLEncoding_ok eq_refl) as Hd. rewrite H in Hd.
  change (Some [] = Some x) in Hd. injection Hd as Hd. pose proof (length_hmac_sha256 (recoveryPepper m)
    (bytes_of (ToUpper (remove_byte (chr 45) (TrimSpace code))))) as Hl. fold x in Hl. by rewrite <-Hd in Hl.
Qed.

(** What a verification of the second factor did to the database: it
    advanced the accepted step of the enrolment, or consumed one recovery
    code.  [c] is the ciphertext of the enrolment that was read. *)
Definition second_factor (m : MFACrypto) (uid code rcode c : string) (now : Z) (d d' : DB) : Prop :=
  (code <> "" /\ exists secret step e e',
     DecryptSecret m uid c = Ok secret /\ ValidateTOTP secret code now = Some step /\
     user_mfa d !! uid = Some e /\ MFAEnrollment.Status e = MFAStatusEnabled /\
     MFAEnrollment.LastUsedStep e < step /\ MFAEnrollment.LastUsedStep e' = step /\ mfa_evolves e e' /\
     d' = set_user_mfa (<[uid := e']> (user_mfa d)) d) \/
  (code = "" /\ exists k x x',
     mfa_recovery_codes d !! k = Some x /\ MFARecoveryCode.UserID x = uid /\
     MFARecoveryCode.CodeHash x = RecoveryCodeHash m rcode /\ MFARecoveryCode.ConsumedAt x = None /\
     MFARecoveryCode.ConsumedAt x' = Some now /\ MFARecoveryCode.CodeHash x' = MFARecoveryCode.CodeHash x /\
     d' = set_recovery (<[k := x']> (mfa_recovery_codes d)) d).

(** The check before the transaction. *)
Lemma factor_check_Ok m uid (e : MFAEnrollment.t) code rcode now w step rh w1 :
  (if decide (code <> "") then
     secret ← map_err Internal (lift (DecryptSecret m uid (MFAEnrollment.SecretCiphertext e)));
     match ValidateTOTP secret code now with
     | None => throw (Unauthorized "invalid or already used mfa code")
     | Some step =>
         reject (step <= MFAEnrollment.LastUsedStep e) (Unauthorized "invalid or already used mfa code");;
         mret (step, "")
     end
   else mret (0, RecoveryCodeHash m rcode)) w = (Ok (step, rh), w1) ->
  w1 = w /\ ((code <> "" /\ rh = "" /\ exists secret, DecryptSecret m uid (MFAEnrollment.SecretCiphertext e) = Ok secret /\
                ValidateTOTP secret code now = Some step) \/
             (code = "" /\ rh = RecoveryCodeHash m rcode)).
Proof using.
  case_decide as Hc; intros H.
  - inv_run H. simplify_eq. split; [done|]. left. eauto 10.
  - inv_run H. simplify_eq. split; [done|]. by right.
Qed.

(** The part of the transaction that uses it up. *)
Lemma factor_consume_Ok m uid c code rcode now step rh w u w' :
  (if decide (rh <> "") then MFARepository.ConsumeRecoveryCode uid rh "identity:mfa" now
   else MFARepository.AdvanceMFAStep uid step "identity:mfa" now) w = (Ok u, w') ->
  schema_ok (w_db w) ->
  (code <> "" /\ rh = "" /\ exists secret, DecryptSecret m uid c = Ok secret /\ ValidateTOTP secret code now = Some step) \/
  (code = "" /\ rh = RecoveryCodeHash m rcode) ->
  second_factor m uid code rcode c now (w_db w) (w_db w').
Proof using.
  intros H Hs [(Hc & -> & secret & Hd & Hv)|[Hc ->]].
  - rewrite decide_False in H by (intros Hz; by apply Hz).
    apply AdvanceMFAStep_Ok in H as (e & e' & ?); [|done]. destr_all. left. split; [done|]. exists secret, step, e, e'. done.
  - rewrite decide_True in H by apply recovery_hash_nonempty.
    apply ConsumeRecoveryCode_Ok in H as (k & x & x' & ?); [|done]. destr_all. right. split; [done|]. exists k, x, x'.
    split_and!; try done. congruence.
Qed.
End mfa_calls.

Section mfa_spec.
Context {libs : Libs} {env : Env}.

Lemma verify_run s ctx token code rcode w t w' :
  Rely safe_step -> schema_ok (w_db w) ->
  MFA.VerifyMFAChallenge s ctx token code rcode w = (Ok t, w') ->
  let now := env_clock (w_clk w) in let h := hash_token (TrimSpace token) in
  let dch := seen w 0 (w_db w) in let du := seen w 1 dch in let de := seen w 2 du in let d0 := seen w 3 de in
  exists m ch ch' x e u d2,
    schema_ok d0 /\ mfa s = Some m /\ (TrimSpace code = "" <-> TrimSpace rcode <> "") /\
    mfa_login_challenges dch !! h = Some ch /\ mfa_login_challenges d0 !! h = Some ch /\
    MFALoginChallenge.ConsumedAt ch = None /\ now < MFALoginChallenge.ExpiresAt ch /\
    challenge_evolves ch ch' /\ MFALoginChallenge.ConsumedAt ch' = Some now /\
    users du !! MFALoginChallenge.UserID ch = Some u /\ User.Status u = StatusActive /\
    user_mfa de !! MFALoginChallenge.UserID ch = Some e /\ MFAEnrollment.Status e = MFAStatusEnabled /\
    second_factor m (MFALoginChallenge.UserID ch) (TrimSpace code) (TrimSpace rcode) (MFAEnrollment.SecretCiphertext e) now
      (set_mfa_challenges (<[h := ch']> (mfa_login_challenges d0)) d0) d2 /\
    new_session (MFALoginChallenge.UserID ch) "" "" x t /\ sessions d2 !! Session.ID x = None /\
    one_step w w' d0 (set_sessions (<[Session.ID x := x]> (sessions d2)) d2).
Proof using.
  intros Hr Hd H. unfold MFA.VerifyMFAChallenge, MFA.require_mfa in H.
  destruct (mfa s) as [m|]; [|by inv_run H].
  apply bind_Ok in H as (m' & w0 & [<- ->]%ret_Ok & H).
  apply bind_Ok in H as (? & w1 & [G1 ->]%reject_Ok & H). apply Decidable.not_or in G1 as [_ G1].
  apply bind_Ok in H as (ch & w1 & Rc%map_err_Ok & H). apply bind_Ok in H as (now & w2 & Rn & H).
  apply bind_Ok in H as (? & w3 & [G2 ->]%reject_Ok & H).
  apply bind_Ok in H as (u & w4 & Ru%map_err_Ok & H). apply bind_Ok in H as (? & w5 & [G3 ->]%reject_Ok & H).
  apply bind_Ok in H as (e & w6 & Re%map_err_Ok & H). apply bind_Ok in H as (? & w7 & [G4 ->]%reject_Ok & H).
  apply bind_Ok in H as ([step rh] & w7 & [-> Hfac]%factor_check_Ok & H).
  apply bind_Ok in H as ([sn toks] & w8 & Rp & H). apply bind_Ok in H as (? & w9 & Rt%map_err_Ok & [<- ->]%ret_Ok).
  apply dec_stable in G3, G4.
  assert (safe_step (w_db w) (w_db w1)) as S1 by chain. assert (safe_step (w_db w1) (w_db w4)) as S4 by chain.
  assert (safe_step (w_db w4) (w_db w6)) as S6 by chain. assert (safe_step (w_db w6) (w_db w8)) as S8 by chain.
  assert (w_log w8 = w_log w) as Hlog by log_chain.
  destruct (S1 Hd) as [_ Hd1]. destruct (S4 Hd1) as [_ Hd4]. destruct (S6 Hd4) as [_ Hd6].
  pose proof (get_row_at _ _ _ _ _ _ Rc) as (Hw1 & Hs1 & Hk1). apply now_at in Rn as (Hw2 & Hs2 & ->).
  pose proof (get_row_at _ _ _ _ _ _ Ru) as (Hw4 & Hs4 & _). pose proof (get_row_at _ _ _ _ _ _ Re) as (Hw6 & Hs6 & _).
  pose proof (Offline_run _ _ _ _ (prepareSession_offline _ _ _ _ _ _) Rp) as [Hw8 Hs8].
  apply prepareSession_Ok in Rp as (Hx & Hxr & Hxu & Hxd).
  apply Within_at in Rt as (wa & wb & Rt & Hstep & Hwa); [|solve [solve_readonly]].
  assert (safe_step (w_db w8) (w_db wa)) as Hsafe by (rewrite Hwa; apply Hr).
  destruct (transitivity S4 (transitivity S6 (transitivity S8 Hsafe)) Hd1) as [Ev Hda].
  apply bind_Ok in Rt as (? & wc & Rcons & Rt). apply bind_Ok in Rt as (? & we & Rfac & Rsess).
  assert (safe_step (w_db wa) (w_db wc)) as Sc by chain. destruct (Sc Hda) as [_ Hdc].
  apply (get_row_key mfa_login_challenges MFALoginChallenge.TokenHash) with (k := hash_token (TrimSpace token)) in Rc
    as [Hch _]; [|apply Hd1|done].
  apply (get_row_key users User.ID) with (k := MFALoginChallenge.UserID ch) in Ru as [Hu _]; [|apply Hd4|done].
  apply (get_row_key user_mfa MFAEnrollment.UserID) with (k := MFALoginChallenge.UserID ch) in Re as [He _]; [|apply Hd6|done].
  apply ConsumeMFAChallenge_Ok in Rcons as (c & c' & Hc & Hc0 & Hexp & Hv & Hev & Hc1 & Hset); [|done].
  destruct (ev_challenges _ _ Ev _ _ Hch) as (c2 & Hc2 & He2). unfold Users.hashMFAChallengeToken in Hc.
  rewrite Hc in Hc2. injection Hc2 as <-. assert (c = ch) as -> by (by apply (evolves_version _ _ _ ch c He2)).
  apply (factor_consume_Ok m _ (MFAEnrollment.SecretCiphertext e) (TrimSpace code) (TrimSpace rcode)) in Rfac; [|done|done].
  apply insert_session_Ok in Rsess as (Hn & _ & Hset2); try done; [|apply Hx]. rewrite Hset2 in Hstep. rewrite Hset in Rfac.
  rewrite Hk1 in *. rewrite Hs2, Hw2 in Hw4. rewrite Hs1 in Hw4. rewrite Hs4, Hs2, Hs1 in Hw6.
  rewrite Hs8, Hs6, Hs4, Hs2, Hs1, Hw8 in Hwa. unfold seen. simpl. rewrite <-Hw1, <-Hw4, <-Hw6, <-Hwa.
  exists m, ch, c', sn, e, u, (w_db we). split_and!; try done; [|by eapply one_step_shift].
  destruct (decide (TrimSpace code = "")), (decide (TrimSpace rcode = "")); tauto.
Qed.

(** C9: Completing a login with a second factor.  The databases are those
    of the run: its statements read the challenge ([dch]), the user ([du]) and
    the enrolment ([de]), then the transaction begins ([d0]).  It succeeds only
    for a challenge that is stored, unconsumed and unexpired at the clock
    reading of the request and still so when the transaction begins, whose user
    is active and has MFA enabled, with exactly one kind of code.  One atomic
    step marks the challenge consumed, uses the factor up (the TOTP step that
    the code has under the stored secret becomes the last used one, which it
    exceeds, or the one matching unconsumed recovery code is consumed) and
    creates the new session of the challenge's user. *)
Theorem verify_challenge_effect s ctx token code rcode w t w' :
  Rely safe_step -> schema_ok (w_db w) ->
  MFA.VerifyMFAChallenge s ctx token code rcode w = (Ok t, w') ->
  let now := env_clock (w_clk w) in let h := hash_token (TrimSpace token) in
  let dch := seen w 0 (w_db w) in let du := seen w 1 dch in let de := seen w 2 du in let d0 := seen w 3 de in
  exists m ch ch' x e u d2,
    mfa s = Some m /\ (TrimSpace code = "" <-> TrimSpace rcode <> "") /\
    mfa_login_challenges dch !! h = Some ch /\ mfa_login_challenges d0 !! h = Some ch /\
    MFALoginChallenge.ConsumedAt ch = None /\ now < MFALoginChallenge.ExpiresAt ch /\
    challenge_evolves ch ch' /\ MFALoginChallenge.ConsumedAt ch' = Some now /\
    users du !! MFALoginChallenge.UserID ch = Some u /\ User.Status u = StatusActive /\
    user_mfa de !! MFALoginChallenge.UserID ch = Some e /\ MFAEnrollment.Status e = MFAStatusEnabled /\
    second_factor m (MFALoginChallenge.UserID ch) (TrimSpace code) (TrimSpace rcode) (MFAEnrollment.SecretCiphertext e) now
      (set_mfa_challenges (<[h := ch']> (mfa_login_challenges d0)) d0) d2 /\
    new_session (MFALoginChallenge.UserID ch) "" "" x t /\ sessions d2 !! Session.ID x = None /\
    one_step w w' d0 (set_sessions (<[Session.ID x := x]> (sessions d2)) d2).
Proof using.
  intros Hr Hd H. destruct (verify_run _ _ _ _ _ _ _ _ Hr Hd H) as (m & ch & ch' & x & e & u & d2 & _ & HV).
  exists m, ch, ch', x, e, u, d2. exact HV.
Qed.

(** A consumed challenge opens nothing. *)
Lemma consumed_refused s ctx token code rcode w c :
  Rely safe_step -> schema_ok (w_db w) ->
  mfa_login_challenges (w_db w) !! hash_token (TrimSpace token) = Some c -> MFALoginChallenge.ConsumedAt c <> None ->
  exists e w', MFA.VerifyMFAChallenge s ctx token code rcode w = (Err e, w') /\ w_log w' = w_log w.
Proof using.
  intros Hr Hd Hc Hcons. unfold MFA.VerifyMFAChallenge, MFA.require_mfa.
  destruct (mfa s) as [m|]; [|by eexists _, _].
  erewrite run_bind by reflexivity. cbv zeta.
  destruct (decide (TrimSpace token = "" \/ (TrimSpace code = "" <-> TrimSpace rcode = ""))) as [Hb|Hb];
    [erewrite run_bind_err by (by apply run_reject_err); by eexists _, _|erewrite run_bind by (by apply run_reject)].
  destruct (MFARepository.GetMFAChallenge (Users.hashMFAChallengeToken (TrimSpace token)) w) as [r w1] eqn:R.
  assert (safe_step (w_db w) (w_db w1)) as S1 by chain. destruct (S1 Hd) as [Ev Hd1].
  assert (w_log w1 = w_log w) as Hlog by log_chain.
  destruct r as [ch|e].
  2:{ erewrite run_bind_err by (unfold map_err; by rewrite R). by eexists _, _. }
  apply (get_row_key mfa_login_challenges MFALoginChallenge.TokenHash) with (k := hash_token (TrimSpace token)) in R as R'
    ; [|apply Hd1|done]. destruct R' as [Hch _].
  destruct (ev_challenges _ _ Ev _ _ Hc) as (c2 & Hc2 & He2). rewrite Hch in Hc2. injection Hc2 as <-.
  assert (ch = c) as -> by (by apply (evolves_frozen _ _ _ _ _ He2)).
  erewrite run_bind by (by apply run_map_err). erewrite run_bind by reflexivity.
  erewrite run_bind_err by (apply run_reject_err; by left). by eexists _, _.
Qed.

(** C12: A login challenge is single-use.  Once it has been completed, no
    code completes it again: every later attempt with its token fails and
    writes nothing, whatever other requests do in between. *)
Theorem challenge_single_use s ctx token code rcode w t w' :
  Rely safe_step -> schema_ok (w_db w) ->
  MFA.VerifyMFAChallenge s ctx token code rcode w = (Ok t, w') ->
  forall ctx' code' rcode' w1, db_evolves (w_db w') (w_db w1) -> schema_ok (w_db w1) ->
  exists e w2, MFA.VerifyMFAChallenge s ctx' token code' rcode' w1 = (Err e, w2) /\ w_log w2 = w_log w1.
Proof using.
  intros Hr Hd H ctx' code' rcode' w1 Ev Hd1.
  destruct (verify_run _ _ _ _ _ _ _ _ Hr Hd H)
    as (m & ch & ch' & x & e & u & d2 & H'); skip_conj 8 H'; destruct H' as (Hc & _ & _ & _ & _ & Hf & _ & _ & [_ Hw]).
  assert (mfa_login_challenges (w_db w') !! hash_token (TrimSpace token) = Some ch') as Hch.
  { rewrite Hw. simpl. destruct Hf as [(_ & sec & st & e1 & e2 & ?)|(_ & k & y & y' & ?)]; destr_all; subst d2; simpl;
      apply lookup_insert_eq. }
  destruct (ev_challenges _ _ Ev _ _ Hch) as (c2 & Hc2 & He2).
  assert (c2 = ch') as -> by (apply (evolves_frozen _ _ _ _ _ He2); by rewrite Hc).
  eapply consumed_refused; [done|done|exact Hc2|by rewrite Hc].
Qed.
End mfa_spec.

(** ** Witnesses *)
Section witnesses.
Import Concrete.
#[local] Instance env0 : Env := quiet noon 0.

(** The code of Bob's device at noon. *)
Definition bob_code : string := hotp (bytes_of "12345678901234567890") (Z.quot (Unix noon) 30) totpDigits.

Lemma verify_challenge_witness : exists t w' ch,
  MFA.VerifyMFAChallenge service nobody "challenge" bob_code "" (start db) = (Ok t, w') /\
  MFALoginChallenge.ConsumedAt ch = None.
Proof.
  by_running (MFA.VerifyMFAChallenge service nobody "challenge" bob_code "" (start db)) as a w E.
  destruct (verify_challenge_effect service nobody "challenge" bob_code "" (start db) a w _ db_ok E)
    as (m & ch & ch' & x & e & u & d2 & _ & _ & _ & _ & Hc & _).
  exists a, w, ch. exact (conj E Hc).
Defined.

Lemma challenge_single_use_witness : exists t w' e w2,
  MFA.VerifyMFAChallenge service nobody "challenge" "" "AAAA-BBBB-CCCC-DDDD" (start db) = (Ok t, w') /\
  MFA.VerifyMFAChallenge service nobody "challenge" bob_code "" w' = (Err e, w2).
Proof.
  assert (schema_check (w_db (MFA.VerifyMFAChallenge service nobody "challenge" "" "AAAA-BBBB-CCCC-DDDD" (start db)).2) = true) as Hs
    by (vm_compute; reflexivity).
  by_running (MFA.VerifyMFAChallenge service nobody "challenge" "" "AAAA-BBBB-CCCC-DDDD" (start db)) as a w E.
  rewrite E in Hs. apply schema_check_sound in Hs.
  destruct (challenge_single_use service nobody "challenge" "" "AAAA-BBBB-CCCC-DDDD" (start db) a w _ db_ok E
              nobody bob_code "" w (PreOrder_Reflexive _) Hs) as (e & w2 & H2 & _).
  exists a, w, e, w2. exact (conj E H2).
Defined.
End witnesses.
