(* ===== verification/EnrolmentSpec.v ===== *)
(** * The life of an MFA enrolment: theorems

    Start of setup, confirmation, disabling, rotation of the recovery codes
    and administrative reset. *)

From S2P Require Import Prelude.
From S2P Require Import GoStrings.
From S2P Require Import Encoding.
From S2P Require Import Digest.
From S2P Require Import AppError.
From S2P Require Import Platform.
From S2P Require Import Table.
From S2P Require Import Model.
From S2P Require Import Runtime.
From S2P Require Import Repository.
From S2P Require Import MFARepository.
From S2P Require Import Evolution.
From S2P Require Import Guarantee.
From S2P Require Import Inversion.
From S2P Require Import Password.
From S2P Require Import Token.
From S2P Require Import MFACrypto.
From S2P Require Import ServiceBase.
From S2P Require Import Concrete.
From S2P Require Import CryptoSpec.
From S2P Require Import Sessions.
From S2P Require Import Users.
From S2P Require Import MFAService.
From S2P Require Import SessionsSpec.
From S2P Require Import UsersSpec.
From S2P Require Import MFASpec.
Open Scope Z_scope.

Lemma recovery_codes_tx `{!UnicodeCase, !Env, !SQLServer} m n : TxSteps safe_step (recovery_codes m n).
Proof. induction n as [|n IH]; cbn [recovery_codes]; solve_txsteps. Qed.
Lemma recovery_rows_tx `{!Env, !SQLServer} u f l : TxSteps safe_step (MFA.recovery_rows u f l).
Proof. induction l as [|h l IH]; cbn [MFA.recovery_rows]; solve_txsteps. Qed.
#[export] Hint Resolve recovery_codes_tx recovery_rows_tx : txsteps.

Section recovery.
Context {libs : Libs} {env : Env}.

Lemma recovery_codes_Ok m n w codes hashes w' :
  recovery_codes m n w = (Ok (codes, hashes), w') -> hashes = RecoveryCodeHash m <$> codes /\ length codes = n.
Proof using.
  revert w codes hashes w'. induction n as [|n IH]; cbn [recovery_codes]; intros w codes hashes w' H; inv_run H; simplify_eq; [done|].
  apply IH in R0 as [-> <-]. done.
Qed.

Definition fresh_code (uid : string) (c : MFARecoveryCode.t) : Prop :=
  MFARecoveryCode.UserID c = uid /\ MFARecoveryCode.ConsumedAt c = None.

Lemma recovery_rows_Ok uid f hashes w rows w' :
  MFA.recovery_rows uid f hashes w = (Ok rows, w') ->
  Forall (fresh_code uid) rows /\ MFARecoveryCode.CodeHash <$> rows = hashes.
Proof using.
  revert w rows w'. induction hashes as [|h hs IH]; cbn [MFA.recovery_rows]; intros w rows w' H; inv_run H; subst rows; [done|].
  apply IH in R0 as [HF <-]. split; [by constructor|done].
Qed.

(** The rows of [t'] are those of [t] and [rows]. *)
Definition adds_codes (rows : list MFARecoveryCode.t) (t t' : gmap string MFARecoveryCode.t) : Prop :=
  forall k c, t' !! k = Some c <-> t !! k = Some c \/ (c ∈ rows /\ MFARecoveryCode.ID c = k).

Lemma insert_code_Ok c w u w' :
  tx_exec (MFARepository.insert_code c) w = (Ok u, w') -> MFARecoveryCode.ConsumedAt c = None ->
  mfa_recovery_codes (w_db w) !! MFARecoveryCode.ID c = None /\
  w_db w' = set_recovery (<[MFARecoveryCode.ID c := c]> (mfa_recovery_codes (w_db w))) (w_db w).
Proof using.
  intros [H _]%tx_exec_Ok Hc. unfold MFARepository.insert_code in H.
  case_decide as Hn; [done|]. case_decide; [|done]. injection H as <-.
  apply Decidable.not_or in Hn as [Hn%eq_None_not_Some _]. split; [done|]. destruct c. cbn in *. by subst.
Qed.

Lemma insert_codes_Ok uid rows w u w' :
  MFARepository.insert_codes rows w = (Ok u, w') -> Forall (fresh_code uid) rows ->
  exists t', w_db w' = set_recovery t' (w_db w) /\ adds_codes rows (mfa_recovery_codes (w_db w)) t'.
Proof using.
  revert w. induction rows as [|c rows IH]; cbn [MFARepository.insert_codes]; intros w H HF; inv_run H.
  - exists (mfa_recovery_codes (w_db w)). split; [by destruct (w_db w)|]. intros k x. rewrite elem_of_nil. tauto.
  - inversion HF as [|? ? [_ Hc] HF']; subst.
    apply insert_code_Ok in R as [Hn Hd]; [|done]. apply IH in H as (t' & Hd' & Ht); [|done].
    exists t'. rewrite Hd', Hd. split; [done|]. rewrite Hd in Ht. intros k y. rewrite (Ht k y). simpl. rewrite lookup_insert_Some, elem_of_cons.
    split; [intros [[[? ->]|[? ?]]|[? ?]]; auto|intros [Hy|[[->|Hy] Hk]]]; [|auto|auto].
    left. right. split; [|done]. intros <-. congruence.
Qed.

(** The recovery codes of [uid] are replaced by fresh ones for [codes]. *)
Definition replaces_codes (m : MFACrypto) (uid : string) (codes : list string) (t t' : gmap string MFARecoveryCode.t) : Prop :=
  exists rows, Forall (fresh_code uid) rows /\ MFARecoveryCode.CodeHash <$> rows = RecoveryCodeHash m <$> codes /\
    forall k c, t' !! k = Some c <->
      (t !! k = Some c /\ MFARecoveryCode.UserID c <> uid) \/ (c ∈ rows /\ MFARecoveryCode.ID c = k).

Lemma delete_codes_Ok uid w n w' g :
  map_err g (tx_exec (MFARepository.delete_codes uid)) w = (Ok n, w') ->
  exists t', w_db w' = set_recovery t' (w_db w) /\
    forall k c, t' !! k = Some c <-> mfa_recovery_codes (w_db w) !! k = Some c /\ MFARecoveryCode.UserID c <> uid.
Proof using.
  intros [H _]%map_err_Ok%tx_exec_Ok. unfold MFARepository.delete_codes, delete_table in H. simpl in H. injection H as <- _.
  eexists. split; [reflexivity|]. intros k c. by rewrite map_lookup_filter_Some.
Qed.

Lemma ReplaceRecoveryCodes_Ok m uid codes rows w u w' :
  MFARepository.ReplaceRecoveryCodes rows w = (Ok u, w') -> Forall (fresh_code uid) rows ->
  MFARecoveryCode.CodeHash <$> rows = RecoveryCodeHash m <$> codes ->
  exists t', w_db w' = set_recovery t' (w_db w) /\ replaces_codes m uid codes (mfa_recovery_codes (w_db w)) t'.
Proof using.
  unfold MFARepository.ReplaceRecoveryCodes. destruct rows as [|c0 rest]; [intros H; by inv_run H|].
  intros H HF Hh. set (rows := c0 :: rest) in *. assert (MFARecoveryCode.UserID c0 = uid) as Hu0.
  { by inversion HF as [|? ? [? _] _]. }
  apply bind_Ok in H as (n & w1 & R & H). rewrite Hu0 in R. apply delete_codes_Ok in R as (t1 & Hd1 & Ht1).
  apply insert_codes_Ok with (uid := uid) in H as (t2 & Hd2 & Ht2); [|done].
  exists t2. rewrite Hd2, Hd1. split; [done|]. exists rows. split_and!; [done|done|].
  rewrite Hd1 in Ht2. intros k c. rewrite (Ht2 k c). simpl. by rewrite Ht1.
Qed.
End recovery.

Section enrolment.
Context {libs : Libs} {env : Env}.

(** [t'] is [t] with exactly the [n] sessions of [p] revoked. *)
Definition revokes (p : Session.t -> Prop) `{Hp : !forall x, Decision (p x)} (now : Z) (reason actor : string)
    (t t' : gmap string Session.t) (n : Z) : Prop :=
  (forall k x, t !! k = Some x -> p x -> t' !! k = Some (revoked_row now reason actor x)) /\
  (forall k x, t !! k = Some x -> ~ p x -> t' !! k = Some x) /\
  (forall k, t !! k = None -> t' !! k = None) /\ n = sql_count p t.

(** The live sessions of [uid] other than [sid]. *)
Definition other_session (uid sid : string) (now : Z) (x : Session.t) : Prop :=
  Session.UserID x = uid /\ Session.ID x <> sid /\ Session.RevokedAt x = None /\ now < Session.ExpiresAt x.
#[global] Instance other_session_dec uid sid now x : Decision (other_session uid sid now x).
Proof. unfold other_session. apply _. Defined.
(** All live sessions of [uid]. *)
Definition live_session (uid : string) (now : Z) (x : Session.t) : Prop :=
  Session.UserID x = uid /\ Session.RevokedAt x = None /\ now < Session.ExpiresAt x.
#[global] Instance live_session_dec uid now x : Decision (live_session uid now x).
Proof. unfold live_session. apply _. Defined.

Lemma RevokeOtherSessions_Ok uid sid reason actor now w n w' :
  Repository.RevokeOtherSessions uid sid reason actor now w = (Ok n, w') ->
  exists t', w_db w' = set_sessions t' (w_db w) /\
    revokes (other_session uid sid now) now reason actor (sessions (w_db w)) t' n.
Proof using.
  unfold Repository.RevokeOtherSessions. intros (t' & Hu & Hd & _)%counted_update_Ok. exists t'. split; [done|].
  by apply revoke_bulk in Hu.
Qed.

Lemma RevokeUserSessions_Ok uid reason actor now w n w' :
  Repository.RevokeUserSessions uid reason actor now w = (Ok n, w') ->
  exists t', w_db w' = set_sessions t' (w_db w) /\
    revokes (live_session uid now) now reason actor (sessions (w_db w)) t' n.
Proof using.
  unfold Repository.RevokeUserSessions. intros (t' & Hu & Hd & _)%counted_update_Ok. exists t'. split; [done|].
  by apply revoke_bulk in Hu.
Qed.

Lemma DeleteRecoveryCodes_Ok uid w u w' :
  MFARepository.DeleteRecoveryCodes uid w = (Ok u, w') ->
  exists t', w_db w' = set_recovery t' (w_db w) /\
    forall k c, t' !! k = Some c <-> mfa_recovery_codes (w_db w) !! k = Some c /\ MFARecoveryCode.UserID c <> uid.
Proof using.
  unfold MFARepository.DeleteRecoveryCodes. intros H. apply bind_Ok in H as (n & w1 & R & [_ ->]%ret_Ok).
  by apply delete_codes_Ok in R.
Qed.

(** The caller is a user with a session. *)
Definition mfa_user (ctx : Ctx) (p : Principal) : Prop :=
  principal_Require ctx = Ok p /\ PType p = TypeUser /\ PSessionID p <> "".

Lemma requireMFAUser_Ok ctx w p w' : MFA.requireMFAUser ctx w = (Ok p, w') -> mfa_user ctx p /\ w' = w.
Proof using.
  unfold MFA.requireMFAUser. intros H. inv_run H. subst. apply Decidable.not_or in Hguard as [H1 H2].
  apply dec_stable in H1. done.
Qed.

Lemma require_mfa_Ok s msg w m w' : MFA.require_mfa s msg w = (Ok m, w') -> mfa s = Some m /\ w' = w.
Proof using. unfold MFA.require_mfa. intros H. inv_run H. by subst. Qed.

(** Confirming an MFA setup.  The caller is a user with a session, and
    the code is valid for the pending secret, set up less than ten minutes
    ago.  One atomic step, against the named version, turns the pending
    enrolment into an enabled one whose last used step is that of the code,
    replaces the recovery codes of the user by ten fresh ones that match the
    codes returned, revokes every other live session of the user, and stores
    the event. *)
Theorem confirm_setup_effect s ctx code version w r w' :
  Rely safe_step -> schema_ok (w_db w) -> int64_min <= version ->
  MFA.ConfirmMFASetup s ctx code version w = (Ok r, w') ->
  exists p m e0 e e' secret now rt st d0 d1,
    mfa_user ctx p /\ mfa s = Some m /\
    MFAEnrollment.Status e0 = MFAStatusPending /\ now < UpdatedAt (MFAEnrollment.fields e0) + mfaSetupTTL /\
    DecryptSecret m (PID p) (MFAEnrollment.SecretCiphertext e0) = Ok secret /\
    ValidateTOTP secret (TrimSpace code) now = Some (MFAEnrollment.LastUsedStep e') /\
    user_mfa d0 !! PID p = Some e /\ MFAEnrollment.Status e = MFAStatusPending /\
    Version (MFAEnrollment.fields e) = version /\ mfa_evolves e0 e /\
    (Version (MFAEnrollment.fields e0) = version -> e = e0) /\
    mfa_evolves e e' /\ MFAEnrollment.Status e' = MFAStatusEnabled /\ MFAEnrollment.EnabledAt e' = Some now /\
    MFAEnrollment.SecretCiphertext e' = MFAEnrollment.SecretCiphertext e /\
    Version (MFAEnrollment.fields e') = ConfVersion r /\
    length (ConfCodes r) = recoveryCodeCount /\
    replaces_codes m (PID p) (ConfCodes r) (mfa_recovery_codes d0) rt /\
    revokes (other_session (PID p) (PSessionID p) now) now "mfa enabled" (PID p) (sessions d0) st (ConfRevoked r) /\
    one_step w w' d0 d1 /\
    with_event "platform.identity.mfa.status-changed.v1"
      (set_sessions st (set_recovery rt (set_user_mfa (<[PID p := e']> (user_mfa d0)) d0))) d1.
Proof using.
  intros Hr Hd Hmin H. unfold MFA.ConfirmMFASetup in H.
  apply bind_Ok in H as (p & w0 & [Hp ->]%requireMFAUser_Ok & H).
  apply bind_Ok in H as (m & w1 & [Hm ->]%require_mfa_Ok & H). inv_run H. subst r. unfold MFA.mfa_event in *.
  match goal with Hw : Within _ _ _ = _ |- _ => rename Hw into RT end.
  assert (w_log w4 = w_log w) as Hlog by log_chain.
  assert (safe_step (w_db w) (w_db w0)) as S0 by chain. assert (safe_step (w_db w0) (w_db w4)) as S4 by chain.
  apply Within_one in RT as (wa & wb & RT & Hstep & Hsafe); [|solve [solve_readonly]].
  destruct (S0 Hd) as [_ Hd0]. destruct (transitivity S4 (Hsafe Hr) Hd0) as [Ev Hda].
  apply bind_Ok in RT as (? & wc & Ren & RT). apply bind_Ok in RT as (? & we & Rrep & RT).
  apply bind_Ok in RT as (n & wf & Rrev & RT). apply bind_Ok in RT as (? & wg & Rout & [-> ->]%ret_Ok).
  apply Decidable.not_or in Hguard as [G1%dec_stable G2%dec_stable].
  apply (get_row_key user_mfa MFAEnrollment.UserID) with (k := PID p) in R as [Hx _]; [|apply Hd0|done].
  destruct (ev_mfa _ _ Ev _ _ Hx) as (e & He & Hev).
  apply mfa_update_Ok with (uid := PID p) in Ren as (e1 & e' & He1 & (_ & Hst & Hv) & Hf & Hset); [|done|by intros ? []].
  rewrite He in He1. injection He1 as <-. apply mfa_set_Some in Hf as (Hev' & H1 & H2 & H3 & H4 & H5 & H6).
  apply recovery_codes_Ok in R1 as [-> Hlen]. apply recovery_rows_Ok in R2 as [HF Hh].
  apply (ReplaceRecoveryCodes_Ok m (PID p) l) in Rrep as (rt & Hset2 & Hrt); [|done|done].
  apply RevokeOtherSessions_Ok in Rrev as (st & Hset3 & Hst').
  apply newOutboxEvent_Ok in R3 as [Hsub _]. apply insert_event in Rout.
  rewrite Hset2, Hset in Hset3, Hst'. rewrite Hset in Hrt. rewrite Hsub, Hset3 in Rout.
  exists p, m, x, e, e', x2, x0, rt, st, (w_db wa), (w_db wg). split_and!; try done.
  - congruence.
  - intros Hv0. apply (evolves_version _ _ _ x e Hev). congruence.
  - rewrite H6. cbn. rewrite wrap64_id; [lia|]. unfold int64_min, int64_max in *. lia.
  - by eapply one_step_shift.
Qed.

Lemma verifyCurrentPassword_Ok s uid pw w u w' :
  MFA.verifyCurrentPassword s uid pw w = (Ok u, w') ->
  exists c b, Credential.UserID c = uid /\ Credential.Status c = StatusActive /\
    Verify (hasher s) pw (Credential.SecretHash c) = Ok (true, b).
Proof using.
  unfold MFA.verifyCurrentPassword. intros H. inv_run H. apply get_row_Ok in R as (_ & [Hu _] & _).
  match goal with Hg : ?b <> false |- _ => destruct b; [|done] end. eauto.
Qed.

(** Disabling MFA takes the current password and an unused code.  One
    atomic step, against the named version, turns the enabled enrolment into
    a disabled one (and records the step of the code, which must exceed the
    last used one), deletes the recovery codes of the user and of nobody
    else, revokes every other live session of the user, and stores the
    event; the result is the number of sessions revoked. *)
Theorem disable_mfa_effect s ctx password code version w n w' :
  Rely safe_step -> schema_ok (w_db w) ->
  MFA.DisableMFA s ctx password code version w = (Ok n, w') ->
  exists p m c b e0 e e' secret now rt st d0 d1,
    mfa_user ctx p /\ mfa s = Some m /\
    Credential.UserID c = PID p /\ Verify (hasher s) password (Credential.SecretHash c) = Ok (true, b) /\
    DecryptSecret m (PID p) (MFAEnrollment.SecretCiphertext e0) = Ok secret /\
    ValidateTOTP secret (TrimSpace code) now = Some (MFAEnrollment.LastUsedStep e') /\
    MFAEnrollment.LastUsedStep e < MFAEnrollment.LastUsedStep e' /\
    user_mfa d0 !! PID p = Some e /\ MFAEnrollment.Status e = MFAStatusEnabled /\
    Version (MFAEnrollment.fields e) = version /\ mfa_evolves e0 e /\
    (Version (MFAEnrollment.fields e0) = version -> e = e0) /\
    mfa_evolves e e' /\ MFAEnrollment.Status e' = MFAStatusDisabled /\
    (forall k x, rt !! k = Some x <-> mfa_recovery_codes d0 !! k = Some x /\ MFARecoveryCode.UserID x <> PID p) /\
    revokes (other_session (PID p) (PSessionID p) now) now "mfa disabled" (PID p) (sessions d0) st n /\
    one_step w w' d0 d1 /\
    with_event "platform.identity.mfa.status-changed.v1"
      (set_sessions st (set_recovery rt (set_user_mfa (<[PID p := e']> (user_mfa d0)) d0))) d1.
Proof using.
  intros Hr Hd H. unfold MFA.DisableMFA in H.
  apply bind_Ok in H as (p & w0 & [Hp ->]%requireMFAUser_Ok & H).
  apply bind_Ok in H as (m & w1 & [Hm ->]%require_mfa_Ok & H).
  apply bind_Ok in H as (? & w1 & Rpw & H). inv_run H. unfold MFA.mfa_event in *.
  assert (w_log w3 = w_log w) as Hlog by log_chain.
  assert (safe_step (w_db w) (w_db w0)) as S0 by chain. assert (safe_step (w_db w0) (w_db w3)) as S3 by chain.
  apply Within_one in H as (wa & wb & RT & Hstep & Hsafe); [|solve [solve_readonly]].
  destruct (S0 Hd) as [_ Hd0]. destruct (transitivity S3 (Hsafe Hr) Hd0) as [Ev Hda].
  apply bind_Ok in RT as (? & wc & Ren & RT). apply bind_Ok in RT as (? & we & Rdel & RT).
  apply bind_Ok in RT as (k & wf & Rrev & RT). apply bind_Ok in RT as (? & wg & Rout & [-> ->]%ret_Ok).
  apply verifyCurrentPassword_Ok in Rpw as (c & b & Hcu & _ & Hv0).
  apply (get_row_key user_mfa MFAEnrollment.UserID) with (k := PID p) in R as [Hx _]; [|apply Hd0|done].
  destruct (ev_mfa _ _ Ev _ _ Hx) as (e & He & Hev).
  apply mfa_update_Ok with (uid := PID p) in Ren as (e1 & e' & He1 & (_ & Hst & Hl & Hv) & Hf & Hset); [|done|by intros ? []].
  rewrite He in He1. injection He1 as <-. apply mfa_set_Some in Hf as (Hev' & H1 & H2 & H3 & H4 & H5 & H6).
  apply DeleteRecoveryCodes_Ok in Rdel as (rt & Hset2 & Hrt). apply RevokeOtherSessions_Ok in Rrev as (st & Hset3 & Hst').
  apply newOutboxEvent_Ok in R1 as [Hsub _]. apply insert_event in Rout.
  rewrite Hset2, Hset in Hset3, Hst'. rewrite Hset in Hrt. rewrite Hsub, Hset3 in Rout.
  exists p, m, c, b, x0, e, e', x2, x3, rt, st, (w_db wa), (w_db wg). split_and!; try done.
  - congruence.
  - by rewrite H2.
  - intros Hve. apply (evolves_version _ _ _ x0 e Hev). congruence.
  - by eapply one_step_shift.
Qed.

(** An operator can reset the MFA of somebody else.  The operator is not
    that user; one atomic step, against the named version, disables the
    enabled enrolment, deletes its recovery codes, revokes every live
    session of the user with the stated reason, and stores the event. *)
Theorem admin_reset_mfa_effect s ctx userID reason version w r w' :
  Rely safe_step -> schema_ok (w_db w) ->
  MFA.AdminResetMFA s ctx userID reason version w = (Ok r, w') ->
  exists p e e' now rt st d0 d1,
    principal_Require ctx = Ok p /\ ~ (PType p = TypeUser /\ PID p = TrimSpace userID) /\ TrimSpace reason <> "" /\ 1 <= version /\
    user_mfa d0 !! TrimSpace userID = Some e /\ MFAEnrollment.Status e = MFAStatusEnabled /\
    Version (MFAEnrollment.fields e) = version /\
    mfa_evolves e e' /\ MFAEnrollment.Status e' = MFAStatusDisabled /\
    MFAEnrollment.LastUsedStep e' = -1 /\ MFAEnrollment.EnabledAt e' = None /\
    Version (MFAEnrollment.fields e') = ResetVersion r /\
    (forall k x, rt !! k = Some x <-> mfa_recovery_codes d0 !! k = Some x /\ MFARecoveryCode.UserID x <> TrimSpace userID) /\
    revokes (live_session (TrimSpace userID) now) now ("mfa administratively reset: " +:+ TrimSpace reason) (PID p)
      (sessions d0) st (ResetRevoked r) /\
    one_step w w' d0 d1 /\
    with_event "platform.identity.mfa.status-changed.v1"
      (set_sessions st (set_recovery rt (set_user_mfa (<[TrimSpace userID := e']> (user_mfa d0)) d0))) d1.
Proof using.
  intros Hr Hd H. unfold MFA.AdminResetMFA in H. inv_run H. unfold MFA.mfa_event in *. subst r.
  match goal with Hw : Within _ _ _ = _ |- _ => rename Hw into RT end.
  assert (w_log w2 = w_log w) as Hlog by log_chain. assert (safe_step (w_db w) (w_db w2)) as S0 by chain.
  apply Within_one in RT as (wa & wb & RT & Hstep & Hsafe); [|solve [solve_readonly]].
  destruct (transitivity S0 (Hsafe Hr) Hd) as [_ Hda].
  apply bind_Ok in RT as (? & wc & Ren & RT). apply bind_Ok in RT as (? & we & Rdel & RT).
  apply bind_Ok in RT as (k & wf & Rrev & RT). apply bind_Ok in RT as (? & wg & Rout & [-> ->]%ret_Ok).
  apply Decidable.not_or in Hguard as [G1 [G2 G3]%Decidable.not_or].
  apply mfa_update_Ok with (uid := TrimSpace userID) in Ren as (e & e' & He & (_ & Hst & Hv) & Hf & Hset); [|done|by intros ? []].
  apply mfa_set_Some in Hf as (Hev' & H1 & H2 & H3 & H4 & H5 & H6).
  apply DeleteRecoveryCodes_Ok in Rdel as (rt & Hset2 & Hrt). apply RevokeUserSessions_Ok in Rrev as (st & Hset3 & Hst').
  apply newOutboxEvent_Ok in R1 as [Hsub _]. apply insert_event in Rout.
  rewrite Hset2, Hset in Hset3, Hst'. rewrite Hset in Hrt. rewrite Hsub, Hset3 in Rout.
  match goal with Hn : now _ = (Ok ?t, _) |- _ =>
    exists x, e, e', t, rt, st, (w_db wa), (w_db wg) end. split_and!; try done; [lia| |by eapply one_step_shift].
  rewrite H6. cbn. rewrite wrap64_id; [lia|]. unfold int64_min, int64_max in *. lia.
Qed.
End enrolment.

Section setup.
Context {libs : Libs} {env : Env} {elaws : EnvLaws}.

(** The pending enrolment that a setup leaves, for a secret; its version is
    reported as an [int64]. *)
Definition pending (m : MFACrypto) (uid secret : string) (version : Z) (e : MFAEnrollment.t) : Prop :=
  MFAEnrollment.UserID e = uid /\ MFAEnrollment.Status e = MFAStatusPending /\
  MFAEnrollment.LastUsedStep e = -1 /\ MFAEnrollment.EnabledAt e = None /\
  wrap64 (Version (MFAEnrollment.fields e)) = version /\ DecryptSecret m uid (MFAEnrollment.SecretCiphertext e) = Ok secret.

(** Starting an MFA setup takes the current password and never touches
    an enabled enrolment.  One atomic step stores a pending enrolment of the
    returned version whose ciphertext decrypts to the returned secret:
    either the user had none, or a pending or disabled one is replaced and
    the old recovery codes of the user are deleted. *)
Theorem start_setup_effect {plaws : PlatformLaws} s ctx password w r w' m :
  Rely safe_step -> schema_ok (w_db w) -> mfa s = Some m -> AEAD_ok (aead m) ->
  MFA.StartMFASetup s ctx password w = (Ok r, w') ->
  exists p c b e' d0 d1,
    mfa_user ctx p /\ Credential.UserID c = PID p /\
    Verify (hasher s) password (Credential.SecretHash c) = Ok (true, b) /\
    pending m (PID p) (SetupSecret r) (SetupVersion r) e' /\ one_step w w' d0 d1 /\
    ((user_mfa d0 !! PID p = None /\ d1 = set_user_mfa (<[PID p := e']> (user_mfa d0)) d0) \/
     (exists e rt, user_mfa d0 !! PID p = Some e /\ MFAEnrollment.Status e <> MFAStatusEnabled /\ mfa_evolves e e' /\
        (forall k x, rt !! k = Some x <-> mfa_recovery_codes d0 !! k = Some x /\ MFARecoveryCode.UserID x <> PID p) /\
        d1 = set_recovery rt (set_user_mfa (<[PID p := e']> (user_mfa d0)) d0))).
Proof using elaws.
  intros Hr Hd Hm Ha H. unfold MFA.StartMFASetup in H.
  apply bind_Ok in H as (p & w0 & [Hp ->]%requireMFAUser_Ok & H).
  apply bind_Ok in H as (m' & w1 & [Hm' ->]%require_mfa_Ok & H). rewrite Hm in Hm'. injection Hm' as <-.
  apply bind_Ok in H as (? & w1 & Rpw & H). apply bind_Ok in H as (u & w2 & Ru%map_err_Ok & H).
  apply bind_Ok in H as ([secret uri] & w3 & Rg%map_err_Ok & H). apply bind_Ok in H as (enc & w4 & Renc%map_err_Ok & H).
  apply bind_Ok in H as (now & w5 & Rn & H). apply bind_Ok in H as (f & w6 & [Hf ->]%map_err_Ok%lift_Ok & H).
  apply bind_Ok in H as (r0 & w6 & Rm%attempt_Ok & H). apply bind_Ok in H as (v & w7 & RT & [<- ->]%ret_Ok).
  assert (w_log w6 = w_log w) as Hlog by log_chain. assert (safe_step (w_db w) (w_db w6)) as S6 by chain.
  apply verifyCurrentPassword_Ok in Rpw as (c & b & Hcu & _ & Hv0). apply (encrypt_run m) in Renc; [|done]. cbn.
  destruct r0 as [cur|e].
  - apply bind_Ok in RT as (? & w8 & [G ->]%reject_Ok & RT%map_err_Ok).
    apply Within_one in RT as (wa & wb & RT & Hstep & Hsafe); [|solve [solve_readonly]].
    destruct (transitivity S6 (Hsafe Hr) Hd) as [_ Hda].
    apply bind_Ok in RT as (? & wc & Ren & RT). apply bind_Ok in RT as (? & we & Rdel & [<- ->]%ret_Ok).
    apply mfa_update_Ok with (uid := PID p) in Ren as (e & e' & He & (Hid & Hst & Hv) & Hf' & Hset); [|done|by intros ? []].
    apply mfa_set_Some in Hf' as (Hev' & H1 & H2 & H3 & H4 & H5 & H6).
    apply DeleteRecoveryCodes_Ok in Rdel as (rt & Hset2 & Hrt). rewrite Hset in Hset2, Hrt. rewrite Hset2 in Hstep.
    exists p, c, b, e', (w_db wa). eexists. split_and!; try done; [|by eapply one_step_shift|right; exists e, rt; done].
    destruct Hev' as [[= Hu _] _]. split_and!; try done; [congruence|by rewrite H6, <-Hv|by rewrite H4].
  - destruct (errors_Is e ErrNotFound); [|by inv_run RT]. apply map_err_Ok in RT.
    apply Within_one in RT as (wa & wb & RT & Hstep & Hsafe); [|solve [solve_readonly]].
    apply bind_Ok in RT as (? & wc & Ri%map_err_Ok & [<- ->]%ret_Ok). apply tx_exec_Ok in Ri as [Hi _].
    unfold MFARepository.insert_mfa in Hi. case_decide; [done|]. case_decide as Hn; [done|]. case_decide; [|done].
    apply eq_None_not_Some in Hn. injection Hi as Hi. cbn in Hi, Hn. rewrite <-Hi in Hstep.
    exists p, c, b. eexists (MFAEnrollment.mk _ _ _ _ _ _ _), (w_db wa), _.
    split_and!; [done..| |by eapply one_step_shift|left; done].
    split_and!; try done. cbn. destruct Hp as (Hp & _). rewrite (audit_New_ok _ _ _ Hp) in Hf. by injection Hf as <-.
Qed.
End setup.

(** ** Witnesses *)
Section witnesses.
Import Concrete.
#[local] Instance env0 : Env := quiet noon 0.

(** Alice has started a setup one minute ago. *)
Definition pending_db : DB :=
  set_user_mfa (<["u1" := MFAEnrollment.mk "u1" "totp" ciphertext MFAStatusPending (-1) None
                            (mkFields 1 (noon - Minute) (noon - Minute) "u1" "u1")]> (user_mfa db)) db.
Lemma pending_db_ok : schema_ok pending_db.
Proof. apply schema_check_sound. vm_compute. reflexivity. Qed.

Lemma confirm_setup_witness : exists r w',
  MFA.ConfirmMFASetup service alice_ctx bob_code 1 (start pending_db) = (Ok r, w') /\ length (ConfCodes r) = 10%nat.
Proof.
  by_running (MFA.ConfirmMFASetup service alice_ctx bob_code 1 (start pending_db)) as a w E.
  destruct (confirm_setup_effect service alice_ctx bob_code 1 (start pending_db) a w _ pending_db_ok
              ltac:(by vm_compute) E)
    as (p & m & e0 & e & e' & sec & n & rt & st & d0 & d1 & H'); skip_conj 16 H'; destruct H' as (Hl & _).
  exists a, w. exact (conj E Hl).
Defined.

Lemma disable_mfa_witness : exists n w' e,
  MFA.DisableMFA service bob_ctx password bob_code 1 (start db) = (Ok n, w') /\ MFAEnrollment.Status e = MFAStatusDisabled.
Proof.
  by_running (MFA.DisableMFA service bob_ctx password bob_code 1 (start db)) as a w E.
  destruct (disable_mfa_effect service bob_ctx password bob_code 1 (start db) a w _ db_ok E)
    as (p & m & c & b & e0 & e & e' & sec & n & rt & st & d0 & d1 & H'); skip_conj 13 H'; destruct H' as (Hs & _).
  exists a, w, e'. exact (conj E Hs).
Defined.

Lemma admin_reset_mfa_witness : exists r w' e,
  MFA.AdminResetMFA service admin "u2" "lost phone" 1 (start db) = (Ok r, w') /\ MFAEnrollment.Status e = MFAStatusDisabled.
Proof.
  by_running (MFA.AdminResetMFA service admin "u2" "lost phone" 1 (start db)) as a w E.
  destruct (admin_reset_mfa_effect service admin "u2" "lost phone" 1 (start db) a w _ db_ok E)
    as (p & e & e' & n & rt & st & d0 & d1 & H'); skip_conj 8 H'; destruct H' as (Hs & _).
  exists a, w, e'. exact (conj E Hs).
Defined.

Lemma start_setup_witness : exists r w' e,
  MFA.StartMFASetup service alice_ctx password (start db) = (Ok r, w') /\
  pending crypto "u1" (SetupSecret r) (SetupVersion r) e.
Proof.
  by_running (MFA.StartMFASetup service alice_ctx password (start db)) as a w E.
  destruct (start_setup_effect service alice_ctx password (start db) a w crypto _ db_ok eq_refl
              ltac:(by split) E) as (p & c & b & e' & d0 & d1 & [Hp _] & _ & _ & Hpend & _).
  injection Hp as <-. exists a, w, e'. exact (conj E Hpend).
Defined.
End witnesses.
