(* ===== verification/PasswordResetSpec.v ===== *)
(** * Password recovery: theorems *)

From S2P Require Import Prelude.
From S2P Require Import GoStrings.
From S2P Require Import Encoding.
From S2P Require Import Digest.
From S2P Require Import AppError.
From S2P Require Import Platform.
From S2P Require Import Table.
From S2P Require Import Model.
From S2P Require Import Runtime.
From S2P Require Import Repository.
From S2P Require Import MFARepository.
From S2P Require Import Evolution.
From S2P Require Import Guarantee.
From S2P Require Import Inversion.
From S2P Require Import Password.
From S2P Require Import Token.
From S2P Require Import MFACrypto.
From S2P Require Import ServiceBase.
From S2P Require Import Concrete.
From S2P Require Import CryptoSpec.
From S2P Require Import Sessions.
From S2P Require Import Users.
From S2P Require Import PasswordReset.
From S2P Require Import SessionsSpec.
From S2P Require Import UsersSpec.
From S2P Require Import MFASpec.
From S2P Require Import EnrolmentSpec.
Open Scope Z_scope.

Section reset_spec.
Context {libs : Libs} {env : Env}.

Lemma consume_reset_Some now actor c c' :
  MFARepository.consume_reset now actor c = Some c' -> PasswordResetChallenge.ConsumedAt c = None ->
  reset_evolves c c' /\ PasswordResetChallenge.ConsumedAt c' = Some now.
Proof using.
  intros (f & Hb & [= <-])%bind_Some Hc. split; [|done].
  eapply evolves_bump; [exact Hb|done|done|]. intros Hz. by apply Hz.
Qed.

Lemma ConsumePasswordResetChallenge_Ok h v actor now w u w' :
  MFARepository.ConsumePasswordResetChallenge h v actor now w = (Ok u, w') -> schema_ok (w_db w) ->
  exists c c', password_reset_challenges (w_db w) !! h = Some c /\ PasswordResetChallenge.ConsumedAt c = None /\
    now < PasswordResetChallenge.ExpiresAt c /\ Version (PasswordResetChallenge.fields c) = v /\
    reset_evolves c c' /\ PasswordResetChallenge.ConsumedAt c' = Some now /\
    w_db w' = set_reset_challenges (<[h := c']> (password_reset_challenges (w_db w))) (w_db w).
Proof using.
  intros (t' & n & Hu & Hn & _ & Hd & _)%guarded_update_Ok Hs.
  apply (update_one PasswordResetChallenge.TokenHash) with (k := h) in Hu
    as (c & c' & Hc & (Hh & Hc0 & He & Hv) & Hf & -> & _); [|apply Hs|by intros ? []|done].
  apply consume_reset_Some in Hf as [Hev Hc1]; [|done]. eauto 10.
Qed.

(** The unconsumed challenges of [uid]. *)
Definition open_reset (uid : string) (c : PasswordResetChallenge.t) : Prop :=
  PasswordResetChallenge.UserID c = uid /\ PasswordResetChallenge.ConsumedAt c = None.

Lemma InvalidatePasswordResetChallenges_Ok uid actor now w u w' :
  MFARepository.InvalidatePasswordResetChallenges uid actor now w = (Ok u, w') ->
  exists t, w_db w' = set_reset_challenges t (w_db w) /\
    (forall k c, password_reset_challenges (w_db w) !! k = Some c -> open_reset uid c ->
       exists c', t !! k = Some c' /\ reset_evolves c c' /\ PasswordResetChallenge.ConsumedAt c' = Some now) /\
    (forall k c, password_reset_challenges (w_db w) !! k = Some c -> ~ open_reset uid c -> t !! k = Some c) /\
    (forall k, password_reset_challenges (w_db w) !! k = None -> t !! k = None).
Proof using.
  unfold MFARepository.InvalidatePasswordResetChallenges. intros H. apply bind_Ok in H as (n & w1 & R & [_ ->]%ret_Ok).
  apply counted_update_Ok in R as (t & Hu & Hd & _). exists t. split; [done|]. split_and!.
  - intros k c Hc Ho. destruct (sql_update_hit _ _ _ _ _ _ _ Hu Hc Ho) as (c' & Hf & Hc').
    apply consume_reset_Some in Hf as [? ?]; [|apply Ho]. eauto.
  - intros k c Hc Ho. by eapply sql_update_miss.
  - intros k Hk. by apply (sql_update_None_key _ _ _ _ _ k Hu).
Qed.

(** Issuing a password reset.  The operator is not the user; the user is
    active; one atomic step consumes every open challenge of that user, no
    challenge of another, and adds one open challenge that the returned
    token opens for thirty minutes. *)
Theorem issue_reset_effect s ctx userID reason w r w' :
  PasswordReset.IssuePasswordReset s ctx userID reason w = (Ok r, w') ->
  exists p u c t d0 now,
    principal_Require ctx = Ok p /\ ~ (PType p = TypeUser /\ PID p = TrimSpace userID) /\ TrimSpace reason <> "" /\
    User.ID u = TrimSpace userID /\ User.Status u = StatusActive /\ (exists i, now = env_clock i) /\
    PasswordResetChallenge.TokenHash c = hash_token (ResetToken r) /\
    PasswordResetChallenge.UserID c = TrimSpace userID /\ PasswordResetChallenge.ConsumedAt c = None /\
    PasswordResetChallenge.ExpiresAt c = now + 30 * Minute /\ ResetExpiresAt r = now + 30 * Minute /\
    (forall k x, password_reset_challenges d0 !! k = Some x -> open_reset (TrimSpace userID) x ->
       exists x', t !! k = Some x' /\ reset_evolves x x' /\ PasswordResetChallenge.ConsumedAt x' = Some now) /\
    (forall k x, password_reset_challenges d0 !! k = Some x -> ~ open_reset (TrimSpace userID) x -> t !! k = Some x) /\
    t !! hash_token (ResetToken r) = None /\
    one_step w w' d0 (set_reset_challenges (<[hash_token (ResetToken r) := c]> t) d0).
Proof using.
  intros H. unfold PasswordReset.IssuePasswordReset in H. inv_run H. subst r. cbn.
  match goal with Hw : Within _ _ _ = _ |- _ => rename Hw into RT end.
  match type of RT with _ ?v = _ => assert (w_log v = w_log w) as Hlog by log_chain end.
  apply Within_one in RT as (wa & wb & RT & Hstep & _); [|solve [solve_readonly]].
  apply bind_Ok in RT as (? & wc & Rinv & Rins).
  apply InvalidatePasswordResetChallenges_Ok in Rinv as (t & Hset & Ht1 & Ht2 & _).
  apply map_err_Ok, tx_exec_Ok in Rins as [Hi _]. unfold MFARepository.insert_reset in Hi.
  case_decide as Hn; [done|]. case_decide; [|done]. apply eq_None_not_Some in Hn. injection Hi as Hi. cbn in Hi, Hn.
  rewrite <-Hi, Hset in Hstep. rewrite Hset in Hn. cbn in Hn, Hstep.
  apply get_row_Ok in R as (_ & Hu & _). apply Decidable.not_or in Hguard as [_ G2].
  match goal with Hnow : now _ = (Ok ?n, _) |- _ =>
    pose proof (now_reading _ _ _ Hnow); exists x, x2; eexists (PasswordResetChallenge.mk _ _ _ _ _ _), t, (w_db wa), n end.
  split_and!; [..|eapply one_step_shift; [exact Hstep|done]]; try done.
Qed.

Lemma reset_run s ctx token pw w r w' :
  Rely safe_step -> schema_ok (w_db w) ->
  PasswordReset.ConfirmPasswordReset s ctx token pw w = (Ok r, w') ->
  exists ch ch' c c' b now st d0 d1,
    schema_ok d0 /\ password_reset_challenges d0 !! hash_token (TrimSpace token) = Some ch /\
    PasswordResetChallenge.ConsumedAt ch = None /\ now < PasswordResetChallenge.ExpiresAt ch /\
    (exists i, now = env_clock i) /\
    reset_evolves ch ch' /\ PasswordResetChallenge.ConsumedAt ch' = Some now /\
    Credential.UserID c = PasswordResetChallenge.UserID ch /\ credentials d0 !! Credential.ID c = Some c /\
    Credential.Status c = StatusActive /\ Verify (hasher s) pw (Credential.SecretHash c) = Ok (false, b) /\
    12 <= go_len pw <= 1024 /\ credential_evolves c c' /\
    (exists w1 w2, Hash (hasher s) pw w1 = (Ok (Credential.SecretHash c'), w2)) /\
    revokes (live_session (PasswordResetChallenge.UserID ch) now) now "password administratively recovered"
      "identity:password-reset" (sessions d0) st (RevokedSessions r) /\ Changed r = true /\
    one_step w w' d0 d1 /\
    with_event "platform.identity.user.password-changed.v1"
      (set_sessions st (set_credentials (<[Credential.ID c := c']> (credentials d0))
        (set_reset_challenges (<[hash_token (TrimSpace token) := ch']> (password_reset_challenges d0)) d0))) d1.
Proof using.
  intros Hr Hd H. unfold PasswordReset.ConfirmPasswordReset in H. inv_run H. subst r.
  match goal with Hw : Within _ _ _ = _ |- _ => rename Hw into RT end.
  assert (w_log w4 = w_log w) as Hlog by log_chain.
  assert (safe_step (w_db w) (w_db w1)) as S1 by chain. assert (safe_step (w_db w1) (w_db w4)) as S4 by chain.
  destruct (S1 Hd) as [_ Hd1]. destruct (S4 Hd1) as [_ Hd4].
  apply Within_one in RT as (wa & wb & RT & Hstep & Hsafe); [|solve [solve_readonly]].
  destruct (transitivity S4 (Hsafe Hr) Hd1) as [Ev1 Hda]. destruct (Hsafe Hr Hd4) as [Ev4 _].
  apply bind_Ok in RT as (? & wc & Rcons & RT). apply bind_Ok in RT as (? & we & Rcred & RT).
  apply bind_Ok in RT as (k & wf & Rrev & RT). apply bind_Ok in RT as (ev & wg & Rev & RT).
  apply bind_Ok in RT as (? & wh & Rout & [-> ->]%ret_Ok).
  assert (safe_step (w_db wa) (w_db wc)) as Sc by chain. destruct (Sc Hda) as [_ Hdc].
  apply (get_row_key password_reset_challenges PasswordResetChallenge.TokenHash) with (k := hash_token (TrimSpace token)) in R0
    as [Hch _]; [|apply Hd1|done].
  apply ConsumePasswordResetChallenge_Ok in Rcons as (ch & ch' & Hc & Hc0 & Hexp & Hv & Hev & Hc1 & Hset); [|done].
  destruct (ev_resets _ _ Ev1 _ _ Hch) as (c2 & Hc2 & He2). unfold PasswordReset.hashPasswordResetToken in Hc.
  rewrite Hc in Hc2. injection Hc2 as <-. assert (ch = x1) as -> by (by apply (evolves_version _ _ _ x1 ch He2)).
  apply get_row_Ok in R3 as ((kc & Hkc) & [Hcu _] & _). pose proof (cred_key _ Hd4 _ _ Hkc) as <-.
  apply UpdatePasswordCredential_Ok in Rcred as (c & c' & Hcr & Hcv & Hcs & _ & Hcev & Hh & _ & Hset2); [|done].
  rewrite Hset in Hcr. cbn in Hcr. destruct (ev_credentials _ _ Ev4 _ _ Hkc) as (c3 & Hc3 & He3).
  rewrite Hcr in Hc3. injection Hc3 as <-. assert (c = x6) as -> by (by apply (evolves_version _ _ _ x6 c He3)).
  apply RevokeUserSessions_Ok in Rrev as (st & Hset3 & Hst).
  pose proof (newOutboxEvent_db _ _ _ _ _ _ _ _ _ Rev) as Hdb. apply newOutboxEvent_Ok in Rev as [Hsub _].
  apply insert_event in Rout. rewrite Hset2, Hset in Hset3, Hst. rewrite Hsub, Hdb, Hset3 in Rout.
  assert (b = false) as -> by (by destruct b).
  exists x1, ch', x6, c', b0, x2, st, (w_db wa), (w_db wh).
  split_and!; try done; [by eapply now_reading| | |rewrite Hh; eauto|by eapply one_step_shift]; by destruct (Hash_length _ _ _ _ _ R).
Qed.

(** C14: Setting a new password with a reset token.  The token's challenge is
    unconsumed and unexpired, the new password has 12 to 1024 bytes and
    differs from the current one.  One atomic step consumes the challenge,
    stores a hash of the new password in the user's active credential,
    revokes every live session of the user, and stores the event. *)
Theorem confirm_reset_effect s ctx token pw w r w' :
  Rely safe_step -> schema_ok (w_db w) ->
  PasswordReset.ConfirmPasswordReset s ctx token pw w = (Ok r, w') ->
  exists ch ch' c c' b now st d0 d1,
    password_reset_challenges d0 !! hash_token (TrimSpace token) = Some ch /\
    PasswordResetChallenge.ConsumedAt ch = None /\ now < PasswordResetChallenge.ExpiresAt ch /\
    (exists i, now = env_clock i) /\
    reset_evolves ch ch' /\ PasswordResetChallenge.ConsumedAt ch' = Some now /\
    Credential.UserID c = PasswordResetChallenge.UserID ch /\ credentials d0 !! Credential.ID c = Some c /\
    Credential.Status c = StatusActive /\ Verify (hasher s) pw (Credential.SecretHash c) = Ok (false, b) /\
    12 <= go_len pw <= 1024 /\ credential_evolves c c' /\
    (exists w1 w2, Hash (hasher s) pw w1 = (Ok (Credential.SecretHash c'), w2)) /\
    revokes (live_session (PasswordResetChallenge.UserID ch) now) now "password administratively recovered"
      "identity:password-reset" (sessions d0) st (RevokedSessions r) /\ Changed r = true /\
    one_step w w' d0 d1 /\
    with_event "platform.identity.user.password-changed.v1"
      (set_sessions st (set_credentials (<[Credential.ID c := c']> (credentials d0))
        (set_reset_challenges (<[hash_token (TrimSpace token) := ch']> (password_reset_challenges d0)) d0))) d1.
Proof using.
  intros Hr Hd H. destruct (reset_run _ _ _ _ _ _ _ Hr Hd H) as (ch & ch' & c & c' & b & n & st & d0 & d1 & _ & HV).
  exists ch, ch', c, c', b, n, st, d0, d1. exact HV.
Qed.

Lemma consumed_reset_refused s ctx token pw w c :
  Rely safe_step -> schema_ok (w_db w) ->
  password_reset_challenges (w_db w) !! hash_token (TrimSpace token) = Some c ->
  PasswordResetChallenge.ConsumedAt c <> None ->
  exists e w', PasswordReset.ConfirmPasswordReset s ctx token pw w = (Err e, w') /\ w_log w' = w_log w.
Proof using.
  intros Hr Hd Hc Hcons. unfold PasswordReset.ConfirmPasswordReset. cbv zeta.
  destruct (decide (TrimSpace token = "")) as [Hb|Hb];
    [erewrite run_bind_err by (by apply run_reject_err); by eexists _, _|erewrite run_bind by (by apply run_reject)].
  destruct (Hash (hasher s) pw w) as [[h|e] w0] eqn:Rh;
    [erewrite run_bind by (by apply run_map_err)|]; cycle 1.
  { assert (w_log w0 = w_log w) by log_chain. erewrite run_bind_err by (unfold map_err; by rewrite Rh). by eexists _, _. }
  destruct (MFARepository.GetPasswordResetChallenge (PasswordReset.hashPasswordResetToken (TrimSpace token)) w0) as [r w1] eqn:R.
  assert (safe_step (w_db w) (w_db w1)) as S1 by chain. destruct (S1 Hd) as [Ev Hd1].
  assert (w_log w1 = w_log w) as Hlog by log_chain.
  destruct r as [ch|e]; [|erewrite run_bind_err by (unfold map_err; by rewrite R); by eexists _, _].
  pose proof R as R'.
  apply (get_row_key password_reset_challenges PasswordResetChallenge.TokenHash) with (k := hash_token (TrimSpace token)) in R'
    as [Hch _]; [|apply Hd1|done].
  destruct (ev_resets _ _ Ev _ _ Hc) as (c2 & Hc2 & He2). rewrite Hch in Hc2. injection Hc2 as <-.
  assert (ch = c) as -> by (by apply (evolves_frozen _ _ _ _ _ He2)).
  erewrite run_bind by (by apply run_map_err). erewrite run_bind by reflexivity.
  erewrite run_bind_err by (apply run_reject_err; by left). by eexists _, _.
Qed.

(** C15: A reset token is single-use: once it has set a password, every later
    attempt with it fails and writes nothing, whatever other requests do in
    between. *)
Theorem reset_single_use s ctx token pw w r w' :
  Rely safe_step -> schema_ok (w_db w) ->
  PasswordReset.ConfirmPasswordReset s ctx token pw w = (Ok r, w') ->
  forall ctx' pw' w1, db_evolves (w_db w') (w_db w1) -> schema_ok (w_db w1) ->
  exists e w2, PasswordReset.ConfirmPasswordReset s ctx' token pw' w1 = (Err e, w2) /\ w_log w2 = w_log w1.
Proof using.
  intros Hr Hd H ctx' pw' w1 Ev Hd1.
  destruct (reset_run _ _ _ _ _ _ _ Hr Hd H) as (ch & ch' & c & c' & b & n & st & d0 & d1 & H').
  skip_conj 6 H'. destruct H' as [Hc H']. skip_conj 9 H'. destruct H' as ([_ Hw] & (e & _ & Hd')).
  assert (password_reset_challenges (w_db w') !! hash_token (TrimSpace token) = Some ch') as Hch
    by (rewrite Hw, Hd'; apply lookup_insert_eq).
  destruct (ev_resets _ _ Ev _ _ Hch) as (c2 & Hc2 & He2).
  assert (c2 = ch') as -> by (apply (evolves_frozen _ _ _ _ _ He2); by rewrite Hc).
  eapply consumed_reset_refused; [done|done|exact Hc2|by rewrite Hc].
Qed.
End reset_spec.

(** ** Witnesses *)
Section witnesses.
Import Concrete.
#[local] Instance env0 : Env := quiet noon 0.

Lemma issue_reset_witness : exists r w',
  PasswordReset.IssuePasswordReset service admin "u1" "forgotten" (start db) = (Ok r, w') /\ ResetExpiresAt r = noon + 30 * Minute.
Proof.
  by_running (PasswordReset.IssuePasswordReset service admin "u1" "forgotten" (start db)) as a w E.
  destruct (issue_reset_effect service admin "u1" "forgotten" (start db) a w E)
    as (p & u & c & t & d0 & n & _ & _ & _ & _ & _ & [i Hi] & _ & _ & _ & _ & Hx & _).
  exists a, w. split; [exact E|]. rewrite Hx, Hi. reflexivity.
Defined.

Lemma confirm_reset_witness : exists r w',
  PasswordReset.ConfirmPasswordReset service nobody "reset" "another password" (start db) = (Ok r, w') /\ Changed r = true.
Proof.
  by_running (PasswordReset.ConfirmPasswordReset service nobody "reset" "another password" (start db)) as a w E.
  destruct (confirm_reset_effect service nobody "reset" "another password" (start db) a w _ db_ok E)
    as (ch & ch' & c & c' & b & n & st & d0 & d1 & H'); skip_conj 14 H'; destruct H' as (Hc & _).
  exists a, w. exact (conj E Hc).
Defined.

Lemma reset_single_use_witness : exists r w' e w2,
  PasswordReset.ConfirmPasswordReset service nobody "reset" "another password" (start db) = (Ok r, w') /\
  PasswordReset.ConfirmPasswordReset service nobody "reset" "yet another one" w' = (Err e, w2).
Proof.
  assert (schema_check (w_db (PasswordReset.ConfirmPasswordReset service nobody "reset" "another password" (start db)).2) = true) as Hs
    by (vm_compute; reflexivity).
  by_running (PasswordReset.ConfirmPasswordReset service nobody "reset" "another password" (start db)) as a w E.
  rewrite E in Hs. apply schema_check_sound in Hs.
  destruct (reset_single_use service nobody "reset" "another password" (start db) a w _ db_ok E
              nobody "yet another one" w (PreOrder_Reflexive _) Hs) as (e & w2 & H2 & _).
  exists a, w, e, w2. exact (conj E H2).
Defined.
End witnesses.
