(* ===== verification/CleanupSpec.v ===== *)
(** * Retention: theorems *)

From S2P Require Import Prelude.
From S2P Require Import GoStrings.
From S2P Require Import Encoding.
From S2P Require Import Digest.
From S2P Require Import AppError.
From S2P Require Import Platform.
From S2P Require Import Table.
From S2P Require Import Model.
From S2P Require Import Runtime.
From S2P Require Import Repository.
From S2P Require Import MFARepository.
From S2P Require Import Evolution.
From S2P Require Import Guarantee.
From S2P Require Import Inversion.
From S2P Require Import Password.
From S2P Require Import Token.
From S2P Require Import MFACrypto.
From S2P Require Import ServiceBase.
From S2P Require Import Cleanup.
From S2P Require Import Concrete.
Open Scope Z_scope.

Section batch.
Context {libs : Libs} {env : Env} {A : Type} (get : DB -> gmap string A) (set : gmap string A -> DB -> DB)
  (key : A -> string).

(** One batch deletes only rows of [p], counts them, never more than
    [limit], and if it deletes fewer, no row of [p] is left. *)
Definition batch_spec (p : A -> Prop) (limit n : Z) (t t' : gmap string A) : Prop :=
  t' ⊆ t /\ (forall k r, t !! k = Some r -> t' !! k = None -> p r) /\
  Z.of_nat (size t) = Z.of_nat (size t') + n /\ 0 <= n <= limit /\
  (n < limit -> forall k r, t' !! k = Some r -> ~ p r).

Section one.
Context (p : A -> Prop) `{Hp : !forall r, Decision (p r)} (at_ : A -> Z) (limit : Z) (t : gmap string A).
Context (Hkey : keyed_by key t) (Hlim : 0 < limit).

Definition page_of : list A := take (Z.to_nat limit) (merge_sort (order_asc at_ key) (sql_rows p t)).

Lemma page_elem r : r ∈ page_of -> p r /\ t !! key r = Some r.
Proof using Hkey.
  intros Hin. assert (r ∈ sql_rows p t) as (k & Hk & Hr)%elem_of_sql_rows.
  { rewrite <-(merge_sort_Permutation (order_asc at_ key)). eapply elem_of_submseteq; [exact Hin|].
    apply sublist_submseteq, sublist_take. }
  split; [done|]. by rewrite (Hkey k r Hk).
Qed.

Lemma page_NoDup : NoDup (key <$> page_of).
Proof using Hkey.
  unfold page_of. rewrite fmap_take. eapply sublist_NoDup; [|apply sublist_take].
  rewrite merge_sort_Permutation. unfold sql_rows. rewrite <-list_fmap_compose.
  rewrite (list_fmap_ext (key ∘ snd) fst); [apply NoDup_fst_map_to_list|].
  intros i [k r] Hi. apply list_elem_of_lookup_2, elem_of_map_to_list, sql_where_lookup in Hi as [Hr _]. simpl. by apply Hkey.
Qed.

(** The condition of the [DELETE]. *)
Definition chosen (r : A) : Prop := key r ∈ (key <$> page_of) /\ p r.
#[local] Instance chosen_dec r : Decision (chosen r).
Proof using Hp. unfold chosen. apply _. Defined.

Lemma chosen_where k r : sql_where chosen t !! k = Some r <-> t !! k = Some r /\ k ∈ (key <$> page_of).
Proof using Hkey.
  rewrite sql_where_lookup. unfold chosen. split.
  - intros (Hk & Hin & _). by rewrite <-(Hkey k r Hk) at 2.
  - intros (Hk & Hin). rewrite (Hkey k r Hk). split_and!; [done|done|].
    apply list_elem_of_fmap in Hin as (r' & -> & [Hr' Ht]%page_elem). congruence.
Qed.

Lemma chosen_count : sql_count chosen t = Z.of_nat (length page_of).
Proof using Hkey.
  unfold sql_count. f_equal. rewrite <-size_dom.
  assert (dom (sql_where chosen t) = list_to_set (key <$> page_of)) as ->.
  { apply set_eq. intros k. rewrite elem_of_dom, elem_of_list_to_set. split.
    - intros [r Hr%chosen_where]. apply Hr.
    - intros Hin. pose proof Hin as (r & -> & [_ Ht]%page_elem)%list_elem_of_fmap.
      exists r. by apply chosen_where. }
  rewrite size_list_to_set by apply page_NoDup. apply length_fmap.
Qed.

Lemma batch_delete : batch_spec p limit (sql_count chosen t) t (filter (fun kr => ~ chosen kr.2) t).
Proof using Hkey Hlim.
  split_and!.
  - apply map_filter_subseteq.
  - intros k r Hk Hn. rewrite map_lookup_filter_None in Hn. destruct Hn as [Hn|Hn]; [congruence|].
    specialize (Hn r Hk). simpl in Hn. apply dec_stable in Hn. apply Hn.
  - unfold sql_count, sql_where. rewrite <-Nat2Z.inj_add. f_equal.
    rewrite <-(map_filter_union_complement (fun kr => chosen kr.2) t) at 1.
    rewrite map_size_disj_union by apply map_disjoint_filter_complement. lia.
  - unfold sql_count. lia.
  - rewrite chosen_count. unfold page_of. rewrite length_take. lia.
  - rewrite chosen_count. unfold page_of at 1. rewrite length_take, merge_sort_Permutation. intros Hlt k r Hr Hpr.
    apply map_lookup_filter_Some in Hr as [Hk Hnc]. apply Hnc. split; [|done].
    apply list_elem_of_fmap_2. unfold page_of. rewrite take_ge by (rewrite merge_sort_Permutation; lia).
    rewrite merge_sort_Permutation. apply elem_of_sql_rows. eauto.
Qed.
End one.

(** [get] and [set] are a field of the database. *)
Context (get_set : forall t d, get (set t d) = t) (set_get : forall d, set (get d) d = d)
  (set_set : forall t1 t2 d, set t1 (set t2 d) = set t1 d).

(** A delete method: [before] and [limit] select the rows. *)
Definition deleter (p : Z -> A -> Prop) (del : Z -> Z -> M Z) : Prop :=
  forall before limit w, keyed_by key (get (w_db w)) -> 0 < limit ->
  exists n w' t', del before limit w = (Ok n, w') /\ w_clk w' = w_clk w /\ w_db w' = set t' (w_db w) /\
    batch_spec (p before) limit n (get (w_db w)) t'.

Lemma select_then_delete (p : A -> Prop) `{Hp : !forall r, Decision (p r)} at_ (wrap : M Z -> M Z) limit w :
  Quiet -> keyed_by key (get (w_db w)) -> 0 < limit ->
  (forall m w a w', m w = (Ok a, w') -> wrap m w = (Ok a, w')) ->
  exists n w' t',
    (ids ← Repository.select_keys get p at_ key limit;
     if decide (ids = []) then mret 0
     else wrap (db_exec (delete_table get set (fun r => key r ∈ ids /\ p r)))) w = (Ok n, w') /\
    w_clk w' = w_clk w /\ w_db w' = set t' (w_db w) /\ batch_spec p limit n (get (w_db w)) t'.
Proof using set_get.
  intros Hq Hk Hlim Hwrap. pose proof (batch_delete p at_ limit (get (w_db w)) Hk Hlim) as Hb.
  set (ids := key <$> page_of p at_ limit (get (w_db w))).
  assert (Repository.select_keys get p at_ key limit w = (Ok ids, next_stm w)) as Hsel.
  { unfold Repository.select_keys, db_query. simpl. rewrite quiet_fault, quiet_interfere.
    unfold sql_page. rewrite decide_False by lia. rewrite drop_0. unfold yield_db. rewrite quiet_interfere. done. }
  erewrite run_bind by exact Hsel. case_decide as Hids.
  - pose proof (chosen_count p at_ limit (get (w_db w)) Hk) as Hc. apply fmap_nil_inv in Hids. rewrite Hids in Hc.
    exists 0, (next_stm w), (get (w_db w)). rewrite set_get. split_and!; [done..|].
    rewrite Hc in Hb. destruct Hb as (H1 & H2 & H3 & H4 & H5).
    split_and!; [done| |lia|lia|lia|].
    + intros k r Hr Hn. congruence.
    + intros _ k r Hr. apply (H5 ltac:(simpl; lia) k). apply map_lookup_filter_Some. split; [done|].
      intros [Hin _]. rewrite Hids in Hin. by apply elem_of_nil in Hin.
  - exists (sql_count (chosen p at_ limit (get (w_db w))) (get (w_db w))). eexists _, _. split_and!; [| | |exact Hb].
    + apply Hwrap. unfold db_exec. simpl. rewrite quiet_fault, quiet_interfere. reflexivity.
    + done.
    + done.
Qed.

(** What a completed loop did to its table: it deleted only rows that were
    old at some reading of the clock, and at its last reading none is left. *)
Definition loop_spec (p : Z -> A -> Prop) (age : Z) (t t' : gmap string A) : Prop :=
  t' ⊆ t /\ (forall k r, t !! k = Some r -> t' !! k = None -> exists i, p (env_clock i - age) r) /\
  (exists i, forall k r, t' !! k = Some r -> ~ p (env_clock i - age) r).

(** The loop ends: every full batch makes the table smaller. *)
Lemma loop_run (p : Z -> A -> Prop) del age batch fuel w :
  deleter p del -> keyed_by key (get (w_db w)) -> 0 < batch -> (size (get (w_db w)) < fuel)%nat ->
  exists w' t', clean_loop fuel del age batch w = (Ok (Some tt), w') /\ w_db w' = set t' (w_db w) /\
    loop_spec p age (get (w_db w)) t'.
Proof using get_set set_set.
  intros Hdel. revert w. induction fuel as [|fuel IH]; intros w Hk Hb Hf; [lia|]. cbn [clean_loop].
  erewrite run_bind by reflexivity.
  set (w1 := mkWorld (w_db w) (S (w_clk w)) (w_rnd w) (w_uid w) (w_stm w) (w_log w)).
  destruct (Hdel (env_clock (w_clk w) - age) batch w1 Hk Hb) as (n & w2 & t & Hrun & _ & Hd & Hsub & Honly & Hsize & Hn & Hall).
  simpl in Hd, Hsub, Honly, Hsize. erewrite run_bind by exact Hrun. case_decide as Hlt.
  - exists w2, t. split; [done|]. split; [done|]. split; [done|]. split; [eauto|]. exists (w_clk w). by apply Hall.
  - assert (get (w_db w2) = t) as Ht by (by rewrite Hd, get_set).
    destruct (IH w2) as (w3 & t3 & Hrun3 & Hd3 & Hsub3 & Honly3 & Hall3); rewrite ?Ht.
    { intros k r Hr. apply Hk. by eapply lookup_weaken. }
    { done. }
    { lia. }
    rewrite Ht in Hsub3, Honly3. exists w3, t3. split; [done|]. split; [by rewrite Hd3, Hd, set_set|].
    split; [by etrans|]. split; [|done]. intros k r Hr Hn3. destruct (t !! k) as [r'|] eqn:E; [|eauto].
    assert (r' = r) as -> by (pose proof (lookup_weaken _ _ _ _ E Hsub); congruence). by eapply Honly3.
Qed.
End batch.

Section retention.
Context {libs : Libs} {env : Env}.

Lemma sessions_deleter : Quiet ->
  deleter sessions set_sessions Session.ID Repository.session_dead Repository.DeleteExpiredOrRevokedSessionsBefore.
Proof using.
  intros Hq before limit w Hk Hl. apply (select_then_delete sessions set_sessions Session.ID
    ltac:(by intros []) (Repository.session_dead before) Repository.session_end (fun m => m)); done.
Qed.

Lemma challenges_deleter : Quiet ->
  deleter mfa_login_challenges set_mfa_challenges MFALoginChallenge.TokenHash
    (fun before c => MFALoginChallenge.ExpiresAt c < before) MFARepository.DeleteExpiredMFAChallengesBefore.
Proof using.
  intros Hq before limit w Hk Hl. apply (select_then_delete mfa_login_challenges set_mfa_challenges MFALoginChallenge.TokenHash
    ltac:(by intros []) (fun c => MFALoginChallenge.ExpiresAt c < before)
    MFALoginChallenge.ExpiresAt (map_err (Errorf "delete expired mfa challenges"))); try done.
  intros. by apply run_map_err.
Qed.

Lemma resets_deleter : Quiet ->
  deleter password_reset_challenges set_reset_challenges PasswordResetChallenge.TokenHash
    (fun before c => PasswordResetChallenge.ExpiresAt c < before) MFARepository.DeleteExpiredPasswordResetChallengesBefore.
Proof using.
  intros Hq before limit w Hk Hl.
  apply (select_then_delete password_reset_challenges set_reset_challenges PasswordResetChallenge.TokenHash
    ltac:(by intros []) (fun c => PasswordResetChallenge.ExpiresAt c < before)
    PasswordResetChallenge.ExpiresAt (map_err (Errorf "delete expired password reset challenges"))); try done.
  intros. by apply run_map_err.
Qed.

End retention.

Section witnesses.
Import Concrete.
#[local] Instance env0 : Env := quiet (noon + 60 * 24 * Hour) 0.

End witnesses.
