(* ===== verification/Ledger.v ===== *)
(** * The ledger: an abstract specification of the stored identity data

    What a reader of the service's documentation has to know about its data,
    without versions, audit columns or statements: accounts, passwords,
    sessions, one-time tokens, second factors, recovery codes and
    announcements as small state machines ([user_move] .. [notice_move]),
    whose transitions are labelled with an [Event].  [ledger_step E] is one
    such transition, by an event that [E] allows, at one entry of one book of
    the ledger; [ledger] is the abstraction of a database.  A [Book] ties a
    table to its book, with the laws from which the effect of [UPDATE],
    [INSERT] and [DELETE] on the ledger follows once and for all. *)

From S2P Require Import Prelude.
From S2P Require Import GoStrings.
From S2P Require Import AppError.
From S2P Require Import Platform.
From S2P Require Import Table.
From S2P Require Import Model.
From S2P Require Import Runtime.
From S2P Require Import Repository.
From S2P Require Import MFARepository.
From S2P Require Import Evolution.
From S2P Require Import ServiceBase.
Open Scope Z_scope.

(** ** Events *)
Inductive Event :=
| UserRegistered (id : string)
| LoginFailed (id : string)
| LoginCleared (id : string)
| StatusSet (id status : string)
| ProfileSet (id : string)
| PasswordCreated (owner : string)
| PasswordSet (owner : string)
| SessionOpened (owner : string)
| SessionRotated (previous : string)
| SessionScoped (id owner tenant membership : string)
| SessionRevoked (id owner tenant : string)
| SessionPurged (before : Z)
| AccountCreated (id : string)
| AccountStatusSet (id status : string)
| AccountSecretSet (id : string)
| FactorEnrolled (owner : string)
| FactorEnabled (owner : string)
| FactorUsed (owner : string)
| FactorDisabled (owner : string)
| FactorReset (owner : string)
| CodeIssued (owner : string)
| CodeUsed (owner : string)
| CodeWithdrawn (owner : string)
| ChallengeIssued (owner : string)
| ChallengeSpent (token owner : string)
| ChallengePurged (before : Z)
| ResetIssued (owner : string)
| ResetUsed (token owner : string)
| ResetSuperseded (owner : string)
| ResetPurged (before : Z)
| Announced (subject : string).

(** ** Entries and their life cycles *)

Record UserEntry := mkUserEntry {
  ue_id : string; ue_name : string; ue_profile : string * string * string;
  ue_status : string; ue_failures : Z; ue_locked : option Z }.

(** Registered active; failures count one by one and lock the account from
    the threshold on; a login, or a change of status, clears them. *)
Inductive user_move : Event -> option UserEntry -> option UserEntry -> Prop :=
| user_registered id name profile :
    user_move (UserRegistered id) None (Some (mkUserEntry id name profile StatusActive 0 None))
| user_failed id name profile st n l until :
    user_move (LoginFailed id) (Some (mkUserEntry id name profile st n l))
      (Some (mkUserEntry id name profile st (n + 1)
               (if decide (loginFailureThreshold <= n + 1) then Some until else l)))
| user_cleared id name profile st n l :
    user_move (LoginCleared id) (Some (mkUserEntry id name profile st n l))
      (Some (mkUserEntry id name profile st 0 None))
| user_status id name profile st n l st' :
    user_move (StatusSet id st') (Some (mkUserEntry id name profile st n l))
      (Some (mkUserEntry id name profile st' 0 None))
| user_profile id name profile st n l profile' :
    user_move (ProfileSet id) (Some (mkUserEntry id name profile st n l))
      (Some (mkUserEntry id name profile' st n l)).

Record PasswordEntry := mkPasswordEntry { pe_owner : string; pe_type : string; pe_status : string; pe_hash : string }.

(** An active password is replaced by another one. *)
Inductive password_move : Event -> option PasswordEntry -> option PasswordEntry -> Prop :=
| password_created owner h :
    password_move (PasswordCreated owner) None (Some (mkPasswordEntry owner "password" StatusActive h))
| password_set owner h h' :
    password_move (PasswordSet owner) (Some (mkPasswordEntry owner "password" StatusActive h))
      (Some (mkPasswordEntry owner "password" StatusActive h')).

Inductive SessionEntry :=
| Live (id owner token tenant membership : string) (expires : Z)
| Ended (id owner : string) (expires at_ : Z).

(** Open, rotate the token or change the tenant while live, end once; the
    retention job removes what ended, or expired, before its limit. *)
Inductive session_move : Event -> option SessionEntry -> option SessionEntry -> Prop :=
| session_opened id owner token tenant membership expires :
    session_move (SessionOpened owner) None (Some (Live id owner token tenant membership expires))
| session_rotated id owner token token' tenant membership expires :
    session_move (SessionRotated token) (Some (Live id owner token tenant membership expires))
      (Some (Live id owner token' tenant membership expires))
| session_scoped id owner token tenant membership tenant' membership' expires :
    session_move (SessionScoped id owner tenant' membership') (Some (Live id owner token tenant membership expires))
      (Some (Live id owner token tenant' membership' expires))
| session_revoked id owner token tenant membership expires at_ :
    session_move (SessionRevoked id owner tenant) (Some (Live id owner token tenant membership expires))
      (Some (Ended id owner expires at_))
| session_purged_live id owner token tenant membership expires before :
    expires < before ->
    session_move (SessionPurged before) (Some (Live id owner token tenant membership expires)) None
| session_purged_ended id owner expires at_ before :
    at_ < before -> session_move (SessionPurged before) (Some (Ended id owner expires at_)) None.

Record AccountEntry := mkAccountEntry {
  ae_id : string; ae_client : string; ae_name : string; ae_audiences : string; ae_status : string; ae_secret : string }.

Inductive account_move : Event -> option AccountEntry -> option AccountEntry -> Prop :=
| account_created id client name auds h :
    account_move (AccountCreated id) None (Some (mkAccountEntry id client name auds StatusActive h))
| account_status id client name auds st h st' :
    account_move (AccountStatusSet id st') (Some (mkAccountEntry id client name auds st h))
      (Some (mkAccountEntry id client name auds st' h))
| account_secret id client name auds st h h' :
    account_move (AccountSecretSet id) (Some (mkAccountEntry id client name auds st h))
      (Some (mkAccountEntry id client name auds st h')).

Inductive FactorEntry :=
| Enrolling (owner secret : string)
| Active (owner secret : string) (step : Z)
| Off (owner : string).

(** A secret is enrolled, confirmed, used at strictly increasing steps and
    switched off; switching it off by a code needs a later step too. *)
Inductive factor_move : Event -> option FactorEntry -> option FactorEntry -> Prop :=
| factor_first owner secret : factor_move (FactorEnrolled owner) None (Some (Enrolling owner secret))
| factor_renewed owner secret secret' :
    factor_move (FactorEnrolled owner) (Some (Enrolling owner secret)) (Some (Enrolling owner secret'))
| factor_again owner secret : factor_move (FactorEnrolled owner) (Some (Off owner)) (Some (Enrolling owner secret))
| factor_enabled owner secret step :
    factor_move (FactorEnabled owner) (Some (Enrolling owner secret)) (Some (Active owner secret step))
| factor_used owner secret step step' :
    step < step' -> factor_move (FactorUsed owner) (Some (Active owner secret step)) (Some (Active owner secret step'))
| factor_disabled owner secret step step' :
    step < step' -> factor_move (FactorDisabled owner) (Some (Active owner secret step)) (Some (Off owner))
| factor_reset owner secret step : factor_move (FactorReset owner) (Some (Active owner secret step)) (Some (Off owner)).

Inductive CodeEntry := Fresh (owner hash : string) | Used (owner hash : string).
Definition code_owner (c : CodeEntry) : string := match c with Fresh o _ | Used o _ => o end.

Inductive code_move : Event -> option CodeEntry -> option CodeEntry -> Prop :=
| code_issued owner h : code_move (CodeIssued owner) None (Some (Fresh owner h))
| code_used owner h : code_move (CodeUsed owner) (Some (Fresh owner h)) (Some (Used owner h))
| code_withdrawn c : code_move (CodeWithdrawn (code_owner c)) (Some c) None.

(** One-time tokens: login challenges and password-reset tokens. *)
Inductive TokenEntry :=
| Pending (token owner : string) (expires : Z)
| Spent (token owner : string) (expires at_ : Z).
Definition expiry (t : TokenEntry) : Z := match t with Pending _ _ e | Spent _ _ e _ => e end.

Inductive challenge_move : Event -> option TokenEntry -> option TokenEntry -> Prop :=
| challenge_issued token owner expires :
    challenge_move (ChallengeIssued owner) None (Some (Pending token owner expires))
| challenge_spent token owner expires at_ :
    at_ < expires ->
    challenge_move (ChallengeSpent token owner) (Some (Pending token owner expires)) (Some (Spent token owner expires at_))
| challenge_purged t before : expiry t < before -> challenge_move (ChallengePurged before) (Some t) None.

Inductive reset_move : Event -> option TokenEntry -> option TokenEntry -> Prop :=
| reset_issued token owner expires : reset_move (ResetIssued owner) None (Some (Pending token owner expires))
| reset_used token owner expires at_ :
    at_ < expires ->
    reset_move (ResetUsed token owner) (Some (Pending token owner expires)) (Some (Spent token owner expires at_))
| reset_superseded token owner expires at_ :
    reset_move (ResetSuperseded owner) (Some (Pending token owner expires)) (Some (Spent token owner expires at_))
| reset_purged t before : expiry t < before -> reset_move (ResetPurged before) (Some t) None.

(** Announcements are only added. *)
Inductive notice_move : Event -> option (string * bytes) -> option (string * bytes) -> Prop :=
| announced subject envelope : notice_move (Announced subject) None (Some (subject, envelope)).

#[export] Hint Constructors user_move password_move session_move account_move factor_move code_move
  challenge_move reset_move notice_move : core.

(** ** The ledger *)
Record Ledger := mkLedger {
  l_users : gmap string UserEntry;
  l_passwords : gmap string PasswordEntry;
  l_sessions : gmap string SessionEntry;
  l_accounts : gmap string AccountEntry;
  l_notices : gmap (string * Z) (string * bytes);
  l_factors : gmap string FactorEntry;
  l_codes : gmap string CodeEntry;
  l_challenges : gmap string TokenEntry;
  l_resets : gmap string TokenEntry;
}.

Definition put_users v l := mkLedger v (l_passwords l) (l_sessions l) (l_accounts l) (l_notices l) (l_factors l)
  (l_codes l) (l_challenges l) (l_resets l).
Definition put_passwords v l := mkLedger (l_users l) v (l_sessions l) (l_accounts l) (l_notices l) (l_factors l)
  (l_codes l) (l_challenges l) (l_resets l).
Definition put_sessions v l := mkLedger (l_users l) (l_passwords l) v (l_accounts l) (l_notices l) (l_factors l)
  (l_codes l) (l_challenges l) (l_resets l).
Definition put_accounts v l := mkLedger (l_users l) (l_passwords l) (l_sessions l) v (l_notices l) (l_factors l)
  (l_codes l) (l_challenges l) (l_resets l).
Definition put_notices v l := mkLedger (l_users l) (l_passwords l) (l_sessions l) (l_accounts l) v (l_factors l)
  (l_codes l) (l_challenges l) (l_resets l).
Definition put_factors v l := mkLedger (l_users l) (l_passwords l) (l_sessions l) (l_accounts l) (l_notices l) v
  (l_codes l) (l_challenges l) (l_resets l).
Definition put_codes v l := mkLedger (l_users l) (l_passwords l) (l_sessions l) (l_accounts l) (l_notices l)
  (l_factors l) v (l_challenges l) (l_resets l).
Definition put_challenges v l := mkLedger (l_users l) (l_passwords l) (l_sessions l) (l_accounts l) (l_notices l)
  (l_factors l) (l_codes l) v (l_resets l).
Definition put_resets v l := mkLedger (l_users l) (l_passwords l) (l_sessions l) (l_accounts l) (l_notices l)
  (l_factors l) (l_codes l) (l_challenges l) v.

(** One move at one key of a book. *)
Inductive turns {K V} `{Countable K} (E : Event -> Prop) (move : Event -> option V -> option V -> Prop) (t : gmap K V)
  : gmap K V -> Prop :=
| turn e k v : E e -> move e (t !! k) v -> turns E move t (partial_alter (fun _ => v) k t).

Inductive ledger_step (E : Event -> Prop) (l : Ledger) : Ledger -> Prop :=
| on_users t : turns E user_move (l_users l) t -> ledger_step E l (put_users t l)
| on_passwords t : turns E password_move (l_passwords l) t -> ledger_step E l (put_passwords t l)
| on_sessions t : turns E session_move (l_sessions l) t -> ledger_step E l (put_sessions t l)
| on_accounts t : turns E account_move (l_accounts l) t -> ledger_step E l (put_accounts t l)
| on_notices t : turns E notice_move (l_notices l) t -> ledger_step E l (put_notices t l)
| on_factors t : turns E factor_move (l_factors l) t -> ledger_step E l (put_factors t l)
| on_codes t : turns E code_move (l_codes l) t -> ledger_step E l (put_codes t l)
| on_challenges t : turns E challenge_move (l_challenges l) t -> ledger_step E l (put_challenges t l)
| on_resets t : turns E reset_move (l_resets l) t -> ledger_step E l (put_resets t l).

(** ** Abstraction *)
Definition user_view (u : User.t) : UserEntry :=
  mkUserEntry (User.ID u) (User.Username u) (User.DisplayName u, User.Email u, User.Phone u)
    (User.Status u) (User.FailedLoginCount u) (User.LockedUntil u).
Definition password_view (c : Credential.t) : PasswordEntry :=
  mkPasswordEntry (Credential.UserID c) (Credential.Type_ c) (Credential.Status c) (Credential.SecretHash c).
Definition session_view (s : Session.t) : SessionEntry :=
  match Session.RevokedAt s with
  | None => Live (Session.ID s) (Session.UserID s) (Session.RefreshTokenHash s) (Session.TenantID s)
              (Session.MembershipID s) (Session.ExpiresAt s)
  | Some t => Ended (Session.ID s) (Session.UserID s) (Session.ExpiresAt s) t
  end.
Definition account_view (a : ServiceAccount.t) : AccountEntry :=
  mkAccountEntry (ServiceAccount.ID a) (ServiceAccount.ClientID a) (ServiceAccount.Name a)
    (ServiceAccount.AudiencesJSON a) (ServiceAccount.Status a) (ServiceAccount.SecretHash a).
Definition notice_view (e : OutboxEvent.t) : string * bytes := (OutboxEvent.Subject e, OutboxEvent.Envelope e).
Definition factor_view (m : MFAEnrollment.t) : FactorEntry :=
  if decide (MFAEnrollment.Status m = MFAStatusEnabled)
  then Active (MFAEnrollment.UserID m) (MFAEnrollment.SecretCiphertext m) (MFAEnrollment.LastUsedStep m)
  else if decide (MFAEnrollment.Status m = MFAStatusPending)
  then Enrolling (MFAEnrollment.UserID m) (MFAEnrollment.SecretCiphertext m)
  else Off (MFAEnrollment.UserID m).
Definition code_view (c : MFARecoveryCode.t) : CodeEntry :=
  match MFARecoveryCode.ConsumedAt c with
  | None => Fresh (MFARecoveryCode.UserID c) (MFARecoveryCode.CodeHash c)
  | Some _ => Used (MFARecoveryCode.UserID c) (MFARecoveryCode.CodeHash c)
  end.
Definition challenge_view (c : MFALoginChallenge.t) : TokenEntry :=
  match MFALoginChallenge.ConsumedAt c with
  | None => Pending (MFALoginChallenge.TokenHash c) (MFALoginChallenge.UserID c) (MFALoginChallenge.ExpiresAt c)
  | Some t => Spent (MFALoginChallenge.TokenHash c) (MFALoginChallenge.UserID c) (MFALoginChallenge.ExpiresAt c) t
  end.
Definition reset_view (c : PasswordResetChallenge.t) : TokenEntry :=
  match PasswordResetChallenge.ConsumedAt c with
  | None => Pending (PasswordResetChallenge.TokenHash c) (PasswordResetChallenge.UserID c) (PasswordResetChallenge.ExpiresAt c)
  | Some t => Spent (PasswordResetChallenge.TokenHash c) (PasswordResetChallenge.UserID c) (PasswordResetChallenge.ExpiresAt c) t
  end.

Definition ledger (d : DB) : Ledger :=
  mkLedger (user_view <$> users d) (password_view <$> credentials d) (session_view <$> sessions d)
    (account_view <$> service_accounts d) (notice_view <$> outbox_events d) (factor_view <$> user_mfa d)
    (code_view <$> mfa_recovery_codes d) (challenge_view <$> mfa_login_challenges d)
    (reset_view <$> password_reset_challenges d).

(** [d'] is reached from [d] by events that [E] allows. *)
Definition obeys (E : Event -> Prop) (d d' : DB) : Prop := rtc (ledger_step E) (ledger d) (ledger d').
#[export] Instance obeys_preorder E : PreOrder (obeys E).
Proof. split; [intros d; apply rtc_refl | intros d1 d2 d3; apply (@transitivity _ (rtc (ledger_step E)) _)]. Qed.

Lemma ledger_step_mono (E E' : Event -> Prop) l l' :
  (forall e, E e -> E' e) -> ledger_step E l l' -> ledger_step E' l l'.
Proof. intros HE []; constructor; match goal with H : turns _ _ _ _ |- _ => destruct H end; econstructor; eauto. Qed.

Lemma obeys_mono (E E' : Event -> Prop) d d' : (forall e, E e -> E' e) -> obeys E d d' -> obeys E' d d'.
Proof. intros HE. apply rtc_subrel. intros l l'. by apply ledger_step_mono. Qed.

(** What every move guarantees holds of every change. *)
Lemma obeys_ind (E : Event -> Prop) (R : relation Ledger) `{!PreOrder R} d d' :
  (forall l l', ledger_step E l l' -> R l l') -> obeys E d d' -> R (ledger d) (ledger d').
Proof.
  intros HR H. unfold obeys in H. induction H as [l|l1 l2 l3 H12 _ IH]; [reflexivity|]. etrans; [by apply HR|exact IH].
Qed.

(** ** Sequences of moves in one book *)
Section turns.
Context {K V : Type} `{Countable K} (E : Event -> Prop) (move : Event -> option V -> option V -> Prop).
Implicit Types t : gmap K V.

Definition moved (v v' : option V) : Prop := v = v' \/ exists e, E e /\ move e v v'.

Lemma turns_on (X : gset K) t t' :
  (forall k, k ∉ X -> t !! k = t' !! k) -> (forall k, k ∈ X -> moved (t !! k) (t' !! k)) -> rtc (turns E move) t t'.
Proof using.
  revert t. induction X as [|x X Hx IH] using set_ind_L; intros t Hout Hin.
  { replace t' with t; [apply rtc_refl|]. apply map_eq. intros k. apply Hout, not_elem_of_empty. }
  assert (forall t1, (forall k, k <> x -> t1 !! k = t !! k) -> t1 !! x = t' !! x -> rtc (turns E move) t1 t') as Hgo.
  { intros t1 Hne Heq. apply IH; intros k Hk; destruct (decide (k = x)) as [->|Hkx]; [done| |done|].
    - rewrite Hne by done. apply Hout. revert Hk Hkx. clear. set_solver.
    - rewrite Hne by done. apply Hin. revert Hk. clear. set_solver. }
  destruct (Hin x) as [Heq|(e & HE & Hm)]; [clear; set_solver|by apply Hgo|].
  eapply rtc_l; [by apply (turn E move t e x (t' !! x))|].
  apply Hgo; [|by rewrite lookup_partial_alter_eq]. intros k Hk. by rewrite lookup_partial_alter_ne.
Qed.

(** Entries that each moved at most once. *)
Lemma turns_pointwise t t' : (forall k, moved (t !! k) (t' !! k)) -> rtc (turns E move) t t'.
Proof using.
  intros Hm. apply (turns_on (dom t ∪ dom t')); [|auto]. intros k Hk.
  rewrite not_elem_of_union, !not_elem_of_dom in Hk. by destruct Hk as [-> ->].
Qed.
End turns.

(** ** Books of tables *)
Record Book (K A V : Type) `{Countable K} := mkBook {
  tab : DB -> gmap K A;
  set_tab : gmap K A -> DB -> DB;
  view : A -> V;
  move : Event -> option V -> option V -> Prop;
  put : gmap K V -> Ledger -> Ledger;
  book_get d : put (view <$> tab d) (ledger d) = ledger d;
  book_set t d : ledger (set_tab t d) = put (view <$> t) (ledger d);
  book_step E l t t' : turns E move t t' -> ledger_step E (put t l) (put t' l);
}.
Arguments tab {_ _ _ _ _}.
Arguments set_tab {_ _ _ _ _}.
Arguments view {_ _ _ _ _}.
Arguments move {_ _ _ _ _}.
Arguments put {_ _ _ _ _}.

Section book.
Context {K A V : Type} `{Countable K} (b : Book K A V) (E : Event -> Prop).

Lemma book_moves d t' :
  (forall k, moved E (move b) (view b <$> tab b d !! k) (view b <$> t' !! k)) -> obeys E d (set_tab b t' d).
Proof using.
  intros Hm. unfold obeys. rewrite book_set, <-(book_get _ _ _ b d) at 1.
  apply (rtc_congruence (R := turns E (move b)) (fun t => put b t (ledger d))); [intros; by apply book_step|].
  apply turns_pointwise. intros k. rewrite !lookup_fmap. apply Hm.
Qed.

(** [INSERT] of a new row. *)
Lemma book_insert e k r d :
  tab b d !! k = None -> E e -> move b e None (Some (view b r)) -> obeys E d (set_tab b (<[k := r]> (tab b d)) d).
Proof using.
  intros Hn HE Hm. apply book_moves. intros k'. destruct (decide (k' = k)) as [->|Hk].
  - rewrite lookup_insert_eq, Hn. right. eauto.
  - rewrite lookup_insert_ne by done. by left.
Qed.
End book.

Section string_book.
Context {A V : Type} (b : Book string A V) (E : Event -> Prop).

(** [UPDATE .. SET f WHERE p]. *)
Lemma book_update {sql : SQLServer} p `{Hp : !forall r, Decision (p r)} f ok d d' n :
  update_table (tab b) (set_tab b) p f ok d = Ok (d', n) ->
  (forall r r', p r -> f r = Some r' -> exists e, E e /\ move b e (Some (view b r)) (Some (view b r'))) -> obeys E d d'.
Proof using.
  intros (t' & Hu & _ & ->)%update_table_Ok Hf. apply book_moves. intros k.
  rewrite (sql_update_lookup _ _ _ _ _ k Hu). destruct (tab b d !! k) as [r|] eqn:Er; simpl; [|by left].
  destruct (sql_update_forward _ _ _ _ _ _ _ Hu Er) as (r' & _ & Hr). rewrite Hr. unfold update_row in Hr.
  case_decide; [right; by apply Hf|left; by simplify_eq].
Qed.

(** [DELETE .. WHERE p]. *)
Lemma book_delete p `{Hp : !forall r, Decision (p r)} d d' n :
  delete_table (tab b) (set_tab b) p d = Ok (d', n) ->
  (forall r, p r -> exists e, E e /\ move b e (Some (view b r)) None) -> obeys E d d'.
Proof using.
  intros [= <- _] Hf. apply (book_moves b). intros k. pose proof (sql_delete_lookup p (tab b d) k) as Hk.
  unfold sql_delete in Hk. simpl in Hk. rewrite Hk. destruct (tab b d !! k) as [r|]; simpl; [|by left].
  case_decide; simpl; [right; by apply Hf|by left].
Qed.
End string_book.

(** *** The nine books *)

Definition user_book : Book string User.t UserEntry :=
  mkBook _ _ _ _ _ users set_users user_view user_move put_users
    (fun _ => eq_refl) (fun _ _ => eq_refl) (fun E l t t' H => on_users E (put_users t l) t' H).
Definition password_book : Book string Credential.t PasswordEntry :=
  mkBook _ _ _ _ _ credentials set_credentials password_view password_move put_passwords
    (fun _ => eq_refl) (fun _ _ => eq_refl) (fun E l t t' H => on_passwords E (put_passwords t l) t' H).
Definition session_book : Book string Session.t SessionEntry :=
  mkBook _ _ _ _ _ sessions set_sessions session_view session_move put_sessions
    (fun _ => eq_refl) (fun _ _ => eq_refl) (fun E l t t' H => on_sessions E (put_sessions t l) t' H).
Definition account_book : Book string ServiceAccount.t AccountEntry :=
  mkBook _ _ _ _ _ service_accounts set_service_accounts account_view account_move put_accounts
    (fun _ => eq_refl) (fun _ _ => eq_refl) (fun E l t t' H => on_accounts E (put_accounts t l) t' H).
Definition notice_book : Book (string * Z) OutboxEvent.t (string * bytes) :=
  mkBook _ _ _ _ _ outbox_events set_outbox notice_view notice_move put_notices
    (fun _ => eq_refl) (fun _ _ => eq_refl) (fun E l t t' H => on_notices E (put_notices t l) t' H).
Definition factor_book : Book string MFAEnrollment.t FactorEntry :=
  mkBook _ _ _ _ _ user_mfa set_user_mfa factor_view factor_move put_factors
    (fun _ => eq_refl) (fun _ _ => eq_refl) (fun E l t t' H => on_factors E (put_factors t l) t' H).
Definition code_book : Book string MFARecoveryCode.t CodeEntry :=
  mkBook _ _ _ _ _ mfa_recovery_codes set_recovery code_view code_move put_codes
    (fun _ => eq_refl) (fun _ _ => eq_refl) (fun E l t t' H => on_codes E (put_codes t l) t' H).
Definition challenge_book : Book string MFALoginChallenge.t TokenEntry :=
  mkBook _ _ _ _ _ mfa_login_challenges set_mfa_challenges challenge_view challenge_move put_challenges
    (fun _ => eq_refl) (fun _ _ => eq_refl) (fun E l t t' H => on_challenges E (put_challenges t l) t' H).
Definition reset_book : Book string PasswordResetChallenge.t TokenEntry :=
  mkBook _ _ _ _ _ password_reset_challenges set_reset_challenges reset_view reset_move put_resets
    (fun _ => eq_refl) (fun _ _ => eq_refl) (fun E l t t' H => on_resets E (put_resets t l) t' H).
