(* ===== verification/LedgerSteps.v ===== *)
(** * What each write of the repository is in the ledger

    Every method of the repository that writes, as a statement of a
    transaction ([TxSteps]) or on its own ([Steps]), takes the ledger along
    the moves that its name says, by the events its hypothesis allows.  The
    lemmas are hints; [solve_obeys] follows the structure of the service code
    and keeps what a read or a check established before a write. *)

From S2P Require Import Prelude.
From S2P Require Import GoStrings.
From S2P Require Import AppError.
From S2P Require Import Platform.
From S2P Require Import Table.
From S2P Require Import Model.
From S2P Require Import Runtime.
From S2P Require Import Repository.
From S2P Require Import MFARepository.
From S2P Require Import Evolution.
From S2P Require Import Guarantee.
From S2P Require Import Inversion.
From S2P Require Import ServiceBase.
From S2P Require Import Sessions.
From S2P Require Import MFAService.
From S2P Require Import EnrolmentSpec.
From S2P Require Import Ledger.
Open Scope Z_scope.

(** [UPDATE] through a book: the selected row [r], the event, the move. *)
Ltac through b :=
  solve_txsteps; eapply (book_update b); [eassumption|];
  let r := fresh "r" in let P := fresh "P" in let F := fresh "F" in
  intros r ? P F; cbn beta in P, F;
  unfold MFARepository.mfa_set, MFARepository.consume_reset, Repository.revoke_row, Repository.reset_failure in F;
  apply bind_Some in F as (? & _ & [= <-]); destruct r; simpl in P; destruct_and?; simplify_eq;
  eexists; split; [by eauto|].

(** [INSERT] through a book. *)
Ltac enters b :=
  solve_txsteps; match goal with H : _ = Ok _ |- _ => revert H end;
  unfold Repository.insert_user, Repository.insert_credential, Repository.insert_outbox, Repository.insert_session,
    Repository.insert_account, MFARepository.insert_mfa, MFARepository.insert_code,
    MFARepository.insert_mfa_challenge, MFARepository.insert_reset;
  repeat (case_decide; try done); intros [= <- _];
  repeat match goal with H : ~ (_ \/ _) |- _ => apply Decidable.not_or in H as [? _] end;
  eapply (book_insert b); [by apply eq_None_not_Some| |by constructor]; by eauto.

Section writes.
Context {libs : Libs} {env : Env} (E : Event -> Prop).

Lemma CreateUser_obeys id n dn e p f cid h :
  E (UserRegistered id) -> E (PasswordCreated id) ->
  TxSteps (obeys E) (Repository.CreateUser (User.mk id n dn e p StatusActive 0 None f)
                       (Credential.mk cid id "password" h StatusActive f)).
Proof using.
  intros HU HP. unfold Repository.CreateUser. apply TxSteps_bind; [apply _| |intros _].
  - enters user_book.
  - enters password_book.
Qed.
Lemma InsertOutbox_obeys e : E (Announced (OutboxEvent.Subject e)) -> TxSteps (obeys E) (Repository.InsertOutbox e).
Proof using. intros HE. unfold Repository.InsertOutbox. enters notice_book. Qed.
Lemma UpdatePasswordCredential_obeys id h a v n :
  (forall o, E (PasswordSet o)) -> TxSteps (obeys E) (Repository.UpdatePasswordCredential id h a v n).
Proof using. intros HE. unfold Repository.UpdatePasswordCredential. through password_book. constructor. Qed.
Lemma UpdateUserStatus_obeys id st a v n : E (StatusSet id st) -> TxSteps (obeys E) (Repository.UpdateUserStatus id st a v n).
Proof using. intros HE. unfold Repository.UpdateUserStatus. through user_book. constructor. Qed.
Lemma UpdateUserProfile_obeys id dn em ph a v n :
  E (ProfileSet id) -> TxSteps (obeys E) (Repository.UpdateUserProfile id dn em ph a v n).
Proof using. intros HE. unfold Repository.UpdateUserProfile. through user_book. constructor. Qed.

Lemma CreateSession_obeys x : E (SessionOpened (Session.UserID x)) -> TxSteps (obeys E) (Repository.CreateSession x).
Proof using. intros HE. unfold Repository.CreateSession. enters session_book. Qed.
Lemma RotateSession_obeys x h : E (SessionRotated h) -> TxSteps (obeys E) (Repository.RotateSession x h).
Proof using. intros HE. unfold Repository.RotateSession. through session_book. constructor. Qed.
Lemma ScopeSession_obeys sid u t m a n : E (SessionScoped sid u t m) -> TxSteps (obeys E) (Repository.ScopeSession sid u t m a n).
Proof using. intros HE. unfold Repository.ScopeSession. through session_book. constructor. Qed.
Lemma RevokeSession_obeys id u r a n :
  (forall t, E (SessionRevoked id u t)) -> TxSteps (obeys E) (Repository.RevokeSession id u r a n).
Proof using. intros HE. unfold Repository.RevokeSession. through session_book. constructor. Qed.
Lemma RevokeOtherSessions_obeys u c r a n :
  (forall id t, id <> c -> E (SessionRevoked id u t)) -> TxSteps (obeys E) (Repository.RevokeOtherSessions u c r a n).
Proof using. intros HE. unfold Repository.RevokeOtherSessions. through session_book. constructor. Qed.
Lemma RevokeUserSessions_obeys u r a n :
  (forall id t, E (SessionRevoked id u t)) -> TxSteps (obeys E) (Repository.RevokeUserSessions u r a n).
Proof using. intros HE. unfold Repository.RevokeUserSessions. through session_book. constructor. Qed.
Lemma RevokeSessionByID_obeys id r a v n :
  (forall o t, E (SessionRevoked id o t)) -> TxSteps (obeys E) (Repository.RevokeSessionByID id r a v n).
Proof using. intros HE. unfold Repository.RevokeSessionByID. through session_book. constructor. Qed.
Lemma RevokeOwnedSessionByID_obeys id u r a v n :
  (forall t, E (SessionRevoked id u t)) -> TxSteps (obeys E) (Repository.RevokeOwnedSessionByID id u r a v n).
Proof using. intros HE. unfold Repository.RevokeOwnedSessionByID. through session_book. constructor. Qed.

Lemma CreateServiceAccount_obeys id c n h j auds f :
  E (AccountCreated id) -> TxSteps (obeys E) (Repository.CreateServiceAccount (ServiceAccount.mk id c n h StatusActive j auds f)).
Proof using. intros HE. unfold Repository.CreateServiceAccount. enters account_book. Qed.
Lemma UpdateServiceAccountStatus_obeys id st a v n :
  E (AccountStatusSet id st) -> TxSteps (obeys E) (Repository.UpdateServiceAccountStatus id st a v n).
Proof using. intros HE. unfold Repository.UpdateServiceAccountStatus. through account_book. constructor. Qed.
Lemma RotateServiceAccountSecret_obeys id h a v n :
  E (AccountSecretSet id) -> TxSteps (obeys E) (Repository.RotateServiceAccountSecret id h a v n).
Proof using. intros HE. unfold Repository.RotateServiceAccountSecret. through account_book. constructor. Qed.

(** *** Second factors and recovery codes *)

Lemma InsertMFA_obeys u m sec st f :
  E (FactorEnrolled u) -> TxSteps (obeys E) (MFARepository.InsertMFA (MFAEnrollment.mk u m sec MFAStatusPending st None f)).
Proof using. intros HE. unfold MFARepository.InsertMFA. enters factor_book. Qed.
Lemma ResetPendingMFA_obeys u c a v n : E (FactorEnrolled u) -> TxSteps (obeys E) (MFARepository.ResetPendingMFA u c a v n).
Proof using.
  intros HE. unfold MFARepository.ResetPendingMFA. through factor_book. simpl. unfold factor_view. simpl.
  rewrite decide_False by done. case_decide; constructor.
Qed.
Lemma EnableMFA_obeys u st a v n : E (FactorEnabled u) -> TxSteps (obeys E) (MFARepository.EnableMFA u st a v n).
Proof using. intros HE. unfold MFARepository.EnableMFA. through factor_book. constructor. Qed.
Lemma DisableMFA_obeys u st a v n : E (FactorDisabled u) -> TxSteps (obeys E) (MFARepository.DisableMFA u st a v n).
Proof using. intros HE. unfold MFARepository.DisableMFA. through factor_book. by econstructor. Qed.
Lemma AdminResetMFA_obeys u a v n : E (FactorReset u) -> TxSteps (obeys E) (MFARepository.AdminResetMFA u a v n).
Proof using. intros HE. unfold MFARepository.AdminResetMFA. through factor_book. constructor. Qed.
Lemma AdvanceMFAStep_obeys u st a n : E (FactorUsed u) -> TxSteps (obeys E) (MFARepository.AdvanceMFAStep u st a n).
Proof using. intros HE. unfold MFARepository.AdvanceMFAStep. through factor_book. by constructor. Qed.
Lemma AdvanceMFAStepAtVersion_obeys u st a v n :
  E (FactorUsed u) -> TxSteps (obeys E) (MFARepository.AdvanceMFAStepAtVersion u st a v n).
Proof using. intros HE. unfold MFARepository.AdvanceMFAStepAtVersion. through factor_book. by constructor. Qed.

Lemma delete_codes_obeys u d d' n : E (CodeWithdrawn u) -> MFARepository.delete_codes u d = Ok (d', n) -> obeys E d d'.
Proof using.
  intros HE Hd. eapply (book_delete code_book); [exact Hd|]. intros c <-. exists (CodeWithdrawn (MFARecoveryCode.UserID c)).
  split; [done|]. replace (MFARecoveryCode.UserID c) with (code_owner (code_view c)); [constructor|].
  unfold code_view. by destruct (MFARecoveryCode.ConsumedAt c).
Qed.
Lemma DeleteRecoveryCodes_obeys u : E (CodeWithdrawn u) -> TxSteps (obeys E) (MFARepository.DeleteRecoveryCodes u).
Proof using. intros HE. unfold MFARepository.DeleteRecoveryCodes. solve_txsteps. by eapply delete_codes_obeys. Qed.
Lemma insert_codes_obeys l :
  Forall (fun c => E (CodeIssued (MFARecoveryCode.UserID c))) l -> TxSteps (obeys E) (MFARepository.insert_codes l).
Proof using.
  induction 1 as [|c l HE _ IH]; cbn [MFARepository.insert_codes]; [solve_txsteps|].
  apply TxSteps_bind; [apply _| |done]. enters code_book.
Qed.
Lemma ReplaceRecoveryCodes_obeys u l :
  Forall (fun c => MFARecoveryCode.UserID c = u) l -> E (CodeWithdrawn u) -> E (CodeIssued u) ->
  TxSteps (obeys E) (MFARepository.ReplaceRecoveryCodes l).
Proof using.
  intros Hu HW HI. unfold MFARepository.ReplaceRecoveryCodes. destruct l as [|c l]; [solve_txsteps|].
  apply TxSteps_bind; [apply _| |intros _; apply insert_codes_obeys].
  - solve_txsteps. eapply delete_codes_obeys; [|eassumption]. by inversion_clear Hu; subst.
  - eapply Forall_impl; [exact Hu|]. by intros ? ->.
Qed.
Lemma ConsumeRecoveryCode_obeys u h a n : E (CodeUsed u) -> TxSteps (obeys E) (MFARepository.ConsumeRecoveryCode u h a n).
Proof using. intros HE. unfold MFARepository.ConsumeRecoveryCode. through code_book. constructor. Qed.

(** *** One-time tokens *)

Lemma InsertMFAChallenge_obeys x :
  E (ChallengeIssued (MFALoginChallenge.UserID x)) -> TxSteps (obeys E) (MFARepository.InsertMFAChallenge x).
Proof using. intros HE. unfold MFARepository.InsertMFAChallenge. enters challenge_book. Qed.
Lemma ConsumeMFAChallenge_obeys h a v n :
  (forall o, E (ChallengeSpent h o)) -> TxSteps (obeys E) (MFARepository.ConsumeMFAChallenge h a v n).
Proof using. intros HE. unfold MFARepository.ConsumeMFAChallenge. through challenge_book. by constructor. Qed.
Lemma InsertPasswordResetChallenge_obeys x :
  E (ResetIssued (PasswordResetChallenge.UserID x)) -> TxSteps (obeys E) (MFARepository.InsertPasswordResetChallenge x).
Proof using. intros HE. unfold MFARepository.InsertPasswordResetChallenge. enters reset_book. Qed.
Lemma InvalidatePasswordResetChallenges_obeys u a n :
  E (ResetSuperseded u) -> TxSteps (obeys E) (MFARepository.InvalidatePasswordResetChallenges u a n).
Proof using. intros HE. unfold MFARepository.InvalidatePasswordResetChallenges. through reset_book. constructor. Qed.
Lemma ConsumePasswordResetChallenge_obeys h v a n :
  (forall o, E (ResetUsed h o)) -> TxSteps (obeys E) (MFARepository.ConsumePasswordResetChallenge h v a n).
Proof using. intros HE. unfold MFARepository.ConsumePasswordResetChallenge. through reset_book. by constructor. Qed.

(** *** Autocommitted writes *)

Lemma RecordFailedLogin_obeys u l n :
  E (LoginFailed u) -> Steps (obeys E) (Repository.RecordFailedLogin u loginFailureThreshold l n).
Proof using.
  intros HE. unfold Repository.RecordFailedLogin. apply Steps_bind; [|intros; apply ReadOnly_Steps, ReadOnly_ret].
  apply Steps_map_err, Steps_db_exec. intros d d' k H. eapply (book_update user_book); [exact H|].
  intros r r' <- (_ & f & _ & ->)%record_failure_Some. exists (LoginFailed (User.ID r)).
  split; [done|]. destruct r. constructor.
Qed.
Lemma ResetFailedLogin_obeys u n : E (LoginCleared u) -> Steps (obeys E) (Repository.ResetFailedLogin u n).
Proof using.
  intros HE. unfold Repository.ResetFailedLogin. apply Steps_bind; [|intros; apply ReadOnly_Steps, ReadOnly_ret].
  apply Steps_map_err, Steps_db_exec. intros d d' k H. eapply (book_update user_book); [exact H|].
  intros r r' [<- _] (f & _ & [= <-])%bind_Some. exists (LoginCleared (User.ID r)). split; [done|]. destruct r. constructor.
Qed.
Lemma RevokeTenantSessions_obeys u t r a n :
  (forall id, E (SessionRevoked id u t)) -> Steps (obeys E) (Repository.RevokeTenantSessions u t r a n).
Proof using.
  intros HE. unfold Repository.RevokeTenantSessions. apply Steps_map_err, Steps_db_exec. intros d d' k H.
  eapply (book_update session_book); [exact H|]. intros x x' (<- & <- & Hl) (f & _ & [= <-])%bind_Some.
  exists (SessionRevoked (Session.ID x) (Session.UserID x) (Session.TenantID x)). split; [done|].
  destruct x; simpl in Hl; subst. constructor.
Qed.

(** *** The retention jobs *)

Lemma DeleteSessions_obeys before limit :
  E (SessionPurged before) -> Steps (obeys E) (Repository.DeleteExpiredOrRevokedSessionsBefore before limit).
Proof using.
  intros HE. unfold Repository.DeleteExpiredOrRevokedSessionsBefore. solve_steps. apply Steps_db_exec. intros d d' k H.
  eapply (book_delete session_book); [exact H|]. intros x [_ Hx]. exists (SessionPurged before). split; [done|].
  unfold Repository.session_dead in Hx. simpl. unfold session_view. destruct (Session.RevokedAt x); by constructor.
Qed.
Lemma DeleteChallenges_obeys before limit :
  E (ChallengePurged before) -> Steps (obeys E) (MFARepository.DeleteExpiredMFAChallengesBefore before limit).
Proof using.
  intros HE. unfold MFARepository.DeleteExpiredMFAChallengesBefore. solve_steps. apply Steps_db_exec. intros d d' k H.
  eapply (book_delete challenge_book); [exact H|]. intros x [_ Hx]. exists (ChallengePurged before). split; [done|].
  constructor. simpl. unfold challenge_view. by destruct (MFALoginChallenge.ConsumedAt x).
Qed.
Lemma DeleteResets_obeys before limit :
  E (ResetPurged before) -> Steps (obeys E) (MFARepository.DeleteExpiredPasswordResetChallengesBefore before limit).
Proof using.
  intros HE. unfold MFARepository.DeleteExpiredPasswordResetChallengesBefore. solve_steps. apply Steps_db_exec.
  intros d d' k H. eapply (book_delete reset_book); [exact H|]. intros x [_ Hx]. exists (ResetPurged before). split; [done|].
  constructor. simpl. unfold reset_view. by destruct (PasswordResetChallenge.ConsumedAt x).
Qed.
End writes.

#[export] Hint Resolve CreateUser_obeys InsertOutbox_obeys UpdatePasswordCredential_obeys UpdateUserStatus_obeys UpdateUserProfile_obeys CreateSession_obeys RotateSession_obeys ScopeSession_obeys RevokeSession_obeys RevokeOtherSessions_obeys RevokeUserSessions_obeys RevokeSessionByID_obeys RevokeOwnedSessionByID_obeys CreateServiceAccount_obeys UpdateServiceAccountStatus_obeys RotateServiceAccountSecret_obeys InsertMFA_obeys ResetPendingMFA_obeys EnableMFA_obeys DisableMFA_obeys AdminResetMFA_obeys AdvanceMFAStep_obeys AdvanceMFAStepAtVersion_obeys DeleteRecoveryCodes_obeys ReplaceRecoveryCodes_obeys ConsumeRecoveryCode_obeys InsertMFAChallenge_obeys ConsumeMFAChallenge_obeys InsertPasswordResetChallenge_obeys InvalidatePasswordResetChallenges_obeys ConsumePasswordResetChallenge_obeys : txsteps.
#[export] Hint Resolve RecordFailedLogin_obeys ResetFailedLogin_obeys RevokeTenantSessions_obeys DeleteSessions_obeys DeleteChallenges_obeys DeleteResets_obeys : steps.

(** ** Sequencing with what was established before *)
Section sequencing.
Context {libs : Libs} {env : Env} (G : relation DB) {Gpre : PreOrder G}.

Lemma Steps_bind_run {A B} (m : M A) (k : A -> M B) :
  Steps G m -> (forall w a w', m w = (Ok a, w') -> Steps G (k a)) -> Steps G (m ≫= k).
Proof using.
  intros Hm Hk w. unfold mbind, M_bind. destruct (Hm w) as (l & Hl & HG).
  destruct (m w) as [[a|e] w1] eqn:Em; simpl in *; [|eauto].
  destruct (Hk w a w1 Em w1) as (l' & Hl' & HG'). exists (l ++ l'). split; [|by apply Forall_app].
  by rewrite Hl', Hl, app_assoc.
Qed.

Lemma TxSteps_bind_run {A B} (m : M A) (k : A -> M B) :
  TxSteps G m -> (forall w a w', m w = (Ok a, w') -> TxSteps G (k a)) -> TxSteps G (m ≫= k).
Proof using Gpre.
  intros Hm Hk w. unfold mbind, M_bind. specialize (Hm w).
  destruct (m w) as [[a|e] w1] eqn:Em; simpl in *; [|done]. etrans; [exact Hm|]. by eapply Hk.
Qed.

Lemma newOutboxEvent_subject ctx subject ty id t payload w e w' :
  newOutboxEvent ctx subject ty id t payload w = (Ok e, w') -> OutboxEvent.Subject e = subject.
Proof using. unfold newOutboxEvent. intros H. inv_run H. by subst. Qed.

Lemma recovery_rows_owner u f hs w l w' :
  MFA.recovery_rows u f hs w = (Ok l, w') -> Forall (fun c => MFARecoveryCode.UserID c = u) l.
Proof using. intros [HF _]%recovery_rows_Ok. eapply Forall_impl; [exact HF|]. by intros c []. Qed.
End sequencing.

(** What is kept of a call [H : m w = (Ok a, w')]. *)
Ltac learn H :=
  lazymatch type of H with
  | map_err _ _ _ = _ => apply map_err_Ok in H; learn H
  | lift _ _ = _ => apply lift_Ok in H as [H _]
  | get_row _ _ _ _ = _ => apply get_row_Ok in H as (_ & H & _)
  | Repository.GetSession _ _ _ = _ => unfold Repository.GetSession in H; learn H
  | Repository.GetSessionByID _ _ = _ => unfold Repository.GetSessionByID in H; learn H
  | MFA.requireMFAUser _ _ = _ => apply requireMFAUser_Ok in H as [[H _] _]
  | MFA.recovery_rows _ _ _ _ = _ => apply recovery_rows_owner in H
  | MFA.mfa_event _ _ _ _ _ = _ => unfold MFA.mfa_event in H; learn H
  | Sessions.revoked_event _ _ _ _ _ = _ => unfold Sessions.revoked_event in H; learn H
  | newOutboxEvent _ _ _ _ _ _ _ = _ => apply newOutboxEvent_subject in H
  | now _ = _ => apply now_reading in H
  | _ => clear H
  end.
Ltac learns := let w := fresh "w" in let a := fresh "a" in let w' := fresh "w" in let H := fresh "L" in
  intros w a w' H; learn H.

Ltac tx_obeys_step :=
  match goal with
  | |- TxSteps _ (mbind _ _) => apply TxSteps_bind_run; [apply _| |learns]
  | |- _ => txsteps_step
  end.
Ltac solve_tx_obeys := repeat tx_obeys_step.

Ltac obeys_step :=
  match goal with
  | |- Steps _ (mbind _ _) => apply Steps_bind_run; [|learns]
  | |- Steps _ (Within _ _) => apply Steps_Within; [solve_readonly | solve_tx_obeys]
  | |- _ => steps_step
  end.
Ltac solve_obeys := repeat obeys_step.
