(* ===== verification/LedgerSpec.v ===== *)
(** * The service refines the ledger

    [permits r] is the specification of a request: the events it may cause,
    with the entries they may concern (the caller's own, those of the user or
    session named in the request, those of the presented token).  The
    theorems say that every atomic change of a request, in any environment, is
    a sequence of permitted moves of the ledger, that the retention jobs only
    purge what is past its retention, and what follows for whole runs. *)

From S2P Require Import Prelude.
From S2P Require Import GoStrings.
From S2P Require Import AppError.
From S2P Require Import Platform.
From S2P Require Import Table.
From S2P Require Import Model.
From S2P Require Import Runtime.
From S2P Require Import Repository.
From S2P Require Import MFARepository.
From S2P Require Import Evolution.
From S2P Require Import Guarantee.
From S2P Require Import Inversion.
From S2P Require Import Password.
From S2P Require Import Token.
From S2P Require Import MFACrypto.
From S2P Require Import ServiceBase.
From S2P Require Import Concrete.
From S2P Require Import Sessions.
From S2P Require Import Users.
From S2P Require Import ServiceAccounts.
From S2P Require Import MFAService.
From S2P Require Import PasswordReset.
From S2P Require Import Cleanup.
From S2P Require Import System.
From S2P Require Import SystemSpec.
From S2P Require Import SessionsSpec.
From S2P Require Import UsersSpec.
From S2P Require Import MFASpec.
From S2P Require Import Ledger.
From S2P Require Import LedgerSteps.
Open Scope Z_scope.

Section permits.
Context {libs : Libs}.

(** The authenticated principal of the request satisfies [P]. *)
Definition by_caller (ctx : Ctx) (P : Principal -> bool) : bool :=
  match principal_Require ctx with Ok p => P p | Err _ => false end.
Definition own (ctx : Ctx) (owner : string) : bool := by_caller ctx (fun p => bool_decide (owner = PID p)).
(** A session of the caller, but not the one that makes the request. *)
Definition other_session (ctx : Ctx) (id owner : string) : bool :=
  by_caller ctx (fun p => bool_decide (owner = PID p /\ id <> PSessionID p)).

Definition permits (r : Request) (e : Event) : bool :=
  match r, e with
  | Register _ _ _ _ _ _, (UserRegistered _ | PasswordCreated _) => true
  | Register _ _ _ _ _ _, Announced x => bool_decide (x = "platform.identity.user.created.v1")
  | Login _ _ _ _, (LoginFailed _ | LoginCleared _ | SessionOpened _ | ChallengeIssued _) => true
  | Refresh _ t, SessionRotated h => bool_decide (h = hashRefreshToken t)
  | Logout c i _, SessionRevoked id o _ => bool_decide (id = i) && own c o
  | Logout _ _ _, Announced x => bool_decide (x = "platform.identity.session.revoked.v1")
  | ChangePassword _ _ _, PasswordSet _ => true
  | ChangePassword c _ _, SessionRevoked id o _ => other_session c id o
  | ChangePassword _ _ _, Announced x => bool_decide (x = "platform.identity.user.password-changed.v1")
  | UpdateUserStatus _ i st _ _, StatusSet id st' => bool_decide (id = i /\ st' = st)
  | UpdateUserStatus _ i st _ _, SessionRevoked _ o _ => bool_decide (o = i /\ st <> StatusActive)
  | UpdateUserStatus _ _ _ _ _, Announced x => bool_decide (x = "platform.identity.user.status-changed.v1")
  | UpdateUserProfile _ i _ _ _ _ _, ProfileSet id => bool_decide (id = TrimSpace i)
  | UpdateUserProfile _ _ _ _ _ _ _, Announced x => bool_decide (x = "platform.identity.user.profile-updated.v1")
  | RevokeOwnSessionByID c i _ _, SessionRevoked id o _ => bool_decide (id = TrimSpace i) && own c o
  | RevokeSessionByID _ i _ _, SessionRevoked id _ _ => bool_decide (id = TrimSpace i)
  | (RevokeOwnSessionByID _ _ _ _ | RevokeSessionByID _ _ _ _), Announced x =>
      bool_decide (x = "platform.identity.session.revoked.v1")
  | RevokeTenantSessions _ u t _, SessionRevoked _ o t' => bool_decide (o = u /\ t' = t)
  | IssueTenantToken _ u t m i, SessionScoped id o t' m' =>
      bool_decide (id = TrimSpace i /\ o = TrimSpace u /\ t' = TrimSpace t /\ m' = TrimSpace m)
  | CreateServiceAccount _ _ _, AccountCreated _ => true
  | RotateServiceAccountSecret _ i _, AccountSecretSet id => bool_decide (id = TrimSpace i)
  | RotateServiceAccountSecret _ _ _, Announced x => bool_decide (x = "platform.identity.service-account.secret-rotated.v1")
  | UpdateServiceAccountStatus _ i st _, AccountStatusSet id st' => bool_decide (id = i /\ st' = st)
  | (CreateServiceAccount _ _ _ | UpdateServiceAccountStatus _ _ _ _), Announced x =>
      bool_decide (x = "platform.identity.service-account.status-changed.v1")
  | VerifyMFAChallenge _ t _ _, ChallengeSpent h _ => bool_decide (h = Users.hashMFAChallengeToken (TrimSpace t))
  | VerifyMFAChallenge _ _ _ _, (FactorUsed _ | CodeUsed _ | SessionOpened _) => true
  | StartMFASetup c _, (FactorEnrolled o | CodeWithdrawn o) => own c o
  | ConfirmMFASetup c _ _, (FactorEnabled o | CodeWithdrawn o | CodeIssued o) => own c o
  | DisableMFA c _ _ _, (FactorDisabled o | CodeWithdrawn o) => own c o
  | (ConfirmMFASetup c _ _ | DisableMFA c _ _ _), SessionRevoked id o _ => other_session c id o
  | RegenerateMFARecoveryCodes c _ _ _, (FactorUsed o | CodeWithdrawn o | CodeIssued o) => own c o
  | AdminResetMFA _ u _ _, (FactorReset o | CodeWithdrawn o | SessionRevoked _ o _) => bool_decide (o = TrimSpace u)
  | (ConfirmMFASetup _ _ _ | DisableMFA _ _ _ _ | RegenerateMFARecoveryCodes _ _ _ _ | AdminResetMFA _ _ _ _),
      Announced x => bool_decide (x = "platform.identity.mfa.status-changed.v1")
  | IssuePasswordReset _ u _, (ResetSuperseded o | ResetIssued o) => bool_decide (o = TrimSpace u)
  | ConfirmPasswordReset _ t _, ResetUsed h _ => bool_decide (h = PasswordReset.hashPasswordResetToken (TrimSpace t))
  | ConfirmPasswordReset _ _ _, (PasswordSet _ | SessionRevoked _ _ _) => true
  | ConfirmPasswordReset _ _ _, Announced x => bool_decide (x = "platform.identity.user.password-changed.v1")
  | _, _ => false
  end.
Definition permitted (r : Request) (e : Event) : Prop := permits r e = true.

(** What the retention jobs may remove: entries that ended or expired more
    than their retention before a reading of the job's clock. *)
Definition purges {env : Env} (c : SessionCleaner) (e : Event) : Prop :=
  match e with
  | SessionPurged before => exists i, before = env_clock i - retention c
  | ChallengePurged before | ResetPurged before => exists i, before = env_clock i - 24 * Hour
  | _ => False
  end.
End permits.

Ltac solve_permitted :=
  unfold permitted, permits, own, other_session, by_caller;
  repeat match goal with H : principal_Require _ = Ok _ |- _ => rewrite H end;
  rewrite ?andb_true_iff, ?bool_decide_eq_true;
  repeat match goal with
         | H : OutboxEvent.Subject _ = _ |- _ => rewrite H
         | H : _ /\ _ |- _ => destruct H
         | |- _ /\ _ => split
         end;
  solve [done | congruence].
#[export] Hint Extern 0 (permitted _ _) => solve_permitted : txsteps steps.

Section refinement.
Context {libs : Libs}.

Lemma handle_obeys {env : Env} s r : Steps (obeys (permitted r)) (handle s r).
Proof using. destruct r; cbn [handle]; unfold drop_result; solve_obeys. Qed.

Lemma request_refines {env : Env} s r w d d' : (d, d') ∈ changes (handle s r) w -> obeys (permitted r) d d'.
Proof using. apply (steps_elem (obeys (permitted r))), handle_obeys. Qed.

(** C5: The service refines the ledger.  Every atomic change that a request
    makes to the database, whatever the environment and the other requests
    do, is a sequence of moves of the abstract state machines of accounts,
    passwords, sessions, one-time tokens, second factors, recovery codes and
    announcements, each by an event that the specification [permits] this
    request: its own caller's entries, the user or session it names, or the
    token it presents. *)
Theorem request_refines_ledger {env : Env} s r w d d' :
  (d, d') ∈ changes (handle s r) w -> rtc (ledger_step (permitted r)) (ledger d) (ledger d').
Proof using. apply request_refines. Qed.

Lemma clean_loop_obeys {env : Env} (E : Event -> Prop) fuel del age batch :
  (forall i b, Steps (obeys E) (del (env_clock i - age) b)) -> Steps (obeys E) (clean_loop fuel del age batch).
Proof using.
  intros Hdel. induction fuel as [|k IH]; cbn [clean_loop]; [solve_obeys|].
  apply Steps_bind_run; [solve_obeys|]. learns. destruct L as [i ->]. solve_steps.
Qed.

Lemma clean_obeys {env : Env} fuel c : store c = repository_store -> Steps (obeys (purges c)) (clean fuel c).
Proof using.
  intros Hs. unfold clean, then_loop. rewrite Hs. cbn [repository_store DeleteExpiredOrRevokedSessionsBefore
    DeleteExpiredMFAChallengesBefore DeleteExpiredPasswordResetChallengesBefore].
  repeat first [ apply clean_loop_obeys; intros i b
               | (apply DeleteSessions_obeys || apply DeleteChallenges_obeys || apply DeleteResets_obeys); by exists i
               | steps_step ].
Qed.

Lemma cleanup_refines {env : Env} fuel c w d d' :
  store c = repository_store -> (d, d') ∈ changes (clean fuel c) w -> obeys (purges c) d d'.
Proof using. intros Hs. apply (steps_elem (obeys (purges c))). by apply clean_obeys. Qed.

(** The retention jobs refine the ledger: every batch is a sequence of
    purges, each of an entry that had ended or expired before the limit
    computed from a reading of the job's clock and its retention. *)
Theorem cleanup_refines_ledger {env : Env} fuel c w d d' :
  store c = repository_store -> (d, d') ∈ changes (clean fuel c) w -> rtc (ledger_step (purges c)) (ledger d) (ledger d').
Proof using. apply cleanup_refines. Qed.

(** A step of the system obeys the events of some request, or only purges. *)
Lemma step_obeys s d d' :
  step s d d' -> (exists r, obeys (permitted r) d d') \/ (exists env c, obeys (@purges env c) d d').
Proof using.
  intros [env r w e e' Hin|env fuel c w e e' Hs Hin].
  - left. exists r. by eapply request_refines.
  - right. exists env, c. by eapply cleanup_refines.
Qed.
End refinement.

(** ** Self-service *)

(** Requests by which users manage their own account, with their context. *)
Definition self_service {libs : Libs} (r : Request) : option Ctx :=
  match r with
  | Logout c _ _ | ChangePassword c _ _ | RevokeOwnSessionByID c _ _ _ | StartMFASetup c _ | ConfirmMFASetup c _ _
  | DisableMFA c _ _ _ | RegenerateMFARecoveryCodes c _ _ _ => Some c
  | _ => None
  end.

Definition self_event (o : string) (e : Event) : Prop :=
  match e with
  | PasswordSet _ | Announced _ => True
  | SessionRevoked _ x _ | FactorEnrolled x | FactorEnabled x | FactorUsed x | FactorDisabled x
  | CodeIssued x | CodeWithdrawn x => x = o
  | _ => False
  end.

Definition session_owner (s : SessionEntry) : string := match s with Live _ o _ _ _ _ | Ended _ o _ _ => o end.
Definition factor_owner (f : FactorEntry) : string := match f with Enrolling o _ | Active o _ _ | Off o => o end.

(** Entries of others than [o] are as they were. *)
Definition others_kept {V} (owner : V -> string) (o : string) (t t' : gmap string V) : Prop :=
  forall k v, t !! k = Some v -> owner v <> o -> t' !! k = Some v.
#[export] Instance others_kept_preorder {V} (owner : V -> string) o : PreOrder (others_kept owner o).
Proof. split; [by intros t k v|]. intros t1 t2 t3 H12 H23 k v Hk Ho. apply H23; [by apply H12|done]. Qed.

Lemma others_kept_turn {V} (owner : V -> string) o E move (t t' : gmap string V) :
  (forall e v v', E e -> move e (Some v) v' -> owner v = o) -> turns E move t t' -> others_kept owner o t t'.
Proof.
  intros Hm [e k v' HE Hmv] k0 v Hk Ho. destruct (decide (k0 = k)) as [->|Hne]; [|by rewrite lookup_partial_alter_ne].
  rewrite Hk in Hmv. destruct Ho. by eapply Hm.
Qed.

Record own_books (o : string) (l l' : Ledger) : Prop := {
  ou_users : l_users l' = l_users l;
  ou_accounts : l_accounts l' = l_accounts l;
  ou_challenges : l_challenges l' = l_challenges l;
  ou_resets : l_resets l' = l_resets l;
  ou_sessions : others_kept session_owner o (l_sessions l) (l_sessions l');
  ou_factors : others_kept factor_owner o (l_factors l) (l_factors l');
  ou_codes : others_kept code_owner o (l_codes l) (l_codes l');
}.
#[export] Instance own_books_preorder o : PreOrder (own_books o).
Proof.
  split; [by split|]. intros l1 l2 l3 H12 H23. destruct H12, H23.
  split; solve [congruence | etrans; eassumption].
Qed.

(** Nothing of anybody but [o] is touched: passwords, sessions, second factors
    and recovery codes of others are as they were, and the accounts, service
    accounts, login challenges and reset tokens of all. *)
Definition others_untouched (o : string) (l l' : Ledger) : Prop :=
  own_books o l l' /\ others_kept pe_owner o (l_passwords l) (l_passwords l').

(** A move of another book does not exist. *)
Ltac no_move :=
  match goal with H : turns _ _ _ _ |- _ => let Hm := fresh in destruct H as [? ? ? ? Hm]; by destruct Hm end.
Ltac own_move := let HE := fresh "HE" in let Hm := fresh "Hm" in
  intros ? ? ? HE Hm; inversion Hm; subst; simpl in *; congruence || done.

Lemma self_step_books o l l' : ledger_step (self_event o) l l' -> own_books o l l'.
Proof.
  destruct 1; split; simpl; try reflexivity; try (exfalso; no_move).
  all: eapply others_kept_turn; [|eassumption]; own_move.
Qed.

Section self_service.
Context {libs : Libs}.

Lemma permitted_self r c p e :
  self_service r = Some c -> principal_Require c = Ok p -> permitted r e -> self_event (PID p) e.
Proof using.
  intros Hr Hp. unfold permitted. destruct r; try discriminate Hr; injection Hr as ->; destruct e; cbn; try done.
  all: unfold own, other_session, by_caller; rewrite Hp, ?andb_true_iff, ?bool_decide_eq_true; naive_solver.
Qed.

Lemma self_service_books {env : Env} s r c p w d d' :
  self_service r = Some c -> principal_Require c = Ok p -> (d, d') ∈ changes (handle s r) w ->
  own_books (PID p) (ledger d) (ledger d').
Proof using.
  intros Hr Hp H%request_refines. apply (obeys_mono _ (self_event (PID p))) in H; [|intros e; by apply (permitted_self r c p)].
  revert H. apply obeys_ind; [apply _|]. apply self_step_books.
Qed.

(** Self-service requires a caller. *)
Lemma self_service_caller {env : Env} s q c e w :
  self_service q = Some c -> principal_Require c = Err e -> changes (handle s q) w = [].
Proof using.
  intros Hq Hp. unfold changes. replace (w_log (handle s q w).2) with (w_log w).
  { rewrite <- (app_nil_r (w_log w)) at 2. by rewrite drop_app_length. }
  destruct q; try discriminate Hq; injection Hq as ->; cbn [handle]; unfold drop_result;
    unfold Sessions.Logout, Users.ChangePassword, Sessions.RevokeOwnSessionByID, MFA.StartMFASetup, MFA.ConfirmMFASetup,
      MFA.DisableMFA, MFA.RegenerateMFARecoveryCodes, MFA.requireMFAUser;
    unfold mbind, M_bind, map_err, lift; by rewrite Hp.
Qed.
End self_service.

(** ** Second factors in runs *)

(** Nothing becomes active; nothing stops being active. *)
Definition active_before (l l' : Ledger) : Prop := forall k o x n',
  l_factors l' !! k = Some (Active o x n') -> exists n, l_factors l !! k = Some (Active o x n) /\ n <= n'.
Definition active_after (l l' : Ledger) : Prop := forall k o x n,
  l_factors l !! k = Some (Active o x n) -> exists n', l_factors l' !! k = Some (Active o x n') /\ n <= n'.

#[export] Instance active_before_preorder : PreOrder active_before.
Proof.
  split; [intros l k o x n H; exists n; split; [done|lia]|]. intros l1 l2 l3 H12 H23 k o x n3 H3.
  destruct (H23 _ _ _ _ H3) as (n2 & H2 & ?). destruct (H12 _ _ _ _ H2) as (n1 & H1 & ?). exists n1. split; [done|lia].
Qed.
#[export] Instance active_after_preorder : PreOrder active_after.
Proof.
  split; [intros l k o x n H; exists n; split; [done|lia]|]. intros l1 l2 l3 H12 H23 k o x n1 H1.
  destruct (H12 _ _ _ _ H1) as (n2 & H2 & ?). destruct (H23 _ _ _ _ H2) as (n3 & H3 & ?). exists n3. split; [done|lia].
Qed.

(** The other books do not matter; of this one, the moved entry does. *)
Ltac at_moved k0 :=
  match goal with H : turns _ _ _ _ |- _ =>
    let e := fresh "e" in let k := fresh "k" in let v := fresh "v" in let HE := fresh "HE" in let Hm := fresh "Hm" in
    destruct H as [e k v HE Hm]; simpl in *; destruct (decide (k = k0)) as [->|];
    [rewrite ?lookup_partial_alter_eq in * | rewrite ?lookup_partial_alter_ne in * by done]
  end.

Lemma step_active_before E l l' : (forall o, ~ E (FactorEnabled o)) -> ledger_step E l l' -> active_before l l'.
Proof.
  intros HE H. destruct H; try (intros ? ? ? n ?; exists n; split; [done|lia]).
  intros k0 o x n' Hk. at_moved k0; [|exists n'; split; [done|lia]]. subst.
  destruct (l_factors l !! k0); inversion Hm; subst; try (exfalso; by eapply HE). eexists. split; [done|lia].
Qed.

Lemma step_active_after E l l' :
  (forall o, ~ E (FactorDisabled o) /\ ~ E (FactorReset o)) -> ledger_step E l l' -> active_after l l'.
Proof.
  intros HE H. destruct H; try (intros ? ? ? n ?; exists n; split; [done|lia]).
  intros k0 o x n Hk. at_moved k0; [|exists n; split; [done|lia]]. rewrite Hk in Hm.
  inversion Hm; subst; [eexists; split; [done|lia]|by destruct (HE o)..].
Qed.

Section factors.
Context {libs : Libs}.

Lemma permits_factor r :
  (forall o, ~ permitted r (FactorEnabled o)) \/ (forall o, ~ permitted r (FactorDisabled o) /\ ~ permitted r (FactorReset o)).
Proof using. unfold permitted. destruct r; solve [left; intros o [=] | right; intros o; split; intros [=]]. Qed.

Lemma step_active s d d' :
  step s d d' -> active_before (ledger d) (ledger d') \/ active_after (ledger d) (ledger d').
Proof using.
  intros [[r Hr]|(env & c & Hc)]%step_obeys.
  - destruct (permits_factor r) as [HE|HE]; [left|right]; revert Hr; (apply obeys_ind; [apply _|]); intros l l'.
    + by apply step_active_before.
    + by apply step_active_after.
  - left. revert Hc. apply obeys_ind; [apply _|]. intros l l'. apply step_active_before. by intros o [].
Qed.

(** The user has a second factor that is enabled. *)
Definition factor_on (k : string) (d : DB) : Prop :=
  exists m, user_mfa d !! k = Some m /\ MFAEnrollment.Status m = MFAStatusEnabled.

Lemma factor_on_ledger k d m :
  user_mfa d !! k = Some m -> MFAEnrollment.Status m = MFAStatusEnabled ->
  l_factors (ledger d) !! k =
    Some (Active (MFAEnrollment.UserID m) (MFAEnrollment.SecretCiphertext m) (MFAEnrollment.LastUsedStep m)).
Proof using. intros Hm Hs. simpl. rewrite lookup_fmap, Hm. simpl. unfold factor_view. by rewrite decide_True. Qed.

Lemma step_factor s d d' k m m' :
  step s d d' -> user_mfa d !! k = Some m -> MFAEnrollment.Status m = MFAStatusEnabled ->
  user_mfa d' !! k = Some m' -> MFAEnrollment.Status m' = MFAStatusEnabled ->
  MFAEnrollment.UserID m' = MFAEnrollment.UserID m /\ MFAEnrollment.SecretCiphertext m' = MFAEnrollment.SecretCiphertext m /\
  MFAEnrollment.LastUsedStep m <= MFAEnrollment.LastUsedStep m'.
Proof using.
  intros Hstep Hm Hs Hm' Hs'. pose proof (factor_on_ledger _ _ _ Hm Hs) as L. pose proof (factor_on_ledger _ _ _ Hm' Hs') as L'.
  destruct (step_active _ _ _ Hstep) as [H|H].
  - destruct (H _ _ _ _ L') as (n & Hn & ?). rewrite L in Hn. injection Hn as -> -> ->. done.
  - destruct (H _ _ _ _ L) as (n & Hn & ?). rewrite L' in Hn. injection Hn as -> -> ->. done.
Qed.

(** C13: The used steps of a second factor only grow.  In any run of the
    system, with any requests and jobs in any interleaving, as long as a
    user's second factor stays enabled its secret stays the same and the step
    of the last accepted one-time code never decreases. *)
Theorem totp_step_never_decreases s d d' k m m' :
  user_mfa d !! k = Some m -> MFAEnrollment.Status m = MFAStatusEnabled ->
  rtc (fun a b => step s a b /\ factor_on k b) d d' -> user_mfa d' !! k = Some m' ->
  MFAEnrollment.UserID m' = MFAEnrollment.UserID m /\ MFAEnrollment.SecretCiphertext m' = MFAEnrollment.SecretCiphertext m /\
  MFAEnrollment.LastUsedStep m <= MFAEnrollment.LastUsedStep m'.
Proof using.
  intros Hm Hs Hr Hm'. revert m Hm Hs. induction Hr as [d|d1 d2 d3 [H12 (m2 & Hm2 & Hs2)] _ IH]; intros m Hm Hs.
  - by simplify_eq.
  - destruct (step_factor _ _ _ _ _ _ H12 Hm Hs Hm2 Hs2) as (? & ? & ?).
    destruct (IH Hm' m2 Hm2 Hs2) as (? & ? & ?). split_and!; [congruence..|lia].
Qed.
End factors.

(** ** Where credentials come from *)

Definition opens_none (l l' : Ledger) : Prop := forall k, is_Some (l_sessions l' !! k) -> is_Some (l_sessions l !! k).
Definition keeps_passwords (l l' : Ledger) : Prop := forall k v, l_passwords l !! k = Some v -> l_passwords l' !! k = Some v.
Definition keeps_secrets (l l' : Ledger) : Prop := forall k v,
  l_accounts l !! k = Some v -> exists v', l_accounts l' !! k = Some v' /\ ae_secret v' = ae_secret v.

#[export] Instance opens_none_preorder : PreOrder opens_none.
Proof. split; [by intros l k|]. intros l1 l2 l3 H12 H23 k H. by apply H12, H23. Qed.
#[export] Instance keeps_passwords_preorder : PreOrder keeps_passwords.
Proof. split; [by intros l k|]. intros l1 l2 l3 H12 H23 k v H. by apply H23, H12. Qed.
#[export] Instance keeps_secrets_preorder : PreOrder keeps_secrets.
Proof.
  split; [intros l k v H; eauto|]. intros l1 l2 l3 H12 H23 k v1 H1. destruct (H12 k v1 H1) as (v2 & H2 & E12).
  destruct (H23 k v2 H2) as (v3 & H3 & E23). exists v3. split; [done|congruence].
Qed.

Section origins.
Context (E : Event -> Prop) (l l' : Ledger).

Lemma step_opens_none : (forall o, ~ E (SessionOpened o)) -> ledger_step E l l' -> opens_none l l'.
Proof using.
  intros HE H. destruct H; try by intros k. intros k0. at_moved k0; [|done]. intros [x ->].
  destruct (l_sessions l !! k0); [done|]. inversion Hm; subst. exfalso. by eapply HE.
Qed.
Lemma step_keeps_passwords : (forall o, ~ E (PasswordSet o)) -> ledger_step E l l' -> keeps_passwords l l'.
Proof using.
  intros HE H. destruct H; try by intros k v. intros k0 x Hk. at_moved k0; [|done]. rewrite Hk in Hm.
  inversion Hm; subst. exfalso. by eapply HE.
Qed.
Lemma step_keeps_secrets : (forall i, ~ E (AccountSecretSet i)) -> ledger_step E l l' -> keeps_secrets l l'.
Proof using.
  intros HE H. destruct H; try by (intros k v ?; eauto). intros k0 x Hk. at_moved k0; [|eauto]. rewrite Hk in Hm.
  inversion Hm; subst; [eauto|exfalso; by eapply HE].
Qed.
End origins.

Section credential_origin.
Context {libs : Libs}.

Definition opens_sessions (r : Request) : bool := match r with Login _ _ _ _ | VerifyMFAChallenge _ _ _ _ => true | _ => false end.
Definition sets_passwords (r : Request) : bool :=
  match r with ChangePassword _ _ _ | ConfirmPasswordReset _ _ _ => true | _ => false end.
Definition sets_secrets (r : Request) : bool := match r with RotateServiceAccountSecret _ _ _ => true | _ => false end.

(** C7: Credentials have one origin each.  A new session is only ever stored by
    a login or by the verification of a login challenge; a stored password
    is only ever replaced by a password change or by a confirmed password
    reset; the secret of a service account only by its rotation.  No other
    request of the service does so, in any environment. *)
Theorem credentials_have_origin {env : Env} s r w d d' :
  (d, d') ∈ changes (handle s r) w ->
  (forall k, sessions d !! k = None -> is_Some (sessions d' !! k) -> opens_sessions r = true) /\
  (forall k c, credentials d !! k = Some c -> password_view <$> credentials d' !! k <> Some (password_view c) ->
     sets_passwords r = true) /\
  (forall k a a', service_accounts d !! k = Some a -> service_accounts d' !! k = Some a' ->
     ServiceAccount.SecretHash a' <> ServiceAccount.SecretHash a -> sets_secrets r = true).
Proof using.
  intros H%request_refines. split_and!.
  - intros k Hk [x Hx]. destruct (opens_sessions r) eqn:Er; [done|]. exfalso.
    assert (opens_none (ledger d) (ledger d')) as Ho.
    { revert H. apply obeys_ind; [apply _|]. intros l l'. apply step_opens_none. intros o. by destruct r. }
    specialize (Ho k). simpl in Ho. rewrite !lookup_fmap, Hk, Hx in Ho. by destruct Ho.
  - intros k c Hk Hne. destruct (sets_passwords r) eqn:Er; [done|]. destruct Hne.
    assert (keeps_passwords (ledger d) (ledger d')) as Ho.
    { revert H. apply obeys_ind; [apply _|]. intros l l'. apply step_keeps_passwords. intros o. by destruct r. }
    specialize (Ho k (password_view c)). simpl in Ho. rewrite !lookup_fmap, Hk in Ho. by apply Ho.
  - intros k a a' Hk Hk' Hne. destruct (sets_secrets r) eqn:Er; [done|]. destruct Hne.
    assert (keeps_secrets (ledger d) (ledger d')) as Ho.
    { revert H. apply obeys_ind; [apply _|]. intros l l'. apply step_keeps_secrets. intros o. by destruct r. }
    specialize (Ho k (account_view a)). simpl in Ho. rewrite !lookup_fmap, Hk, Hk' in Ho.
    by destruct Ho as (v' & [= <-] & Hs).
Qed.
End credential_origin.

(** ** Passwords and self-service *)
Section own_password.
Context {libs : Libs} {env : Env}.

(** A password change replaces the caller's own password. *)
Lemma change_password_own s c current new p w d d' :
  Rely safe_step -> Enforced -> principal_Require c = Ok p -> (d, d') ∈ changes (handle s (ChangePassword c current new)) w ->
  others_kept pe_owner (PID p) (l_passwords (ledger d)) (l_passwords (ledger d')).
Proof using.
  intros Hr He Hp Hin. unfold changes in Hin. cbn [handle] in Hin. unfold drop_result in Hin.
  assert (FailClean (Users.ChangePassword s c current new)) as Hfc by solve_failclean.
  unfold mbind, M_bind in Hin. destruct (Users.ChangePassword s c current new w) as [[n|e] w'] eqn:E; cbn [snd mret M_ret] in Hin.
  2:{ rewrite (Hfc _ _ _ E) in Hin. rewrite <-(app_nil_r (w_log w)) in Hin at 2. rewrite drop_app_length in Hin.
      by apply elem_of_nil in Hin. }
  apply change_password_run in E as (p' & x & x' & b & b' & t' & d1 & Hp' & _ & _ & _ & Hu & _ & _ & _ & Hx & _ & _ & _ & _ & _ &
    [Hl _] & (ev & _ & Hd1) & _); [|done|apply He].
  rewrite Hl, drop_app_length in Hin. apply list_elem_of_singleton in Hin. injection Hin as -> ->. simplify_eq.
  intros k v Hk Ho. simpl in *. rewrite lookup_fmap in *.
  destruct (decide (k = Credential.ID x)) as [->|Hne]; [|by rewrite lookup_insert_ne].
  rewrite Hx in Hk. simpl in Hk. injection Hk as <-. destruct Ho. by assert (p = p') as -> by congruence.
Qed.

(** Self-service stays with the caller: a change by logout, password change,
    revocation of an own session or any operation on the own second factor
    leaves every password, session, second factor and recovery code of every
    other user as it was, and no account, service account, login challenge or
    password-reset token of anybody is touched, whatever the request's
    arguments are. *)
Lemma self_service_untouched s r c p w d d' :
  Rely safe_step -> Enforced -> self_service r = Some c -> principal_Require c = Ok p -> (d, d') ∈ changes (handle s r) w ->
  others_untouched (PID p) (ledger d) (ledger d').
Proof using.
  intros Hrely He Hr Hp Hin. split; [by eapply self_service_books|].
  destruct (sets_passwords r) eqn:Es.
  - destruct r; try discriminate Hr; try discriminate Es. injection Hr as ->. by eapply change_password_own.
  - assert (keeps_passwords (ledger d) (ledger d')) as Ho.
    { apply request_refines in Hin. revert Hin. apply obeys_ind; [apply _|]. intros l l'. apply step_keeps_passwords.
      intros o. by destruct r. }
    intros k v Hk _. by apply Ho.
Qed.
End own_password.

(** ** Witnesses *)
Section witnesses.
Import Concrete.
#[local] Existing Instance SystemSpec.env0.

Definition verify_bob : Request := VerifyMFAChallenge nobody "challenge" bob_code "".
Definition rotate_a1 : Request := RotateServiceAccountSecret admin "a1" 1.

Lemma one_change r d :
  w_log (handle service r (start d)).2 = [(d, after r d)] -> (d, after r d) ∈ changes (handle service r) (start d).
Proof. intros H. unfold changes. rewrite H. apply list_elem_of_here. Qed.

Lemma request_refines_ledger_witness :
  rtc (ledger_step (permitted logout_alice)) (ledger db) (ledger (after logout_alice db)) /\
  l_sessions (ledger db) !! "s1" = Some (Live "s1" "u1" (hash_token "refresh-1") "" "" (noon + Hour)) /\
  l_sessions (ledger (after logout_alice db)) !! "s1" = Some (Ended "s1" "u1" (noon + Hour) noon).
Proof.
  split; [|split; vm_compute; reflexivity].
  apply (request_refines_ledger service logout_alice (start db)). apply one_change. vm_compute. reflexivity.
Defined.

Lemma totp_step_never_decreases_witness : exists m m',
  user_mfa db !! "u2" = Some m /\ user_mfa (after verify_bob db) !! "u2" = Some m' /\
  MFAEnrollment.LastUsedStep m <= MFAEnrollment.LastUsedStep m' /\ MFAEnrollment.LastUsedStep m <> MFAEnrollment.LastUsedStep m'.
Proof.
  assert (exists m, user_mfa db !! "u2" = Some m /\ MFAEnrollment.Status m = MFAStatusEnabled /\ MFAEnrollment.LastUsedStep m = 5)
    as (m & Hm & Hs & H5) by (vm_compute; eexists; split_and!; reflexivity).
  assert (match user_mfa (after verify_bob db) !! "u2" with
          | Some m' => bool_decide (MFAEnrollment.Status m' = MFAStatusEnabled /\ MFAEnrollment.LastUsedStep m' <> 5)
          | None => false end = true) as Hb by (vm_compute; reflexivity).
  destruct (user_mfa (after verify_bob db) !! "u2") as [m'|] eqn:Em; [|discriminate Hb].
  apply bool_decide_eq_true in Hb as [Hs' Hn].
  exists m, m'. split; [exact Hm|]. split; [reflexivity|]. split; [|by rewrite H5].
  apply (totp_step_never_decreases service db (after verify_bob db) "u2" m m' Hm Hs); [|exact Em].
  apply rtc_once. split; [apply one_request; vm_compute; reflexivity|]. exact (ex_intro _ m' (conj Em Hs')).
Defined.

Lemma credentials_have_origin_witness : sets_secrets rotate_a1 = true /\ exists a a',
  service_accounts db !! "a1" = Some a /\ service_accounts (after rotate_a1 db) !! "a1" = Some a' /\
  ServiceAccount.SecretHash a' <> ServiceAccount.SecretHash a.
Proof.
  assert (match service_accounts db !! "a1", service_accounts (after rotate_a1 db) !! "a1" with
          | Some a, Some a' => bool_decide (ServiceAccount.SecretHash a' <> ServiceAccount.SecretHash a)
          | _, _ => false end = true) as Hb by (vm_compute; reflexivity).
  destruct (service_accounts db !! "a1") as [a|] eqn:Ha; [|discriminate Hb].
  destruct (service_accounts (after rotate_a1 db) !! "a1") as [a'|] eqn:Ha'; [|discriminate Hb].
  apply bool_decide_eq_true in Hb. split; [|exists a, a'; exact (conj eq_refl (conj eq_refl Hb))].
  assert (w_log (handle service rotate_a1 (start db)).2 = [(db, after rotate_a1 db)]) as Hl by (vm_compute; reflexivity).
  destruct (credentials_have_origin service rotate_a1 (start db) db (after rotate_a1 db) (one_change _ _ Hl)) as (_ & _ & H).
  exact (H "a1" a a' Ha Ha' Hb).
Defined.

Definition cleaner : SessionCleaner := mkCleaner (repository_store (libs := libs)) Hour Hour 10 true.
Definition later : Env := quiet (noon + 48 * Hour) 0.

Lemma cleanup_refines_ledger_witness : exists d,
  rtc (ledger_step (@purges later cleaner)) (ledger db) (ledger d) /\ l_sessions (ledger d) !! "s1" = None.
Proof.
  assert (match w_log (@clean later 5 cleaner (start db)).2 with
          | (_, d') :: _ => bool_decide (l_sessions (ledger d') !! "s1" = None) | [] => false end = true) as Hb
    by (vm_compute; reflexivity).
  assert (head (w_log (@clean later 5 cleaner (start db)).2).*1 = Some db) as Hd by (vm_compute; reflexivity).
  destruct (w_log (@clean later 5 cleaner (start db)).2) as [|[d d'] rest] eqn:El; [discriminate Hb|].
  injection Hd as ->. apply bool_decide_eq_true in Hb. exists d'. split; [|exact Hb].
  apply (cleanup_refines_ledger (env := later) 5 cleaner (start db) db d'); [reflexivity|].
  unfold changes. rewrite El. apply list_elem_of_here.
Defined.
End witnesses.
