(* ===== verification/ErrorSpec.v ===== *)
(** * Transactions and errors: theorems *)

From S2P Require Import Prelude.
From S2P Require Import GoStrings.
From S2P Require Import Encoding.
From S2P Require Import Digest.
From S2P Require Import AppError.
From S2P Require Import Platform.
From S2P Require Import Table.
From S2P Require Import Model.
From S2P Require Import Runtime.
From S2P Require Import Repository.
From S2P Require Import MFARepository.
From S2P Require Import Evolution.
From S2P Require Import Guarantee.
From S2P Require Import Inversion.
From S2P Require Import Password.
From S2P Require Import Token.
From S2P Require Import MFACrypto.
From S2P Require Import ServiceBase.
From S2P Require Import Concrete.
From S2P Require Import Sessions.
From S2P Require Import Users.
From S2P Require Import ServiceAccounts.
From S2P Require Import MFAService.
From S2P Require Import PasswordReset.
From S2P Require Import Cleanup.
From S2P Require Import System.
Open Scope Z_scope.

Section transaction_spec.
Context {env : Env} {sql : SQLServer}.

(** C29: Transactions are all or nothing.  Take a body that only uses its
    transaction, and its run on the database that the other requests had left.
    [Within] returns the body's result exactly when the database is enabled,
    the body succeeds, and neither [BEGIN] nor [COMMIT] fails; the whole effect
    of the body was then made as one atomic step.  In every other case it made
    no step and the body's writes are gone: the database is what the other
    requests had left (untouched if it is disabled).  The error then tells what
    happened: the database is disabled, [BEGIN] failed, the body failed (its
    own error, also when [ROLLBACK] failed), or [COMMIT] failed. *)
Theorem within_all_or_nothing {A} t (fn : M A) w b w1 r w' :
  ReadOnly fn -> fn (next_stm (yield_db w)) = (b, w1) -> Within t fn w = (r, w') ->
  let d := env_interfere (w_stm w) (w_db w) in
  (forall a, r = Ok a <->
     Available t = true /\ env_fault (w_stm w) = None /\ b = Ok a /\ env_fault (w_stm w1) = None) /\
  match r with
  | Ok _ => one_step w w' d (w_db w1)
  | Err e =>
      w_log w' = w_log w /\ w_db w' = (if Available t then d else w_db w) /\
      match Available t, env_fault (w_stm w), b with
      | false, _, _ => e = ErrorsNew "begin transaction: database is disabled"
      | true, Some msg, _ => e = Errorf "begin transaction" (Driver msg)
      | true, None, Err err =>
          e = match env_fault (w_stm w1) with
              | Some msg => Errorf ("rollback transaction after " +:+ error_text err) (Driver msg)
              | None => err
              end
      | true, None, Ok _ => exists msg, env_fault (w_stm w1) = Some msg /\ e = Errorf "commit transaction" (Driver msg)
      end
  end.
Proof using.
  intros Hro Hf. rewrite Within_run. unfold Available. pose proof (ReadOnly_run _ _ _ _ Hro Hf) as Hl.
  cbv zeta. rewrite Hf.
  destruct (tx_db t), (env_fault (w_stm w)), b as [x|err], (env_fault (w_stm w1)) eqn:E1;
    intros [= <- <-]; (split; [by naive_solver|]); simpl in *; try (split_and!; by eauto).
  split; simpl; [by rewrite Hl|done].
Qed.
End transaction_spec.

(** gRPC clients cannot tell a denied or stale request from an outage: with
    pairwise different codes, [grpcError] answers [Internal] to errors that the
    HTTP transport answers with 401, 403 and 409. *)
Lemma grpc_denials_are_internal {codes : ErrorCodes} m e :
  NoDup [CodeInvalidArgument; CodeNotFound; CodeConflict; CodeDependencyUnavailable; CodeUnauthorized; CodeForbidden; CodeStaleVersion] ->
  (grpcError (Unauthorized m)).1 = GInternal /\ (Fail (Unauthorized m)).1 = 401 /\
  (grpcError (Forbidden m)).1 = GInternal /\ (Fail (Forbidden m)).1 = 403 /\
  (grpcError (StaleVersion e)).1 = GInternal /\ (Fail (StaleVersion e)).1 = 409.
Proof.
  rewrite !NoDup_cons, !not_elem_of_cons. intros H. destr_all. unfold grpcError. simpl.
  repeat rewrite decide_False by congruence. done.
Qed.

(** The only failures of [m] are errors of [P]. *)
Definition Errs {A} (P : error -> Prop) (m : M A) : Prop := forall w e w', m w = (Err e, w') -> P e.

Section errs.
Context {env : Env} {codes : ErrorCodes} (P : error -> Prop).

Lemma Errs_bind {A B} (m : M A) (k : A -> M B) : Errs P m -> (forall a, Errs P (k a)) -> Errs P (m ≫= k).
Proof using.
  intros Hm Hk w e w'. unfold mbind, M_bind. destruct (m w) as [[a|e'] w1] eqn:E; [by apply Hk|].
  intros [= -> ->]. by eapply Hm.
Qed.
Lemma Errs_map {A} f (m : M A) : (forall e, P (f e)) -> Errs P (map_err f m).
Proof using. intros Hf w e w'. unfold map_err. destruct (m w) as [[a|e'] w1]; [done|]. by intros [= <- _]. Qed.
Lemma Errs_throw {A} e : P e -> Errs P (throw (A := A) e).
Proof using. by intros He w e' w' [= <- _]. Qed.
Lemma Errs_reject Q `{Hdec : !Decision Q} e : P e -> Errs P (reject Q e).
Proof using. intros He w e' w'. unfold reject. case_decide; [|done]. by intros [= <- _]. Qed.
Lemma Errs_lift {A} (r : Result A) : (forall e, r = Err e -> P e) -> Errs P (lift r).
Proof using. intros Hr w e w' [= -> _]. by apply Hr. Qed.
Lemma Errs_total {A} (m : M A) : (forall w, is_ok (m w).1 = true) -> Errs P m.
Proof using. intros Hm w e w' H. specialize (Hm w). by rewrite H in Hm. Qed.
End errs.

Section error_spec.
Context {libs : Libs} {env : Env}.

(** The statuses and messages that the service's operations answer with:
    constant texts, none of which is made from an error. *)
Definition public_messages : list (Z * string) :=
  [(400, "at most 100 user IDs are allowed");
   (400, "challenge_token and exactly one verification code are required");
   (400, "id, display_name, email, reason, and a positive version are required");
   (400, "invalid audiences");
   (400, "invalid service account status");
   (400, "invalid session status");
   (400, "invalid user status");
   (400, "login and password are required");
   (400, "mfa is not enabled");
   (400, "mfa setup is not pending or has expired");
   (400, "name and audiences are required");
   (400, "new password is invalid");
   (400, "new password must differ from current password");
   (400, "password must contain between 12 and 1024 bytes");
   (400, "password reset requires an active user");
   (400, "reset_token is required");
   (400, "service account id and version are required");
   (400, "service_account_ids must not contain empty values");
   (400, "service_account_ids must not contain more than 100 values");
   (400, "session_id is required");
   (400, "status must be active or disabled");
   (400, "use self-service mfa disable for the current user");
   (400, "use self-service password change for the current user");
   (400, "user IDs must not be empty");
   (400, "user_id and reason are required");
   (400, "user_id is required");
   (400, "user_id, reason, and version are required");
   (400, "user_id, tenant_id, membership_id, and session_id are required");
   (400, "username, display_name, and email are required");
   (401, "account is unavailable");
   (401, "authenticated actor is required");
   (401, "authenticated user is required");
   (401, "authenticated user session is required");
   (401, "current password is invalid");
   (401, "invalid credentials");
   (401, "invalid mfa code");
   (401, "invalid or already used mfa code");
   (401, "invalid or already used mfa verification");
   (401, "invalid or expired mfa challenge");
   (401, "invalid or expired password reset token");
   (401, "invalid refresh token");
   (401, "invalid service credentials");
   (401, "mfa is not enabled");
   (401, "password reset token was already used");
   (401, "refresh token was already used");
   (403, "tenant tokens may only be issued by a trusted service");
   (404, "identity resource not found");
   (409, "identity resource already exists");
   (409, "mfa is already enabled");
   (409, "resource version is stale");
   (500, "internal server error");
   (503, "mfa is not configured");
   (503, "mfa verification is unavailable")].

(** The operations that hash a new password. *)
Definition hashes_password (r : Request) : bool :=
  match r with Register _ _ _ _ _ _ | ChangePassword _ _ _ | ConfirmPasswordReset _ _ _ => true | _ => false end.

(** What the client is told about the error [e]: a public message, with the
    generic code for an internal error; or, by the operations that hash a
    password ([h]), that the random source failed. *)
Definition safe_error (h : bool) (e : error) : Prop :=
  (((Fail e).1, (Fail e).2.2) ∈ public_messages /\ ((Fail e).1 = 500 -> (Fail e).2.1 = CodeInternal)) \/
  (h = true /\ (exists i n, env_rand i n = None) /\
   Fail e = (400, (CodeInvalidArgument, "generate password salt: random source failed"))).

Lemma public_in x : bool_decide (x ∈ public_messages) = true -> x ∈ public_messages.
Proof using. apply bool_decide_eq_true. Qed.

Ltac public := left; split; [apply public_in; vm_compute; reflexivity|done].

Lemma translate_safe h e : safe_error h (translateIdentityError e).
Proof using. unfold translateIdentityError. repeat case_match; public. Qed.

Ltac safe_leaf := first [ apply translate_safe | public ].

(** An error that is not an application error. *)
Lemma plain_safe h e : errors_As e = None -> safe_error h e.
Proof using. unfold safe_error, Fail. intros ->. public. Qed.

Lemma normalize_safe h msg ids seen e :
  (400, msg) ∈ public_messages -> Users.normalize_ids msg ids seen = Err e -> safe_error h e.
Proof using.
  intros Hm. revert seen. induction ids as [|id ids IH]; intros seen; simpl; [done|].
  case_decide; [intros [= <-]; by left|]. case_decide; [apply IH|].
  destruct (Users.normalize_ids msg ids _) eqn:E; [done|]. intros [= <-]. by eapply IH.
Qed.

Lemma Hash_safe p pw : Errs (safe_error true) (map_err (fun e => Invalid (error_text e) (Some e)) (Hash p pw)).
Proof using.
  intros w e w'. unfold map_err, Hash, mbind, M_bind, lift, map_err, rand_Read, validatePassword. simpl.
  case_decide; simpl; [intros [= <- _]; public|].
  destruct (env_rand _ _) as [l|] eqn:E; [done|]. intros [= <- _]. right. eauto.
Qed.

Lemma get_row_safe h {A} (get : DB -> gmap string A) (p : A -> Prop) `{Hp : !forall r, Decision (p r)} msg :
  Errs (safe_error h) (get_row get p msg).
Proof using.
  intros w e w'. unfold get_row, map_err, db_query. simpl. destruct (env_fault _).
  - intros [= <- _]. by apply plain_safe.
  - destruct (sql_get _ _ _); [done|]. intros [= <- _]. by apply plain_safe.
Qed.

(** Errors of the JWT library are not application errors. *)
Definition jwt_plain : Prop := forall kid c key e, SignedString kid c key = Err e -> errors_As e = None.

Lemma rand_plain n w e w' : rand_Read n w = (Err e, w') -> errors_As e = None.
Proof using. unfold rand_Read. destruct (env_rand _ _); [done|]. by intros [= <- _]. Qed.

Lemma Issue_safe h i subject ty sid tid mid : jwt_plain -> Errs (safe_error h) (Issue i subject ty sid tid mid).
Proof using.
  intros Hj. unfold Issue. apply Errs_bind; [apply Errs_reject; by apply plain_safe|intros _].
  apply Errs_bind; [by apply Errs_total|intros t]. cbv zeta.
  apply Errs_bind; [|intros k; apply Errs_bind; [|intros ?; by apply Errs_total]].
  - intros w e w'. unfold map_err, randomTokenID, mbind, M_bind.
    destruct (rand_Read 16 w) as [[l|e'] w1] eqn:E; [done|]. intros [= <- _]. apply plain_safe. simpl. by eapply rand_plain.
  - intros w e w'. unfold map_err, lift. destruct (SignedString _ _ _) as [raw|e'] eqn:E; [done|].
    intros [= <- _]. apply plain_safe. simpl. by eapply Hj.
Qed.

(** Follow the code down to the places where errors are made. *)
Ltac errs_step :=
  match goal with
  | |- forall _, _ => intro
  | |- safe_error _ (match ?x with _ => _ end) => destruct x
  | |- safe_error _ (?f _) => first [ safe_leaf | let h := get_head f in unfold h ]
  | |- safe_error _ _ => safe_leaf
  | |- Errs _ (mbind _ _) => apply Errs_bind
  | |- Errs _ (map_err _ (Hash _ _)) => apply Hash_safe
  | |- Errs _ (map_err _ _) => apply Errs_map; cbv beta
  | |- Errs _ (reject _ _) => apply Errs_reject
  | |- Errs _ (throw _) => apply Errs_throw
  | |- Errs _ (mret _) => by apply Errs_total
  | |- Errs _ (attempt _) => apply Errs_total; intros ?; unfold attempt; by case_match
  | |- Errs _ now => by apply Errs_total
  | |- Errs _ uuid_NewString => by apply Errs_total
  | |- Errs _ (lift (Users.normalize_ids _ _ _)) => apply Errs_lift; intros ?; apply normalize_safe; apply public_in; vm_compute; reflexivity
  | |- Errs _ (get_row _ _ _) => apply get_row_safe
  | |- Errs _ (Issue _ _ _ _ _ _) => by apply Issue_safe
  | |- Errs _ (match ?x with _ => _ end) => destruct x
  | |- Errs _ ?m => let h := get_head m in unfold h
  end.

Lemma recovery_rows_safe h u f l : Errs (safe_error h) (MFA.recovery_rows u f l).
Proof using. induction l as [|x l IH]; cbn [MFA.recovery_rows]; repeat first [exact IH | errs_step]. Qed.

(** C30: The operations of the service do not leak its inside.  Whatever
    fails, the HTTP answer to the error that an operation returns has one of 53
    constant pairs of status and message ([public_messages]): no text of the
    database, of a library or of a wrapped error; an internal error carries the
    generic code and message.  The one exception is made by the operations that
    hash a new password, and only when the random source fails: they answer
    400 with the text of that error.  (Middleware answers with its own errors,
    such as 429 and 504, before and after an operation runs.) *)
Theorem errors_do_not_leak s r w e w' :
  jwt_plain -> handle s r w = (Err e, w') -> safe_error (hashes_password r) e.
Proof using.
  intros Hj. revert w e w'. change (Errs (safe_error (hashes_password r)) (handle s r)).
  destruct r; cbn [handle hashes_password]; unfold drop_result; repeat first [apply recovery_rows_safe | errs_step].
Qed.
End error_spec.

(** ** Witnesses *)
Section witnesses.
Import Concrete.
#[local] Instance env0 : Env := quiet noon 0.

Lemma within_witness : exists w1 w',
  Within (mkTransactor true) (Repository.CreateSession (session "s3" "u1" "h" noon)) (start db) = (Ok tt, w') /\
  one_step (start db) w' db (w_db w1).
Proof.
  by_running (Within (mkTransactor true) (Repository.CreateSession (session "s3" "u1" "h" noon)) (start db)) as a w E.
  assert (ReadOnly (Repository.CreateSession (session "s3" "u1" "h" noon))) as Hro by solve_readonly.
  destruct (Repository.CreateSession (session "s3" "u1" "h" noon) (next_stm (yield_db (start db)))) as [b w1] eqn:Eb.
  destruct (within_all_or_nothing _ _ _ _ _ _ _ Hro Eb E) as (_ & Hs). destruct a.
  exists w1, w. exact (conj E Hs).
Defined.

Lemma errors_do_not_leak_witness : exists e w',
  handle service (Refresh nobody "unknown") (start db) = (Err e, w') /\ safe_error false e.
Proof.
  assert (is_ok (handle service (Refresh nobody "unknown") (start db)).1 = false) as Hb by (vm_compute; reflexivity).
  destruct (handle service (Refresh nobody "unknown") (start db)) as [[a|e] w'] eqn:E; [discriminate Hb|].
  assert (jwt_plain) as Hj by (intros kid c key x Hx; discriminate Hx).
  exists e, w'. split; [reflexivity|].
  exact (errors_do_not_leak service (Refresh nobody "unknown") (start db) e w' Hj E).
Defined.

(** With a broken random source, registration tells the client so, in a 400. *)
Definition no_random : Env :=
  {| env_clock := fun _ => noon; env_rand := fun _ _ => None; env_uuid := @env_uuid env0; env_fault := fun _ => None;
     env_pick := fun _ => O; env_interfere := fun _ d => d |}.
Lemma random_failure_is_told : exists e w',
  @handle libs no_random service (Register admin "carol" "Carol" "carol@example.com" "" "a long password") (start db) = (Err e, w') /\
  Fail e = (400, (CodeInvalidArgument, "generate password salt: random source failed")).
Proof. do 2 eexists. split; vm_compute; reflexivity. Qed.
End witnesses.
