(* ===== verification/PathMatch.v ===== *)
(** * Shell patterns

    Go's [path.Match], which the configuration check, the idempotency
    middleware and the retry policies use, on byte strings: [scanChunk],
    [matchChunk], [getEsc] and the loop of [Match].  The matcher never goes
    back over a star, so its relation to the usual meaning of patterns is not
    obvious: [Match_sound] and [Match_complete] relate it to the inductive
    semantics [globs], and [Match_bad] shows that whether a pattern is
    malformed does not depend on the name it is matched with. *)

From S2P Require Import Prelude.
From S2P Require Import GoStrings.
From Stdlib Require Import Ascii.
Open Scope Z_scope.

(** [utf8.DecodeRuneInString]: the rune and its width. *)
Definition DecodeRune (l : bytes) : Z * nat :=
  match l with
  | [] => (RuneError, 0%nat)
  | b0 :: l1 =>
      if code b0 <? 0x80 then (code b0, 1%nat) else
      match l1 with
      | [] => (RuneError, 1%nat)
      | b1 :: l2 =>
          if wf2 b0 b1 then (rune2 b0 b1, 2%nat) else
          match l2 with
          | [] => (RuneError, 1%nat)
          | b2 :: l3 =>
              if wf3 b0 b1 b2 then (rune3 b0 b1 b2, 3%nat) else
              match l3 with
              | [] => (RuneError, 1%nat)
              | b3 :: _ => if wf4 b0 b1 b2 b3 then (rune4 b0 b1 b2 b3, 4%nat) else (RuneError, 1%nat)
              end
          end
      end
  end.
Definition drop_rune (l : bytes) : bytes := drop (DecodeRune l).2 l.

Definition c_star : ascii := chr 42.
Definition c_quest : ascii := chr 63.
Definition c_open : ascii := chr 91.
Definition c_close : ascii := chr 93.
Definition c_back : ascii := chr 92.
Definition c_caret : ascii := chr 94.
Definition c_dash : ascii := chr 45.
Definition c_slash : ascii := chr 47.

(** ** The matcher, as in package [path]

    [None] is [ErrBadPattern]. *)

(** [getEsc]: a possibly escaped character of a class; something must follow. *)
Definition getEsc (chunk : bytes) : option (Z * bytes) :=
  match chunk with
  | [] => None
  | a :: rest =>
      if decide (a = c_dash \/ a = c_close) then None else
      let chunk := if decide (a = c_back) then rest else chunk in
      match chunk with
      | [] => None
      | _ =>
          let '(r, n) := DecodeRune chunk in
          if decide (r = RuneError /\ n = 1%nat) then None
          else match drop n chunk with [] => None | nchunk => Some (r, nchunk) end
      end
  end.

(** The loop over the ranges of a class: the rest of the chunk and whether
    [r] is in one of them.  Every round consumes a character; [fuel] is the
    length of the chunk. *)
Fixpoint class_loop (fuel : nat) (chunk : bytes) (first : bool) (r : Z) (found : bool) : option (bytes * bool) :=
  match fuel with
  | O => None
  | S k =>
      match chunk with
      | a :: rest =>
          if negb first && bool_decide (a = c_close) then Some (rest, found) else
          '(lo, chunk) ← getEsc chunk;
          '(hi, chunk) ← (match chunk with
                          | b :: rest => if decide (b = c_dash) then getEsc rest else Some (lo, chunk)
                          | [] => Some (lo, chunk)
                          end);
          class_loop k chunk false r (found || ((lo <=? r) && (r <=? hi)))
      | [] => None
      end
  end.

Definition skip_caret (chunk : bytes) : bool * bytes :=
  match chunk with
  | a :: rest => if decide (a = c_caret) then (true, rest) else (false, chunk)
  | [] => (false, chunk)
  end.

(** The loop of [matchChunk]; [failed] is its local variable.  [Some None]
    is no match, [Some (Some t)] a match that leaves [t]. *)
Fixpoint chunk_loop (fuel : nat) (chunk s : bytes) (failed : bool) : option (option bytes) :=
  match fuel with
  | O => None
  | S k =>
      match chunk with
      | [] => Some (if failed then None else Some s)
      | a :: rest =>
          let failed := failed || bool_decide (s = []) in
          if decide (a = c_open) then
            let '(r, s) := if failed then (0, s) else ((DecodeRune s).1, drop_rune s) in
            let '(negated, chunk) := skip_caret rest in
            '(chunk, found) ← class_loop (length chunk) chunk true r false;
            chunk_loop k chunk s (failed || bool_decide (found = negated))
          else if decide (a = c_quest) then
            if failed then chunk_loop k rest s true
            else chunk_loop k rest (drop_rune s) (bool_decide (head s = Some c_slash))
          else
            '(a, rest) ← (if decide (a = c_back)
                          then match rest with [] => None | b :: rest => Some (b, rest) end
                          else Some (a, rest));
            if failed then chunk_loop k rest s true
            else chunk_loop k rest (tail s) (negb (bool_decide (head s = Some a)))
      end
  end.
Definition matchChunk (chunk s : bytes) : option (option bytes) := chunk_loop (S (length chunk)) chunk s false.

(** [scanChunk]: leading stars, then everything up to the next star that is
    not inside brackets. *)
Fixpoint skip_stars (p : bytes) : bool * bytes :=
  match p with
  | a :: rest => if decide (a = c_star) then (true, (skip_stars rest).2) else (false, p)
  | [] => (false, [])
  end.
Fixpoint scan_to_star (p : bytes) (inrange : bool) : bytes * bytes :=
  match p with
  | [] => ([], [])
  | a :: rest =>
      if decide (a = c_back) then
        match rest with
        | b :: rest' => let '(c, r) := scan_to_star rest' inrange in (a :: b :: c, r)
        | [] => ([a], [])
        end
      else if bool_decide (a = c_star) && negb inrange then ([], p)
      else let '(c, r) := scan_to_star rest
                            (if decide (a = c_open) then true else if decide (a = c_close) then false else inrange) in
           (a :: c, r)
  end.
Definition scanChunk (p : bytes) : bool * bytes * bytes :=
  let '(star, p) := skip_stars p in
  let '(chunk, rest) := scan_to_star p false in
  (star, chunk, rest).

(** A match that leaves [t] counts if pattern is left or the name is used up. *)
Definition accept (last : bool) (r : option bytes) : option bytes :=
  match r with
  | Some t => if negb last || bool_decide (t = []) then Some t else None
  | None => None
  end.

(** [for i := 0; i < len(name) && name[i] != '/'; i++]: the leftmost match
    of the chunk after a star. *)
Fixpoint star_loop (chunk name : bytes) (last : bool) : option (option bytes) :=
  match name with
  | [] => Some None
  | a :: rest =>
      if decide (a = c_slash) then Some None else
      r ← matchChunk chunk rest;
      match accept last r with
      | Some t => Some (Some t)
      | None => star_loop chunk rest last
      end
  end.

(** The check of the remainder before "no match" is returned. *)
Fixpoint check_rest (fuel : nat) (pattern : bytes) : option unit :=
  match fuel, pattern with
  | _, [] => Some tt
  | O, _ => None
  | S k, _ =>
      let '(_, chunk, rest) := scanChunk pattern in
      matchChunk chunk [];; check_rest k rest
  end.

(** The loop of [Match]: a chunk is matched at the current position, or,
    after a star, at the leftmost position where it fits. *)
Fixpoint match_loop (fuel : nat) (pattern name : bytes) : option bool :=
  match fuel, pattern with
  | _, [] => Some (bool_decide (name = []))
  | O, _ => None
  | S k, _ =>
      let '(star, chunk, rest) := scanChunk pattern in
      if star && bool_decide (chunk = []) then Some (bool_decide (c_slash ∉ name)) else
      let last := bool_decide (rest = []) in
      r ← matchChunk chunk name;
      r ← (match accept last r with
           | Some t => Some (Some t)
           | None => if (star : bool) then star_loop chunk name last else Some None
           end);
      match r with
      | Some t => match_loop k rest t
      | None => check_rest k rest;; Some false
      end
  end.
Definition Match (pattern name : string) : option bool :=
  match_loop (length (bytes_of pattern)) (bytes_of pattern) (bytes_of name).

(** ** Patterns as data *)

Inductive tok := Lit (a : ascii) | Any | Class (negated : bool) (ranges : list (Z * Z)).

Fixpoint parse_class (fuel : nat) (chunk : bytes) (first : bool) : option (list (Z * Z) * bytes) :=
  match fuel with
  | O => None
  | S k =>
      match chunk with
      | a :: rest =>
          if negb first && bool_decide (a = c_close) then Some ([], rest) else
          '(lo, chunk) ← getEsc chunk;
          '(hi, chunk) ← (match chunk with
                          | b :: rest => if decide (b = c_dash) then getEsc rest else Some (lo, chunk)
                          | [] => Some (lo, chunk)
                          end);
          '(rs, rest) ← parse_class k chunk false;
          Some ((lo, hi) :: rs, rest)
      | [] => None
      end
  end.

Fixpoint parse_chunk (fuel : nat) (chunk : bytes) : option (list tok) :=
  match fuel with
  | O => None
  | S k =>
      match chunk with
      | [] => Some []
      | a :: rest =>
          if decide (a = c_open) then
            let '(negated, chunk) := skip_caret rest in
            '(rs, chunk) ← parse_class (length chunk) chunk true;
            ts ← parse_chunk k chunk; Some (Class negated rs :: ts)
          else if decide (a = c_quest) then ts ← parse_chunk k rest; Some (Any :: ts)
          else
            '(a, rest) ← (if decide (a = c_back)
                          then match rest with [] => None | b :: rest => Some (b, rest) end
                          else Some (a, rest));
            ts ← parse_chunk k rest; Some (Lit a :: ts)
      end
  end.

(** A pattern is a list of chunks, each with or without a star before it. *)
Fixpoint parse_pattern (fuel : nat) (pattern : bytes) : option (list (bool * list tok)) :=
  match fuel, pattern with
  | _, [] => Some []
  | O, _ => None
  | S k, _ =>
      let '(star, chunk, rest) := scanChunk pattern in
      ts ← parse_chunk (S (length chunk)) chunk;
      segs ← parse_pattern k rest;
      Some ((star, ts) :: segs)
  end.
Definition parse (pattern : string) : option (list (bool * list tok)) :=
  parse_pattern (length (bytes_of pattern)) (bytes_of pattern).

Definition in_class (negated : bool) (rs : list (Z * Z)) (r : Z) : bool :=
  negb (Bool.eqb (existsb (fun '(lo, hi) => (lo <=? r) && (r <=? hi)) rs) negated).

Fixpoint match_toks (ts : list tok) (s : bytes) : option bytes :=
  match ts with
  | [] => Some s
  | t :: ts' =>
      match s with
      | [] => None
      | b :: s' =>
          match t with
          | Lit a => if decide (b = a) then match_toks ts' s' else None
          | Any => if decide (b = c_slash) then None else match_toks ts' (drop_rune s)
          | Class negated rs => if in_class negated rs (DecodeRune s).1 then match_toks ts' (drop_rune s) else None
          end
      end
  end.

Fixpoint find_after_star (ts : list tok) (name : bytes) (last : bool) : option bytes :=
  match name with
  | [] => None
  | a :: rest =>
      if decide (a = c_slash) then None else
      match accept last (match_toks ts rest) with
      | Some t => Some t
      | None => find_after_star ts rest last
      end
  end.
Definition find_chunk (star : bool) (ts : list tok) (name : bytes) (last : bool) : option bytes :=
  match accept last (match_toks ts name) with
  | Some t => Some t
  | None => if star then find_after_star ts name last else None
  end.
Fixpoint match_segs (segs : list (bool * list tok)) (name : bytes) : bool :=
  match segs with
  | [] => bool_decide (name = [])
  | (star, ts) :: rest =>
      if star && bool_decide (ts = []) then bool_decide (c_slash ∉ name) else
      match find_chunk star ts name (bool_decide (rest = [])) with
      | Some t => match_segs rest t
      | None => false
      end
  end.

(** *** Parsing first and matching then is what [Match] does *)

Lemma class_loop_parse fuel chunk first r found :
  class_loop fuel chunk first r found =
  match parse_class fuel chunk first with
  | Some (rs, rest) => Some (rest, found || existsb (fun '(lo, hi) => (lo <=? r) && (r <=? hi)) rs)
  | None => None
  end.
Proof.
  revert chunk first found. induction fuel as [|k IH]; intros chunk first found; simpl; [done|].
  destruct chunk as [|a rest]; [done|].
  destruct (negb first && _); [simpl; by rewrite orb_false_r|].
  destruct (getEsc (a :: rest)) as [[lo chunk]|]; simpl; [|done].
  destruct (match chunk with [] => Some (lo, chunk) | b :: rest0 => if decide (b = c_dash) then getEsc rest0 else Some (lo, chunk) end)
    as [[hi chunk']|]; simpl; [|done].
  rewrite IH. destruct (parse_class k chunk' false) as [[rs rest']|]; simpl; [|done].
  by rewrite orb_assoc.
Qed.

Lemma chunk_loop_parse fuel chunk s failed :
  chunk_loop fuel chunk s failed =
  match parse_chunk fuel chunk with
  | Some ts => Some (if failed then None else match_toks ts s)
  | None => None
  end.
Proof.
  revert chunk s failed. induction fuel as [|k IH]; intros chunk s failed; simpl; [done|].
  destruct chunk as [|a rest]; [by destruct failed|].
  case_decide as Ho; [|case_decide as Hq].
  - destruct (skip_caret rest) as [negated chunk].
    assert (forall r s' failed',
      (class_loop (length chunk) chunk true r false ≫= fun '(c, found) => chunk_loop k c s' (failed' || bool_decide (found = negated))) =
      match parse_class (length chunk) chunk true with
      | Some (rs, c) => match parse_chunk k c with
                        | Some ts => Some (if failed' || negb (in_class negated rs r) then None else match_toks ts s')
                        | None => None end
      | None => None end) as Hc.
    { intros r s' failed'. rewrite class_loop_parse. destruct (parse_class _ _ _) as [[rs c]|]; simpl; [|done].
      rewrite IH. unfold in_class. rewrite negb_involutive.
      replace (bool_decide (existsb _ rs = negated)) with (Bool.eqb (existsb (fun '(lo, hi) => (lo <=? r) && (r <=? hi)) rs) negated); [done|].
      destruct (existsb _ rs), negated; done. }
    destruct (failed || bool_decide (s = [])) eqn:Ef; rewrite Hc; destruct (parse_class _ _ _) as [[rs c]|]; simpl; try done;
      destruct (parse_chunk k c) as [ts|]; simpl; try done; f_equal.
    + destruct failed; [done|]. simpl in Ef. by apply bool_decide_eq_true in Ef as ->.
    + apply orb_false_iff in Ef as [-> Es]. apply bool_decide_eq_false in Es. destruct s as [|b s]; [done|].
      simpl. by destruct (in_class _ _ _).
  - destruct (failed || bool_decide (s = [])) eqn:Ef; rewrite IH; destruct (parse_chunk k rest) as [ts|]; simpl; try done; f_equal.
    + destruct failed; [done|]. simpl in Ef. by apply bool_decide_eq_true in Ef as ->.
    + apply orb_false_iff in Ef as [-> Es]. apply bool_decide_eq_false in Es. destruct s as [|b s]; [done|].
      simpl. case_decide as Hb; [by rewrite bool_decide_true by congruence|]. by rewrite bool_decide_false by congruence.
  - destruct (if decide (a = c_back) then _ else _) as [[b rest']|]; simpl; [|done].
    destruct (failed || bool_decide (s = [])) eqn:Ef; rewrite IH; destruct (parse_chunk k rest') as [ts|]; simpl; try done; f_equal.
    + destruct failed; [done|]. simpl in Ef. by apply bool_decide_eq_true in Ef as ->.
    + apply orb_false_iff in Ef as [-> Es]. apply bool_decide_eq_false in Es. destruct s as [|c s]; [done|].
      simpl. case_decide as Hb; [by rewrite bool_decide_true by congruence|]. by rewrite bool_decide_false by congruence.
Qed.

Lemma matchChunk_parse chunk s :
  matchChunk chunk s = (fun ts => match_toks ts s) <$> parse_chunk (S (length chunk)) chunk.
Proof. unfold matchChunk. rewrite chunk_loop_parse. by destruct (parse_chunk _ _). Qed.

Lemma star_loop_parse chunk ts name last :
  parse_chunk (S (length chunk)) chunk = Some ts ->
  star_loop chunk name last = Some (find_after_star ts name last).
Proof.
  intros Hp. induction name as [|a name IH]; cbn [star_loop find_after_star]; [done|].
  case_decide; [done|]. rewrite matchChunk_parse, Hp. cbn [fmap option_fmap option_map mbind option_bind].
  destruct (accept last (match_toks ts name)); [done|]. exact IH.
Qed.

Lemma check_rest_parse fuel p : check_rest fuel p = (fun _ => tt) <$> parse_pattern fuel p.
Proof.
  revert p. induction fuel as [|k IH]; intros [|a p]; [done..|]. cbn [check_rest parse_pattern].
  destruct (scanChunk (a :: p)) as [[star chunk] rest]. rewrite matchChunk_parse.
  destruct (parse_chunk _ chunk) as [ts|]; simpl; [|done]. rewrite IH. by destruct (parse_pattern k rest).
Qed.

(** Nothing follows a star that ends the pattern. *)
Lemma skip_stars_head p star a q : skip_stars p = (star, a :: q) -> a <> c_star.
Proof.
  revert star. induction p as [|b p IH]; intros star; simpl; [done|]. case_decide; [|by intros [= _ <- _]].
  destruct (skip_stars p) as [st q'] eqn:E. simpl. intros [= _ ->]. by eapply IH.
Qed.

Lemma scan_to_star_nil p r : scan_to_star p false = ([], r) -> match p with [] => r = [] | a :: _ => a = c_star end.
Proof.
  destruct p as [|a p]; simpl; [by intros [=]|]. case_decide.
  - destruct p as [|b p]; [done|]. by destruct (scan_to_star p false).
  - case_bool_decide; [done|]. cbn [andb]. destruct (scan_to_star p _). done.
Qed.

Lemma scanChunk_trailing p star rest : scanChunk p = (star, [], rest) -> rest = [].
Proof.
  unfold scanChunk. destruct (skip_stars p) as [st q] eqn:Es. destruct (scan_to_star q false) as [c r] eqn:Ec.
  intros [= _ -> ->]. apply scan_to_star_nil in Ec. destruct q as [|a q]; [done|].
  exfalso. by eapply skip_stars_head.
Qed.

Lemma parse_chunk_nil fuel chunk ts : parse_chunk fuel chunk = Some ts -> (ts = [] <-> chunk = []).
Proof.
  destruct fuel as [|k]; [done|]. simpl. destruct chunk as [|a rest]; [by intros [= <-]|]. intros H.
  split; [|done]. intros ->. exfalso. case_decide; [|case_decide].
  - destruct (skip_caret rest) as [n c]. destruct (parse_class _ c true) as [[rs c']|]; simpl in H; [|done].
    by destruct (parse_chunk k c').
  - by destruct (parse_chunk k rest).
  - destruct (if decide (a = c_back) then _ else _) as [[b c]|]; simpl in H; [|done]. by destruct (parse_chunk k c).
Qed.

Lemma parse_pattern_nil fuel p segs : parse_pattern fuel p = Some segs -> (p = [] <-> segs = []).
Proof.
  destruct fuel as [|k], p as [|c p]; cbn [parse_pattern]; [by intros [= <-]|done|by intros [= <-]|].
  destruct (scanChunk (c :: p)) as [[star chunk] rest]. destruct (parse_chunk _ chunk); simpl; [|done].
  destruct (parse_pattern k rest); simpl; [|done]. by intros [= <-].
Qed.

Lemma match_loop_parse fuel p name :
  match_loop fuel p name = (fun segs => match_segs segs name) <$> parse_pattern fuel p.
Proof.
  revert p name. induction fuel as [|k IH]; intros [|a p] name; [done..|]. cbn [match_loop parse_pattern].
  destruct (scanChunk (a :: p)) as [[star chunk] rest] eqn:Esc. rewrite matchChunk_parse.
  destruct (parse_chunk _ chunk) as [ts|] eqn:Ep; cycle 1.
  { destruct (star && _) eqn:E; [|done]. apply andb_true_iff in E as [_ E]. apply bool_decide_eq_true in E. by subst chunk. }
  pose proof (parse_chunk_nil _ _ _ Ep) as Hnil. cbn [fmap option_fmap option_map mbind option_bind].
  destruct (star && bool_decide (chunk = [])) eqn:E.
  - apply andb_true_iff in E as [-> E]. apply bool_decide_eq_true in E. subst chunk.
    apply scanChunk_trailing in Esc as ->. assert (ts = []) as -> by tauto.
    destruct k; simpl; [done|]. done.
  - assert (bool_decide (chunk = []) = bool_decide (ts = [])) as Hb by (apply bool_decide_ext; tauto).
    assert (match accept (bool_decide (rest = [])) (match_toks ts name) with
            | Some t => Some (Some t)
            | None => if star then star_loop chunk name (bool_decide (rest = [])) else Some None end
            = Some (find_chunk star ts name (bool_decide (rest = [])))) as Hf.
    { unfold find_chunk. destruct (accept _ _); [done|]. destruct star; [|done]. by apply star_loop_parse. }
    rewrite Hf. cbn [mbind option_bind]. rewrite check_rest_parse.
    assert (forall segs, parse_pattern k rest = Some segs -> bool_decide (rest = []) = bool_decide (segs = [])) as Hl.
    { intros segs Hs. apply bool_decide_ext. by apply parse_pattern_nil in Hs. }
    destruct (find_chunk _ _ _ _) as [t|] eqn:Ef; [rewrite IH|]; destruct (parse_pattern k rest) as [segs|]; simpl; try done;
      rewrite <-(Hl segs) by done; rewrite <-Hb, E, Ef; done.
Qed.

Lemma Match_parse pattern name :
  Match pattern name = (fun segs => match_segs segs (bytes_of name)) <$> parse pattern.
Proof. apply match_loop_parse. Qed.

(** A malformed pattern is malformed for every name. *)
Lemma Match_bad pattern name : Match pattern name = None <-> parse pattern = None.
Proof. rewrite Match_parse. by destruct (parse pattern). Qed.

(** ** The meaning of patterns *)

Inductive ptok := Star | One (t : tok).

Inductive globs : list ptok -> bytes -> Prop :=
| globs_nil : globs [] []
| globs_lit a p s : globs p s -> globs (One (Lit a) :: p) (a :: s)
| globs_any p b s : b <> c_slash -> globs p (drop_rune (b :: s)) -> globs (One Any :: p) (b :: s)
| globs_class n rs p b s :
    in_class n rs (DecodeRune (b :: s)).1 = true -> globs p (drop_rune (b :: s)) -> globs (One (Class n rs) :: p) (b :: s)
| globs_skip p s : globs p s -> globs (Star :: p) s
| globs_take p b s : b <> c_slash -> globs (Star :: p) s -> globs (Star :: p) (b :: s).

Definition flat_seg (seg : bool * list tok) : list ptok := (if seg.1 then [Star] else []) ++ (One <$> seg.2).
Definition flatten (segs : list (bool * list tok)) : list ptok := mjoin (flat_seg <$> segs).

(** The pattern [pattern] is well formed and means a set of names that
    contains [name]. *)
Definition glob (pattern name : string) : Prop :=
  exists segs, parse pattern = Some segs /\ globs (flatten segs) (bytes_of name).

Lemma globs_toks ts p s : globs ((One <$> ts) ++ p) s <-> exists t, match_toks ts s = Some t /\ globs p t.
Proof.
  revert s. induction ts as [|t ts IH]; intros s; simpl.
  { split; [eauto|]. by intros (t & [= ->] & H). }
  split.
  - inversion 1 as [|a q s1 Hs|q b s1 Hb Hs|n rs q b s1 Hb Hs| |]; subst.
    + rewrite decide_True by done. by apply IH.
    + rewrite decide_False by done. by apply IH.
    + rewrite Hb. by apply IH.
  - intros (r & Hm & Hp). destruct s as [|b s]; [done|]. destruct t as [a| |n rs].
    + case_decide; [|done]. subst b. constructor. apply IH. eauto.
    + case_decide; [done|]. constructor; [done|]. apply IH. eauto.
    + destruct (in_class _ _ _) eqn:E; [|done]. constructor; [done|]. apply IH. eauto.
Qed.

Lemma globs_star p s : globs (Star :: p) s <-> exists u v, s = u ++ v /\ (c_slash ∉ u) /\ globs p v.
Proof.
  split.
  - intros H. remember (Star :: p) as q eqn:E. revert E.
    induction H as [|a q s H|q b s Hb H|n rs q b s Hb H|q s H IH|q b s Hb H IH]; intros [=]; subst.
    + exists [], s. split_and!; [done|apply not_elem_of_nil|done].
    + destruct IH as (u & v & -> & Hu & Hv); [done|]. exists (b :: u), v. split_and!; [done|by apply not_elem_of_cons|done].
  - intros (u & v & -> & Hu & Hv). induction u as [|b u IH]; simpl; [by constructor|].
    apply not_elem_of_cons in Hu as [Hb Hu]. constructor; [done|]. by apply IH.
Qed.

Lemma accept_Some last r t : accept last r = Some t <-> (r = Some t /\ (last = true -> t = [])).
Proof.
  unfold accept. destruct r as [t'|]; [|by split; [|intros [? _]]].
  destruct last; simpl; [case_bool_decide|]; (split; [by intros [= <-]|intros [[= ->] ?]; auto; exfalso; auto]).
Qed.

Lemma find_after_star_Some ts name last t :
  find_after_star ts name last = Some t ->
  exists u v, name = u ++ v /\ (c_slash ∉ u) /\ match_toks ts v = Some t /\ (last = true -> t = []).
Proof.
  induction name as [|a name IH]; simpl; [done|]. case_decide as Ha; [done|].
  destruct (accept last (match_toks ts name)) as [t'|] eqn:E.
  - intros [= <-]. apply accept_Some in E as [E El]. exists [a], name. split_and!; try done.
    by apply not_elem_of_cons; split; [|apply not_elem_of_nil].
  - intros H. destruct (IH H) as (u & v & -> & Hu & Hm & Hl). exists (a :: u), v. split_and!; try done.
    by apply not_elem_of_cons.
Qed.

Lemma find_chunk_Some star ts name last t :
  find_chunk star ts name last = Some t ->
  exists u v, name = u ++ v /\ (c_slash ∉ u) /\ (star = false -> u = []) /\ match_toks ts v = Some t /\ (last = true -> t = []).
Proof.
  unfold find_chunk. destruct (accept last _) as [t'|] eqn:E.
  - intros [= <-]. apply accept_Some in E as [E El]. exists [], name. split_and!; try done. by apply not_elem_of_nil.
  - destruct star; [|done]. intros (u & v & ? & ? & ? & ?)%find_after_star_Some. exists u, v. by split_and!.
Qed.

(** The shape of parsed patterns: stars separate the chunks, and only a
    trailing star has an empty chunk. *)
Fixpoint segs_ok (first : bool) (segs : list (bool * list tok)) : Prop :=
  match segs with
  | [] => True
  | (star, ts) :: rest =>
      (first = false -> star = true) /\ (ts = [] -> star = true /\ rest = []) /\ segs_ok false rest
  end.

Lemma scan_to_star_rest n p inr c r :
  (length p <= n)%nat -> scan_to_star p inr = (c, r) -> match r with [] => True | a :: _ => a = c_star end.
Proof.
  revert p inr c r. induction n as [|n IH]; intros [|a p] inr c r Hn; simpl in *; try (by intros [= <- <-]); try lia.
  case_decide.
  - destruct p as [|b p]; [by intros [= <- <-]|]. destruct (scan_to_star p inr) as [c' r'] eqn:E. intros [= <- <-].
    eapply IH; [|exact E]. simpl in *. lia.
  - destruct (bool_decide (a = c_star) && negb inr) eqn:Eb.
    + intros [= <- <-]. by apply andb_true_iff in Eb as [->%bool_decide_eq_true _].
    + destruct (scan_to_star p _) as [c' r'] eqn:E. intros [= <- <-]. eapply IH; [|exact E]. lia.
Qed.

Lemma scanChunk_shape p star chunk rest :
  p <> [] -> scanChunk p = (star, chunk, rest) ->
  (head p = Some c_star -> star = true) /\ (chunk = [] -> star = true) /\
  match rest with [] => True | a :: _ => a = c_star end.
Proof.
  unfold scanChunk. destruct (skip_stars p) as [st q] eqn:Es. destruct (scan_to_star q false) as [c r] eqn:Ec.
  intros Hp [= <- <- <-]. destruct p as [|a p]; [done|]. simpl in Es. split_and!.
  - intros [= ->]. rewrite decide_True in Es by done. by injection Es.
  - intros ->. case_decide; [by injection Es|]. injection Es as <- <-. by apply scan_to_star_nil in Ec.
  - by eapply scan_to_star_rest.
Qed.

Lemma parse_pattern_ok fuel p segs first :
  parse_pattern fuel p = Some segs -> (first = false -> p = [] \/ head p = Some c_star) -> segs_ok first segs.
Proof.
  revert p segs first. induction fuel as [|k IH]; intros [|a p] segs first; cbn [parse_pattern]; try by intros [= <-].
  destruct (scanChunk (a :: p)) as [[star chunk] rest] eqn:Esc.
  destruct (parse_chunk _ chunk) as [ts|] eqn:Et; simpl; [|done].
  destruct (parse_pattern k rest) as [segs'|] eqn:Ep; simpl; [|done]. intros [= <-] Hf.
  destruct (scanChunk_shape (a :: p) _ _ _ ltac:(done) Esc) as (Hs & Hc & Hr). split_and!.
  - intros Hff. destruct (Hf Hff) as [?|?]; [done|auto].
  - intros ->. assert (chunk = []) as -> by (by eapply (parse_chunk_nil _ _ _ Et)). split; [auto|].
    apply scanChunk_trailing in Esc as ->. by apply (parse_pattern_nil _ _ _ Ep).
  - eapply IH; [exact Ep|]. intros _. destruct rest as [|b rest]; [by left|right]. by subst b.
Qed.

(** Everything the matcher accepts is in the meaning of the pattern. *)
Lemma match_segs_sound first segs name :
  segs_ok first segs -> match_segs segs name = true -> globs (flatten segs) name.
Proof.
  revert first name. induction segs as [|[star ts] segs IH]; intros first name Hok; cbn [match_segs].
  { intros ->%bool_decide_eq_true. constructor. }
  destruct Hok as (Hf & Ht & Hok).
  change (flatten ((star, ts) :: segs)) with (flat_seg (star, ts) ++ flatten segs). unfold flat_seg. rewrite <-app_assoc. simpl.
  destruct (star && bool_decide (ts = [])) eqn:E.
  - apply andb_true_iff in E as [-> ->%bool_decide_eq_true]. intros Hs%bool_decide_eq_true.
    destruct Ht as [_ ->]; [done|]. apply globs_star. exists name, []. rewrite app_nil_r. by repeat constructor.
  - destruct (find_chunk _ _ _ _) as [t|] eqn:Ef; [|done]. intros Hm.
    apply find_chunk_Some in Ef as (u & v & -> & Hu & Hst & Hv & _).
    assert (globs ((One <$> ts) ++ flatten segs) v) as Hg by (apply globs_toks; eauto).
    destruct star; [|by rewrite Hst]. simpl. apply globs_star. eauto.
Qed.

(** *** Without classes, on ASCII names, the matcher misses nothing *)

Definition ascii_name (s : bytes) : Prop := Forall (fun a => code a < 128) s.
Definition no_class (ts : list tok) : Prop := Forall (fun t => match t with Class _ _ => False | _ => True end) ts.
Definition tok_char (t : tok) (b : ascii) : Prop :=
  match t with Lit a => b = a | Any => b <> c_slash | Class _ _ => False end.

Lemma drop_rune_ascii b s : code b < 128 -> drop_rune (b :: s) = s.
Proof. intros H. unfold drop_rune. simpl. by replace (code b <? 128) with true by lia. Qed.

Lemma match_toks_ascii ts s t :
  no_class ts -> ascii_name s ->
  (match_toks ts s = Some t <-> exists x, s = x ++ t /\ Forall2 tok_char ts x).
Proof.
  intros Hn. revert s. induction Hn as [|k ts Hk Hn IH]; intros s Hs; simpl.
  { split; [intros [= ->]; by exists []|]. intros (x & -> & H). by inversion H. }
  destruct Hs as [|b s Hb Hs].
  { split; [done|]. intros (x & Hx & H). by inversion H; subst. }
  rewrite drop_rune_ascii by done. destruct k as [a| |]; [| |done].
  - case_decide as Hd.
    + rewrite IH by done. split; intros (x & Hx & H).
      * exists (b :: x). subst s. split; [done|]. by constructor.
      * inversion H as [|? b' ? x' Ht Hx']; subst. injection Hx as ? ->. eauto.
    + split; [done|]. intros (x & Hx & H). by inversion H; simplify_eq/=.
  - case_decide as Hd.
    + split; [done|]. intros (x & Hx & H). by inversion H; simplify_eq/=.
    + rewrite IH by done. split; intros (x & Hx & H).
      * exists (b :: x). subst s. split; [done|]. by constructor.
      * inversion H as [|? b' ? x' Ht Hx']; subst. injection Hx as ? ->. eauto.
Qed.

(** If a chunk fits at two places, the later text it covers has no slash:
    a slash there would be a literal slash of the chunk, whose counterpart at
    the earlier place lies further left, and so on into the skipped part. *)
Lemma later_fit_no_slash ts u0 d x0 x1 r0 r1 :
  Forall2 tok_char ts x0 -> Forall2 tok_char ts x1 -> d <> [] -> c_slash ∉ d ->
  u0 ++ x0 ++ r0 = u0 ++ d ++ x1 ++ r1 -> c_slash ∉ x1.
Proof.
  intros H0 H1 Hd Hns Heq%app_inv_head. rewrite list_elem_of_lookup. intros [i Hi].
  induction (lt_wf i) as [i _ IH]. pose proof (Forall2_lookup_r _ _ _ _ _ H1 Hi) as (t & Ht & Hc).
  destruct t as [a| |]; simpl in Hc; [subst a| |]; [|done..].
  destruct (Forall2_lookup_l _ _ _ _ _ H0 Ht) as (b & Hb & Hbc). simpl in Hbc. subst b.
  assert ((x0 ++ r0) !! i = Some c_slash) as Hl by (rewrite lookup_app_l; [done|by eapply lookup_lt_Some]).
  rewrite Heq in Hl. destruct (decide (i < length d)%nat) as [Hlt|Hge].
  - rewrite lookup_app_l in Hl by done. apply Hns. apply list_elem_of_lookup. eauto.
  - rewrite lookup_app_r in Hl by lia. assert (length d <> 0)%nat by (by intros ?%nil_length_inv).
    pose proof (lookup_lt_Some _ _ _ Hi). rewrite lookup_app_l in Hl by lia. apply (IH (i - length d)%nat); [lia|done].
Qed.

Lemma find_after_star_leftmost ts last u v t :
  u <> [] -> c_slash ∉ u -> match_toks ts v = Some t -> (last = true -> t = []) ->
  exists u' d t', find_after_star ts (u ++ v) last = Some t' /\ u = u' ++ d /\
    match_toks ts (d ++ v) = Some t' /\ (last = true -> t' = []).
Proof.
  intros Hne Hu Hm Hl. induction u as [|a u IH]; [done|]. apply not_elem_of_cons in Hu as [Ha Hu]. simpl.
  rewrite decide_False by done. destruct (accept last (match_toks ts (u ++ v))) as [t'|] eqn:E.
  - apply accept_Some in E as [E El]. by exists [a], u, t'.
  - destruct u as [|b u].
    + simpl in E. assert (accept last (match_toks ts v) = Some t) by (by apply accept_Some). congruence.
    + destruct IH as (u' & d & t' & Hf & Hud & Hm' & Hl'); [done|done|]. exists (a :: u'), d, t'.
      split_and!; try done. simpl. by rewrite Hud.
Qed.

Lemma find_chunk_leftmost star ts last u v t :
  (star = false -> u = []) -> c_slash ∉ u -> match_toks ts v = Some t -> (last = true -> t = []) ->
  exists u' d t', find_chunk star ts (u ++ v) last = Some t' /\ u = u' ++ d /\
    match_toks ts (d ++ v) = Some t' /\ (last = true -> t' = []).
Proof.
  intros Hst Hu Hm Hl. unfold find_chunk. destruct (accept last (match_toks ts (u ++ v))) as [t'|] eqn:E.
  - apply accept_Some in E as [E El]. by exists [], u, t'.
  - destruct (decide (u = [])) as [->|Hne].
    + simpl in E. assert (accept last (match_toks ts v) = Some t) by (by apply accept_Some). congruence.
    + destruct star; [|by rewrite Hst in Hne]. by eapply find_after_star_leftmost.
Qed.

(** What the leftmost fit leaves is what the other fit leaves, with some
    slash-free text before it that the next star can take. *)
Lemma leftmost_rest ts d v t t' :
  no_class ts -> ascii_name (d ++ v) -> c_slash ∉ d -> match_toks ts v = Some t -> match_toks ts (d ++ v) = Some t' ->
  exists w, t' = w ++ t /\ c_slash ∉ w.
Proof.
  intros Hn Ha Hd Ht Ht'. destruct (decide (d = [])) as [->|Hne].
  { exists []. simpl in Ht'. split; [simpl; congruence|apply not_elem_of_nil]. }
  pose proof Ha as (_ & Hv)%Forall_app.
  apply match_toks_ascii in Ht as (x & -> & Hx); [|done..]. apply match_toks_ascii in Ht' as (x' & Heq & Hx'); [|done..].
  assert (c_slash ∉ x) as Hsx by (eapply (later_fit_no_slash ts [] d x' x t' t); try done; by rewrite <-Heq).
  exists (drop (length x') (d ++ x)). split.
  - apply (f_equal (drop (length x'))) in Heq. rewrite drop_app_length in Heq. rewrite <-Heq, app_assoc.
    rewrite drop_app_le; [done|]. rewrite length_app, <-(Forall2_length _ _ _ Hx), <-(Forall2_length _ _ _ Hx'). lia.
  - intros Hin. assert (c_slash ∈ d ++ x) as [?|?]%elem_of_app by (by eapply subseteq_drop); done.
Qed.

Lemma match_segs_complete first segs name :
  segs_ok first segs -> Forall (fun seg => no_class seg.2) segs -> ascii_name name ->
  globs (flatten segs) name -> match_segs segs name = true.
Proof.
  intros Hok Hn. revert first name Hok. induction Hn as [|[star ts] segs Hts Hn IH]; intros first name Hok Ha; cbn [match_segs].
  { inversion 1. by apply bool_decide_eq_true. }
  destruct Hok as (Hf & Ht & Hok).
  change (flatten ((star, ts) :: segs)) with (flat_seg (star, ts) ++ flatten segs).
  unfold flat_seg. rewrite <-app_assoc. simpl. intros Hg.
  assert (exists u v, name = u ++ v /\ (c_slash ∉ u) /\ (star = false -> u = []) /\ globs ((One <$> ts) ++ flatten segs) v)
    as (u & v & -> & Hu & Hst & (t & Hm & Hr)%globs_toks).
  { destruct star; [apply globs_star in Hg as (u & v & ? & ? & ?); by exists u, v|].
    exists [], name. split_and!; [done|apply not_elem_of_nil|done|done]. }
  destruct (star && bool_decide (ts = [])) eqn:E.
  - apply andb_true_iff in E as [-> ->%bool_decide_eq_true]. destruct Ht as [_ ->]; [done|].
    simpl in Hm. injection Hm as ->. inversion Hr; subst. rewrite app_nil_r. by apply bool_decide_eq_true.
  - assert (bool_decide (segs = []) = true -> t = []) as Hl.
    { intros ->%bool_decide_eq_true. by inversion Hr. }
    destruct (find_chunk_leftmost star ts (bool_decide (segs = [])) u v t Hst Hu Hm Hl) as (u' & d & t' & Hfc & -> & Hm' & Hl').
    rewrite Hfc. rewrite <-app_assoc in Ha. apply Forall_app in Ha as [_ Ha].
    apply not_elem_of_app in Hu as [_ Hd].
    destruct (leftmost_rest ts d v t t' Hts Ha Hd Hm Hm') as (w & -> & Hw).
    apply (IH false); [done| |].
    + apply match_toks_ascii in Hm' as (x & Hx & _); [|done..]. rewrite Hx in Ha. by apply Forall_app in Ha as [_ ?].
    + destruct segs as [|[star2 ts2] segs]; [rewrite (Hl' eq_refl); constructor|].
      destruct Hok as (Hs2 & _). rewrite Hs2 in Hr |- * by done.
      change (globs (Star :: ((One <$> ts2) ++ flatten segs)) (w ++ t)).
      change (globs (Star :: ((One <$> ts2) ++ flatten segs)) t) in Hr.
      apply globs_star in Hr as (u2 & v2 & -> & Hu2 & Hv2). apply globs_star. exists (w ++ u2), v2.
      rewrite app_assoc. split_and!; [done| |done]. rewrite not_elem_of_app. done.
Qed.

(** *** Patterns without brackets and backslashes are always well formed *)

Lemma scan_to_star_app n p inr c r : (length p <= n)%nat -> scan_to_star p inr = (c, r) -> p = c ++ r.
Proof.
  revert p inr c r. induction n as [|n IH]; intros [|a p] inr c r Hn; simpl in *; try (by intros [= <- <-]); try lia.
  case_decide.
  - destruct p as [|b p]; [by intros [= <- <-]|]. destruct (scan_to_star p inr) as [c' r'] eqn:E. intros [= <- <-].
    apply IH in E; [|simpl in *; lia]. by rewrite E.
  - destruct (bool_decide (a = c_star) && negb inr); [by intros [= <- <-]|].
    destruct (scan_to_star p _) as [c' r'] eqn:E. intros [= <- <-]. apply IH in E; [|lia]. by rewrite E.
Qed.

Lemma skip_stars_app p st q : skip_stars p = (st, q) -> exists x, p = x ++ q /\ (st = true -> x <> []).
Proof.
  revert st q. induction p as [|a p IH]; intros st q; simpl; [intros [= <- <-]; by exists []|].
  case_decide; [|intros [= <- <-]; by exists []]. destruct (skip_stars p) as [st' q'] eqn:E. simpl. intros [= <- <-].
  destruct (IH _ _ eq_refl) as (x & -> & _). by exists (a :: x).
Qed.

Lemma scanChunk_app p star chunk rest :
  p <> [] -> scanChunk p = (star, chunk, rest) -> exists x, p = x ++ chunk ++ rest /\ (length rest < length p)%nat.
Proof.
  intros Hp H. destruct (scanChunk_shape _ _ _ _ Hp H) as (_ & Hc & _). revert H. unfold scanChunk.
  destruct (skip_stars p) as [st q] eqn:Es. destruct (scan_to_star q false) as [c r] eqn:Ec. intros [= -> -> ->].
  apply skip_stars_app in Es as (x & -> & Hx). apply (scan_to_star_app (length q)) in Ec as ->; [|done].
  exists x. split; [done|]. rewrite !length_app. destruct chunk as [|a chunk]; [|simpl; lia].
  destruct x as [|b x]; [|simpl; lia]. by specialize (Hx (Hc eq_refl)).
Qed.

Definition plain_char (a : ascii) : Prop := a <> c_open /\ a <> c_back.
#[global] Instance plain_char_dec a : Decision (plain_char a).
Proof. unfold plain_char. apply _. Defined.

Lemma parse_chunk_plain k chunk :
  (length chunk < k)%nat -> Forall plain_char chunk -> exists ts, parse_chunk k chunk = Some ts /\ no_class ts.
Proof.
  revert chunk. induction k as [|k IH]; intros chunk Hk Hp; [lia|]. cbn [parse_chunk].
  destruct Hp as [|a chunk [Ho Hb] Hp]; [exists []; split; [done|constructor]|]. simpl in Hk.
  destruct (IH chunk ltac:(lia) Hp) as (ts & Hts & Hn). rewrite decide_False by done. case_decide.
  - rewrite Hts. exists (Any :: ts). split; [done|by constructor].
  - rewrite decide_False by done. simpl. rewrite Hts. exists (Lit a :: ts). split; [done|by constructor].
Qed.

Lemma parse_pattern_plain k p :
  (length p <= k)%nat -> Forall plain_char p ->
  exists segs, parse_pattern k p = Some segs /\ Forall (fun seg => no_class seg.2) segs.
Proof.
  revert p. induction k as [|k IH]; intros [|a p] Hk Hp; cbn [parse_pattern]; simpl in Hk; try lia;
    try (exists []; split; [done|constructor]).
  destruct (scanChunk (a :: p)) as [[star chunk] rest] eqn:E.
  destruct (scanChunk_app (a :: p) _ _ _ ltac:(done) E) as (x & Hx & Hl). rewrite Hx in Hp.
  apply Forall_app in Hp as [_ [Hc Hr]%Forall_app].
  destruct (parse_chunk_plain (S (length chunk)) chunk ltac:(lia) Hc) as (ts & -> & Hts).
  destruct (IH rest) as (segs & -> & Hs); [simpl in Hl; lia|done|]. simpl. exists ((star, ts) :: segs). by repeat constructor.
Qed.

Definition plain_pattern (p : string) : Prop := Forall plain_char (bytes_of p).
Definition ascii_string (s : string) : Prop := ascii_name (bytes_of s).

(** ** What [Match] decides *)

Lemma Match_sound pattern name : Match pattern name = Some true -> glob pattern name.
Proof.
  rewrite Match_parse. unfold glob, parse. destruct (parse_pattern _ _) as [segs|] eqn:E; [|done]. simpl.
  intros [= H]. exists segs. split; [done|]. eapply match_segs_sound; [|exact H].
  by apply (parse_pattern_ok _ _ _ true E).
Qed.

Lemma Match_complete pattern name :
  plain_pattern pattern -> ascii_string name -> glob pattern name -> Match pattern name = Some true.
Proof.
  intros Hp Hn (segs & Hs & Hg). rewrite Match_parse, Hs. simpl. f_equal. unfold parse in Hs.
  eapply (match_segs_complete true); [by apply (parse_pattern_ok _ _ _ true Hs)| |done|done].
  destruct (parse_pattern_plain _ _ (le_n (length (bytes_of pattern))) Hp) as (segs' & Hs' & ?). by simplify_eq.
Qed.

Lemma Match_plain_total pattern name : plain_pattern pattern -> exists b, Match pattern name = Some b.
Proof.
  intros Hp. rewrite Match_parse. unfold parse.
  destruct (parse_pattern_plain _ _ (le_n (length (bytes_of pattern))) Hp) as (segs & -> & _). simpl. eauto.
Qed.

(** With classes, which can match a slash, the matcher is weaker than the
    meaning of the pattern: it does not reconsider the place of a chunk. *)
Lemma Match_class_incomplete :
  glob "*[^b]*c" "a/c" /\ Match "*[^b]*c" "a/c" = Some false.
Proof.
  split; [|vm_compute; reflexivity]. eexists. split; [vm_compute; reflexivity|].
  change (globs [Star; One (Class true [(98, 98)]); Star; One (Lit (chr 99))] [chr 97; chr 47; chr 99]).
  apply globs_take; [by vm_compute|]. apply globs_skip. apply globs_class; [reflexivity|].
  apply globs_skip. change (drop_rune [chr 47; chr 99]) with [chr 99]. apply globs_lit, globs_nil.
Qed.

Example Match_star : Match "/api/v1/public/*" "/api/v1/public/status" = Some true.
Proof. reflexivity. Qed.
Example Match_star_slash : Match "/api/v1/public/*" "/api/v1/public/nested/status" = Some false.
Proof. reflexivity. Qed.
Example Match_class_unclosed : Match "a[" "a" = None.
Proof. reflexivity. Qed.
