(* ===== verification/Configuration.v ===== *)
(** * Configuration

    [internal/config/config.go]: the configuration records, the defaults,
    profile selection, the decoding of string lists and the validation of a
    loaded configuration.  [viper] and [mapstructure], which read and merge
    files, variables and defaults, are the parameter [Viper]; the order in
    which Go ranges over a map is the parameter [MapOrder].  Durations are
    nanoseconds; the sampling ratio is an IEEE 754 number. *)

From S2P Require Import Prelude.
From S2P Require Import GoStrings.
From S2P Require Import Encoding.
From S2P Require Import AppError.
From S2P Require Import PathMatch.
From Stdlib Require Import Ascii.
From Stdlib Require Import SpecFloat.
Open Scope Z_scope.

(** ** Strings *)

(** [unicode.IsPrint] outside ASCII. *)
Class UnicodePrint := unicode_print : Z -> bool.

(** The order of [for k, v := range m]. *)
Class MapOrder := map_range : forall {A}, list A -> list A.
Class MapOrderLaws `{!MapOrder} := map_range_perm A (l : list A) : Permutation (map_range l) l.

Definition HasPrefix (s p : string) : bool := has_prefix (bytes_of p) (bytes_of s).
Definition HasSuffix (s p : string) : bool := has_prefix (reverse (bytes_of p)) (reverse (bytes_of s)).
(** [strings.Count] of a one-byte string. *)
Definition Count (s : string) (c : ascii) : Z := Z.of_nat (length (filter (fun a => a = c) (bytes_of s))).

Fixpoint drop_while (p : ascii -> bool) (l : bytes) : bytes :=
  match l with
  | a :: l' => if p a then drop_while p l' else l
  | [] => []
  end.
(** [strings.Trim] with a cutset of ASCII characters. *)
Definition Trim (s cutset : string) : string :=
  let inset a := bool_decide (a ∈ bytes_of cutset) in
  string_of (reverse (drop_while inset (reverse (drop_while inset (bytes_of s))))).

Section quote.
Context `{!UnicodePrint}.

Definition IsPrint (r : Z) : bool := if r <? 0x80 then (0x20 <=? r) && (r <? 0x7F) else unicode_print r.
Definition hex_width (n : nat) (v : Z) : bytes := hex_digit <$> to_digits 16 n v.

(** [appendEscapedRune]. *)
Definition escape_rune (r : Z) : bytes :=
  if (r =? 34) || (r =? 92) then [chr 92; chr r]
  else if IsPrint r then encode_rune r
  else match r with
  | 7 => bytes_of "\a" | 8 => bytes_of "\b" | 12 => bytes_of "\f" | 10 => bytes_of "\n"
  | 13 => bytes_of "\r" | 9 => bytes_of "\t" | 11 => bytes_of "\v"
  | _ => if (r <? 32) || (r =? 0x7F) then bytes_of "\x" ++ hex_width 2 r
         else if r <? 0x10000 then bytes_of "\u" ++ hex_width 4 r
         else bytes_of "\U" ++ hex_width 8 r
  end.
Fixpoint quote_loop (fuel : nat) (l : bytes) : bytes :=
  match fuel, l with
  | S k, a :: _ =>
      let '(r, n) := DecodeRune l in
      (if bool_decide (n = 1%nat) && (r =? RuneError) then bytes_of "\x" ++ hex_width 2 (code a) else escape_rune r)
      ++ quote_loop k (drop n l)
  | _, _ => []
  end.
(** [strconv.Quote], the verb [%q]. *)
Definition Quote (s : string) : string :=
  string_of ([chr 34] ++ quote_loop (length (bytes_of s)) (bytes_of s) ++ [chr 34]).
End quote.

Module Config.

(** ** Records *)

Module Runtime.
Record t := mk {
  ActiveProfile : string;
  ConfigFiles : list string;
}.
End Runtime.

Module App.
Record t := mk {
  Name : string;
  Schema : string;
  Env : string;
  ShutdownTimeout : Z;
}.
End App.

Module CORS.
Record t := mk {
  Enabled : bool;
  AllowedOrigins : list string;
  AllowedHeaders : list string;
  ExposedHeaders : list string;
  MaxAge : Z;
}.
End CORS.

Module HTTP.
Record t := mk {
  Address : string;
  ReadTimeout : Z;
  WriteTimeout : Z;
  IdleTimeout : Z;
  RequestTimeout : Z;
  MaxBodyBytes : Z;
  TrustedProxies : list string;
  CORS : CORS.t;
}.
End HTTP.

Module GRPCTLS.
Record t := mk {
  Enabled : bool;
  CertFile : string;
  KeyFile : string;
  ClientCAFile : string;
}.
End GRPCTLS.

Module GRPC.
Record t := mk {
  Enabled : bool;
  Address : string;
  ReflectionEnabled : bool;
  MaxReceiveBytes : Z;
  TLS : GRPCTLS.t;
}.
End GRPC.

Module Log.
Record t := mk {
  Level : string;
  Format : string;
  File : string;
  MaxSizeMB : Z;
  MaxBackups : Z;
  MaxAgeDays : Z;
  Compress : bool;
}.
End Log.

Module Database.
Record t := mk {
  Enabled : bool;
  Name : string;
  Schema : string;
  Type_ : string;
  DSN : string;
  MaxOpenConns : Z;
  MaxIdleConns : Z;
  ConnMaxLifetime : Z;
  ConnMaxIdleTime : Z;
  PingTimeout : Z;
}.
End Database.

Module Redis.
Record t := mk {
  Enabled : bool;
  Address : string;
  Username : string;
  Password : string;
  DB : Z;
  DialTimeout : Z;
  ReadTimeout : Z;
  WriteTimeout : Z;
}.
End Redis.

Module Health.
Record t := mk {
  DatabaseTimeout : Z;
  RedisTimeout : Z;
}.
End Health.

Module RateLimitRule.
Record t := mk {
  Rate : Z;
  Burst : Z;
  Period : Z;
}.
End RateLimitRule.

Module RateLimit.
Record t := mk {
  Enabled : bool;
  FailOpen : bool;
  IP : RateLimitRule.t;
  API : RateLimitRule.t;
  User : RateLimitRule.t;
  Login : RateLimitRule.t;
}.
End RateLimit.

Module Observability.
Record t := mk {
  MetricsEnabled : bool;
  TracingEnabled : bool;
  TracingEndpoint : string;
  TracingSampleRatio : spec_float;
  PprofEnabled : bool;
  PprofToken : string;
}.
End Observability.

Module Swagger.
Record t := mk {
  Enabled : bool;
  RequireAuth : bool;
}.
End Swagger.

Module JWT.
Record t := mk {
  Issuer : string;
  Audiences : list string;
  Secret : string;
  TTL : Z;
  KeyID : string;
  PreviousSecrets : gmap string string;
}.
End JWT.

Module MFA.
Record t := mk {
  Enabled : bool;
  Issuer : string;
  EncryptionKey : string;
  RecoveryPepper : string;
  ChallengeTTL : Z;
}.
End MFA.

Module PSK.
Record t := mk {
  Enabled : bool;
  Key : string;
  HTTPPaths : list string;
  GRPCMethods : list string;
}.
End PSK.

Module Auth.
Record t := mk {
  ClientID : string;
  ClientSecret : string;
  SkipHTTPPaths : list string;
  SkipGRPCMethods : list string;
  PSK : PSK.t;
}.
End Auth.

Module Authorization.
Record t := mk {
  Enabled : bool;
}.
End Authorization.

Module Cron.
Record t := mk {
  Enabled : bool;
  Timezone : string;
  SampleSpec : string;
  SessionRetention : Z;
  SessionCleanupInterval : Z;
  SessionCleanupBatchSize : Z;
}.
End Cron.

Module Migration.
Record t := mk {
  AutoUp : bool;
  CreateSchema : bool;
  Path : string;
  DatabaseURL : string;
  Table : string;
  Schema : string;
  DatabaseName : string;
}.
End Migration.

Module UserOptions.
Record t := mk {
  CacheTTL : Z;
  LockTTL : Z;
  LockRetryDelay : Z;
}.
End UserOptions.

Module Idempotency.
Record t := mk {
  Enabled : bool;
  HTTPPaths : list string;
  GRPCMethods : list string;
  ProcessingTTL : Z;
  ResultTTL : Z;
  FailureTTL : Z;
}.
End Idempotency.

Module ClientAuth.
Record t := mk {
  Type_ : string;
  Token : string;
}.
End ClientAuth.

Module Retry.
Record t := mk {
  MaxAttempts : Z;
  InitialBackoff : Z;
  MaxBackoff : Z;
  Methods : list string;
}.
End Retry.

Module Breaker.
Record t := mk {
  Enabled : bool;
  FailureThreshold : Z;
  OpenTimeout : Z;
}.
End Breaker.

Module ClientTLS.
Record t := mk {
  Enabled : bool;
  ServerName : string;
  CAFile : string;
  CertFile : string;
  KeyFile : string;
}.
End ClientTLS.

Module HTTPUpstream.
Record t := mk {
  BaseURL : string;
  Timeout : Z;
  Auth : ClientAuth.t;
  Retry : Retry.t;
  Breaker : Breaker.t;
  TLS : ClientTLS.t;
}.
End HTTPUpstream.

Module GRPCUpstream.
Record t := mk {
  Target : string;
  Timeout : Z;
  Auth : ClientAuth.t;
  Retry : Retry.t;
  Breaker : Breaker.t;
  TLS : ClientTLS.t;
}.
End GRPCUpstream.

Module Outbound.
Record t := mk {
  HTTP : gmap string HTTPUpstream.t;
  GRPC : gmap string GRPCUpstream.t;
}.
End Outbound.

Module EventBus.
Record t := mk {
  Enabled : bool;
  URLs : list string;
  StreamName : string;
  Storage : string;
  MaxAge : Z;
  DuplicateWindow : Z;
  ConnectTimeout : Z;
  PublishTimeout : Z;
  DispatchInterval : Z;
  DispatchBatchSize : Z;
  DispatchLease : Z;
  DispatchRetryDelay : Z;
  PublishedRetention : Z;
  CleanupInterval : Z;
  CleanupBatchSize : Z;
}.
End EventBus.

Record t := mk {
  Runtime : Runtime.t;
  App : App.t;
  HTTP : HTTP.t;
  GRPC : GRPC.t;
  Log : Log.t;
  Database : Database.t;
  Redis : Redis.t;
  Health : Health.t;
  RateLimit : RateLimit.t;
  Observability : Observability.t;
  Swagger : Swagger.t;
  JWT : JWT.t;
  MFA : MFA.t;
  Auth : Auth.t;
  Authorization : Authorization.t;
  Cron : Cron.t;
  Migration : Migration.t;
  User : UserOptions.t;
  Idempotency : Idempotency.t;
  Outbound : Outbound.t;
  EventBus : EventBus.t;
}.

(** ** Defaults *)

(** The values passed to [viper.SetDefault]; a decimal is [m * 10 ^ e]. *)
Inductive Default := DString (s : string) | DInt (z : Z) | DBool (b : bool) | DStrings (l : list string)
                   | DDecimal (m e : Z) | DMap.

Definition setRateLimitDefaults (key : string) (rate burst : Z) : list (string * Default) :=
  [(key +:+ ".rate", DInt rate); (key +:+ ".burst", DInt burst); (key +:+ ".period", DString "1m")].

Definition setDefaults : list (string * Default) :=
  [("app.name", DString "identity-service");
   ("app.env", DString "development");
   ("app.shutdown_timeout", DString "10s");
   ("http.address", DString "127.0.0.1:8080");
   ("http.read_timeout", DString "10s");
   ("http.write_timeout", DString "15s");
   ("http.idle_timeout", DString "60s");
   ("http.request_timeout", DString "10s");
   ("http.max_body_bytes", DInt (1 * 2 ^ 20));
   ("http.trusted_proxies", DStrings []);
   ("http.cors.enabled", DBool false);
   ("http.cors.allowed_origins", DStrings []);
   ("http.cors.allowed_headers", DStrings ["Authorization"; "Content-Type"; "X-Request-ID"]);
   ("http.cors.exposed_headers", DStrings ["X-Request-ID"; "X-RateLimit-Limit"; "X-RateLimit-Remaining"; "Retry-After"]);
   ("http.cors.max_age", DString "12h");
   ("grpc.enabled", DBool true);
   ("grpc.address", DString "127.0.0.1:9090");
   ("grpc.reflection_enabled", DBool true);
   ("grpc.max_receive_bytes", DInt (16 * 2 ^ 20));
   ("grpc.tls.enabled", DBool false);
   ("grpc.tls.cert_file", DString "");
   ("grpc.tls.key_file", DString "");
   ("grpc.tls.client_ca_file", DString "");
   ("log.level", DString "info");
   ("log.format", DString "json");
   ("log.file", DString "logs/app.log");
   ("log.max_size_mb", DInt 100);
   ("log.max_backups", DInt 10);
   ("log.max_age_days", DInt 30);
   ("log.compress", DBool true);
   ("database.ping_timeout", DString "5s");
   ("database.max_open_conns", DInt 25);
   ("database.max_idle_conns", DInt 10);
   ("database.conn_max_lifetime", DString "5m");
   ("database.conn_max_idle_time", DString "1m");
   ("database.enabled", DBool false);
   ("database.name", DString "platform");
   ("database.schema", DString "identity");
   ("database.type", DString "postgres");
   ("database.dsn", DString "");
   ("redis.address", DString "127.0.0.1:6379");
   ("redis.dial_timeout", DString "5s");
   ("redis.read_timeout", DString "3s");
   ("redis.write_timeout", DString "3s");
   ("redis.enabled", DBool false);
   ("redis.username", DString "");
   ("redis.password", DString "");
   ("redis.db", DInt 0);
   ("health.database_timeout", DString "2s");
   ("health.redis_timeout", DString "2s");
   ("rate_limit.enabled", DBool false);
   ("rate_limit.fail_open", DBool false)] ++
  setRateLimitDefaults "rate_limit.ip" 120 30 ++
  setRateLimitDefaults "rate_limit.api" 10000 1000 ++
  setRateLimitDefaults "rate_limit.user" 600 100 ++
  setRateLimitDefaults "rate_limit.login" 10 3 ++
  [("observability.metrics_enabled", DBool true);
   ("observability.tracing_enabled", DBool false);
   ("observability.tracing_endpoint", DString "http://127.0.0.1:4318");
   ("observability.tracing_sample_ratio", DDecimal 1 (-1));
   ("observability.pprof_enabled", DBool false);
   ("observability.pprof_token", DString "");
   ("swagger.enabled", DBool true);
   ("swagger.require_auth", DBool false);
   ("jwt.issuer", DString "identity-service");
   ("jwt.audiences", DStrings ["identity-service"; "tenant-service"; "authorization-service"; "audit-service"; "config-service"; "notification-service"; "file-service"; "scheduler-service"; "swagger-service"; "application-service"; "dictionary-service"; "webhook-service"; "workflow-service"; "search-service"; "metering-service"; "billing-service"; "rule-service"; "data-export-service"; "import-service"]);
   ("jwt.secret", DString "");
   ("jwt.ttl", DString "2h");
   ("jwt.key_id", DString "identity-current");
   ("jwt.previous_secrets", DMap);
   ("mfa.enabled", DBool false);
   ("mfa.issuer", DString "Microservice Platform");
   ("mfa.encryption_key", DString "");
   ("mfa.recovery_pepper", DString "");
   ("mfa.challenge_ttl", DString "5m");
   ("auth.client_id", DString "");
   ("auth.client_secret", DString "");
   ("auth.skip_http_paths", DStrings ["/api/v1/auth/login"; "/api/v1/auth/mfa/verify"; "/api/v1/auth/refresh"; "/api/v1/auth/password-reset/confirm"; "/api/v1/auth/service-token"; "/api/v1/version"]);
   ("auth.skip_grpc_methods", DStrings ["/grpc.health.v1.Health/*"]);
   ("auth.psk.enabled", DBool false);
   ("auth.psk.key", DString "");
   ("auth.psk.http_paths", DStrings []);
   ("auth.psk.grpc_methods", DStrings []);
   ("authorization.enabled", DBool false);
   ("cron.enabled", DBool true);
   ("cron.timezone", DString "Asia/Shanghai");
   ("cron.sample_spec", DString "0 */5 * * * *");
   ("cron.session_retention", DString "720h");
   ("cron.session_cleanup_interval", DString "1h");
   ("cron.session_cleanup_batch_size", DInt 500);
   ("migration.path", DString "migrations/postgres");
   ("migration.database_url", DString "");
   ("migration.auto_up", DBool false);
   ("migration.create_schema", DBool false);
   ("migration.table", DString "identity_schema_migrations");
   ("user.cache_ttl", DString "5m");
   ("user.lock_ttl", DString "10s");
   ("user.lock_retry_delay", DString "100ms");
   ("idempotency.enabled", DBool false);
   ("idempotency.processing_ttl", DString "30s");
   ("idempotency.result_ttl", DString "24h");
   ("idempotency.failure_ttl", DString "5m");
   ("event_bus.enabled", DBool false);
   ("event_bus.urls", DStrings ["nats://127.0.0.1:4222"]);
   ("event_bus.stream_name", DString "PLATFORM_EVENTS");
   ("event_bus.storage", DString "file");
   ("event_bus.max_age", DString "168h");
   ("event_bus.duplicate_window", DString "10m");
   ("event_bus.connect_timeout", DString "5s");
   ("event_bus.publish_timeout", DString "5s");
   ("event_bus.dispatch_interval", DString "1s");
   ("event_bus.dispatch_batch_size", DInt 100);
   ("event_bus.dispatch_lease", DString "30s");
   ("event_bus.dispatch_retry_delay", DString "5s");
   ("event_bus.published_retention", DString "168h");
   ("event_bus.cleanup_interval", DString "1h");
   ("event_bus.cleanup_batch_size", DInt 1000);
   ("outbound.http", DMap);
   ("outbound.grpc", DMap)].

(** ** Validation *)

Definition lower_digit (a : ascii) : bool := is_lower (code a) || is_digit a.

(** [^[a-z0-9][a-z0-9_-]*$]. *)
Definition validProfile (s : string) : bool :=
  match bytes_of s with
  | a :: l => lower_digit a && forallb (fun b => lower_digit b || (code b =? 95) || (code b =? 45)) l
  | [] => false
  end.

(** [^[a-z][a-z0-9_]{0,62}$]. *)
Definition validMigrationTable (s : string) : bool :=
  match bytes_of s with
  | a :: l => is_lower (code a) && Nat.leb (length l) 62 && forallb (fun b => lower_digit b || (code b =? 95)) l
  | [] => false
  end.

Definition isDBType (value : string) : bool :=
  bool_decide (value = "mysql") || bool_decide (value = "postgres") || bool_decide (value = "kingbase").

Definition isBase64Key (value : string) (size : Z) : bool :=
  let value := TrimSpace value in
  existsb (fun encoding => match DecodeString encoding value with
                           | Some decoded => bool_decide (Z.of_nat (length decoded) = size)
                           | None => false end)
    [StdEncoding; RawStdEncoding; URLEncoding; RawURLEncoding].

(** [path.ErrBadPattern]. *)
Definition ErrBadPattern : error := ErrorsNew "syntax error in pattern".
(** [_, err := path.Match(pattern, "/validation/target")]. *)
Definition bad_pattern (pattern : string) : bool := bool_decide (Match pattern "/validation/target" = None).

(** [if P { return err }] and loops over such checks. *)
Definition fail_if (P : Prop) `{!Decision P} (e : error) : Result unit := if decide P then Err e else Ok tt.
Fixpoint for_each {A} (f : A -> Result unit) (l : list A) : Result unit :=
  match l with
  | [] => Ok tt
  | a :: l' => f a;; for_each f l'
  end.

Definition f_zero : spec_float := S754_zero false.
Definition f_one : spec_float := S754_finite false 4503599627370496 (-52).

Section validate.
Context `{!UnicodePrint, !MapOrder}.

(** The loops over route patterns: HTTP patterns are below [/api/], gRPC
    patterns have the two slashes of a full method name, and both must be
    well formed. *)
Definition check_http_pattern (option : string) (pattern : string) : Result unit :=
  fail_if (HasPrefix pattern "/api/" = false) (ErrorsNew (option +:+ " contains path outside /api " +:+ Quote pattern));;
  fail_if (bad_pattern pattern = true) (Errorf (option +:+ " contains invalid pattern " +:+ Quote pattern) ErrBadPattern).
Definition check_grpc_pattern (option : string) (pattern : string) : Result unit :=
  fail_if (HasPrefix pattern "/" = false \/ Count pattern c_slash <> 2)
    (ErrorsNew (option +:+ " contains invalid method pattern " +:+ Quote pattern));;
  fail_if (bad_pattern pattern = true) (Errorf (option +:+ " contains invalid pattern " +:+ Quote pattern) ErrBadPattern).

Definition validateClientPolicy (name : string) (auth : ClientAuth.t) (retry : Retry.t) (breaker : Breaker.t)
    (tls : ClientTLS.t) : Result unit :=
  let what := "outbound " +:+ name in
  let type := ClientAuth.Type_ auth in
  fail_if (type <> "" /\ type <> "bearer" /\ type <> "psk") (ErrorsNew (what +:+ " auth.type must be bearer or psk"));;
  fail_if (type <> "" /\ ClientAuth.Token auth = "") (ErrorsNew (what +:+ " auth.token is required"));;
  fail_if (type <> "" /\ ClientTLS.Enabled tls = false) (ErrorsNew (what +:+ " credentials require TLS"));;
  fail_if (Retry.MaxAttempts retry < 1 \/ 5 < Retry.MaxAttempts retry \/ Retry.InitialBackoff retry <= 0 \/
           Retry.MaxBackoff retry < Retry.InitialBackoff retry)
    (ErrorsNew (what +:+ " retry policy is invalid"));;
  for_each (fun pattern =>
      fail_if (HasPrefix pattern "/" = false \/ Count pattern c_slash <> 2)
        (ErrorsNew (what +:+ " retry method pattern is invalid"));;
      fail_if (bad_pattern pattern = true) (Errorf (what +:+ " retry method pattern is invalid") ErrBadPattern))
    (Retry.Methods retry);;
  fail_if (Breaker.Enabled breaker = true /\ (Breaker.FailureThreshold breaker = 0 \/ Breaker.OpenTimeout breaker <= 0))
    (ErrorsNew (what +:+ " breaker policy is invalid"));;
  fail_if (ClientTLS.Enabled tls = true /\
           bool_decide (ClientTLS.CertFile tls = "") <> bool_decide (ClientTLS.KeyFile tls = ""))
    (ErrorsNew (what +:+ " TLS certificate and key must be configured together")).

(** [Validate], in four parts. *)
Definition validate_servers (c : t) : Result unit :=
  fail_if (validMigrationTable (Database.Name (Database c)) = false)
    (ErrorsNew "database.name must contain lowercase letters, digits, or underscores and be at most 63 characters");;
  fail_if (Database.Schema (Database c) <> "" /\ validMigrationTable (Database.Schema (Database c)) = false)
    (ErrorsNew "database.schema must contain lowercase letters, digits, or underscores and be at most 63 characters");;
  fail_if (HTTP.Address (HTTP c) = "") (ErrorsNew "http.address is required");;
  fail_if (GRPC.Enabled (GRPC c) = true /\ (GRPC.Address (GRPC c) = "" \/ GRPC.MaxReceiveBytes (GRPC c) <= 0))
    (ErrorsNew "enabled grpc requires address and positive max_receive_bytes");;
  fail_if (GRPCTLS.Enabled (GRPC.TLS (GRPC c)) = true /\
           (GRPCTLS.CertFile (GRPC.TLS (GRPC c)) = "" \/ GRPCTLS.KeyFile (GRPC.TLS (GRPC c)) = ""))
    (ErrorsNew "grpc tls requires cert_file and key_file");;
  fail_if (App.Env (App c) = "production" /\ GRPC.Enabled (GRPC c) = true /\ GRPCTLS.Enabled (GRPC.TLS (GRPC c)) = false)
    (ErrorsNew "grpc tls must be enabled in production");;
  fail_if (App.Env (App c) = "production" /\ GRPC.ReflectionEnabled (GRPC c) = true)
    (ErrorsNew "grpc reflection must be disabled in production");;
  fail_if (Database.Enabled (Database c) = true /\ (Database.DSN (Database c) = "" \/ isDBType (Database.Type_ (Database c)) = false))
    (ErrorsNew "enabled database requires dsn and type mysql, postgres, or kingbase");;
  fail_if (Migration.AutoUp (Migration c) = true /\
           (Database.Enabled (Database c) = false \/ Migration.Path (Migration c) = "" \/
            Migration.DatabaseURL (Migration c) = "" \/ validMigrationTable (Migration.Table (Migration c)) = false))
    (ErrorsNew "migration.auto_up requires enabled database, path, database_url, and a valid service-specific table");;
  fail_if (Redis.Enabled (Redis c) = true /\ Redis.Address (Redis c) = "") (ErrorsNew "enabled redis requires address");;
  fail_if (HTTP.RequestTimeout (HTTP c) <= 0 \/ Health.DatabaseTimeout (Health c) <= 0 \/ Health.RedisTimeout (Health c) <= 0)
    (ErrorsNew "http and health timeouts must be positive").

Definition rate_rules (r : RateLimit.t) : list (string * RateLimitRule.t) :=
  [("ip", RateLimit.IP r); ("api", RateLimit.API r); ("user", RateLimit.User r); ("login", RateLimit.Login r)].

Definition validate_protection (c : t) : Result unit :=
  fail_if (RateLimit.Enabled (RateLimit c) = true /\ Redis.Enabled (Redis c) = false)
    (ErrorsNew "rate_limit requires redis.enabled");;
  (if RateLimit.Enabled (RateLimit c) then
     for_each (fun '(name, rule) =>
         fail_if (RateLimitRule.Rate rule <= 0 \/ RateLimitRule.Burst rule <= 0 \/ RateLimitRule.Period rule <= 0)
           (ErrorsNew ("rate_limit." +:+ name +:+ " values must be positive")))
       (map_range (rate_rules (RateLimit c)))
   else Ok tt);;
  fail_if (CORS.Enabled (HTTP.CORS (HTTP c)) = true /\ CORS.AllowedOrigins (HTTP.CORS (HTTP c)) = [])
    (ErrorsNew "cors.allowed_origins is required when cors is enabled");;
  fail_if (SFltb (Observability.TracingSampleRatio (Observability c)) f_zero = true \/
           SFltb f_one (Observability.TracingSampleRatio (Observability c)) = true)
    (ErrorsNew "observability.tracing_sample_ratio must be between 0 and 1");;
  fail_if (Observability.TracingEnabled (Observability c) = true /\ Observability.TracingEndpoint (Observability c) = "")
    (ErrorsNew "observability.tracing_endpoint is required");;
  fail_if (Observability.PprofEnabled (Observability c) = true /\ go_len (Observability.PprofToken (Observability c)) < 32)
    (ErrorsNew "observability.pprof_token must contain at least 32 bytes");;
  fail_if (App.Env (App c) = "production" /\ Swagger.Enabled (Swagger c) = true /\ Swagger.RequireAuth (Swagger c) = false)
    (ErrorsNew "swagger.require_auth must be enabled in production");;
  fail_if ((Auth.ClientID (Auth c) <> "" \/ Auth.ClientSecret (Auth c) <> "") /\ go_len (JWT.Secret (JWT c)) < 32)
    (ErrorsNew "jwt.secret must contain at least 32 bytes when auth is enabled");;
  (if MFA.Enabled (MFA c) then
     fail_if (TrimSpace (MFA.Issuer (MFA c)) = "" \/ MFA.ChallengeTTL (MFA c) <= 0 \/ 15 * Minute < MFA.ChallengeTTL (MFA c))
       (ErrorsNew "enabled mfa requires an issuer and challenge_ttl between 1ns and 15m");;
     fail_if (isBase64Key (MFA.EncryptionKey (MFA c)) 32 = false \/ isBase64Key (MFA.RecoveryPepper (MFA c)) 32 = false)
       (ErrorsNew "enabled mfa requires base64 encoded 32-byte encryption_key and recovery_pepper")
   else Ok tt);;
  fail_if (App.Env (App c) = "production" /\ Authorization.Enabled (Authorization c) = false)
    (ErrorsNew "authorization must be enabled in production");;
  fail_if (Authorization.Enabled (Authorization c) = true /\ Outbound.GRPC (Outbound c) !! "authorization" = None)
    (ErrorsNew "enabled authorization requires outbound.grpc.authorization").

Definition validate_routes (c : t) : Result unit :=
  let auth := Auth c in
  for_each (check_http_pattern "auth.skip_http_paths") (Auth.SkipHTTPPaths auth);;
  for_each (check_grpc_pattern "auth.skip_grpc_methods") (Auth.SkipGRPCMethods auth);;
  fail_if (PSK.Enabled (Auth.PSK auth) = true /\
           (go_len (PSK.Key (Auth.PSK auth)) < 32 \/
            (length (PSK.HTTPPaths (Auth.PSK auth)) + length (PSK.GRPCMethods (Auth.PSK auth)) = 0)%nat))
    (ErrorsNew "enabled auth.psk requires a key of at least 32 bytes and at least one route pattern");;
  for_each (check_http_pattern "auth.psk.http_paths") (PSK.HTTPPaths (Auth.PSK auth));;
  for_each (check_grpc_pattern "auth.psk.grpc_methods") (PSK.GRPCMethods (Auth.PSK auth));;
  fail_if (UserOptions.CacheTTL (User c) <= 0 \/ UserOptions.LockTTL (User c) <= 0 \/ UserOptions.LockRetryDelay (User c) <= 0)
    (ErrorsNew "user cache and lock durations must be positive");;
  fail_if (Idempotency.Enabled (Idempotency c) = true /\
           (Redis.Enabled (Redis c) = false \/
            (Idempotency.HTTPPaths (Idempotency c) = [] /\ Idempotency.GRPCMethods (Idempotency c) = []) \/
            Idempotency.ProcessingTTL (Idempotency c) <= 0 \/ Idempotency.ResultTTL (Idempotency c) <= 0 \/
            Idempotency.FailureTTL (Idempotency c) <= 0))
    (ErrorsNew "enabled idempotency requires redis, at least one route pattern, and positive TTL values");;
  for_each (check_http_pattern "idempotency.http_paths") (Idempotency.HTTPPaths (Idempotency c));;
  for_each (check_grpc_pattern "idempotency.grpc_methods") (Idempotency.GRPCMethods (Idempotency c)).

Definition validate_background (c : t) : Result unit :=
  let e := EventBus c in
  fail_if (EventBus.Enabled e = true /\
           (Database.Enabled (Database c) = false \/ EventBus.URLs e = [] \/ EventBus.StreamName e = "" \/
            (EventBus.Storage e <> "file" /\ EventBus.Storage e <> "memory") \/ EventBus.MaxAge e <= 0 \/
            EventBus.DispatchInterval e <= 0 \/ EventBus.DispatchBatchSize e <= 0 \/ EventBus.DispatchLease e <= 0 \/
            EventBus.DispatchRetryDelay e <= 0 \/ EventBus.PublishedRetention e < EventBus.MaxAge e \/
            EventBus.CleanupInterval e <= 0 \/ EventBus.CleanupBatchSize e <= 0))
    (ErrorsNew "enabled event_bus requires database, stream settings, positive dispatch/cleanup settings, and published retention at least max_age");;
  fail_if (Cron.SessionRetention (Cron c) <= 0 \/ Cron.SessionCleanupInterval (Cron c) <= 0 \/ Cron.SessionCleanupBatchSize (Cron c) <= 0)
    (ErrorsNew "cron session retention values must be positive");;
  for_each (fun '(name, u) =>
      fail_if (HTTPUpstream.BaseURL u = "" \/ HTTPUpstream.Timeout u <= 0)
        (ErrorsNew ("outbound.http." +:+ name +:+ " requires base_url and positive timeout"));;
      validateClientPolicy name (HTTPUpstream.Auth u) (HTTPUpstream.Retry u) (HTTPUpstream.Breaker u) (HTTPUpstream.TLS u))
    (map_range (map_to_list (Outbound.HTTP (Outbound c))));;
  for_each (fun '(name, u) =>
      fail_if (GRPCUpstream.Target u = "" \/ GRPCUpstream.Timeout u <= 0)
        (ErrorsNew ("outbound.grpc." +:+ name +:+ " requires target and positive timeout"));;
      validateClientPolicy name (GRPCUpstream.Auth u) (GRPCUpstream.Retry u) (GRPCUpstream.Breaker u) (GRPCUpstream.TLS u))
    (map_range (map_to_list (Outbound.GRPC (Outbound c)))).

Definition Validate (c : t) : Result unit :=
  validate_servers c;; validate_protection c;; validate_routes c;; validate_background c.
End validate.

(** ** Loading *)

(** [filepath.Ext] and [strings.TrimSuffix]. *)
Fixpoint ext_rev (l acc : bytes) : bytes :=
  match l with
  | [] => []
  | a :: l' => if decide (a = c_slash) then [] else if decide (a = chr 46) then a :: acc else ext_rev l' (a :: acc)
  end.
Definition Ext (path : string) : string := string_of (ext_rev (reverse (bytes_of path)) []).
Definition TrimSuffix (s suffix : string) : string :=
  if HasSuffix s suffix then string_of (take (length (bytes_of s) - length (bytes_of suffix)) (bytes_of s)) else s.

Definition profileConfigPath (path profile : string) : string :=
  let extension := Ext path in
  let base := TrimSuffix path extension in
  base +:+ "-" +:+ profile +:+ extension.

(** [stringToStringSliceHook] on a string that is decoded into [[]string]. *)
Definition stringToStringSlice (data : string) : list string :=
  let raw := TrimSpace data in
  let raw := if HasPrefix raw "[" && HasSuffix raw "]"
             then TrimSpace (string_of (take (length (bytes_of raw) - 2) (drop 1 (bytes_of raw)))) else raw in
  if decide (raw = "") then []
  else (fun value => Trim (TrimSpace value) (string_of [chr 34; chr 39])) <$> Split raw (chr 44).

(** [viper], [mapstructure] and [os.Stat]. *)
Class Viper := {
  Settings : Type;
  viper_New : string -> Settings;
  viper_BindEnv : Settings -> Result Settings;
  viper_SetDefault : Settings -> list (string * Default) -> Settings;
  viper_ReadInConfig : Settings -> Result Settings;
  viper_not_found : error -> bool;
  viper_GetString : Settings -> string -> string;
  os_Stat : string -> Result unit;
  os_not_exist : error -> bool;
  viper_MergeInConfig : Settings -> string -> Result Settings;
  viper_Set : Settings -> string -> string -> Settings;
  viper_Unmarshal : Settings -> Result t;
}.

(** A value that was [Set] takes precedence over every other source. *)
Class ViperLaws `{!Viper} :=
  set_env_wins s env c : viper_Unmarshal (viper_Set s "app.env" env) = Ok c -> App.Env (App c) = env.

Section load.
Context `{!UnicodePrint, !MapOrder, !UnicodeCase, !Viper}.

Definition select_profile (explicit : string) (v : Settings) : string :=
  let profile := ToLower (TrimSpace explicit) in
  if decide (profile = "") then ToLower (TrimSpace (viper_GetString v "app.env")) else profile.

Definition set_migration (c : t) : t :=
  let m := Migration c in
  mk (Runtime c) (App c) (HTTP c) (GRPC c) (Log c) (Database c) (Redis c) (Health c) (RateLimit c) (Observability c)
    (Swagger c) (JWT c) (MFA c) (Auth c) (Authorization c) (Cron c)
    (Migration.mk (Migration.AutoUp m) (Migration.CreateSchema m) (Migration.Path m) (Migration.DatabaseURL m)
       (Migration.Table m) (Database.Schema (Database c)) (Database.Name (Database c)))
    (User c) (Idempotency c) (Outbound c) (EventBus c).
Definition set_runtime (r : Runtime.t) (c : t) : t :=
  mk r (App c) (HTTP c) (GRPC c) (Log c) (Database c) (Redis c) (Health c) (RateLimit c) (Observability c)
    (Swagger c) (JWT c) (MFA c) (Auth c) (Authorization c) (Cron c) (Migration c) (User c) (Idempotency c)
    (Outbound c) (EventBus c).

(** The base file: a missing one is accepted only without a path. *)
Definition read_base (path : string) (v : Settings) : Result Settings :=
  match viper_ReadInConfig v with
  | Ok v' => Ok v'
  | Err e => if decide (path <> "" \/ viper_not_found e = false) then Err (Errorf "read config" e) else Ok v
  end.

(** The optional file of the profile, and the files that were loaded. *)
Definition merge_profile (path profile : string) (v : Settings) : Result (Settings * list string) :=
  let profilePath := profileConfigPath path profile in
  if decide (profilePath = path) then Ok (v, [path])
  else match os_Stat profilePath with
  | Ok _ =>
      match viper_MergeInConfig v profilePath with
      | Ok v' => Ok (v', [path; profilePath])
      | Err e => Err (Errorf ("merge profile config " +:+ Quote profilePath) e)
      end
  | Err e =>
      if os_not_exist e then Ok (v, [path])
      else Err (Errorf ("inspect profile config " +:+ Quote profilePath) e)
  end.

Definition wrap_err {A} (msg : string) (r : Result A) : Result A :=
  match r with Ok a => Ok a | Err e => Err (Errorf msg e) end.

Definition LoadWithProfile (path explicitProfile : string) : Result t :=
  v ← wrap_err "bind environment profile" (viper_BindEnv (viper_New path));
  let v := viper_SetDefault v setDefaults in
  v ← read_base path v;
  let profile := select_profile explicitProfile v in
  fail_if (validProfile profile = false) (ErrorsNew ("invalid environment profile " +:+ Quote profile));;
  '(v, loadedFiles) ← merge_profile path profile v;
  let v := viper_Set v "app.env" profile in
  cfg ← wrap_err "decode config" (viper_Unmarshal v);
  let cfg := set_migration cfg in
  Validate cfg;;
  Ok (set_runtime (Runtime.mk profile loadedFiles) cfg).

Definition Load (path : string) : Result t := LoadWithProfile path "".
End load.
End Config.
