(* ===== verification/ConfigSpec.v ===== *)
(** * Configuration: theorems

    What [Validate] and [LoadWithProfile] guarantee to the rest of the
    program: production settings, route patterns that can never fail at
    request time, profile files confined to the directory of the base file,
    and settings from which the service can be constructed. *)

From S2P Require Import Prelude.
From S2P Require Import GoStrings.
From S2P Require Import Encoding.
From S2P Require Import Digest.
From S2P Require Import AppError.
From S2P Require Import PathMatch.
From S2P Require Import Configuration.
From S2P Require Import Platform.
From S2P Require Import Table.
From S2P Require Import Model.
From S2P Require Import Runtime.
From S2P Require Import Password.
From S2P Require Import Token.
From S2P Require Import MFACrypto.
From S2P Require Import ServiceBase.
From S2P Require Import Concrete.
From Stdlib Require Import Ascii.
From Stdlib Require Import SpecFloat.
Open Scope Z_scope.

(** ** Taking validations apart *)

Lemma fail_if_Ok P `{Hdec : !Decision P} e u : Config.fail_if P e = Ok u -> ~ P.
Proof. unfold Config.fail_if. by case_decide. Qed.

Lemma seq_Ok {A B} (a : Result A) (b : Result B) y : (a;; b) = Ok y -> (exists x, a = Ok x) /\ b = Ok y.
Proof. destruct a; simpl; [eauto|done]. Qed.

Lemma for_each_Ok {A} (f : A -> Result unit) l u : Config.for_each f l = Ok u -> Forall (fun a => f a = Ok tt) l.
Proof.
  induction l as [|a l IH]; simpl; [constructor|]. intros [[[] Ha] Hl]%seq_Ok. constructor; [done|by apply IH].
Qed.

(** Split a chain of checks in hypothesis [H] into what each one excludes. *)
Ltac inv_checks H :=
  lazymatch type of H with
  | (_;; _) = Ok _ =>
      let H1 := fresh "H" in let H2 := fresh "H" in let x := fresh "x" in
      apply seq_Ok in H as [[x H1] H2]; inv_checks H1; inv_checks H2
  | Config.fail_if _ _ = Ok _ => apply fail_if_Ok in H
  | Config.for_each _ _ = Ok _ => apply for_each_Ok in H
  | _ => idtac
  end.

Section config_spec.
Context {up : UnicodePrint} {mo : MapOrder}.
Implicit Types c : Config.t.

Lemma Validate_parts c u :
  Config.Validate c = Ok u ->
  Config.validate_servers c = Ok tt /\ Config.validate_protection c = Ok tt /\
  Config.validate_routes c = Ok tt /\ Config.validate_background c = Ok tt.
Proof using.
  unfold Config.Validate. intros [[[] ?] [[[] ?] [[[] ?] ?]%seq_Ok]%seq_Ok]%seq_Ok. by destruct u.
Qed.

(** What production demands. *)
Record production_ok c : Prop := {
  prod_grpc_tls : Config.GRPC.Enabled (Config.GRPC c) = true ->
    let tls := Config.GRPC.TLS (Config.GRPC c) in
    Config.GRPCTLS.Enabled tls = true /\ Config.GRPCTLS.CertFile tls <> "" /\ Config.GRPCTLS.KeyFile tls <> "";
  prod_reflection : Config.GRPC.ReflectionEnabled (Config.GRPC c) = false;
  prod_swagger : Config.Swagger.Enabled (Config.Swagger c) = true -> Config.Swagger.RequireAuth (Config.Swagger c) = true;
  prod_authorization : Config.Authorization.Enabled (Config.Authorization c) = true;
  prod_upstream : is_Some (Config.Outbound.GRPC (Config.Outbound c) !! "authorization");
}.

Lemma production_validated c u :
  Config.Validate c = Ok u -> Config.App.Env (Config.App c) = "production" -> production_ok c.
Proof using.
  intros (H1 & H2 & _ & _)%Validate_parts He. unfold Config.validate_servers in H1. inv_checks H1.
  unfold Config.validate_protection in H2. inv_checks H2.
  split; cbv zeta.
  - intros Hg. assert (~ (_ /\ Config.GRPC.Enabled (Config.GRPC c) = true /\ Config.GRPCTLS.Enabled (Config.GRPC.TLS (Config.GRPC c)) = false))
      as Ht by eassumption.
    match goal with H : ~ (Config.GRPCTLS.Enabled _ = true /\ _) |- _ => clear - He Hg Ht H end.
    destruct (Config.GRPCTLS.Enabled _); tauto.
  - match goal with H : ~ (_ /\ Config.GRPC.ReflectionEnabled _ = true) |- _ => clear - He H end.
    destruct (Config.GRPC.ReflectionEnabled _); tauto.
  - match goal with H : ~ (_ /\ Config.Swagger.Enabled _ = true /\ _) |- _ => clear - He H end.
    destruct (Config.Swagger.RequireAuth _); tauto.
  - match goal with H : ~ (_ /\ Config.Authorization.Enabled _ = false) |- _ => clear - He H end.
    destruct (Config.Authorization.Enabled _); tauto.
  - match goal with H : ~ (_ /\ Config.Authorization.Enabled _ = false), H' : ~ (Config.Authorization.Enabled _ = true /\ _) |- _ =>
      clear - He H H' end.
    destruct (_ !! "authorization"); [eauto|]. destruct (Config.Authorization.Enabled _); tauto.
Qed.

(** The route patterns a configuration lists. *)
Definition http_patterns c : list string :=
  Config.Auth.SkipHTTPPaths (Config.Auth c) ++ Config.PSK.HTTPPaths (Config.Auth.PSK (Config.Auth c)) ++
  Config.Idempotency.HTTPPaths (Config.Idempotency c).
Definition grpc_patterns c : list string :=
  Config.Auth.SkipGRPCMethods (Config.Auth c) ++ Config.PSK.GRPCMethods (Config.Auth.PSK (Config.Auth c)) ++
  Config.Idempotency.GRPCMethods (Config.Idempotency c).

Lemma good_pattern p : Config.bad_pattern p <> true -> forall name, exists b, Match p name = Some b.
Proof using.
  unfold Config.bad_pattern. intros H name. destruct (Match p name) as [b|] eqn:E; [eauto|]. exfalso. apply H.
  apply bool_decide_eq_true. apply Match_bad. by apply Match_bad in E.
Qed.

Lemma check_http_Ok o p : Config.check_http_pattern o p = Ok tt ->
  HasPrefix p "/api/" = true /\ forall name, exists b, Match p name = Some b.
Proof using.
  unfold Config.check_http_pattern. intros H. inv_checks H. split; [by apply not_false_iff_true|by apply good_pattern].
Qed.
Lemma check_grpc_Ok o p : Config.check_grpc_pattern o p = Ok tt ->
  HasPrefix p "/" = true /\ Count p c_slash = 2 /\ forall name, exists b, Match p name = Some b.
Proof using.
  unfold Config.check_grpc_pattern. intros H. inv_checks H. apply Decidable.not_or in H0 as [Hp Hc].
  split_and!; [by apply not_false_iff_true|lia|by apply good_pattern].
Qed.

(** A route pattern that passed validation can be matched with any name.
    [Validate] tries each pattern on one fixed name only, but the matcher
    reports a malformed pattern independently of the name, so the trial is
    complete: no request can meet a pattern error, which the code that
    matches routes would silently treat as no match.  HTTP patterns are also
    confined to [/api/], gRPC patterns to full method names. *)
Theorem validated_patterns_decide c u :
  Config.Validate c = Ok u ->
  Forall (fun p => HasPrefix p "/api/" = true /\ forall name, exists b, Match p name = Some b) (http_patterns c) /\
  Forall (fun p => HasPrefix p "/" = true /\ Count p c_slash = 2 /\ forall name, exists b, Match p name = Some b)
    (grpc_patterns c).
Proof using.
  intros (_ & _ & H & _)%Validate_parts. unfold Config.validate_routes in H. cbv zeta in H. inv_checks H.
  unfold http_patterns, grpc_patterns. rewrite !Forall_app. split_and!.
  all: eapply Forall_impl; [eassumption|]; intros p; apply check_http_Ok || apply check_grpc_Ok.
Qed.

(** ** Profile files *)

Lemma last_component (l : bytes) :
  exists d f, l = d ++ f /\ (c_slash ∉ f) /\ (d = [] \/ exists d', d = d' ++ [c_slash]).
Proof using.
  induction l as [|a l IH] using rev_ind; [exists [], []; split_and!; [done|apply not_elem_of_nil|by left]|].
  destruct (decide (a = c_slash)) as [->|Ha].
  - exists (l ++ [c_slash]), []. rewrite app_nil_r. split_and!; [done|apply not_elem_of_nil|eauto].
  - destruct IH as (d & f & -> & Hf & Hd). exists d, (f ++ [a]). rewrite app_assoc. split_and!; [done| |done].
    rewrite not_elem_of_app, list_elem_of_singleton. by split; [|intros <-].
Qed.

Lemma ext_rev_spec r acc :
  Config.ext_rev r acc = [] \/
  exists x y, r = x ++ y /\ Config.ext_rev r acc = reverse x ++ acc /\ c_slash ∉ x.
Proof using.
  revert acc. induction r as [|a r IH]; intros acc; simpl; [by left|]. case_decide as Ha; [by left|].
  case_decide as Hd.
  - right. exists [a], r. split_and!; [done|done|]. by rewrite list_elem_of_singleton; intros <-.
  - destruct (IH (a :: acc)) as [->|(x & y & -> & -> & Hx)]; [by left|]. right. exists (a :: x), y. split_and!; [done| |].
    + by rewrite reverse_cons, <-app_assoc.
    + apply not_elem_of_cons. by split; [intros <-|].
Qed.

(** The extension is a slash-free end of the path, which [TrimSuffix] removes. *)
Lemma ext_split path :
  exists b e, bytes_of path = b ++ e /\ bytes_of (Config.Ext path) = e /\ (c_slash ∉ e) /\
    bytes_of (Config.TrimSuffix path (Config.Ext path)) = b.
Proof using.
  assert (exists b e, bytes_of path = b ++ e /\ bytes_of (Config.Ext path) = e /\ (c_slash ∉ e)) as (b & e & Hp & He & Hs).
  { unfold Config.Ext. rewrite bytes_of_string_of. destruct (ext_rev_spec (reverse (bytes_of path)) []) as [->|(x & y & Hr & -> & Hx)].
    - exists (bytes_of path), []. rewrite app_nil_r. split_and!; [done|done|apply not_elem_of_nil].
    - exists (reverse y), (reverse x). rewrite app_nil_r. split_and!; [|done|by rewrite elem_of_reverse].
      by rewrite <-reverse_app, <-Hr, reverse_involutive. }
  exists b, e. split_and!; [done..|]. unfold Config.TrimSuffix, HasSuffix.
  rewrite He, Hp, reverse_app, has_prefix_app, bytes_of_string_of, length_app.
  replace (length b + length e - length e)%nat with (length b) by lia. apply take_app_length.
Qed.

Lemma profile_no_slash profile : Config.validProfile profile = true -> c_slash ∉ bytes_of profile.
Proof using.
  unfold Config.validProfile. destruct (bytes_of profile) as [|a l]; [done|]. intros [Ha Hl]%andb_true_iff.
  rewrite not_elem_of_cons. split.
  - intros <-. by vm_compute in Ha.
  - intros Hin. rewrite forallb_forall in Hl. specialize (Hl c_slash). rewrite <-list_elem_of_In in Hl.
    specialize (Hl Hin). by vm_compute in Hl.
Qed.

(** A profile cannot lead outside the configuration directory.  For every
    accepted profile name, the profile's file and the base file have the same
    directory part and differ only in the last, slash-free component. *)
Theorem profile_path_confined path profile :
  Config.validProfile profile = true ->
  exists dir file file', bytes_of path = dir ++ file /\
    bytes_of (Config.profileConfigPath path profile) = dir ++ file' /\
    (c_slash ∉ file) /\ (c_slash ∉ file') /\ (dir = [] \/ exists d, dir = d ++ [c_slash]).
Proof using.
  intros Hv%profile_no_slash. destruct (last_component (bytes_of path)) as (d & f & Hp & Hf & Hd).
  destruct (ext_split path) as (b & e & Hp' & He & Hse & Hb). unfold Config.profileConfigPath. cbv zeta.
  rewrite !bytes_of_app, Hb, He.
  assert (exists g, f = g ++ e /\ b = d ++ g) as (g & -> & ->).
  { rewrite Hp in Hp'. symmetry in Hp'. apply app_eq_inv in Hp' as [(g & -> & ->)|(g & -> & ->)]; [eauto|].
    destruct Hd as [Hd|[d' Hd]]; [apply app_eq_nil in Hd as [-> ->]; by exists []|].
    destruct g as [|a g _] using rev_ind; [exists []; by rewrite !app_nil_r|].
    rewrite app_assoc in Hd. apply app_inj_2 in Hd as [_ [= ->]]; [|done]. exfalso. apply Hse.
    rewrite !elem_of_app, list_elem_of_singleton. auto. }
  exists d, (g ++ e), (g ++ bytes_of "-" ++ bytes_of profile ++ e). rewrite <-app_assoc. split_and!; try done.
  apply not_elem_of_app in Hf as [Hg _]. rewrite !not_elem_of_app. split_and!; try done.
  refine (bool_decide_eq_true_1 _ _). vm_compute. reflexivity.
Qed.

Context {uc : UnicodeCase} {vp : Config.Viper} {vl : Config.ViperLaws}.

(** C32: A loaded configuration is validated, under the profile it runs with.
    If loading succeeds, the active profile has a valid name (the requested
    one, if one was requested), it is the [app.env] the checks saw, only the
    base file and that profile's file were read, the configuration passes
    [Validate], and for the production profile gRPC is encrypted, reflection
    is off, the API documentation requires authentication, and authorization
    is on and has its upstream. *)
Theorem load_enforces_profile path explicit c :
  Config.LoadWithProfile path explicit = Ok c ->
  let profile := Config.Runtime.ActiveProfile (Config.Runtime c) in
  Config.validProfile profile = true /\ Config.App.Env (Config.App c) = profile /\
  (ToLower (TrimSpace explicit) <> "" -> profile = ToLower (TrimSpace explicit)) /\
  Config.Runtime.ConfigFiles (Config.Runtime c) ∈ [[path]; [path; Config.profileConfigPath path profile]] /\
  Config.Validate c = Ok tt /\ (profile = "production" -> production_ok c).
Proof using vl.
  unfold Config.LoadWithProfile, Config.wrap_err. destruct (Config.viper_BindEnv _) as [v|]; [simpl|done].
  destruct (Config.read_base _ _) as [v1|]; simpl; [|done]. set (profile := Config.select_profile explicit v1).
  unfold Config.fail_if. case_decide as Hp; simpl; [done|].
  destruct (Config.merge_profile path profile v1) as [[v2 files]|] eqn:Hm; simpl; [|done].
  destruct (Config.viper_Unmarshal _) as [c0|] eqn:Hu; simpl; [|done].
  destruct (Config.Validate _) as [u|] eqn:Hv; simpl; [|done]. intros [= <-]. apply Config.set_env_wins in Hu.
  cbv zeta. cbn [Config.Runtime Config.set_runtime Config.Runtime.ActiveProfile Config.Runtime.ConfigFiles].
  assert (Config.Validate (Config.set_runtime (Config.Runtime.mk profile files) (Config.set_migration c0)) = Ok tt) as HV
    by (destruct u; exact Hv).
  assert (Config.App.Env (Config.App (Config.set_runtime (Config.Runtime.mk profile files) (Config.set_migration c0))) = profile) as HE
    by exact Hu.
  split_and!; try done.
  - by apply not_false_iff_true.
  - intros Hne. unfold profile, Config.select_profile. by rewrite decide_False.
  - unfold Config.merge_profile in Hm. case_decide; [injection Hm as <- <-; set_solver|].
    destruct (Config.os_Stat _) as [|e].
    + destruct (Config.viper_MergeInConfig _ _); [|done]. injection Hm as <- <-. set_solver.
    + destruct (Config.os_not_exist e); [|done]. injection Hm as <- <-. set_solver.
  - intros Hprod. eapply production_validated; [exact HV|]. by rewrite HE.
Qed.
End config_spec.

(** ** From the configuration to the service *)

Definition service_config (c : Config.t) : ServiceConfig :=
  mkServiceConfig (Config.App.Name (Config.App c)) (Config.JWT.Secret (Config.JWT c)) (Config.JWT.KeyID (Config.JWT c))
    (Config.JWT.Issuer (Config.JWT c)) (Config.JWT.Audiences (Config.JWT c)) (Config.JWT.TTL (Config.JWT c))
    (Config.JWT.PreviousSecrets (Config.JWT c)) (Config.MFA.Enabled (Config.MFA c)) (Config.MFA.Issuer (Config.MFA c))
    (Config.MFA.EncryptionKey (Config.MFA c)) (Config.MFA.RecoveryPepper (Config.MFA c)) (Config.MFA.ChallengeTTL (Config.MFA c)).

Section construct.
Context {libs : Libs} {edl : Ed25519Laws} {gl : AESGCMLaws} {up : UnicodePrint} {mo : MapOrder}.

(** The check of a key and its decoding try the same encodings. *)
Lemma base64_key_decodes v : Config.isBase64Key v 32 = true -> exists l, decodeMFAKey v = Ok l /\ length l = 32%nat.
Proof using.
  unfold Config.isBase64Key, decodeMFAKey. intros H.
  assert (exists l, first_key [StdEncoding; RawStdEncoding; URLEncoding; RawURLEncoding] (TrimSpace v) = Some l /\ length l = 32%nat)
    as (l & -> & Hl); [|eauto].
  induction [StdEncoding; RawStdEncoding; URLEncoding; RawURLEncoding] as [|e es IH]; simpl in *; [done|].
  destruct (DecodeString e (TrimSpace v)) as [l|]; [|by apply IH]. destruct (decide (length l = 32%nat)) as [Hl|Hl]; [eauto|].
  rewrite (bool_decide_false (Z.of_nat (length l) = 32)) in H by lia. by apply IH.
Qed.

Lemma add_previous_Ok l i :
  Forall (fun kv => fst kv <> "") l -> exists i', add_previous i l = Ok i'.
Proof using edl.
  revert i. induction l as [|[kid sec] l IH]; intros i Hl; simpl; [eauto|].
  apply Forall_cons in Hl as [Hk Hl]. simpl in Hk. unfold AddVerificationKey. rewrite decide_False; [by apply IH|].
  intros [?|Hs]; [done|]. apply Hs. apply public_key_size, seed_key_size. apply length_sha256.
Qed.

(** A validated configuration builds a service, as far as it was
    validated: given an issuer, a positive token lifetime and non-empty ids
    of previous keys, which [Validate] does not check, [NewService] succeeds;
    with MFA enabled it has its cipher, and challenges live at most fifteen
    minutes. *)
Theorem validated_service_builds t c u :
  Config.Validate c = Ok u -> Config.JWT.Issuer (Config.JWT c) <> "" -> 0 < Config.JWT.TTL (Config.JWT c) ->
  map_Forall (fun kid _ => kid <> "") (Config.JWT.PreviousSecrets (Config.JWT c)) ->
  exists s, NewService t (service_config c) = Ok s /\
    (Config.MFA.Enabled (Config.MFA c) = true -> is_Some (mfa s) /\ 0 < mfaChallengeTTL s <= 15 * Minute).
Proof using edl gl.
  intros (_ & H & _ & _)%Validate_parts Hi Ht Hp. unfold Config.validate_protection in H. inv_checks H.
  match goal with H : (if Config.MFA.Enabled _ then _ else _) = Ok _ |- _ => rename H into Hmfa end.
  assert (NewPasswordHasher DefaultPasswordParameters = Ok (mkHasher DefaultPasswordParameters)) as Hh by reflexivity.
  unfold NewService. rewrite Hh. cbn [mbind Res_bind service_config JWTKeyID JWTAudiences JWTIssuer JWTSecret JWTTTL AppName
    JWTPreviousSecrets MFAEnabled MFAIssuer MFAEncryptionKey MFARecoveryPepper MFAChallengeTTLConfig].
  unfold NewTokenIssuer. rewrite decide_False; cycle 1.
  { intros [?|[Ha|[Hk|[Hl|?]]]]; try done; try lia.
    - destruct (decide (Config.JWT.Audiences (Config.JWT c) = [])); congruence.
    - destruct (decide (Config.JWT.KeyID (Config.JWT c) = "")); congruence.
    - apply Hl. apply seed_key_size, length_sha256. }
  cbn [mbind Res_bind].
  edestruct (add_previous_Ok (map_to_list (Config.JWT.PreviousSecrets (Config.JWT c)))) as [i' ->].
  { apply map_Forall_to_list in Hp. eapply Forall_impl; [exact Hp|]. by intros [k v]. }
  cbn [mbind Res_bind]. destruct (Config.MFA.Enabled (Config.MFA c)); [|simpl; eexists; by split].
  inv_checks Hmfa. repeat match goal with H : ~ (_ \/ _) |- _ => apply Decidable.not_or in H as [? ?] end.
  repeat match goal with H : _ <> false |- _ => apply not_false_iff_true in H end.
  match goal with H : Config.isBase64Key (Config.MFA.EncryptionKey _) _ = true |- _ => apply base64_key_decodes in H as (k & Hk & Hkl) end.
  match goal with H : Config.isBase64Key (Config.MFA.RecoveryPepper _) _ = true |- _ => apply base64_key_decodes in H as (q & Hq & _) end.
  unfold NewMFACrypto. rewrite Hk, Hq. destruct (NewGCM_ok k Hkl) as (a & -> & _). rewrite decide_False by done.
  simpl. eexists. split; [done|]. intros _. simpl. split; [eauto|lia].
Qed.
End construct.

(** ** String lists from the environment *)

(** A value that needs no quoting: visible ASCII other than comma, quotes and
    brackets. *)
Definition bare_char (a : ascii) : Prop := plain a /\ a ∉ [chr 44; chr 34; chr 39; chr 91; chr 93].
Definition bare (v : string) : Prop := bytes_of v <> [] /\ Forall bare_char (bytes_of v).
(** [v1, v2, ..]. *)
Fixpoint join_comma (vs : list string) : string :=
  match vs with
  | [] => ""
  | [v] => v
  | v :: vs' => v +:+ ", " +:+ join_comma vs'
  end.

Lemma trim_bare v : bare v -> Trim v (string_of [chr 34; chr 39]) = v.
Proof.
  intros [Hne Hv]. unfold Trim. rewrite bytes_of_string_of. apply bytes_of_inj. rewrite bytes_of_string_of.
  set (inset := fun a => bool_decide (a ∈ [chr 34; chr 39])).
  assert (forall l, Forall bare_char l -> drop_while inset l = l) as Hd.
  { intros l Hl. destruct Hl as [|a l [_ Ha] _]; [done|]. simpl. unfold inset at 1. rewrite bool_decide_false; [done|].
    rewrite !not_elem_of_cons in Ha. rewrite !not_elem_of_cons. destruct Ha as (_ & H1 & H2 & _). split_and!; [done|done|apply not_elem_of_nil]. }
  rewrite (Hd _ Hv), Hd by (by apply Forall_reverse). apply reverse_involutive.
Qed.

Lemma bare_plain l : Forall bare_char l -> Forall plain l.
Proof. intros H. eapply Forall_impl; [exact H|]. by intros a [? _]. Qed.

(** A leading blank goes, and nothing else. *)
Lemma trim_space_bare l : l <> [] -> Forall plain l -> trim_bytes (chr 32 :: l) = l.
Proof.
  intros Hne Hl. unfold trim_bytes. change (trim_left (chr 32 :: l)) with (trim_left l).
  fold (trim_bytes l). by apply trim_plain.
Qed.

Lemma join_cons v w vs : join_comma (v :: w :: vs) = v +:+ ", " +:+ join_comma (w :: vs).
Proof. reflexivity. Qed.

Lemma join_ends vs : vs <> [] -> Forall bare vs ->
  (exists a l, bytes_of (join_comma vs) = a :: l /\ plain a) /\ (exists l b, bytes_of (join_comma vs) = l ++ [b] /\ plain b).
Proof.
  intros Hne Hv. induction Hv as [|v vs [Hn Hb%bare_plain] Hv IH]; [done|].
  assert (exists a l, bytes_of v = a :: l /\ plain a) as (a & l & Ha & Hpa) by (destruct Hb; [done|eauto]).
  destruct vs as [|w vs]; [change (join_comma [v]) with v|rewrite join_cons].
  - split; [by exists a, l|]. destruct (bytes_of v) as [|b l' _] using rev_ind; [done|]. apply Forall_app in Hb as [_ Hb].
    apply Forall_cons in Hb as [Hb _]. by exists l', b.
  - destruct IH as [_ (k & b & Hk & Hpb)]; [done|]. rewrite !bytes_of_app, Hk, Ha. split; [by eexists a, _|].
    exists ((a :: l) ++ bytes_of ", " ++ k), b. by rewrite <-!app_assoc.
Qed.

Lemma trim_ends l : (exists a k, l = a :: k /\ plain a) -> (exists k b, l = k ++ [b] /\ plain b) -> trim_bytes l = l.
Proof.
  intros (a & k & -> & Ha) (k' & b & Hl & Hb). unfold trim_bytes. rewrite trim_left_plain by done.
  rewrite Hl, reverse_app, reverse_singleton. change ([b] ++ reverse k') with (b :: reverse k').
  rewrite trim_rev_plain by done. by rewrite reverse_cons, reverse_involutive.
Qed.

Lemma split_join vs : vs <> [] -> Forall bare vs ->
  (fun v => Trim (TrimSpace v) (string_of [chr 34; chr 39])) <$> Split (join_comma vs) (chr 44) = vs.
Proof.
  assert (forall v, bare v -> chr 44 ∉ bytes_of v) as Hsep.
  { intros v [_ Hv] Hin. rewrite Forall_forall in Hv. destruct (Hv _ Hin) as [_ Hc]. set_solver. }
  assert (forall v, bare v -> Trim (TrimSpace (string_of (chr 32 :: bytes_of v))) (string_of [chr 34; chr 39]) = v) as Hone.
  { intros v [Hn Hv]. unfold TrimSpace. rewrite bytes_of_string_of, trim_space_bare, string_of_bytes_of;
      [by apply trim_bare|done|by apply bare_plain]. }
  intros Hne Hv.
  assert (forall ws, Forall bare ws -> ws <> [] ->
    (fun v => Trim (TrimSpace v) (string_of [chr 34; chr 39])) <$> (string_of <$> split_bytes (chr 44) (chr 32 :: bytes_of (join_comma ws))) = ws) as Hrest.
  { intros ws. induction 1 as [|v ws Hw Hws IH]; intros Hn; [done|]. destruct ws as [|w ws]; [change (join_comma [v]) with v|rewrite join_cons].
    - rewrite split_bytes_none by (rewrite not_elem_of_cons; split; [done|by apply Hsep]).
      rewrite !fmap_cons, !fmap_nil. cbv beta. by rewrite Hone.
    - rewrite !bytes_of_app. change (bytes_of ", ") with [chr 44; chr 32].
      change (chr 32 :: bytes_of v ++ [chr 44; chr 32] ++ bytes_of (join_comma (w :: ws)))
        with ((chr 32 :: bytes_of v) ++ chr 44 :: (chr 32 :: bytes_of (join_comma (w :: ws)))).
      rewrite split_bytes_app by (rewrite not_elem_of_cons; split; [done|by apply Hsep]).
      rewrite !fmap_cons. cbv beta. rewrite Hone by done. f_equal. by apply IH. }
  unfold Split. destruct Hv as [|v vs Hw Hvs]; [done|].
  assert (Trim (TrimSpace v) (string_of [chr 34; chr 39]) = v) as Hv1.
  { destruct Hw as [Hn Hb]. unfold TrimSpace. rewrite trim_plain, string_of_bytes_of by (by apply bare_plain). by apply trim_bare. }
  destruct vs as [|w vs]; [change (join_comma [v]) with v|rewrite join_cons].
  - rewrite split_bytes_none by (by apply Hsep).
    rewrite !fmap_cons, !fmap_nil. cbv beta. by rewrite string_of_bytes_of, Hv1.
  - rewrite !bytes_of_app. change (bytes_of ", ") with [chr 44; chr 32].
    change (bytes_of v ++ [chr 44; chr 32] ++ bytes_of (join_comma (w :: vs)))
      with (bytes_of v ++ chr 44 :: (chr 32 :: bytes_of (join_comma (w :: vs)))).
    rewrite split_bytes_app by (by apply Hsep). rewrite !fmap_cons. cbv beta.
    rewrite string_of_bytes_of, Hv1. f_equal. by apply Hrest.
Qed.

(** Lists of routes survive the environment: a list written as
    [[v1, v2, ...]] in a variable, with values that need no quoting, is
    decoded to exactly these values, also when it is empty. *)
Theorem string_list_roundtrip vs :
  Forall bare vs -> Config.stringToStringSlice ("[" +:+ join_comma vs +:+ "]") = vs.
Proof.
  intros Hv. unfold Config.stringToStringSlice. set (raw := "[" +:+ join_comma vs +:+ "]").
  assert (bytes_of raw = chr 91 :: bytes_of (join_comma vs) ++ [chr 93]) as Hb by (unfold raw; by rewrite !bytes_of_app).
  assert (TrimSpace raw = raw) as ->.
  { unfold TrimSpace. rewrite (trim_ends (bytes_of raw)), string_of_bytes_of; [done|rewrite Hb..].
    - eexists _, _. split; [done|]. by vm_compute.
    - exists (chr 91 :: bytes_of (join_comma vs)), (chr 93). split; [done|]. by vm_compute. }
  unfold HasPrefix, HasSuffix. rewrite Hb. cbv zeta.
  rewrite (has_prefix_app (bytes_of "[") (bytes_of (join_comma vs) ++ [chr 93]) : has_prefix (bytes_of "[") (chr 91 :: _) = true).
  rewrite app_comm_cons, reverse_app.
  rewrite (has_prefix_app (reverse (bytes_of "]")) (reverse (chr 91 :: bytes_of (join_comma vs))) : has_prefix _ (reverse [chr 93] ++ _) = true).
  cbn [andb]. change (drop 1 ((chr 91 :: bytes_of (join_comma vs)) ++ [chr 93])) with (bytes_of (join_comma vs) ++ [chr 93]).
  rewrite length_app. simpl length.
  replace (S (length (bytes_of (join_comma vs))) + 1 - 2)%nat with (length (bytes_of (join_comma vs))) by lia.
  rewrite take_app_length, string_of_bytes_of. destruct (decide (vs = [])) as [->|Hne]; [reflexivity|].
  destruct (join_ends vs Hne Hv) as [H1 H2].
  assert (TrimSpace (join_comma vs) = join_comma vs) as -> by (unfold TrimSpace; by rewrite (trim_ends (bytes_of _)), string_of_bytes_of).
  rewrite decide_False; [by apply split_join|]. intros He. rewrite He in H1. destruct H1 as (? & ? & H1 & _). done.
Qed.

(** ** A concrete configuration *)
Module ConcreteConfig.
Import Config.

#[global] Instance print_all : UnicodePrint := fun _ => true.
#[global] Instance in_order : MapOrder := fun _ l => l.
#[global] Instance in_order_laws : @MapOrderLaws in_order.
Proof. by intros A l. Qed.

Definition key32 : string := EncodeToString RawURLEncoding (replicate 32 (chr 7)).
Definition rule : RateLimitRule.t := RateLimitRule.mk 10 3 Minute.
Definition some_tls : ClientTLS.t := ClientTLS.mk true "authz" "" "" "".
Definition upstream : GRPCUpstream.t :=
  GRPCUpstream.mk "authz:9090" Second (ClientAuth.mk "" "") (Retry.mk 1 Second Second []) (Breaker.mk false 0 0) some_tls.
Definition skip_paths : list string :=
  ["/api/v1/auth/login"; "/api/v1/auth/mfa/verify"; "/api/v1/auth/refresh"; "/api/v1/auth/password-reset/confirm";
   "/api/v1/auth/service-token"; "/api/v1/version"].

(** A configuration like the one of [config-production.yaml], with the
    secrets given as arguments. *)
Definition production_with (psk : PSK.t) (jwt_secret : string) : t := mk
  (Runtime.mk "" []) (App.mk "identity-service" "" "production" (10 * Second))
  (HTTP.mk "0.0.0.0:8080" (10 * Second) (15 * Second) Minute (10 * Second) 1048576 [] (CORS.mk false [] [] [] 0))
  (GRPC.mk true "0.0.0.0:9090" false 16777216 (GRPCTLS.mk true "tls.crt" "tls.key" ""))
  (Log.mk "info" "json" "logs/app.log" 100 10 30 true)
  (Database.mk true "platform" "identity" "postgres" "dsn" 25 10 (5 * Minute) Minute (5 * Second))
  (Redis.mk true "redis:6379" "" "" 0 Second Second Second) (Health.mk Second Second)
  (RateLimit.mk true false rule rule rule rule) (Observability.mk true false "" f_one false "")
  (Swagger.mk true true) (JWT.mk "identity-service" ["identity-service"] jwt_secret (2 * Hour) "identity-current" ∅)
  (MFA.mk true "Platform" key32 key32 (5 * Minute))
  (Auth.mk "" "" skip_paths ["/grpc.health.v1.Health/*"] psk)
  (Authorization.mk true) (Cron.mk true "UTC" "" (720 * Hour) Hour 500)
  (Migration.mk true false "migrations/postgres" "postgres://db/identity" "identity_schema_migrations" "identity" "platform")
  (UserOptions.mk Minute Second Second)
  (Idempotency.mk true ["/api/v1/sessions/revoke"] [] Minute Hour Minute)
  (Outbound.mk ∅ {["authorization" := upstream]})
  (EventBus.mk false [] "" "" 0 0 0 0 0 0 0 0 0 0 0).
Definition production : string -> t := production_with (PSK.mk false "" [] []).

#[global] Instance files : Viper := {|
  Settings := string;
  viper_New := fun _ => "";
  viper_BindEnv := fun v => Ok v;
  viper_SetDefault := fun v _ => v;
  viper_ReadInConfig := fun _ => Ok "development";
  viper_not_found := fun _ => false;
  viper_GetString := fun v _ => v;
  os_Stat := fun _ => Ok tt;
  os_not_exist := fun _ => false;
  viper_MergeInConfig := fun v _ => Ok v;
  viper_Set := fun _ _ env => env;
  viper_Unmarshal := fun env => if decide (env = "production") then Ok (production "secret") else Err (ErrorsNew "no such file") |}.

#[global] Instance files_laws : @ViperLaws files.
Proof. intros s env c. simpl. case_decide; [|done]. intros [= <-]. by subst. Qed.
End ConcreteConfig.

(** ** Witnesses *)
Section witnesses.
Import Concrete ConcreteConfig.

Lemma validated_patterns_witness :
  Forall (fun p => HasPrefix p "/api/" = true /\ forall name, exists b, Match p name = Some b) (http_patterns (production "s")) /\
  http_patterns (production "s") <> [].
Proof.
  split; [|done]. apply (validated_patterns_decide (production "s") tt). vm_compute. reflexivity.
Defined.

Lemma profile_path_witness :
  Config.profileConfigPath "config/config.yaml" "production" = "config/config-production.yaml" /\
  exists dir file file', bytes_of "config/config.yaml" = dir ++ file /\
    bytes_of (Config.profileConfigPath "config/config.yaml" "production") = dir ++ file' /\
    (c_slash ∉ file) /\ (c_slash ∉ file') /\ (dir = [] \/ exists d, dir = d ++ [c_slash]).
Proof. split; [reflexivity|]. apply profile_path_confined. reflexivity. Defined.

Lemma load_witness : exists c,
  Config.LoadWithProfile "config/config.yaml" " Production" = Ok c /\ production_ok c.
Proof.
  assert (is_ok (Config.LoadWithProfile "config/config.yaml" " Production") = true) as Hb by (vm_compute; reflexivity).
  destruct (Config.LoadWithProfile "config/config.yaml" " Production") as [c|e] eqn:E; [|discriminate Hb].
  exists c. split; [reflexivity|]. destruct (load_enforces_profile _ _ _ E) as (_ & _ & Hp & _ & _ & H). apply H.
  rewrite Hp; vm_compute; [reflexivity|discriminate].
Defined.

Lemma service_builds_witness : exists s,
  NewService (mkTransactor true) (service_config (production "s")) = Ok s /\ is_Some (mfa s).
Proof.
  destruct (validated_service_builds (mkTransactor true) (production "s") tt) as (s & Hs & Hm).
  - vm_compute. reflexivity.
  - discriminate.
  - reflexivity.
  - apply map_Forall_empty.
  - exists s. split; [exact Hs|]. apply Hm. reflexivity.
Defined.

Lemma string_list_witness :
  Config.stringToStringSlice "[/api/v1/sessions/revoke, /api/v1/me]" = ["/api/v1/sessions/revoke"; "/api/v1/me"].
Proof.
  apply (string_list_roundtrip ["/api/v1/sessions/revoke"; "/api/v1/me"]).
  assert (forall v, bool_decide (bytes_of v <> []) && forallb (fun a => bool_decide (33 <= code a < 127) &&
      bool_decide (a ∉ [chr 44; chr 34; chr 39; chr 91; chr 93])) (bytes_of v) = true -> bare v) as Hbare.
  { intros v [H1 H2]%andb_true_iff. apply bool_decide_eq_true in H1. split; [exact H1|]. apply Forall_forall. intros a Ha.
    rewrite forallb_forall in H2. rewrite list_elem_of_In in Ha. specialize (H2 a Ha). apply andb_true_iff in H2 as [H2 H3].
    apply bool_decide_eq_true in H2. apply bool_decide_eq_true in H3. exact (conj H2 H3). }
  do 2 (constructor; [apply Hbare; vm_compute; reflexivity|]). constructor.
Defined.

(** A production configuration without a token secret passes validation, and
    the service signs tokens with the key of the empty string, which anybody
    can compute. *)
Lemma empty_secret_accepted :
  Config.Validate (production "") = Ok tt /\ Config.App.Env (Config.App (production "")) = "production" /\
  exists s, NewService (mkTransactor true) (service_config (production "")) = Ok s /\
    privateKey (tokens s) = key_from_secret "".
Proof.
  split; [vm_compute; reflexivity|]. split; [reflexivity|].
  eexists. split; [vm_compute; reflexivity|]. vm_compute. reflexivity.
Qed.
End witnesses.
