(* ===== verification/RequestContext.v ===== *)
(** * Request contexts

    [internal/requestid], [internal/environment] and [internal/idempotency]:
    what a request carries in its [context.Context].  The type of contexts is
    a parameter ([Platform]); [Contexts] adds the standard library's
    [context.WithValue] at the two keys these packages define, and the
    platform library's accessors for principals, idempotency keys and caller
    credentials. *)

From S2P Require Import Prelude.
From S2P Require Import GoStrings.
From S2P Require Import Encoding.
From S2P Require Import AppError.
From S2P Require Import Platform.
From S2P Require Import Model.
From S2P Require Import Runtime.
From Stdlib Require Import Ascii.
Open Scope Z_scope.

(** The unexported [contextKey] types of [requestid] and [environment]. *)
Inductive context_key := requestid_key | environment_key.
#[global] Instance context_key_eq_dec : EqDecision context_key.
Proof. solve_decision. Defined.

Class Contexts {pf : Platform} := {
  WithValue : Ctx -> context_key -> string -> Ctx;
  Value : Ctx -> context_key -> option string;
  (** [context.WithTimeout] and [context.WithoutCancel]. *)
  WithTimeout : Ctx -> Z -> Ctx;
  WithoutCancel : Ctx -> Ctx;
  principal_FromContext : Ctx -> option Principal;
  idempotency_Valid : string -> bool;
  idempotency_WithContext : Ctx -> string -> Ctx;
  idempotency_FromContext : Ctx -> option string;
  authz_WithCallerCredential : Ctx -> string -> Ctx;
}.

(** Documented behaviour: a context answers with the value that was set last
    under a key, and setting one leaves the others alone. *)
Class ContextsLaws {pf : Platform} {cx : Contexts} := {
  value_same c k v : Value (WithValue c k v) k = Some v;
  value_other c k k' v : k <> k' -> Value (WithValue c k v) k' = Value c k';
  idempotency_same c k : idempotency_FromContext (idempotency_WithContext c k) = Some k;
  idempotency_value c k v : idempotency_FromContext (WithValue c k v) = idempotency_FromContext c;
  idempotency_timeout c t : idempotency_FromContext (WithTimeout c t) = idempotency_FromContext c;
  idempotency_credential c h : idempotency_FromContext (authz_WithCallerCredential c h) = idempotency_FromContext c;
  from_context c p : principal_FromContext c = Some p <-> principal_Require c = Ok p;
}.

(** ** [internal/requestid] *)
Module requestid.
Section requestid.
Context {pf : Platform} {cx : Contexts}.

Definition WithContext (ctx : Ctx) (id : string) : Ctx := WithValue ctx requestid_key id.

Definition FromContext (ctx : Ctx) : string * bool :=
  match Value ctx requestid_key with
  | Some id => (id, bool_decide (id <> ""))
  | None => ("", false)
  end.
End requestid.

(** [strings.ContainsRune("-_.", char)]. *)
Definition allowedCharacter (char : Z) : bool :=
  ((97 <=? char) && (char <=? 122)) || ((65 <=? char) && (char <=? 90)) ||
  ((48 <=? char) && (char <=? 57)) || bool_decide (char ∈ [45; 95; 46]).

Definition Valid (value : string) : bool :=
  if decide (value = "" \/ 128 < go_len value) then false
  else forallb allowedCharacter (runes (bytes_of value)).

(** [rand.Read] fails: the id is made of the clock. *)
Definition Generate {env : Env} : M string :=
  r ← attempt (rand_Read 16);
  match r with
  | Err _ => t ← now; mret ("fallback-" +:+ itoa t)
  | Ok value => mret (hex value)
  end.
End requestid.

(** ** [internal/environment] *)
Module environment.
Section environment.
Context {pf : Platform} {cx : Contexts}.

Definition WithContext (ctx : Ctx) (profile : string) : Ctx := WithValue ctx environment_key profile.
Definition FromContext (ctx : Ctx) : string * bool :=
  match Value ctx environment_key with
  | Some profile => (profile, true)
  | None => ("", false)
  end.
End environment.
End environment.

(** ** [internal/idempotency/context.go] *)
Module idempotency.
Section idempotency.
Context {pf : Platform} {cx : Contexts}.

Definition Valid (key : string) : bool := idempotency_Valid key.
Definition WithContext (ctx : Ctx) (key : string) : Ctx := idempotency_WithContext ctx key.
Definition FromContext (ctx : Ctx) : option string := idempotency_FromContext ctx.
End idempotency.
End idempotency.

(** ** Facts *)

Lemma allowed_ascii a : requestid.allowedCharacter (code a) = true -> 45 <= code a < 128.
Proof.
  unfold requestid.allowedCharacter. rewrite !orb_true_iff, !andb_true_iff, bool_decide_eq_true.
  set_unfold. pose proof (code_range a). lia.
Qed.

(** Every id the service puts into headers and logs is non-empty, at most 128
    bytes and made of unreserved characters. *)
Lemma hex_digit_allowed d : 0 <= d < 16 -> requestid.allowedCharacter (code (hex_digit d)) = true.
Proof.
  intros H. assert (forallb (fun n => requestid.allowedCharacter (code (hex_digit (Z.of_nat n)))) (seq 0 16) = true) as Hall
    by (vm_compute; reflexivity).
  rewrite forallb_forall in Hall. specialize (Hall (Z.to_nat d)). rewrite Z2Nat.id in Hall by lia.
  apply Hall, in_seq. lia.
Qed.

Lemma ReadOnly_Generate {env : Env} : ReadOnly requestid.Generate.
Proof. solve_readonly. Qed.
#[export] Hint Resolve ReadOnly_Generate : readonly.
