(* ===== verification/Auth.v ===== *)
(** * Authentication of callers

    [internal/auth]: bearer tokens ([jwt.go]), route patterns ([pattern.go])
    and pre-shared keys ([psk.go]).  The identity service is reached through
    the interface [identityVerifier], a record of operations; the HS256 half
    of the JWT library and the platform library's [authn.Policy] are the
    parameters [HMACJWT] and [Authn] with the laws they document. *)

From S2P Require Import Prelude.
From S2P Require Import GoStrings.
From S2P Require Import Encoding.
From S2P Require Import AppError.
From S2P Require Import Platform.
From S2P Require Import PathMatch.
From S2P Require Import Configuration.
From S2P Require Import Model.
From S2P Require Import Runtime.
From S2P Require Import RequestContext.
From S2P Require Import Token.
From S2P Require Import ServiceBase.
From S2P Require Import Sessions.
From Stdlib Require Import Ascii.
Open Scope Z_scope.

(** ** Strings *)

Definition Cut (s : string) (sep : ascii) : string * string * bool :=
  match cut_bytes sep (bytes_of s) with
  | Some (before, after) => (string_of before, string_of after, true)
  | None => (s, "", false)
  end.

(** Two characters are equal under simple case folding, for an ASCII
    character [t]: besides the two cases of a letter only the Kelvin sign and
    the long s fold into ASCII. *)
Definition fold_eq (s t : Z) : bool :=
  let lower r := if is_upper r then r + 32 else r in
  (s =? t) || ((s <? 128) && (lower s =? lower t)) ||
  ((s =? 0x212A) && (lower t =? 107)) || ((s =? 0x17F) && (lower t =? 115)).

Fixpoint fold_all (s t : list Z) : bool :=
  match s, t with
  | [], [] => true
  | a :: s', b :: t' => fold_eq a b && fold_all s' t'
  | _, _ => false
  end.

(** [strings.EqualFold(s, t)] for an ASCII [t]. *)
Definition EqualFold (s t : string) : bool := fold_all (runes (bytes_of s)) (runes (bytes_of t)).

(** [subtle.ConstantTimeCompare]. *)
Definition ConstantTimeCompare (x y : bytes) : Z := if decide (x = y) then 1 else 0.

Definition space : ascii := chr 32.

(** ** The HS256 half of the JWT library *)

(** [jwt.RegisteredClaims], and [Claims] of [jwt.go], which embeds it. *)
Record RegisteredClaims := mkRegistered {
  RIssuer : string;
  RSubject : string;
  RID : string;
  RIssuedAt : option Z;
  RNotBefore : option Z;
  RExpiresAt : option Z;
}.

Class HMACJWT := {
  (** [NewWithClaims(SigningMethodHS256, claims).SignedString(secret)]. *)
  hs_SignedString : RegisteredClaims -> bytes -> Result string;
  (** The signing method and the claims of a well-formed token. *)
  hs_content : string -> option (string * RegisteredClaims);
  hs_verifies : bytes -> string -> bool;
  (** [ParseWithClaims(raw, _, keyfunc, WithIssuer, WithExpirationRequired,
      WithIssuedAt)] at an instant. *)
  hs_ParseWithClaims : (string -> Result bytes) -> string -> Z -> string -> Result RegisteredClaims;
}.

Definition registered_valid (issuer : string) (now : Z) (c : RegisteredClaims) : Prop :=
  RIssuer c = issuer /\ (exists e, RExpiresAt c = Some e /\ now < e) /\
  (forall n, RNotBefore c = Some n -> n <= now) /\ (forall i, RIssuedAt c = Some i -> i <= now).

Class HMACJWTLaws {hs : HMACJWT} := {
  hs_sign_content c key raw :
    hs_SignedString c key = Ok raw -> hs_content raw = Some ("HS256", c) /\ hs_verifies key raw = true;
  hs_sign_total c key : exists raw, hs_SignedString c key = Ok raw;
  hs_parse_spec kf issuer now raw c :
    hs_ParseWithClaims kf issuer now raw = Ok c <->
    exists method key, hs_content raw = Some (method, c) /\ kf method = Ok key /\
      hs_verifies key raw = true /\ registered_valid issuer now c;
}.

(** ** The platform's authentication policy *)

Record PSKPolicy := mkPSKPolicy { Key : string; Targets : list string; PSKPrincipal : Principal }.
Record Policy {pf : Platform} := mkPolicy {
  SkipTargets : list string;
  Bearer : Ctx -> string -> M Principal;
  PSKs : list PSKPolicy;
}.
Arguments mkPolicy {pf}.

Module auth.

(** *** [pattern.go] *)
Fixpoint MatchesAny (value : string) (patterns : list string) : bool :=
  match patterns with
  | [] => false
  | pattern :: rest =>
      match Match pattern value with
      | Some true => true
      | _ => MatchesAny value rest
      end
  end.

(** *** [psk.go] *)
Definition VerifyPSK (authorization expected : string) : bool :=
  let '(scheme, supplied, ok) := Cut authorization space in
  if negb ok || negb (EqualFold scheme "PSK") || bool_decide (supplied = "") ||
     bool_decide (go_len supplied <> go_len expected)
  then false
  else ConstantTimeCompare (bytes_of supplied) (bytes_of expected) =? 1.

(** *** [jwt.go] *)

Record identityVerifier {pf : Platform} := mkVerifier {
  verifier_Parse : string -> M TokenClaims;
  verifier_ValidateSession : Ctx -> string -> string -> M (Session.t * bool);
}.
Arguments mkVerifier {pf}.

Record Service {pf : Platform} := mk {
  issuer : string;
  secret : bytes;
  ttl : Z;
  clientID : string;
  clientSecret : string;
  identities : option identityVerifier;
}.
Arguments mk {pf}.

Section auth.
Context {libs : Libs} {hs : HMACJWT} {env : Env}.

Definition Enabled (s : Service) : bool :=
  bool_decide (32 <= Z.of_nat (length (secret s))) && bool_decide (clientID s <> "") && bool_decide (clientSecret s <> "").

Definition Authenticate (s : Service) (id sec : string) : bool :=
  if negb (Enabled s) then false
  else (ConstantTimeCompare (bytes_of id) (bytes_of (clientID s)) =? 1) &&
       (ConstantTimeCompare (bytes_of sec) (bytes_of (clientSecret s)) =? 1).

Definition randomID : M string := b ← rand_Read 16; mret (EncodeToString RawURLEncoding b).

Definition Issue (s : Service) (subject : string) : M string :=
  if negb (Enabled s) then throw (ErrorsNew "authentication is not configured")
  else
    now ← now;
    jti ← map_err (Errorf "create token id") randomID;
    lift (hs_SignedString
      (mkRegistered (issuer s) subject jti (Some (NewNumericDate now)) (Some (NewNumericDate now))
         (Some (NewNumericDate (now + ttl s)))) (secret s)).

Definition hs_keyfunc (s : Service) (method : string) : Result bytes :=
  if decide (method <> "HS256") then Err (ErrorsNew ("unexpected signing method " +:+ method)) else Ok (secret s).

Definition Parse (s : Service) (raw : string) : M RegisteredClaims :=
  if negb (Enabled s) then throw (ErrorsNew "authentication is not configured")
  else
    now ← now;
    map_err (Errorf "parse jwt") (lift (hs_ParseWithClaims (hs_keyfunc s) (issuer s) now raw)).

Definition VerifyBearer (s : Service) (ctx : Ctx) (raw : string) : M Principal :=
  match identities s with
  | Some v =>
      claims ← verifier_Parse v raw;
      (if decide (SubjectType claims = "user" /\ SessionID claims <> "") then
         '(_, valid) ← map_err (Errorf "validate identity session")
            (verifier_ValidateSession v ctx (SessionID claims) (Subject claims));
         (if (valid : bool) then mret tt else throw (ErrorsNew "identity session is unavailable"))
       else mret tt);;
      mret (mkPrincipal (Subject claims) (SubjectType claims) (TenantID claims) (MembershipID claims) (SessionID claims))
  | None =>
      claims ← Parse s raw;
      mret (mkPrincipal (RSubject claims) TypeServiceAccount "" "" "")
  end.

Definition psk_principal : Principal := mkPrincipal "psk" TypeServiceAccount "" "" "".

Definition HTTPPolicy (s : Service) (cfg : Config.Auth.t) : Policy :=
  mkPolicy (Config.Auth.SkipHTTPPaths cfg) (VerifyBearer s)
    (if Config.PSK.Enabled (Config.Auth.PSK cfg)
     then [mkPSKPolicy (Config.PSK.Key (Config.Auth.PSK cfg)) (Config.PSK.HTTPPaths (Config.Auth.PSK cfg)) psk_principal]
     else []).

Definition GRPCPolicy (s : Service) (cfg : Config.Auth.t) : Policy :=
  mkPolicy (Config.Auth.SkipGRPCMethods cfg) (VerifyBearer s)
    (if Config.PSK.Enabled (Config.Auth.PSK cfg)
     then [mkPSKPolicy (Config.PSK.Key (Config.Auth.PSK cfg)) (Config.PSK.GRPCMethods (Config.Auth.PSK cfg)) psk_principal]
     else []).

Definition New (cfg : Config.t) : Service :=
  mk (Config.JWT.Issuer (Config.JWT cfg)) (bytes_of (Config.JWT.Secret (Config.JWT cfg)))
     (Config.JWT.TTL (Config.JWT cfg)) (Config.Auth.ClientID (Config.Auth cfg))
     (Config.Auth.ClientSecret (Config.Auth cfg)) None.

(** The identity service as an [identityVerifier]. *)
Definition identity_verifier (s : ServiceBase.Service) : identityVerifier :=
  mkVerifier (Token.Parse (tokens s)) Sessions.ValidateSession.

Definition NewWithIdentity (cfg : Config.t) (ids : ServiceBase.Service) : Service :=
  let s := New cfg in
  mk (issuer s) (secret s) (ttl s) (clientID s) (clientSecret s) (Some (identity_verifier ids)).
End auth.
End auth.

(** ** [authn.Policy.Authenticate]

    The README documents it: a target with a pre-shared key requires
    [Authorization: PSK <key>], before any other rule; then a skipped target
    bypasses authentication; every other target needs a bearer token, and
    its principal is put into the context.  Patterns are those of
    [path.Match].  The library touches the database only through the bearer
    verifier of the policy. *)
Class Authn {pf : Platform} := policy_Authenticate : Policy -> Ctx -> string -> string -> M Ctx.

(** What a passed authentication means.  A skipped target ([by_skip]) asks for
    no credential at all. *)
Inductive authentication_passed {pf : Platform} (p : Policy) (ctx : Ctx) (target authorization : string)
    (w : World) : Ctx -> World -> Prop :=
| by_psk q ctx' w' :
    q ∈ PSKs p -> auth.MatchesAny target (Targets q) = true -> auth.VerifyPSK authorization (Key q) = true ->
    principal_Require ctx' = Ok (PSKPrincipal q) ->
    authentication_passed p ctx target authorization w ctx' w'
| by_skip ctx' w' :
    (forall q, q ∈ PSKs p -> auth.MatchesAny target (Targets q) = false) ->
    auth.MatchesAny target (SkipTargets p) = true ->
    authentication_passed p ctx target authorization w ctx' w'
| by_bearer scheme raw pr ctx' w' :
    (forall q, q ∈ PSKs p -> auth.MatchesAny target (Targets q) = false) ->
    auth.MatchesAny target (SkipTargets p) = false ->
    Cut authorization space = (scheme, raw, true) -> EqualFold scheme "Bearer" = true ->
    Bearer p ctx raw w = (Ok pr, w') -> principal_Require ctx' = Ok pr ->
    authentication_passed p ctx target authorization w ctx' w'.

(** The caller has shown who it is: by a pre-shared key of the policy, or by a
    bearer token that the policy's verifier accepted. *)
Definition credential_shown {pf : Platform} (p : Policy) (ctx : Ctx) (target authorization : string) (w : World)
    (pr : Principal) (w' : World) : Prop :=
  (exists q, q ∈ PSKs p /\ auth.MatchesAny target (Targets q) = true /\ auth.VerifyPSK authorization (Key q) = true /\
     pr = PSKPrincipal q) \/
  (exists scheme raw, Cut authorization space = (scheme, raw, true) /\ EqualFold scheme "Bearer" = true /\
     Bearer p ctx raw w = (Ok pr, w')).

Lemma passed_shown {pf : Platform} p ctx target authorization w ctx' w' :
  authentication_passed p ctx target authorization w ctx' w' -> auth.MatchesAny target (SkipTargets p) = false ->
  exists pr, principal_Require ctx' = Ok pr /\ credential_shown p ctx target authorization w pr w'.
Proof.
  intros [q c w1 Hq Ht Hv Hp|c w1 _ Hs|scheme raw pr c w1 _ _ Hc Hf Hb Hp] Hn; [|congruence|].
  - exists (PSKPrincipal q). split; [done|]. left. by exists q.
  - exists pr. split; [done|]. right. by exists scheme, raw.
Qed.

Class AuthnLaws {pf : Platform} {an : Authn} := {
  authenticate_sound p ctx target authorization w ctx' w' :
    policy_Authenticate p ctx target authorization w = (Ok ctx', w') ->
    authentication_passed p ctx target authorization w ctx' w';
  authenticate_readonly p ctx target authorization :
    (forall c raw, ReadOnly (Bearer p c raw)) -> ReadOnly (policy_Authenticate p ctx target authorization);
}.

(** Verifying a bearer token changes nothing. *)
Lemma ReadOnly_bearer {libs : Libs} {hs : HMACJWT} {env : Env} cfg ids c raw :
  ReadOnly (auth.VerifyBearer (auth.NewWithIdentity cfg ids) c raw).
Proof.
  unfold auth.VerifyBearer. cbn [auth.NewWithIdentity auth.identities auth.identity_verifier
    auth.verifier_Parse auth.verifier_ValidateSession]. solve_readonly.
Qed.
