(* ===== verification/Json.v ===== *)
(** * JSON values

    What [encoding/json] does with the values the HTTP transport exchanges:
    decoding of a document into the fields of a structure (names match up to
    case folding, [null] leaves a field alone, a wrong type is an error, the
    last duplicate wins), decoding into [any], and encoding with [omitempty].
    Reading and printing the text of a document is the parameter [JSONText]. *)

From S2P Require Import Prelude.
From S2P Require Import GoStrings.
From S2P Require Import AppError.
From S2P Require Import Platform.
From S2P Require Import Model.
From S2P Require Import Runtime.
From S2P Require Import Auth.
From Stdlib Require Import Ascii.
Open Scope Z_scope.

Unset Elimination Schemes.
Inductive json :=
| JNull
| JBool (b : bool)
| JNumber (literal : string)
| JString (s : string)
| JArray (items : list json)
| JObject (fields : list (string * json)).
Set Elimination Schemes.

(** Induction under the lists of arrays and objects. *)
Lemma json_ind (P : json -> Prop) :
  P JNull -> (forall b, P (JBool b)) -> (forall n, P (JNumber n)) -> (forall s, P (JString s)) ->
  (forall l, Forall P l -> P (JArray l)) ->
  (forall l, Forall (fun f => P f.2) l -> P (JObject l)) -> forall j, P j.
Proof.
  intros Hn Hb Hm Hs Ha Ho. fix IH 1. intros [|b|n|s|l|l]; [exact Hn|apply Hb|apply Hm|apply Hs| |].
  - apply Ha. induction l as [|a l IHl]; constructor; [apply IH|exact IHl].
  - apply Ho. induction l as [|a l IHl]; constructor; [apply IH|exact IHl].
Qed.

(** ** Numbers *)

(** [strconv.FormatInt(n, 10)]. *)
Definition format_int (n : Z) : string := if n <? 0 then "-" +:+ itoa (- n) else itoa n.

(** [strconv.ParseInt(literal, 10, 64)] of a JSON number literal. *)
Definition ParseInt64 (literal : string) : option Z :=
  let '(neg, l) :=
    match bytes_of literal with
    | a :: l' => if code a =? 45 then (true, l') else (false, a :: l')
    | [] => (false, [])
    end in
  if bool_decide (l <> []) && forallb is_digit l then
    let v := if (neg : bool) then - dec_value 0 l else dec_value 0 l in
    if decide (int64_min <= v <= int64_max) then Some v else None
  else None.

(** ** Text *)

Class JSONText := {
  json_print : json -> bytes;
  (** [json.Unmarshal] into the generic tree. *)
  json_parse : bytes -> Result json;
  (** A number literal after a trip through [float64]. *)
  float_text : string -> string;
}.

(** Invalid UTF-8 is replaced when a string is encoded. *)
Definition to_valid (s : string) : string := string_of (mjoin (encode_rune <$> runes (bytes_of s))).

Fixpoint sanitize (j : json) : json :=
  match j with
  | JString s => JString (to_valid s)
  | JArray l => JArray (map sanitize l)
  | JObject l => JObject (map (fun f => (to_valid f.1, sanitize f.2)) l)
  | _ => j
  end.

Class JSONTextLaws {jt : JSONText} := {
  parse_print j : json_parse (json_print j) = Ok (sanitize j);
  float_idem s : float_text (float_text s) = float_text s;
  float_small n : -(2 ^ 53) < n < 2 ^ 53 -> float_text (format_int n) = format_int n;
}.

(** ** Decoding *)

Definition type_error {A} (what : string) : Result A := Err (ErrorsNew ("json: cannot unmarshal into " +:+ what)).

(** The members of an object whose key selects the field [name]. *)
Definition members (name : string) (fields : list (string * json)) : list json :=
  snd <$> filter (fun f => EqualFold f.1 name = true) fields.

(** Decoding into a structure starts from an object; [null] leaves the
    structure untouched. *)
Definition object_of (j : json) : Result (list (string * json)) :=
  match j with
  | JObject l => Ok l
  | JNull => Ok []
  | _ => type_error "struct"
  end.

Definition decode_string (old : string) (j : json) : Result string :=
  match j with
  | JString s => Ok s
  | JNull => Ok old
  | _ => type_error "string"
  end.

Definition decode_int (old : Z) (j : json) : Result Z :=
  match j with
  | JNumber n => match ParseInt64 n with Some v => Ok v | None => type_error "int64" end
  | JNull => Ok old
  | _ => type_error "int64"
  end.

(** Elements are decoded into the slots of the old slice, where there are. *)
Fixpoint decode_items (old : list string) (l : list json) : Result (list string) :=
  match l with
  | [] => Ok []
  | j :: l' =>
      s ← decode_string (default "" (head old)) j;
      rest ← decode_items (tail old) l';
      Ok (s :: rest)
  end.

(** A slice is [None] when it is nil. *)
Definition decode_strings (old : option (list string)) (j : json) : Result (option (list string)) :=
  match j with
  | JArray l => Some <$> decode_items (default [] old) l
  | JNull => Ok None
  | _ => type_error "[]string"
  end.

Fixpoint decode_all {A} (decode : A -> json -> Result A) (value : A) (l : list json) : Result A :=
  match l with
  | [] => Ok value
  | j :: l' => v ← decode value j; decode_all decode v l'
  end.

Definition string_field (name : string) (o : list (string * json)) : Result string :=
  decode_all decode_string "" (members name o).
Definition int_field (name : string) (o : list (string * json)) : Result Z :=
  decode_all decode_int 0 (members name o).
Definition strings_field (name : string) (o : list (string * json)) : Result (option (list string)) :=
  decode_all decode_strings None (members name o).

(** [binding:"required"]: the field must not have its zero value. *)
Definition required_error (name : string) : error := ErrorsNew ("Field validation for " +:+ name +:+ " failed on the required tag").
Definition required (name : string) (zero : Prop) `{!Decision zero} : Result unit :=
  if decide zero then Err (required_error name) else Ok tt.

(** ** Decoding into [any] *)
Section any.
Context {jt : JSONText}.

(** A map keeps the last member of each name; it is printed in key order. *)
Definition insert_member (f : string * json) (l : list (string * json)) : list (string * json) :=
  f :: filter (fun g => g.1 <> f.1) l.
Definition member_le (f g : string * json) : Prop := String.leb f.1 g.1 = true.
#[global] Instance member_le_dec f g : Decision (member_le f g).
Proof. unfold member_le. apply _. Defined.
Definition as_map (l : list (string * json)) : list (string * json) :=
  merge_sort member_le (foldl (fun acc f => insert_member f acc) [] l).

Fixpoint any_of (j : json) : json :=
  match j with
  | JNumber n => JNumber (float_text n)
  | JArray l => JArray (map any_of l)
  | JObject l => JObject (as_map (map (fun f => (f.1, any_of f.2)) l))
  | _ => j
  end.
End any.

(** ** Encoding *)

Definition jint (n : Z) : json := JNumber (format_int n).
Definition jstrings (l : list string) : json := JArray (JString <$> l).
(** [omitempty] of a string, and of a pointer to a value. *)
Definition omit_string (name value : string) : list (string * json) :=
  if decide (value = "") then [] else [(name, JString value)].
Definition omit_nil {A} (name : string) (encode : A -> json) (value : option A) : list (string * json) :=
  match value with Some v => [(name, encode v)] | None => [] end.
