(* ===== verification/JsonSpec.v ===== *)
(** * JSON values: normal forms

    Printing a value and decoding it again replaces invalid UTF-8, passes
    numbers through floating point and turns objects into maps.  Doing it
    twice is the same as doing it once. *)

From S2P Require Import Prelude.
From S2P Require Import GoStrings.
From S2P Require Import Platform.
From S2P Require Import Auth.
From S2P Require Import Json.
From Stdlib Require Import Ascii.
Open Scope Z_scope.

(** ** UTF-8: replacement of invalid bytes is done once *)

Definition scalar (r : Z) : Prop := 0 <= r <= 0x10FFFF /\ ~ (0xD800 <= r <= 0xDFFF).

Lemma runes_1 b l : code b < 0x80 -> runes (b :: l) = code b :: runes l.
Proof. intros H. cbn [runes]. by rewrite (proj2 (Z.ltb_lt _ _)) by lia. Qed.
Lemma runes_2 b0 b1 l : 0x80 <= code b0 -> wf2 b0 b1 = true -> runes (b0 :: b1 :: l) = rune2 b0 b1 :: runes l.
Proof. intros H Hw. cbn [runes]. by rewrite (proj2 (Z.ltb_ge _ _)), Hw by lia. Qed.
Lemma runes_3 b0 b1 b2 l : 0xE0 <= code b0 -> wf3 b0 b1 b2 = true -> runes (b0 :: b1 :: b2 :: l) = rune3 b0 b1 b2 :: runes l.
Proof.
  intros H Hw. assert (wf2 b0 b1 = false) as Hn by (unfold wf2, between; lia).
  cbn [runes]. by rewrite (proj2 (Z.ltb_ge _ _)), Hn, Hw by lia.
Qed.
Lemma runes_4 b0 b1 b2 b3 l :
  0xF0 <= code b0 -> wf4 b0 b1 b2 b3 = true -> runes (b0 :: b1 :: b2 :: b3 :: l) = rune4 b0 b1 b2 b3 :: runes l.
Proof.
  intros H Hw. assert (wf2 b0 b1 = false) as Hn by (unfold wf2, between; lia).
  assert (wf3 b0 b1 b2 = false) as Hm by (unfold wf3, between; lia).
  cbn [runes]. by rewrite (proj2 (Z.ltb_ge _ _)), Hn, Hm, Hw by lia.
Qed.

Ltac div_lia := Z.to_euclidean_division_equations; lia.
Lemma runes_encode r l : scalar r -> runes (encode_rune r ++ l) = r :: runes l.
Proof.
  intros [Hr Hs]. unfold encode_rune.
  assert ((r <? 0) || (0x10FFFF <? r) || ((0xD800 <=? r) && (r <=? 0xDFFF)) = false) as -> by lia.
  destruct (Z.ltb_spec r 0x80); [|destruct (Z.ltb_spec r 0x800); [|destruct (Z.ltb_spec r 0x10000)]]; cbn [app].
  - rewrite runes_1; rewrite code_chr by lia; [done|lia].
  - rewrite runes_2; unfold rune2, wf2, between, cont; rewrite ?code_chr by div_lia; [f_equal|..]; div_lia.
  - rewrite runes_3; unfold rune3, wf3, between, cont; rewrite ?code_chr by div_lia; [f_equal|..]; div_lia.
  - rewrite runes_4; unfold rune4, wf4, between, cont; rewrite ?code_chr by div_lia; [f_equal|..]; div_lia.
Qed.

Lemma rune2_scalar b0 b1 : wf2 b0 b1 = true -> scalar (rune2 b0 b1).
Proof. unfold scalar, rune2, wf2, between, cont. intros H. pose proof (code_range b0). pose proof (code_range b1). div_lia. Qed.
Lemma rune3_scalar b0 b1 b2 : wf3 b0 b1 b2 = true -> scalar (rune3 b0 b1 b2).
Proof.
  unfold scalar, rune3, wf3, between, cont. intros H.
  pose proof (code_range b0). pose proof (code_range b1). pose proof (code_range b2). div_lia.
Qed.
Lemma rune4_scalar b0 b1 b2 b3 : wf4 b0 b1 b2 b3 = true -> scalar (rune4 b0 b1 b2 b3).
Proof.
  unfold scalar, rune4, wf4, between, cont. intros H. pose proof (code_range b0). pose proof (code_range b1).
  pose proof (code_range b2). pose proof (code_range b3). div_lia.
Qed.

Lemma runes_scalar l : Forall scalar (runes l).
Proof.
  assert (scalar RuneError) as He by (unfold scalar, RuneError; lia).
  cut (forall n l, (length l <= n)%nat -> Forall scalar (runes l)); [intros H; by apply (H (length l))|].
  clear l. induction n as [|n IH]; intros [|b0 l1] Hn; try constructor; cbn [length] in Hn; [lia|].
  assert (forall m, (length m <= n)%nat -> Forall scalar (runes m)) as IH' by exact IH.
  cbn [runes]. destruct (Z.ltb_spec (code b0) 0x80).
  { constructor; [unfold scalar; pose proof (code_range b0); lia|apply IH; lia]. }
  destruct l1 as [|b1 l2]; [constructor; [done|constructor]|]. destruct (wf2 b0 b1) eqn:W2.
  { constructor; [by apply rune2_scalar|apply IH; cbn in Hn; lia]. }
  destruct l2 as [|b2 l3]; [constructor; [done|apply IH; cbn in *; lia]|]. destruct (wf3 b0 b1 b2) eqn:W3.
  { constructor; [by apply rune3_scalar|apply IH; cbn in Hn; lia]. }
  destruct l3 as [|b3 l4]; [constructor; [done|apply IH; cbn in *; lia]|]. destruct (wf4 b0 b1 b2 b3) eqn:W4.
  { constructor; [by apply rune4_scalar|apply IH; cbn in Hn; lia]. }
  constructor; [done|apply IH; cbn in *; lia].
Qed.

Lemma runes_of_encoded rs : Forall scalar rs -> runes (mjoin (encode_rune <$> rs)) = rs.
Proof. induction 1 as [|r rs Hr _ IH]; [done|]. cbn. rewrite runes_encode by done. f_equal. exact IH. Qed.

Lemma to_valid_idem s : to_valid (to_valid s) = to_valid s.
Proof. unfold to_valid. rewrite bytes_of_string_of, runes_of_encoded by apply runes_scalar. done. Qed.

Lemma sanitize_idem j : sanitize (sanitize j) = sanitize j.
Proof.
  induction j as [| | |s|l IH|l IH] using json_ind; cbn [sanitize]; try done.
  - by rewrite to_valid_idem.
  - f_equal. induction IH as [|a l Ha _ IHl]; cbn [map]; [done|]. by rewrite Ha, IHl.
  - f_equal. induction IH as [|[k a] l Ha _ IHl]; cbn [map fst snd] in *; [done|]. by rewrite to_valid_idem, Ha, IHl.
Qed.

(** ** Maps are maps *)

#[global] Instance member_le_trans : Transitive member_le.
Proof.
  intros f g h Hfg Hgh. unfold member_le in *. apply Is_true_true. change (String.le f.1 h.1).
  transitivity g.1; apply Is_true_true; done.
Qed.
#[global] Instance member_le_total : Total member_le.
Proof. intros f g. apply String.leb_total. Qed.

Definition distinct (l : list (string * json)) : Prop := NoDup (fst <$> l).

Lemma distinct_filter P `{!forall f, Decision (P f)} l : distinct l -> distinct (filter P l).
Proof.
  unfold distinct. induction l as [|f l IH]; cbn [fmap list_fmap]; intros Hd; [constructor|].
  apply NoDup_cons in Hd as [Hf Hd]. rewrite filter_cons. destruct (decide (P f)); [|by apply IH]. cbn.
  constructor; [|by apply IH]. intros (g & Hg & Hin)%list_elem_of_fmap. apply list_elem_of_filter in Hin as [_ Hin].
  apply Hf. rewrite Hg. by apply list_elem_of_fmap_2.
Qed.

Lemma members_fold l acc :
  distinct acc -> distinct (foldl (fun acc f => insert_member f acc) acc l) /\
  foldl (fun acc f => insert_member f acc) acc l ⊆ acc ++ l.
Proof.
  revert acc. induction l as [|f l IH]; intros acc Ha; cbn [foldl]; [rewrite app_nil_r; done|].
  assert (distinct (insert_member f acc)) as Hi.
  { unfold distinct, insert_member. cbn. constructor.
    - intros (g & Hg & Hin)%list_elem_of_fmap. apply list_elem_of_filter in Hin as [Hne _]. congruence.
    - by apply distinct_filter. }
  destruct (IH _ Hi) as [H1 H2]. split; [done|]. intros g Hg%H2. unfold insert_member in Hg.
  rewrite elem_of_app, elem_of_cons, list_elem_of_filter in Hg. rewrite elem_of_app, elem_of_cons. tauto.
Qed.

Lemma insert_fresh l acc :
  distinct (acc ++ l) -> foldl (fun acc f => insert_member f acc) acc l ≡ₚ acc ++ l.
Proof.
  revert acc. induction l as [|f l IH]; intros acc Hd; cbn [foldl]; [by rewrite app_nil_r|].
  assert (insert_member f acc = f :: acc) as ->.
  { unfold insert_member. f_equal. apply filter_all, Forall_forall. intros g Hg He.
    unfold distinct in Hd. rewrite fmap_app in Hd. apply NoDup_app in Hd as (_ & Hd & _).
    apply (Hd g.1); [by apply list_elem_of_fmap_2|]. rewrite He. cbn. set_solver. }
  rewrite IH.
  - cbn. by rewrite Permutation_middle.
  - unfold distinct in *. cbn [app]. by rewrite Permutation_middle.
Qed.

Lemma as_map_distinct l : distinct (as_map l).
Proof.
  unfold as_map, distinct. rewrite merge_sort_Permutation.
  apply (members_fold l []). apply NoDup_nil_2.
Qed.
Lemma as_map_subset l : as_map l ⊆ l.
Proof.
  intros f Hf. unfold as_map in Hf. rewrite merge_sort_Permutation in Hf.
  apply (proj2 (members_fold l [] NoDup_nil_2)) in Hf. done.
Qed.
Lemma as_map_idem l : as_map (as_map l) = as_map l.
Proof.
  pose proof (as_map_distinct l) as Hd. apply (StronglySorted_unique_strong member_le).
  - intros f g Hf%as_map_subset Hg Hfg Hgf. assert (f.1 = g.1) as He by (apply String.leb_antisym; done).
    destruct f as [k v], g as [k' v']. cbn in He. subst k'. f_equal.
    apply list_elem_of_lookup in Hf as [i Hi], Hg as [j Hj].
    assert (i = j) as ->; [|congruence]. eapply NoDup_lookup; [exact Hd|..]; rewrite list_lookup_fmap.
    + by rewrite Hi.
    + by rewrite Hj.
  - apply StronglySorted_merge_sort; apply _.
  - unfold as_map at 1. apply StronglySorted_merge_sort; apply _.
  - unfold as_map at 1. rewrite merge_sort_Permutation. by rewrite insert_fresh.
Qed.

Section norm.
Context {jt : JSONText} {jl : JSONTextLaws}.

(** What a value becomes when it is printed and decoded into [any]. *)
Definition norm (j : json) : json := any_of (sanitize j).

Lemma any_of_idem j : any_of (any_of j) = any_of j.
Proof using jl.
  induction j as [| |n|s|l IH|l IH] using json_ind; cbn [any_of]; try done.
  - by rewrite float_idem.
  - f_equal. induction IH as [|a l Ha _ IHl]; cbn [map]; [done|]. by rewrite Ha, IHl.
  - set (X := map (fun f => (f.1, any_of f.2)) l).
    assert (forall f, f ∈ as_map X -> any_of f.2 = f.2) as HX.
    { intros f Hf%as_map_subset. subst X. apply list_elem_of_fmap in Hf as (g & -> & Hg). cbn.
      rewrite Forall_forall in IH. by apply IH. }
    assert (map (fun f => (f.1, any_of f.2)) (as_map X) = as_map X) as ->; [|by rewrite as_map_idem].
    induction (as_map X) as [|[k v] m IHm]; cbn [map fst snd]; [done|].
    rewrite IHm by (intros f Hf; apply HX; by apply elem_of_cons; right). pose proof (HX (k, v) (list_elem_of_here _ _)) as Hv. cbn in Hv. by rewrite Hv.
Qed.

Lemma any_of_clean j : sanitize j = j -> sanitize (any_of j) = any_of j.
Proof using.
  induction j as [| |n|s|l IH|l IH] using json_ind; cbn [any_of sanitize]; try done.
  - intros [= Hl]. f_equal. induction IH as [|a l Ha _ IHl]; cbn [map] in *; [done|].
    injection Hl as H1 H2. by rewrite Ha, IHl.
  - intros [= Hl]. f_equal. set (X := map (fun f => (f.1, any_of f.2)) l).
    assert (forall f, f ∈ as_map X -> to_valid f.1 = f.1 /\ sanitize f.2 = f.2) as HX.
    { intros f Hf%as_map_subset. subst X. apply list_elem_of_fmap in Hf as ([k v] & -> & Hg). cbn [fst snd].
      rewrite Forall_forall in IH. pose proof (IH _ Hg) as Hv. cbn [snd] in Hv.
      apply list_elem_of_lookup in Hg as [i Hi]. pose proof (f_equal (.!! i) Hl) as Hli. cbn beta in Hli.
      change (map ?f ?l) with (f <$> l) in Hli. rewrite list_lookup_fmap, Hi in Hli. cbn in Hli.
      injection Hli as H1 H2. split; [exact H1|]. by apply Hv. }
    induction (as_map X) as [|[k v] m IHm]; cbn [map fst snd]; [done|].
    rewrite IHm by (intros f Hf; apply HX; by apply elem_of_cons; right). destruct (HX (k, v) (list_elem_of_here _ _)) as [H1 H2]. cbn [fst snd] in H1, H2. by rewrite H1, H2.
Qed.
Lemma norm_idem j : norm (norm j) = norm j.
Proof using jl.
  unfold norm. rewrite any_of_clean by apply sanitize_idem. apply any_of_idem.
Qed.
End norm.

(** ** Numbers survive printing and parsing *)

Lemma format_int_parse n : int64_min <= n <= int64_max -> ParseInt64 (format_int n) = Some n.
Proof.
  intros Hn. assert (forall m, 0 <= m -> exists a l, itoa_bytes m = a :: l /\ is_digit a = true /\
    forallb is_digit (itoa_bytes m) = true /\ dec_value 0 (itoa_bytes m) = m) as Hd.
  { intros m Hm. pose proof (itoa_digits m Hm) as H1. pose proof (itoa_value m Hm) as H2.
    destruct (itoa_bytes m) as [|a l] eqn:E; [by apply itoa_nonempty in E|]. exists a, l.
    split_and!; try done. cbn in H1. by apply andb_true_iff in H1 as [-> _]. }
  unfold format_int, ParseInt64, itoa. destruct (Z.ltb_spec n 0).
  - rewrite bytes_of_app, bytes_of_string_of. change (bytes_of "-") with [chr 45]. cbn [app].
    change (code (chr 45) =? 45) with true. cbn iota.
    destruct (Hd (- n)) as (a & l & E & _ & H1 & H2); [lia|]. rewrite H1, H2, bool_decide_true by (rewrite E; done).
    cbn [andb]. rewrite decide_True by lia. f_equal. lia.
  - rewrite bytes_of_string_of. destruct (Hd n) as (a & l & E & Ha & H1 & H2); [lia|]. rewrite E in *.
    assert ((code a =? 45) = false) as -> by (unfold is_digit in Ha; lia).
    rewrite H1, H2, bool_decide_true by done. cbn [andb]. by rewrite decide_True by lia.
Qed.

(** ** Fields of literal objects *)

Lemma members_cons name k v o :
  members name ((k, v) :: o) = (if EqualFold k name then [v] else []) ++ members name o.
Proof. unfold members. rewrite filter_cons. cbn [fst]. destruct (EqualFold k name); by case_decide. Qed.

(** Evaluate the comparisons of literal names. *)
Ltac eval_names :=
  rewrite ?members_cons;
  repeat match goal with
  | |- context [EqualFold ?a ?b] => let v := eval vm_compute in (EqualFold a b) in change (EqualFold a b) with v
  end; cbn [app].
