(* ===== verification/MediaType.v ===== *)
(** * Media types

    The standard library's [mime.ParseMediaType], as far as the middleware
    [RequireJSON] uses it: the media type and whether the header is well
    formed. *)

From S2P Require Import Prelude.
From S2P Require Import GoStrings.
From Stdlib Require Import Ascii.
Open Scope Z_scope.

Definition c_quote : ascii := chr 34.
Definition c_semi : ascii := chr 59.

(** [isTSpecial], [isTokenChar]. *)
Definition isTSpecial (a : ascii) : bool :=
  bool_decide (a ∈ bytes_of "()<>@,;:\/[]?=" ++ [c_quote]).
Definition isTokenChar (a : ascii) : bool := (32 <? code a) && (code a <? 127) && negb (isTSpecial a).

Fixpoint consumeToken (v : bytes) : bytes * bytes :=
  match v with
  | a :: v' => if isTokenChar a then let '(t, r) := consumeToken v' in (a :: t, r) else ([], v)
  | [] => ([], [])
  end.

(** The inside of a quoted string, up to and including the closing quote. *)
Fixpoint quoted (v : bytes) : option (bytes * bytes) :=
  match v with
  | [] => None
  | a :: v' =>
      if decide (a = c_quote) then Some ([], v')
      else match v' with
      | b :: v'' =>
          if decide (code a = 92 /\ isTSpecial b = true)
          then '(t, r) ← quoted v''; Some (b :: t, r)
          else if decide (code a = 13 \/ code a = 10) then None
          else '(t, r) ← quoted v'; Some (a :: t, r)
      | [] => None
      end
  end.

Definition consumeValue (v : bytes) : bytes * bytes :=
  match v with
  | [] => ([], [])
  | a :: v' => if decide (a = c_quote) then default ([], v) (quoted v') else consumeToken v
  end.

Definition has_head (c : ascii) (v : bytes) : option bytes :=
  match v with a :: v' => if decide (a = c) then Some v' else None | [] => None end.

Section media.
Context `{!UnicodeCase}.

(** The parameter's name, its value and the rest; [None] is an empty name. *)
Definition consumeMediaParam (v : bytes) : option (string * bytes * bytes) :=
  rest ← has_head c_semi (trim_left v);
  let '(param, rest) := consumeToken (trim_left rest) in
  let param := ToLower (string_of param) in
  if decide (param = "") then None
  else
    rest ← has_head (chr 61) (trim_left rest);
    let rest := trim_left rest in
    let '(value, rest2) := consumeValue rest in
    if decide (value = [] /\ rest2 = rest) then None else Some (param, value, rest2).

(** The loop over the parameters: [true] if they are well formed and no name
    has two values. *)
Fixpoint params_ok (fuel : nat) (v : bytes) (seen : list (string * bytes)) : bool :=
  match fuel with
  | O => false
  | S f =>
      match trim_left v with
      | [] => true
      | v =>
          match consumeMediaParam v with
          | None => bool_decide (trim_bytes v = [c_semi])
          | Some (key, value, rest) =>
              if existsb (fun p => bool_decide (p.1 = key) && negb (bool_decide (p.2 = value))) seen then false
              else params_ok f rest ((key, value) :: seen)
          end
      end
  end.

Definition checkMediaTypeDisposition (s : bytes) : bool :=
  let '(typ, rest) := consumeToken s in
  match typ, rest with
  | [], _ => false
  | _, [] => true
  | _, _ =>
      match has_head (chr 47) rest with
      | None => false
      | Some rest => let '(sub, rest) := consumeToken rest in bool_decide (sub <> [] /\ rest = [])
      end
  end.

(** [Some] media type when [err == nil]. *)
Definition ParseMediaType (v : string) : option string :=
  let b := bytes_of v in
  let base := match cut_bytes c_semi b with Some (base, _) => base | None => b end in
  let mediatype := TrimSpace (ToLower (string_of base)) in
  if checkMediaTypeDisposition (bytes_of mediatype) && params_ok (S (length b)) (drop (length base) b) []
  then Some mediatype else None.
End media.

Lemma consumeToken_app v t r : consumeToken v = (t, r) -> v = t ++ r.
Proof.
  revert t r. induction v as [|a v IH]; simpl; intros t r; [by intros [= <- <-]|].
  destruct (isTokenChar a); [|by intros [= <- <-]].
  destruct (consumeToken v) as [t' r']. intros [= <- <-]. simpl. f_equal. by apply IH.
Qed.

Section examples.
#[local] Instance id_case : UnicodeCase := {| unicode_lower := fun r => r; unicode_upper := fun r => r |}.
Lemma media_type_examples :
  ParseMediaType "application/json" = Some "application/json" /\
  ParseMediaType " Application/JSON ; charset=utf-8;" = Some "application/json" /\
  ParseMediaType "application/json; charset=a; charset=b" = None /\
  ParseMediaType "application/json; charset" = None /\
  ParseMediaType "" = None /\ ParseMediaType "application/" = None.
Proof. vm_compute. done. Qed.
End examples.
