(* ===== verification/Messages.v ===== *)
(** * HTTP messages

    The request and response types of [internal/transport/http/handler.go],
    one module each.  [bind] is what [c.ShouldBindJSON] does with a document
    under the struct tags: decode each field by its JSON name, then check the
    fields tagged [binding:"required"].  [to_json] is the encoding under the
    tags of a response.  How an instant is printed is the parameter
    [TimeText]. *)

From S2P Require Import Prelude.
From S2P Require Import GoStrings.
From S2P Require Import AppError.
From S2P Require Import Platform.
From S2P Require Import Model.
From S2P Require Import Token.
From S2P Require Import Json.
Open Scope Z_scope.

(** [time.Time.MarshalJSON], without the quotes. *)
Class TimeText := time_text : Z -> string.
Definition jtime {tx : TimeText} (t : Z) : json := JString (time_text t).

(** ** Requests *)

Module LoginRequest.
Record t := mk { Login : string; Password : string }.

Definition bind (j : json) : Result t :=
  o ← object_of j;
  x0 ← string_field "login" o;
  x1 ← string_field "password" o;
  required "Login" (x0 = "");;
  required "Password" (x1 = "");;
  Ok (mk x0 x1).
End LoginRequest.

Module RefreshRequest.
Record t := mk { RefreshToken : string }.

Definition bind (j : json) : Result t :=
  o ← object_of j;
  x0 ← string_field "refresh_token" o;
  required "RefreshToken" (x0 = "");;
  Ok (mk x0).
End RefreshRequest.

Module LogoutRequest.
Record t := mk { SessionID : string; Reason : string }.

Definition bind (j : json) : Result t :=
  o ← object_of j;
  x0 ← string_field "session_id" o;
  x1 ← string_field "reason" o;
  required "SessionID" (x0 = "");;
  Ok (mk x0 x1).
End LogoutRequest.

Module ChangePasswordRequest.
Record t := mk { CurrentPassword : string; NewPassword : string }.

Definition bind (j : json) : Result t :=
  o ← object_of j;
  x0 ← string_field "current_password" o;
  x1 ← string_field "new_password" o;
  required "CurrentPassword" (x0 = "");;
  required "NewPassword" (x1 = "");;
  Ok (mk x0 x1).
End ChangePasswordRequest.

Module AdminMFAStatusRequest.
Record t := mk { UserID : string }.

Definition bind (j : json) : Result t :=
  o ← object_of j;
  x0 ← string_field "user_id" o;
  required "UserID" (x0 = "");;
  Ok (mk x0).
End AdminMFAStatusRequest.

Module AdminResetMFARequest.
Record t := mk { UserID : string; Reason : string; Version : Z }.

Definition bind (j : json) : Result t :=
  o ← object_of j;
  x0 ← string_field "user_id" o;
  x1 ← string_field "reason" o;
  x2 ← int_field "version" o;
  required "UserID" (x0 = "");;
  required "Reason" (x1 = "");;
  required "Version" (x2 = 0);;
  Ok (mk x0 x1 x2).
End AdminResetMFARequest.

Module StartMFASetupRequest.
Record t := mk { CurrentPassword : string }.

Definition bind (j : json) : Result t :=
  o ← object_of j;
  x0 ← string_field "current_password" o;
  required "CurrentPassword" (x0 = "");;
  Ok (mk x0).
End StartMFASetupRequest.

Module ConfirmMFASetupRequest.
Record t := mk { Code : string; Version : Z }.

Definition bind (j : json) : Result t :=
  o ← object_of j;
  x0 ← string_field "code" o;
  x1 ← int_field "version" o;
  required "Code" (x0 = "");;
  required "Version" (x1 = 0);;
  Ok (mk x0 x1).
End ConfirmMFASetupRequest.

Module DisableMFARequest.
Record t := mk { CurrentPassword : string; Code : string; Version : Z }.

Definition bind (j : json) : Result t :=
  o ← object_of j;
  x0 ← string_field "current_password" o;
  x1 ← string_field "code" o;
  x2 ← int_field "version" o;
  required "CurrentPassword" (x0 = "");;
  required "Code" (x1 = "");;
  required "Version" (x2 = 0);;
  Ok (mk x0 x1 x2).
End DisableMFARequest.

Module RegenerateMFARecoveryCodesRequest.
Record t := mk { CurrentPassword : string; Code : string; Version : Z }.

Definition bind (j : json) : Result t :=
  o ← object_of j;
  x0 ← string_field "current_password" o;
  x1 ← string_field "code" o;
  x2 ← int_field "version" o;
  required "CurrentPassword" (x0 = "");;
  required "Code" (x1 = "");;
  required "Version" (x2 = 0);;
  Ok (mk x0 x1 x2).
End RegenerateMFARecoveryCodesRequest.

Module ListSessionsRequest.
Record t := mk { UserID : string; TenantID : string; Status : string; Page : Z; PageSize : Z }.

Definition bind (j : json) : Result t :=
  o ← object_of j;
  x0 ← string_field "user_id" o;
  x1 ← string_field "tenant_id" o;
  x2 ← string_field "status" o;
  x3 ← int_field "page" o;
  x4 ← int_field "page_size" o;
  Ok (mk x0 x1 x2 x3 x4).
End ListSessionsRequest.

Module ListOwnSessionsRequest.
Record t := mk { Status : string; Page : Z; PageSize : Z }.

Definition bind (j : json) : Result t :=
  o ← object_of j;
  x0 ← string_field "status" o;
  x1 ← int_field "page" o;
  x2 ← int_field "page_size" o;
  Ok (mk x0 x1 x2).
End ListOwnSessionsRequest.

Module RevokeOwnSessionRequest.
Record t := mk { SessionID : string; Reason : string; Version : Z }.

Definition bind (j : json) : Result t :=
  o ← object_of j;
  x0 ← string_field "session_id" o;
  x1 ← string_field "reason" o;
  x2 ← int_field "version" o;
  required "SessionID" (x0 = "");;
  required "Version" (x2 = 0);;
  Ok (mk x0 x1 x2).
End RevokeOwnSessionRequest.

Module RevokeSessionRequest.
Record t := mk { SessionID : string; Reason : string; Version : Z }.

Definition bind (j : json) : Result t :=
  o ← object_of j;
  x0 ← string_field "session_id" o;
  x1 ← string_field "reason" o;
  x2 ← int_field "version" o;
  required "SessionID" (x0 = "");;
  required "Reason" (x1 = "");;
  required "Version" (x2 = 0);;
  Ok (mk x0 x1 x2).
End RevokeSessionRequest.

Module GetSessionRequest.
Record t := mk { SessionID : string }.

Definition bind (j : json) : Result t :=
  o ← object_of j;
  x0 ← string_field "session_id" o;
  required "SessionID" (x0 = "");;
  Ok (mk x0).
End GetSessionRequest.

Module RegisterIdentityRequest.
Record t := mk { Username : string; DisplayName : string; Email : string; Phone : string; Password : string }.

Definition bind (j : json) : Result t :=
  o ← object_of j;
  x0 ← string_field "username" o;
  x1 ← string_field "display_name" o;
  x2 ← string_field "email" o;
  x3 ← string_field "phone" o;
  x4 ← string_field "password" o;
  required "Username" (x0 = "");;
  required "DisplayName" (x1 = "");;
  required "Email" (x2 = "");;
  required "Password" (x4 = "");;
  Ok (mk x0 x1 x2 x3 x4).
End RegisterIdentityRequest.

Module CreateServiceAccountRequest.
Record t := mk { Name : string; Audiences : option (list string) }.

Definition bind (j : json) : Result t :=
  o ← object_of j;
  x0 ← string_field "name" o;
  x1 ← strings_field "audiences" o;
  required "Name" (x0 = "");;
  required "Audiences" (x1 = None);;
  Ok (mk x0 x1).
End CreateServiceAccountRequest.

Module ListServiceAccountsRequest.
Record t := mk { Keyword : string; Status : string; Page : Z; PageSize : Z }.

Definition bind (j : json) : Result t :=
  o ← object_of j;
  x0 ← string_field "keyword" o;
  x1 ← string_field "status" o;
  x2 ← int_field "page" o;
  x3 ← int_field "page_size" o;
  Ok (mk x0 x1 x2 x3).
End ListServiceAccountsRequest.

Module BatchGetServiceAccountsRequest.
Record t := mk { ServiceAccountIDs : option (list string) }.

Definition bind (j : json) : Result t :=
  o ← object_of j;
  x0 ← strings_field "service_account_ids" o;
  required "ServiceAccountIDs" (x0 = None);;
  Ok (mk x0).
End BatchGetServiceAccountsRequest.

Module GetServiceAccountRequest.
Record t := mk { ID : string }.

Definition bind (j : json) : Result t :=
  o ← object_of j;
  x0 ← string_field "id" o;
  required "ID" (x0 = "");;
  Ok (mk x0).
End GetServiceAccountRequest.

Module RotateServiceAccountSecretRequest.
Record t := mk { ID : string; Version : Z }.

Definition bind (j : json) : Result t :=
  o ← object_of j;
  x0 ← string_field "id" o;
  x1 ← int_field "version" o;
  required "ID" (x0 = "");;
  required "Version" (x1 = 0);;
  Ok (mk x0 x1).
End RotateServiceAccountSecretRequest.

Module UpdateServiceAccountStatusRequest.
Record t := mk { ID : string; Status : string; Version : Z }.

Definition bind (j : json) : Result t :=
  o ← object_of j;
  x0 ← string_field "id" o;
  x1 ← string_field "status" o;
  x2 ← int_field "version" o;
  required "ID" (x0 = "");;
  required "Status" (x1 = "");;
  required "Version" (x2 = 0);;
  Ok (mk x0 x1 x2).
End UpdateServiceAccountStatusRequest.

Module ServiceAccountTokenRequest.
Record t := mk { ClientID : string; ClientSecret : string }.

Definition bind (j : json) : Result t :=
  o ← object_of j;
  x0 ← string_field "client_id" o;
  x1 ← string_field "client_secret" o;
  required "ClientID" (x0 = "");;
  required "ClientSecret" (x1 = "");;
  Ok (mk x0 x1).
End ServiceAccountTokenRequest.

Module BatchGetIdentitiesRequest.
Record t := mk { UserIDs : option (list string) }.

Definition bind (j : json) : Result t :=
  o ← object_of j;
  x0 ← strings_field "user_ids" o;
  required "UserIDs" (x0 = None);;
  Ok (mk x0).
End BatchGetIdentitiesRequest.

Module GetIdentityRequest.
Record t := mk { ID : string }.

Definition bind (j : json) : Result t :=
  o ← object_of j;
  x0 ← string_field "id" o;
  required "ID" (x0 = "");;
  Ok (mk x0).
End GetIdentityRequest.

Module UpdateIdentityStatusRequest.
Record t := mk { ID : string; Status : string; Reason : string; Version : Z }.

Definition bind (j : json) : Result t :=
  o ← object_of j;
  x0 ← string_field "id" o;
  x1 ← string_field "status" o;
  x2 ← string_field "reason" o;
  x3 ← int_field "version" o;
  required "ID" (x0 = "");;
  required "Status" (x1 = "");;
  required "Version" (x3 = 0);;
  Ok (mk x0 x1 x2 x3).
End UpdateIdentityStatusRequest.

Module UpdateIdentityProfileRequest.
Record t := mk { ID : string; DisplayName : string; Email : string; Phone : string; Reason : string; Version : Z }.

Definition bind (j : json) : Result t :=
  o ← object_of j;
  x0 ← string_field "id" o;
  x1 ← string_field "display_name" o;
  x2 ← string_field "email" o;
  x3 ← string_field "phone" o;
  x4 ← string_field "reason" o;
  x5 ← int_field "version" o;
  required "ID" (x0 = "");;
  required "DisplayName" (x1 = "");;
  required "Email" (x2 = "");;
  required "Reason" (x4 = "");;
  required "Version" (x5 = 0);;
  Ok (mk x0 x1 x2 x3 x4 x5).
End UpdateIdentityProfileRequest.

Module IssuePasswordResetRequest.
Record t := mk { UserID : string; Reason : string }.

Definition bind (j : json) : Result t :=
  o ← object_of j;
  x0 ← string_field "user_id" o;
  x1 ← string_field "reason" o;
  required "UserID" (x0 = "");;
  required "Reason" (x1 = "");;
  Ok (mk x0 x1).
End IssuePasswordResetRequest.

Module ConfirmPasswordResetRequest.
Record t := mk { ResetToken : string; NewPassword : string }.

Definition bind (j : json) : Result t :=
  o ← object_of j;
  x0 ← string_field "reset_token" o;
  x1 ← string_field "new_password" o;
  required "ResetToken" (x0 = "");;
  required "NewPassword" (x1 = "");;
  Ok (mk x0 x1).
End ConfirmPasswordResetRequest.

Module ListIdentitiesRequest.
Record t := mk { Keyword : string; Status : string; Page : Z; PageSize : Z }.

Definition bind (j : json) : Result t :=
  o ← object_of j;
  x0 ← string_field "keyword" o;
  x1 ← string_field "status" o;
  x2 ← int_field "page" o;
  x3 ← int_field "page_size" o;
  Ok (mk x0 x1 x2 x3).
End ListIdentitiesRequest.

Module VerifyMFAChallengeRequest.
Record t := mk { ChallengeToken : string; Code : string; RecoveryCode : string }.

Definition bind (j : json) : Result t :=
  o ← object_of j;
  x0 ← string_field "challenge_token" o;
  x1 ← string_field "code" o;
  x2 ← string_field "recovery_code" o;
  required "ChallengeToken" (x0 = "");;
  Ok (mk x0 x1 x2).
End VerifyMFAChallengeRequest.

(** ** Responses *)

Module ChangePasswordResponseBody.
Record t := mk { Changed : bool; RevokedSessions : Z }.

Definition to_json (r : t) : json :=
  JObject [("changed", JBool (Changed r)); ("revoked_sessions", jint (RevokedSessions r))].
End ChangePasswordResponseBody.

Module LogoutResponseBody.
Record t := mk { Revoked : bool }.

Definition to_json (r : t) : json :=
  JObject [("revoked", JBool (Revoked r))].
End LogoutResponseBody.

Module MFAStatusResponseBody.
Record t := mk { Available : bool; Enabled : bool; Status : string; RecoveryCodesRemaining : Z; Version : Z; EnabledAt : option Z }.

Definition to_json {tx : TimeText} (r : t) : json :=
  JObject ([("available", JBool (Available r));
     ("enabled", JBool (Enabled r));
     ("status", JString (Status r));
     ("recovery_codes_remaining", jint (RecoveryCodesRemaining r));
     ("version", jint (Version r))] ++
    omit_nil "enabled_at" jtime (EnabledAt r)).
End MFAStatusResponseBody.

Module AdminResetMFAResponseBody.
Record t := mk { UserID : string; Reset : bool; RevokedSessions : Z; Version : Z }.

Definition to_json (r : t) : json :=
  JObject [("user_id", JString (UserID r));
     ("reset", JBool (Reset r));
     ("revoked_sessions", jint (RevokedSessions r));
     ("version", jint (Version r))].
End AdminResetMFAResponseBody.

Module MFASetupResponseBody.
Record t := mk { Secret : string; URI : string; Version : Z; ExpiresAt : Z }.

Definition to_json {tx : TimeText} (r : t) : json :=
  JObject [("secret", JString (Secret r));
     ("uri", JString (URI r));
     ("version", jint (Version r));
     ("expires_at", jtime (ExpiresAt r))].
End MFASetupResponseBody.

Module ConfirmMFASetupResponseBody.
Record t := mk { RecoveryCodes : list string; RevokedSessions : Z; Version : Z }.

Definition to_json (r : t) : json :=
  JObject [("recovery_codes", jstrings (RecoveryCodes r));
     ("revoked_sessions", jint (RevokedSessions r));
     ("version", jint (Version r))].
End ConfirmMFASetupResponseBody.

Module DisableMFAResponseBody.
Record t := mk { Disabled : bool; RevokedSessions : Z }.

Definition to_json (r : t) : json :=
  JObject [("disabled", JBool (Disabled r)); ("revoked_sessions", jint (RevokedSessions r))].
End DisableMFAResponseBody.

Module RegenerateMFARecoveryCodesResponseBody.
Record t := mk { RecoveryCodes : list string; Version : Z }.

Definition to_json (r : t) : json :=
  JObject [("recovery_codes", jstrings (RecoveryCodes r)); ("version", jint (Version r))].
End RegenerateMFARecoveryCodesResponseBody.

Module SessionResponseBody.
Record t := mk { SessionID : string; UserID : string; Username : string; UserDisplayName : string; TenantID : string; MembershipID : string; Status : string; ExpiresAt : Z; RevokedAt : option Z; RevokeReason : string; LastUsedAt : Z; ClientIP : string; UserAgent : string; Version : Z; CreatedAt : Z; UpdatedAt : Z; CreatedBy : string; UpdatedBy : string }.

Definition to_json {tx : TimeText} (r : t) : json :=
  JObject ([("session_id", JString (SessionID r));
     ("user_id", JString (UserID r));
     ("username", JString (Username r));
     ("user_display_name", JString (UserDisplayName r));
     ("tenant_id", JString (TenantID r));
     ("membership_id", JString (MembershipID r));
     ("status", JString (Status r));
     ("expires_at", jtime (ExpiresAt r))] ++
    omit_nil "revoked_at" jtime (RevokedAt r) ++
    omit_string "revoke_reason" (RevokeReason r) ++
    [("last_used_at", jtime (LastUsedAt r));
     ("client_ip", JString (ClientIP r));
     ("user_agent", JString (UserAgent r));
     ("version", jint (Version r));
     ("created_at", jtime (CreatedAt r));
     ("updated_at", jtime (UpdatedAt r));
     ("created_by", JString (CreatedBy r));
     ("updated_by", JString (UpdatedBy r))]).
End SessionResponseBody.

Module SessionPageResponseBody.
Record t := mk { Items : list SessionResponseBody.t; Total : Z; Page : Z; PageSize : Z }.

Definition to_json {tx : TimeText} (r : t) : json :=
  JObject [("items", JArray (SessionResponseBody.to_json <$> (Items r)));
     ("total", jint (Total r));
     ("page", jint (Page r));
     ("page_size", jint (PageSize r))].
End SessionPageResponseBody.

Module ServiceAccountResponseBody.
Record t := mk { ID : string; ClientID : string; Name : string; Status : string; Audiences : list string; Version : Z; CreatedAt : Z; UpdatedAt : Z; CreatedBy : string; UpdatedBy : string }.

Definition to_json {tx : TimeText} (r : t) : json :=
  JObject [("id", JString (ID r));
     ("client_id", JString (ClientID r));
     ("name", JString (Name r));
     ("status", JString (Status r));
     ("audiences", jstrings (Audiences r));
     ("version", jint (Version r));
     ("created_at", jtime (CreatedAt r));
     ("updated_at", jtime (UpdatedAt r));
     ("created_by", JString (CreatedBy r));
     ("updated_by", JString (UpdatedBy r))].
End ServiceAccountResponseBody.

Module ServiceAccountPageResponseBody.
Record t := mk { Items : list ServiceAccountResponseBody.t; Total : Z; Page : Z; PageSize : Z }.

Definition to_json {tx : TimeText} (r : t) : json :=
  JObject [("items", JArray (ServiceAccountResponseBody.to_json <$> (Items r)));
     ("total", jint (Total r));
     ("page", jint (Page r));
     ("page_size", jint (PageSize r))].
End ServiceAccountPageResponseBody.

Module ServiceAccountBatchResponseBody.
Record t := mk { Items : list ServiceAccountResponseBody.t }.

Definition to_json {tx : TimeText} (r : t) : json :=
  JObject [("items", JArray (ServiceAccountResponseBody.to_json <$> (Items r)))].
End ServiceAccountBatchResponseBody.

Module CreateServiceAccountResponseBody.
Record t := mk { Account : ServiceAccountResponseBody.t; ClientSecret : string }.

Definition to_json {tx : TimeText} (r : t) : json :=
  JObject [("account", ServiceAccountResponseBody.to_json (Account r));
     ("client_secret", JString (ClientSecret r))].
End CreateServiceAccountResponseBody.

Module UpdateServiceAccountStatusResponseBody.
Record t := mk { Updated : bool }.

Definition to_json (r : t) : json :=
  JObject [("updated", JBool (Updated r))].
End UpdateServiceAccountStatusResponseBody.

Module RotateServiceAccountSecretResponseBody.
Record t := mk { ClientSecret : string; Version : Z }.

Definition to_json (r : t) : json :=
  JObject [("client_secret", JString (ClientSecret r)); ("version", jint (Version r))].
End RotateServiceAccountSecretResponseBody.

Module ServiceAccountTokenResponseBody.
Record t := mk { AccessToken : string; TokenType : string; ExpiresAt : Z }.

Definition to_json {tx : TimeText} (r : t) : json :=
  JObject [("access_token", JString (AccessToken r));
     ("token_type", JString (TokenType r));
     ("expires_at", jtime (ExpiresAt r))].
End ServiceAccountTokenResponseBody.

Module IdentityResponseBody.
Record t := mk { ID : string; Username : string; DisplayName : string; Email : string; Phone : string; Status : string; Version : Z; CreatedAt : Z; UpdatedAt : Z; CreatedBy : string; UpdatedBy : string }.

Definition to_json {tx : TimeText} (r : t) : json :=
  JObject [("id", JString (ID r));
     ("username", JString (Username r));
     ("display_name", JString (DisplayName r));
     ("email", JString (Email r));
     ("phone", JString (Phone r));
     ("status", JString (Status r));
     ("version", jint (Version r));
     ("created_at", jtime (CreatedAt r));
     ("updated_at", jtime (UpdatedAt r));
     ("created_by", JString (CreatedBy r));
     ("updated_by", JString (UpdatedBy r))].
End IdentityResponseBody.

Module IdentityPageResponseBody.
Record t := mk { Items : list IdentityResponseBody.t; Total : Z; Page : Z; PageSize : Z }.

Definition to_json {tx : TimeText} (r : t) : json :=
  JObject [("items", JArray (IdentityResponseBody.to_json <$> (Items r)));
     ("total", jint (Total r));
     ("page", jint (Page r));
     ("page_size", jint (PageSize r))].
End IdentityPageResponseBody.

Module IdentityBatchResponseBody.
Record t := mk { Items : list IdentityResponseBody.t }.

Definition to_json {tx : TimeText} (r : t) : json :=
  JObject [("items", JArray (IdentityResponseBody.to_json <$> (Items r)))].
End IdentityBatchResponseBody.

Module IssuePasswordResetResponseBody.
Record t := mk { ResetToken : string; ExpiresAt : Z }.

Definition to_json {tx : TimeText} (r : t) : json :=
  JObject [("reset_token", JString (ResetToken r)); ("expires_at", jtime (ExpiresAt r))].
End IssuePasswordResetResponseBody.

Module ConfirmPasswordResetResponseBody.
Record t := mk { Changed : bool; RevokedSessions : Z }.

Definition to_json (r : t) : json :=
  JObject [("changed", JBool (Changed r)); ("revoked_sessions", jint (RevokedSessions r))].
End ConfirmPasswordResetResponseBody.

Module LoginResponseBody.
Record t := mk { AccessToken : string; RefreshToken : string; TokenType : string; ExpiresAt : option Z; SessionID : string; MFARequired : bool; MFAChallengeToken : string; MFAChallengeExpiry : option Z }.

Definition to_json {tx : TimeText} (r : t) : json :=
  JObject (omit_string "access_token" (AccessToken r) ++
    omit_string "refresh_token" (RefreshToken r) ++
    omit_string "token_type" (TokenType r) ++
    omit_nil "expires_at" jtime (ExpiresAt r) ++
    omit_string "session_id" (SessionID r) ++
    [("mfa_required", JBool (MFARequired r))] ++
    omit_string "mfa_challenge_token" (MFAChallengeToken r) ++
    omit_nil "mfa_challenge_expires_at" jtime (MFAChallengeExpiry r)).
End LoginResponseBody.

Module MeResponseBody.
Record t := mk { Subject : string; SubjectType : string; SessionID : string; TenantID : string; MembershipID : string; Username : string; DisplayName : string; Email : string; Phone : string; Status : string; Roles : list string; Buttons : list string }.

Definition to_json (r : t) : json :=
  JObject [("subject", JString (Subject r));
     ("subject_type", JString (SubjectType r));
     ("session_id", JString (SessionID r));
     ("tenant_id", JString (TenantID r));
     ("membership_id", JString (MembershipID r));
     ("username", JString (Username r));
     ("display_name", JString (DisplayName r));
     ("email", JString (Email r));
     ("phone", JString (Phone r));
     ("status", JString (Status r));
     ("roles", jstrings (Roles r));
     ("buttons", jstrings (Buttons r))].
End MeResponseBody.

(** The tags of [identity.Tokens] and of the published keys. *)
Definition tokens_json {tx : TimeText} (t : Tokens) : json :=
  JObject [("access_token", JString (AccessToken t)); ("refresh_token", JString (RefreshToken t));
           ("token_type", JString (TokenType t)); ("expires_at", jtime (TokExpiresAt t));
           ("session_id", JString (TokSessionID t))].

Definition jwk_json (k : JWK) : json :=
  JObject [("kty", JString (KeyType k)); ("use", JString (Use k)); ("kid", JString (KeyID k));
           ("crv", JString (Curve k)); ("alg", JString (Algorithm k)); ("x", JString (X k))].
Definition jwks_json (keys : list JWK) : json := JObject [("keys", JArray (jwk_json <$> keys))].
