(* ===== verification/Http.v ===== *)
(** * HTTP requests

    The state a handler of [internal/transport/http] works on, and
    [response.go].  A [*gin.Context] is the record [Gin]: the request as the
    handlers see it, the values stored in it, the response headers and the
    replies written so far.  A handler is a computation [HTTP] on it, on the
    [World] of the identity service, on the store behind the rate limiter and
    the idempotency manager (Redis, abstract), and on a trace of what is
    logged and counted.

    A middleware receives the rest of the chain as the computation of
    [c.Next()]; [run] executes the handlers of a route the way gin documents
    it: in order, not after [Abort], and each at most once. *)

From S2P Require Import Prelude.
From S2P Require Import GoStrings.
From S2P Require Import AppError.
From S2P Require Import Platform.
From S2P Require Import Model.
From S2P Require Import Runtime.
From S2P Require Import RequestContext.
From S2P Require Import Auth.
From S2P Require Import ServiceBase.
From S2P Require Import Json.
From Stdlib Require Import Ascii.
Open Scope Z_scope.

(** ** [response.go]: the envelope *)
Module Response.
Record t := mk { Code : Z; Message : string; Body : json; RequestID : string }.

Definition to_json (r : t) : json :=
  JObject ([("code", jint (Code r)); ("message", JString (Message r)); ("body", Body r)] ++
           omit_string "request_id" (RequestID r)).

(** [json.Unmarshal(data, &response)]; the body is decoded into [any]. *)
Definition of_json {jt : JSONText} (j : json) : Result t :=
  o ← object_of j;
  c ← int_field "code" o;
  m ← string_field "message" o;
  i ← string_field "request_id" o;
  Ok (mk c m (default JNull (last (any_of <$> members "body" o))) i).
End Response.

Record Reply := mkReply { ReplyStatus : Z; ReplyBody : option json }.

(** A request body: its bytes, and the limit of [http.MaxBytesReader]. *)
Record ReqBody := mkBody { content : bytes; limit : option Z }.

(** [io.ReadAll(c.Request.Body)]. *)
Definition ReadAll (b : ReqBody) : Result bytes :=
  match limit b with
  | Some n => if decide (Z.of_nat (length (content b)) <= n) then Ok (content b)
              else Err (ErrorsNew "http: request body too large")
  | None => Ok (content b)
  end.

Record Gin {pf : Platform} := mkGin {
  Method : string;
  FullPath : string;
  Headers : string -> string;
  RemoteAddr : string;      (** what [c.ClientIP()] returns *)
  TLS : bool;
  ContentLength : Z;
  RequestBody : ReqBody;
  Context_ : Ctx;           (** [c.Request.Context()] *)
  Keys : gmap string string;
  ResponseHeaders : gmap string string;
  Replies : list Reply;
  Done : bool;              (** no handler is left to run *)
}.
Arguments mkGin {pf}.

Section gin.
Context {pf : Platform}.
Implicit Types c : Gin.

Definition set_body b c := mkGin (Method c) (FullPath c) (Headers c) (RemoteAddr c) (TLS c) (ContentLength c) b
  (Context_ c) (Keys c) (ResponseHeaders c) (Replies c) (Done c).
Definition set_context x c := mkGin (Method c) (FullPath c) (Headers c) (RemoteAddr c) (TLS c) (ContentLength c)
  (RequestBody c) x (Keys c) (ResponseHeaders c) (Replies c) (Done c).
Definition set_key k v c := mkGin (Method c) (FullPath c) (Headers c) (RemoteAddr c) (TLS c) (ContentLength c)
  (RequestBody c) (Context_ c) (<[k := v]> (Keys c)) (ResponseHeaders c) (Replies c) (Done c).
Definition set_header k v c := mkGin (Method c) (FullPath c) (Headers c) (RemoteAddr c) (TLS c) (ContentLength c)
  (RequestBody c) (Context_ c) (Keys c) (<[k := v]> (ResponseHeaders c)) (Replies c) (Done c).
Definition add_reply r c := mkGin (Method c) (FullPath c) (Headers c) (RemoteAddr c) (TLS c) (ContentLength c)
  (RequestBody c) (Context_ c) (Keys c) (ResponseHeaders c) (Replies c ++ [r]) (Done c).
Definition set_done c := mkGin (Method c) (FullPath c) (Headers c) (RemoteAddr c) (TLS c) (ContentLength c)
  (RequestBody c) (Context_ c) (Keys c) (ResponseHeaders c) (Replies c) true.

(** [c.Writer.Status()], [c.Writer.Written()]. *)
Definition WriterStatus c : Z := match head (Replies c) with Some r => ReplyStatus r | None => 200 end.
Definition Written c : bool := bool_decide (Replies c <> []).

(** [requestID(c)]. *)
Definition requestID c : string := default "" (Keys c !! "request_id").
End gin.

(** What is logged and counted. *)
Inductive Event :=
| LoggedFailure (cause : option error) (request_id : string)
| LoggedRequest (request_id method path : string) (status : Z) (client_ip : string)
| CountedRequest (method route : string) (status : Z).

(** The state behind the Redis client. *)
Class Redis := Store : Type.

Record HState {pf : Platform} {rd : Redis} := mkH {
  gin : Gin;
  world : World;
  store : Store;
  events : list Event;
}.
Arguments mkH {pf rd}.

Definition HTTP {pf : Platform} {rd : Redis} (A : Type) : Type := HState -> A * HState.

#[global] Instance H_ret {pf : Platform} {rd : Redis} : MRet HTTP := fun A a st => (a, st).
#[global] Instance H_bind {pf : Platform} {rd : Redis} : MBind HTTP := fun A B k m st =>
  let '(a, st') := m st in k a st'.

(** A middleware, given [c.Next()]. *)
Abbreviation Middleware := (HTTP unit -> HTTP unit) (only parsing).

Section http.
Context {libs : Libs} {rd : Redis}.

Definition get_gin : HTTP Gin := fun st => (gin st, st).
Definition modify_gin (f : Gin -> Gin) : HTTP unit := fun st => (tt, mkH (f (gin st)) (world st) (store st) (events st)).
Definition emit (e : Event) : HTTP unit := fun st => (tt, mkH (gin st) (world st) (store st) (events st ++ [e])).
(** A call of the identity service. *)
Definition call {A} (m : M A) : HTTP (Result A) := fun st =>
  let '(r, w) := m (world st) in (r, mkH (gin st) w (store st) (events st)).
(** A call of the store. *)
Definition call_store {A} (f : Store -> A * Store) : HTTP A := fun st =>
  let '(a, s) := f (store st) in (a, mkH (gin st) (world st) s (events st)).

Definition JSON (status : Z) (j : json) : HTTP unit := modify_gin (add_reply (mkReply status (Some j))).
Definition Abort : HTTP unit := modify_gin set_done.
Definition AbortWithStatus (status : Z) : HTTP unit := modify_gin (add_reply (mkReply status None));; Abort.
Definition AbortWithStatusJSON (status : Z) (r : Response.t) : HTTP unit := Abort;; JSON status (Response.to_json r).

(** *** [response.go] *)
Definition OK (body : json) : HTTP unit :=
  c ← get_gin; JSON 200 (Response.to_json (Response.mk CodeOK "success" body (requestID c))).

Definition FailC (err : error) : HTTP unit :=
  c ← get_gin;
  let '(code, message, status, cause) :=
    match errors_As err with
    | Some appErr => appErr
    | None => (CodeInternal, "internal server error", 500, Some err)
    end in
  (if decide (500 <= status) then emit (LoggedFailure cause (requestID c)) else mret tt);;
  AbortWithStatusJSON status (Response.mk code message JNull (requestID c)).

(** [v, err := m; if err != nil { Fail(c, logger, f(err)); return }]. *)
Definition or_fail {A} (m : HTTP (Result A)) (f : error -> error) (k : A -> HTTP unit) : HTTP unit :=
  r ← m;
  match r with
  | Ok a => k a
  | Err e => FailC (f e)
  end.

(** *** Running the handlers of a route *)
Definition unless_done (m : HTTP unit) : HTTP unit := fun st => if Done (gin st) then (tt, st) else m st.

Fixpoint run (handlers : list Middleware) : HTTP unit :=
  match handlers with
  | [] => unless_done Abort
  | h :: rest => unless_done (h (run rest);; run rest)
  end.

(** A handler that does not call [c.Next()]. *)
Definition final (h : HTTP unit) : Middleware := fun _ => h.
End http.

(** [x ←? m; k]: bind the value, or answer with the error and return. *)
Notation "x ←? m ; k" := (or_fail m (fun e => e) (fun x => k))
  (at level 20, m at level 100, k at level 200, format "x  ←?  m ;  k").
