(* ===== verification/Health.v ===== *)
(** * Health and build information

    [internal/health/service.go] and [internal/buildinfo]: liveness,
    readiness of the database and of Redis, and the version report.  What a
    ping returns, how long it takes and which of the two goroutines of
    [Ready] sends first are the parameter [Probes]. *)

From S2P Require Import Prelude.
From S2P Require Import GoStrings.
From S2P Require Import AppError.
From S2P Require Import Platform.
From S2P Require Import Configuration.
From S2P Require Import Json.
Open Scope Z_scope.

Module health.

Record Dependency := mkDependency { DepStatus : string; Latency : string }.
Record Status := mkStatus { StatusText : string; Dependencies : gmap string Dependency }.

(** [db != nil], [redis != nil] and the timeouts. *)
Record Service := mkService { db : bool; redis : bool; cfg : Config.Health.t }.
Record result := mkResult { name : string; dependency : Dependency; ready : bool }.

Class Probes {pf : Platform} := {
  (** [PingContext] and [Ping] under the given timeout. *)
  ping_database : Ctx -> Z -> Result unit;
  ping_redis : Ctx -> Z -> Result unit;
  (** [time.Since(started).String()] of the check of that name. *)
  latency : string -> string;
  (** The database check sends its result first. *)
  database_first : bool;
}.

Definition New (db redis : bool) (c : Config.t) : Service := mkService db redis (Config.Health c).

Definition Live (s : Service) : Status := mkStatus "up" ∅.

Section health.
Context {pf : Platform} {pr : Probes}.

Definition checkResult (n : string) (err : Result unit) : result :=
  match err with
  | Ok _ => mkResult n (mkDependency "up" (latency n)) true
  | Err _ => mkResult n (mkDependency "down" (latency n)) false
  end.

Definition checkDatabase (s : Service) (parent : Ctx) : result :=
  if negb (db s) then mkResult "database" (mkDependency "disabled" "") true
  else checkResult "database" (ping_database parent (Config.Health.DatabaseTimeout (cfg s))).

Definition checkRedis (s : Service) (parent : Ctx) : result :=
  if negb (redis s) then mkResult "redis" (mkDependency "disabled" "") true
  else checkResult "redis" (ping_redis parent (Config.Health.RedisTimeout (cfg s))).

(** [for range 2 { item := <-results; ... }]. *)
Definition receive (acc : gmap string Dependency * bool) (item : result) : gmap string Dependency * bool :=
  (<[name item := dependency item]> acc.1, acc.2 && ready item).

Definition Ready (s : Service) (ctx : Ctx) : Status * bool :=
  let results := if database_first then [checkDatabase s ctx; checkRedis s ctx]
                 else [checkRedis s ctx; checkDatabase s ctx] in
  let '(deps, ok) := foldl receive (∅, true) results in
  (mkStatus (if (ok : bool) then "ready" else "not_ready") deps, ok).
End health.

(** [json:"dependencies,omitempty"]: keys are printed in order. *)
Definition dependency_json (d : Dependency) : json :=
  JObject (("status", JString (DepStatus d)) :: omit_string "latency" (Latency d)).
Definition status_json (s : Status) : json :=
  let deps := merge_sort member_le (prod_map id dependency_json <$> map_to_list (Dependencies s)) in
  JObject (("status", JString (StatusText s)) :: if decide (deps = []) then [] else [("dependencies", JObject deps)]).
End health.

(** ** [internal/buildinfo] *)
Module buildinfo.
Record Info := mkInfo { Version : string; Commit : string; BuildTime : string; StartedAt : Z; Uptime : string }.

(** The variables set by the linker, and the clock of the process. *)
Class Build := {
  version : string;
  commit : string;
  buildTime : string;
  startedAt : Z;
  (** [time.Since(startedAt).Round(time.Second).String()]. *)
  uptime : string;
}.

Definition Current {b : Build} : Info := mkInfo version commit buildTime startedAt uptime.
End buildinfo.

(** ** Facts *)
Section facts.
Context {pf : Platform}.

(** The report does not depend on the order in which the two checks finish,
    and the service is ready exactly if every configured dependency answers. *)
Lemma Ready_spec {pr : health.Probes} s ctx :
  health.Ready s ctx =
  let d := health.checkDatabase s ctx in let r := health.checkRedis s ctx in
  let ok := health.ready d && health.ready r in
  (health.mkStatus (if ok then "ready" else "not_ready")
     {[ "database" := health.dependency d; "redis" := health.dependency r ]}, ok).
Proof using.
  assert (health.name (health.checkDatabase s ctx) = "database") as Hd
    by (unfold health.checkDatabase; destruct (health.db s); simpl; [by destruct (health.ping_database _ _)|done]).
  assert (health.name (health.checkRedis s ctx) = "redis") as Hr
    by (unfold health.checkRedis; destruct (health.redis s); simpl; [by destruct (health.ping_redis _ _)|done]).
  unfold health.Ready. destruct health.database_first; cbn [foldl]; unfold health.receive; cbn [fst snd];
    rewrite Hd, Hr; cbn zeta.
  - rewrite insert_insert_ne by done. done.
  - rewrite (andb_comm _ (health.ready (health.checkDatabase s ctx))).
    destruct (health.ready (health.checkDatabase s ctx)), (health.ready (health.checkRedis s ctx)); done.
Qed.
End facts.
