(* ===== verification/Handlers.v ===== *)
(** * HTTP handlers

    The methods of [Handler] in [internal/transport/http/handler.go], with
    their names.  Each binds the JSON request, calls the identity service
    with the context of the request and answers with the envelope of
    [response.go].  Decoding the first JSON value of a body is the parameter
    [BodyDecoder]. *)

From S2P Require Import Prelude.
From S2P Require Import GoStrings.
From S2P Require Import AppError.
From S2P Require Import Platform.
From S2P Require Import Model.
From S2P Require Import Runtime.
From S2P Require Import RequestContext.
From S2P Require Import Token.
From S2P Require Import ServiceBase.
From S2P Require Import Sessions.
From S2P Require Import Users.
From S2P Require Import ServiceAccounts.
From S2P Require Import MFAService.
From S2P Require Import PasswordReset.
From S2P Require Import Auth.
From S2P Require Import Json.
From S2P Require Import Messages.
From S2P Require Import Http.
From S2P Require Import Health.
Open Scope Z_scope.

(** [json.NewDecoder(body).Decode(_)]. *)
Class BodyDecoder := decode_body : ReqBody -> Result json.

Record Handler {pf : Platform} := mkHandler {
  h_auth : auth.Service;
  h_health : health.Service;
  h_identities : ServiceBase.Service;
}.
Arguments mkHandler {pf}.

Definition NewHandler {pf : Platform} (a : auth.Service) (he : health.Service) (s : ServiceBase.Service) : Handler :=
  mkHandler a he s.

Module handler.
Section handlers.
Context {libs : Libs} {env : Env} {rd : Redis} {bd : BodyDecoder} {tx : TimeText}.

Definition ShouldBindJSON {A} (bind : json -> Result A) : HTTP (Result A) :=
  c ← get_gin; mret (j ← decode_body (RequestBody c); bind j).

(** [if err := c.ShouldBindJSON(&req); err != nil { Fail(...); return }]. *)
Definition with_request {A} (bind : json -> Result A) (k : A -> HTTP unit) : HTTP unit :=
  or_fail (ShouldBindJSON bind) (fun e => Invalid "invalid json request" (Some e)) k.

(** [c.Request.Context()], [time.Now().UTC()]. *)
Definition ctx_of : HTTP Ctx := c ← get_gin; mret (Context_ c).
Definition time_Now : HTTP Z := fun st =>
  (env_clock (w_clk (world st)), mkH (gin st) (now (world st)).2 (store st) (events st)).

Definition identityResponse (user : User.t) : IdentityResponseBody.t :=
  IdentityResponseBody.mk (User.ID user) (User.Username user) (User.DisplayName user) (User.Email user)
    (User.Phone user) (User.Status user) (Version (User.fields user)) (CreatedAt (User.fields user))
    (UpdatedAt (User.fields user)) (CreatedBy (User.fields user)) (UpdatedBy (User.fields user)).

Definition identityPageResponse (page : Page User.t) : IdentityPageResponseBody.t :=
  IdentityPageResponseBody.mk (identityResponse <$> Items page) (Total page) (PageNo page) (PageSize page).

Definition serviceAccountResponse (account : ServiceAccount.t) : ServiceAccountResponseBody.t :=
  ServiceAccountResponseBody.mk (ServiceAccount.ID account) (ServiceAccount.ClientID account)
    (ServiceAccount.Name account) (ServiceAccount.Status account) (ServiceAccount.Audiences account)
    (Version (ServiceAccount.fields account)) (CreatedAt (ServiceAccount.fields account))
    (UpdatedAt (ServiceAccount.fields account)) (CreatedBy (ServiceAccount.fields account))
    (UpdatedBy (ServiceAccount.fields account)).

Definition session_status (session : Session.t) (now : Z) : string :=
  match Session.RevokedAt session with
  | Some _ => "revoked"
  | None => if decide (After (Session.ExpiresAt session) now) then "active" else "expired"
  end.

Definition sessionResponse (session : Session.t) (now : Z) : SessionResponseBody.t :=
  let f := Session.fields session in
  SessionResponseBody.mk (Session.ID session) (Session.UserID session) (Session.Username session)
    (Session.UserDisplayName session) (Session.TenantID session) (Session.MembershipID session)
    (session_status session now) (Session.ExpiresAt session) (Session.RevokedAt session)
    (Session.RevokeReason session) (Session.LastUsedAt session) (Session.ClientIP session)
    (Session.UserAgent session) (Version f) (CreatedAt f) (UpdatedAt f) (CreatedBy f) (UpdatedBy f).

Definition session_page (page : Page Session.t) (now : Z) : SessionPageResponseBody.t :=
  SessionPageResponseBody.mk ((fun s => sessionResponse s now) <$> Items page) (Total page) (PageNo page) (PageSize page).

Definition status_response (status : MFAStatusView) : MFAStatusResponseBody.t :=
  MFAStatusResponseBody.mk (Model.Available status) (Model.Enabled status) (StatusText status)
    (RecoveryCodesRemaining status) (MFAVersion status) (MFAEnabledAt status).

Context (h : Handler).
Let s := h_identities h.

Definition login_response (result : LoginResult) : LoginResponseBody.t :=
  if MFARequired result
  then LoginResponseBody.mk "" "" "" None "" true (MFAChallengeToken result) (MFAChallengeExpiry result)
  else
    let t := LoginTokens result in
    LoginResponseBody.mk (AccessToken t) (RefreshToken t) (TokenType t) (Some (TokExpiresAt t)) (TokSessionID t)
      false (MFAChallengeToken result) (MFAChallengeExpiry result).

Definition Login : HTTP unit :=
  with_request LoginRequest.bind (fun req =>
  c ← get_gin;
  result ←? call (Users.Login s (Context_ c) (LoginRequest.Login req) (LoginRequest.Password req)
                    (mkSessionClient (RemoteAddr c) (Headers c "User-Agent")));
  OK (LoginResponseBody.to_json (login_response result))).

Definition VerifyMFAChallenge : HTTP unit :=
  with_request VerifyMFAChallengeRequest.bind (fun req =>
  ctx ← ctx_of;
  toks ←? call (MFA.VerifyMFAChallenge s ctx (VerifyMFAChallengeRequest.ChallengeToken req)
                  (VerifyMFAChallengeRequest.Code req) (VerifyMFAChallengeRequest.RecoveryCode req));
  OK (LoginResponseBody.to_json (LoginResponseBody.mk (AccessToken toks) (RefreshToken toks) (TokenType toks)
        (Some (TokExpiresAt toks)) (TokSessionID toks) false "" None))).

Definition Refresh : HTTP unit :=
  with_request RefreshRequest.bind (fun req =>
  ctx ← ctx_of;
  toks ←? call (Sessions.Refresh s ctx (RefreshRequest.RefreshToken req));
  OK (tokens_json toks)).

Definition Logout : HTTP unit :=
  with_request LogoutRequest.bind (fun req =>
  ctx ← ctx_of;
  _ ←? call (Sessions.Logout s ctx (LogoutRequest.SessionID req) (LogoutRequest.Reason req));
  OK (LogoutResponseBody.to_json (LogoutResponseBody.mk true))).

Definition ChangePassword : HTTP unit :=
  with_request ChangePasswordRequest.bind (fun req =>
  ctx ← ctx_of;
  revoked ←? call (Users.ChangePassword s ctx (ChangePasswordRequest.CurrentPassword req)
                     (ChangePasswordRequest.NewPassword req));
  OK (ChangePasswordResponseBody.to_json (ChangePasswordResponseBody.mk true revoked))).

Definition MFAStatus : HTTP unit :=
  ctx ← ctx_of;
  status ←? call (MFA.MFAStatus s ctx);
  OK (MFAStatusResponseBody.to_json (status_response status)).

Definition StartMFASetup : HTTP unit :=
  with_request StartMFASetupRequest.bind (fun req =>
  ctx ← ctx_of;
  setup ←? call (MFA.StartMFASetup s ctx (StartMFASetupRequest.CurrentPassword req));
  OK (MFASetupResponseBody.to_json (MFASetupResponseBody.mk (SetupSecret setup) (SetupURI setup)
        (SetupVersion setup) (SetupExpiresAt setup)))).

Definition ConfirmMFASetup : HTTP unit :=
  with_request ConfirmMFASetupRequest.bind (fun req =>
  ctx ← ctx_of;
  conf ←? call (MFA.ConfirmMFASetup s ctx (ConfirmMFASetupRequest.Code req) (ConfirmMFASetupRequest.Version req));
  OK (ConfirmMFASetupResponseBody.to_json
        (ConfirmMFASetupResponseBody.mk (ConfCodes conf) (ConfRevoked conf) (ConfVersion conf)))).

Definition DisableMFA : HTTP unit :=
  with_request DisableMFARequest.bind (fun req =>
  ctx ← ctx_of;
  revoked ←? call (MFA.DisableMFA s ctx (DisableMFARequest.CurrentPassword req) (DisableMFARequest.Code req)
                     (DisableMFARequest.Version req));
  OK (DisableMFAResponseBody.to_json (DisableMFAResponseBody.mk true revoked))).

Definition RegenerateMFARecoveryCodes : HTTP unit :=
  with_request RegenerateMFARecoveryCodesRequest.bind (fun req =>
  ctx ← ctx_of;
  rotation ←? call (MFA.RegenerateMFARecoveryCodes s ctx (RegenerateMFARecoveryCodesRequest.CurrentPassword req)
                      (RegenerateMFARecoveryCodesRequest.Code req) (RegenerateMFARecoveryCodesRequest.Version req));
  OK (RegenerateMFARecoveryCodesResponseBody.to_json
        (RegenerateMFARecoveryCodesResponseBody.mk (RotCodes rotation) (RotVersion rotation)))).

Definition ListSessions : HTTP unit :=
  with_request ListSessionsRequest.bind (fun req =>
  ctx ← ctx_of;
  page ←? call (Sessions.ListSessions ctx (ListSessionsRequest.UserID req) (ListSessionsRequest.TenantID req)
                  (ListSessionsRequest.Status req) (ListSessionsRequest.Page req) (ListSessionsRequest.PageSize req));
  now ← time_Now;
  OK (SessionPageResponseBody.to_json (session_page page now))).

Definition ListOwnSessions : HTTP unit :=
  with_request ListOwnSessionsRequest.bind (fun req =>
  ctx ← ctx_of;
  page ←? call (Sessions.ListOwnSessions ctx (ListOwnSessionsRequest.Status req) (ListOwnSessionsRequest.Page req)
                  (ListOwnSessionsRequest.PageSize req));
  now ← time_Now;
  OK (SessionPageResponseBody.to_json (session_page page now))).

Definition RevokeOwnSession : HTTP unit :=
  with_request RevokeOwnSessionRequest.bind (fun req =>
  ctx ← ctx_of;
  session ←? call (Sessions.RevokeOwnSessionByID s ctx (RevokeOwnSessionRequest.SessionID req)
                     (RevokeOwnSessionRequest.Reason req) (RevokeOwnSessionRequest.Version req));
  now ← time_Now;
  OK (SessionResponseBody.to_json (sessionResponse session now))).

Definition RevokeSession : HTTP unit :=
  with_request RevokeSessionRequest.bind (fun req =>
  ctx ← ctx_of;
  session ←? call (Sessions.RevokeSessionByID s ctx (RevokeSessionRequest.SessionID req)
                     (RevokeSessionRequest.Reason req) (RevokeSessionRequest.Version req));
  now ← time_Now;
  OK (SessionResponseBody.to_json (sessionResponse session now))).

Definition GetSession : HTTP unit :=
  with_request GetSessionRequest.bind (fun req =>
  ctx ← ctx_of;
  session ←? call (Sessions.GetSessionByID ctx (GetSessionRequest.SessionID req));
  now ← time_Now;
  OK (SessionResponseBody.to_json (sessionResponse session now))).

Definition RegisterIdentity : HTTP unit :=
  with_request RegisterIdentityRequest.bind (fun req =>
  ctx ← ctx_of;
  created ←? call (Users.Register s ctx (RegisterIdentityRequest.Username req)
                     (RegisterIdentityRequest.DisplayName req) (RegisterIdentityRequest.Email req)
                     (RegisterIdentityRequest.Phone req) (RegisterIdentityRequest.Password req));
  OK (IdentityResponseBody.to_json (identityResponse created))).

Definition ListIdentities : HTTP unit :=
  with_request ListIdentitiesRequest.bind (fun req =>
  ctx ← ctx_of;
  page ←? call (Users.ListUsers ctx (ListIdentitiesRequest.Keyword req) (ListIdentitiesRequest.Status req)
                  (ListIdentitiesRequest.Page req) (ListIdentitiesRequest.PageSize req));
  OK (IdentityPageResponseBody.to_json (identityPageResponse page))).

Definition GetIdentity : HTTP unit :=
  with_request GetIdentityRequest.bind (fun req =>
  ctx ← ctx_of;
  user ←? call (Users.GetUser ctx (GetIdentityRequest.ID req));
  OK (IdentityResponseBody.to_json (identityResponse user))).

(** A nil slice has no elements. *)
Definition BatchGetIdentities : HTTP unit :=
  with_request BatchGetIdentitiesRequest.bind (fun req =>
  ctx ← ctx_of;
  users ←? call (Users.BatchGetUsers ctx (default [] (BatchGetIdentitiesRequest.UserIDs req)));
  OK (IdentityBatchResponseBody.to_json (IdentityBatchResponseBody.mk (identityResponse <$> users)))).

Definition UpdateIdentityStatus : HTTP unit :=
  with_request UpdateIdentityStatusRequest.bind (fun req =>
  ctx ← ctx_of;
  updated ←? call (Users.UpdateUserStatus s ctx (UpdateIdentityStatusRequest.ID req)
                     (UpdateIdentityStatusRequest.Status req) (UpdateIdentityStatusRequest.Reason req)
                     (UpdateIdentityStatusRequest.Version req));
  OK (IdentityResponseBody.to_json (identityResponse updated))).

Definition UpdateIdentityProfile : HTTP unit :=
  with_request UpdateIdentityProfileRequest.bind (fun req =>
  ctx ← ctx_of;
  updated ←? call (Users.UpdateUserProfile s ctx (UpdateIdentityProfileRequest.ID req)
                     (UpdateIdentityProfileRequest.DisplayName req) (UpdateIdentityProfileRequest.Email req)
                     (UpdateIdentityProfileRequest.Phone req) (UpdateIdentityProfileRequest.Reason req)
                     (UpdateIdentityProfileRequest.Version req));
  OK (IdentityResponseBody.to_json (identityResponse updated))).

Definition IssuePasswordReset : HTTP unit :=
  with_request IssuePasswordResetRequest.bind (fun req =>
  ctx ← ctx_of;
  issue ←? call (PasswordReset.IssuePasswordReset s ctx (IssuePasswordResetRequest.UserID req)
                   (IssuePasswordResetRequest.Reason req));
  OK (IssuePasswordResetResponseBody.to_json
        (IssuePasswordResetResponseBody.mk (ResetToken issue) (ResetExpiresAt issue)))).

Definition ConfirmPasswordReset : HTTP unit :=
  with_request ConfirmPasswordResetRequest.bind (fun req =>
  ctx ← ctx_of;
  result ←? call (PasswordReset.ConfirmPasswordReset s ctx (ConfirmPasswordResetRequest.ResetToken req)
                    (ConfirmPasswordResetRequest.NewPassword req));
  OK (ConfirmPasswordResetResponseBody.to_json
        (ConfirmPasswordResetResponseBody.mk (Changed result) (RevokedSessions result)))).

Definition AdminMFAStatus : HTTP unit :=
  with_request AdminMFAStatusRequest.bind (fun req =>
  ctx ← ctx_of;
  status ←? call (MFA.AdminMFAStatus ctx (AdminMFAStatusRequest.UserID req));
  OK (MFAStatusResponseBody.to_json (status_response status))).

Definition AdminResetMFA : HTTP unit :=
  with_request AdminResetMFARequest.bind (fun req =>
  ctx ← ctx_of;
  result ←? call (MFA.AdminResetMFA s ctx (AdminResetMFARequest.UserID req) (AdminResetMFARequest.Reason req)
                    (AdminResetMFARequest.Version req));
  OK (AdminResetMFAResponseBody.to_json (AdminResetMFAResponseBody.mk (ResetUserID result) (ResetDone result)
        (ResetRevoked result) (ResetVersion result)))).

Definition JWKS : HTTP unit := JSON 200 (jwks_json (Token.JWKS (tokens s))).

Definition CreateServiceAccount : HTTP unit :=
  with_request CreateServiceAccountRequest.bind (fun req =>
  ctx ← ctx_of;
  r ←? call (ServiceAccounts.CreateServiceAccount s ctx (CreateServiceAccountRequest.Name req)
               (default [] (CreateServiceAccountRequest.Audiences req)));
  OK (CreateServiceAccountResponseBody.to_json
        (CreateServiceAccountResponseBody.mk (serviceAccountResponse r.1) r.2))).

Definition ListServiceAccounts : HTTP unit :=
  with_request ListServiceAccountsRequest.bind (fun req =>
  ctx ← ctx_of;
  page ←? call (ServiceAccounts.ListServiceAccounts ctx (ListServiceAccountsRequest.Keyword req)
                  (ListServiceAccountsRequest.Status req) (ListServiceAccountsRequest.Page req)
                  (ListServiceAccountsRequest.PageSize req));
  OK (ServiceAccountPageResponseBody.to_json
        (ServiceAccountPageResponseBody.mk (serviceAccountResponse <$> Items page) (Total page) (PageNo page)
           (PageSize page)))).

Definition GetServiceAccount : HTTP unit :=
  with_request GetServiceAccountRequest.bind (fun req =>
  ctx ← ctx_of;
  account ←? call (ServiceAccounts.GetServiceAccount ctx (GetServiceAccountRequest.ID req));
  OK (ServiceAccountResponseBody.to_json (serviceAccountResponse account))).

Definition BatchGetServiceAccounts : HTTP unit :=
  with_request BatchGetServiceAccountsRequest.bind (fun req =>
  ctx ← ctx_of;
  accounts ←? call (ServiceAccounts.BatchGetServiceAccounts ctx
                      (default [] (BatchGetServiceAccountsRequest.ServiceAccountIDs req)));
  OK (ServiceAccountBatchResponseBody.to_json
        (ServiceAccountBatchResponseBody.mk (serviceAccountResponse <$> accounts)))).

Definition UpdateServiceAccountStatus : HTTP unit :=
  with_request UpdateServiceAccountStatusRequest.bind (fun req =>
  ctx ← ctx_of;
  _ ←? call (ServiceAccounts.UpdateServiceAccountStatus s ctx (UpdateServiceAccountStatusRequest.ID req)
               (UpdateServiceAccountStatusRequest.Status req) (UpdateServiceAccountStatusRequest.Version req));
  OK (UpdateServiceAccountStatusResponseBody.to_json (UpdateServiceAccountStatusResponseBody.mk true))).

Definition RotateServiceAccountSecret : HTTP unit :=
  with_request RotateServiceAccountSecretRequest.bind (fun req =>
  ctx ← ctx_of;
  r ←? call (ServiceAccounts.RotateServiceAccountSecret s ctx (RotateServiceAccountSecretRequest.ID req)
               (RotateServiceAccountSecretRequest.Version req));
  OK (RotateServiceAccountSecretResponseBody.to_json (RotateServiceAccountSecretResponseBody.mk r.1 r.2))).

Definition ServiceAccountToken : HTTP unit :=
  with_request ServiceAccountTokenRequest.bind (fun req =>
  ctx ← ctx_of;
  r ←? call (ServiceAccounts.ServiceAccountToken s ctx (ServiceAccountTokenRequest.ClientID req)
               (ServiceAccountTokenRequest.ClientSecret req));
  OK (ServiceAccountTokenResponseBody.to_json (ServiceAccountTokenResponseBody.mk r.1 "Bearer" r.2))).

(** *** Health, version and the caller *)
Context {pr : health.Probes} {bi : buildinfo.Build}.

Definition Live : HTTP unit := OK (health.status_json (health.Live (h_health h))).

Definition Ready : HTTP unit :=
  c ← get_gin;
  let '(status, ready) := health.Ready (h_health h) (Context_ c) in
  if (ready : bool) then OK (health.status_json status)
  else JSON 503 (Response.to_json (Response.mk CodeDependencyUnavailable "service is not ready"
                   (health.status_json status) (requestID c))).

Definition Me : HTTP unit :=
  ctx ← ctx_of;
  match principal_Require ctx with
  | Err _ => FailC (Unauthorized "authenticated actor is required")
  | Ok actor =>
      let response u n e p st := MeResponseBody.mk (PID actor) (PType actor) (PSessionID actor) (PTenantID actor)
                                   (PMembershipID actor) u n e p st [] [] in
      if decide (PType actor = TypeUser) then
        user ←? call (Users.GetUser ctx (PID actor));
        OK (MeResponseBody.to_json (response (User.Username user) (User.DisplayName user) (User.Email user)
              (User.Phone user) (User.Status user)))
      else OK (MeResponseBody.to_json (response "" "" "" "" ""))
  end.

Definition info_json (i : buildinfo.Info) : json :=
  JObject [("version", JString (buildinfo.Version i)); ("commit", JString (buildinfo.Commit i));
           ("build_time", JString (buildinfo.BuildTime i)); ("started_at", jtime (buildinfo.StartedAt i));
           ("uptime", JString (buildinfo.Uptime i))].
Definition Version : HTTP unit := OK (info_json buildinfo.Current).
End handlers.
End handler.
