(* ===== verification/Middleware.v ===== *)
(** * HTTP middleware

    [internal/transport/http/middleware.go] and [internal/ratelimit].  A
    middleware is a function of [c.Next()].  Parameters for code outside the
    repository: the GCRA limiter of [redis_rate], the platform library's
    idempotency manager and authorizer, and whether the deadline of a request
    has passed.  Logging and metrics are recorded in the trace of the state;
    the recovery from panics, of which the model has none, and the tracing
    span are left out. *)

From S2P Require Import Prelude.
From S2P Require Import GoStrings.
From S2P Require Import Encoding.
From S2P Require Import Digest.
From S2P Require Import AppError.
From S2P Require Import Platform.
From S2P Require Import Model.
From S2P Require Import Runtime.
From S2P Require Import RequestContext.
From S2P Require Import Configuration.
From S2P Require Import ServiceBase.
From S2P Require Import Auth.
From S2P Require Import Json.
From S2P Require Import MediaType.
From S2P Require Import Http.
From Stdlib Require Import Ascii.
From Stdlib Require Import SpecFloat.
Open Scope Z_scope.

(** ** [internal/ratelimit/limiter.go] *)
Module ratelimit.

Record Result_ := mkResult { Allowed : bool; Limit : Z; Remaining : Z; RetryAfter : Z }.

(** [redisrate.Result] as far as it is read. *)
Record Backend_result := mkBackend { BAllowed : Z; BRemaining : Z; BRetryAfter : Z }.

Section limiter.
Context {libs : Libs} {rd : Redis}.

(** [backend.Allow(ctx, key, limit)] on the store. *)
Definition Backend : Type := Ctx -> string -> Config.RateLimitRule.t -> Store -> Result Backend_result * Store.

Record Limiter := mkLimiter { enabled : bool; failOpen : bool; backend : option Backend }.

(** [client] is the limiter of a Redis client, if there is one. *)
Definition New (client : option Backend) (cfg : Config.t) : Limiter :=
  mkLimiter (Config.RateLimit.Enabled (Config.RateLimit cfg)) (Config.RateLimit.FailOpen (Config.RateLimit cfg)) client.

Definition Enabled (l : Limiter) : bool := enabled l.
Definition FailOpen (l : Limiter) : bool := failOpen l.

Definition Allow (l : Limiter) (ctx : Ctx) (key : string) (rule : Config.RateLimitRule.t) : HTTP (Result Result_) :=
  if negb (enabled l) then mret (Ok (mkResult true 0 0 0))
  else match backend l with
  | None => mret (Err (ErrorsNew "redis rate limiter is unavailable"))
  | Some b =>
      r ← call_store (b ctx key rule);
      match r with
      | Err e => mret (Err (Errorf "check redis rate limit" e))
      | Ok v => mret (Ok (mkResult (bool_decide (0 < BAllowed v)) (Config.RateLimitRule.Burst rule)
                            (BRemaining v) (BRetryAfter v)))
      end
  end.
End limiter.
End ratelimit.

(** [d.Round(m)] of a [time.Duration], for [m > 0]: halves away from zero,
    saturating. *)
Definition Round (d m : Z) : Z :=
  if d <? 0 then
    let r := (- d) mod m in
    if 2 * r <? m then d + r
    else if int64_min <=? d - m + r then d - m + r else int64_min
  else
    let r := d mod m in
    if 2 * r <? m then d - r
    else if d + m - r <=? int64_max then d + m - r else int64_max.

(** [int(d.Seconds())]: a [float64] sum of seconds and nanoseconds. *)
Definition float_of_Z (z : Z) : spec_float := binary_normalize 53 1024 z 0 false.
Definition float_to_int (f : spec_float) : Z :=
  match f with
  | S754_finite s m e =>
      let v := if 0 <=? e then Z.pos m * 2 ^ e else Z.pos m / 2 ^ (- e) in
      if s then - v else v
  | _ => 0
  end.
Definition int_Seconds (d : Z) : Z :=
  float_to_int (SFadd 53 1024 (float_of_Z (Z.quot d Second))
                  (SFdiv 53 1024 (float_of_Z (Z.rem d Second)) (float_of_Z 1000000000))).

(** ** The platform's idempotency manager *)
Module Idempotency.

Record Failure := mkFailure { Code : Z; Message : string; HTTPStatus : Z }.

(** [Decision]: the state with the fields that belong to it. *)
Inductive Decision :=
| StateAcquired (owner : string)
| StateProcessing
| StateCompleted (response : bytes)
| StateFailed (failure : Failure)
| StateConflict
| StateUnknown.

Section manager.
Context {pf : Platform} {rd : Redis}.

Record Manager := mkManager {
  Enabled : bool;
  Begin : Ctx -> string -> string -> Store -> Result Decision * Store;
  (** The result is marshalled. *)
  Complete : Ctx -> string -> string -> json -> Store -> Result unit * Store;
  Fail : Ctx -> string -> string -> Failure -> Store -> Result unit * Store;
}.

(** What the store holds for a key. *)
Inductive entry :=
| Processing (fingerprint owner : string)
| Completed (fingerprint : string) (response : bytes)
| Failed (fingerprint : string) (failure : Failure).

Definition entry_fingerprint (e : entry) : string :=
  match e with Processing f _ | Completed f _ | Failed f _ => f end.

Definition decision_of (e : entry) : Decision :=
  match e with
  | Processing _ _ => StateProcessing
  | Completed _ r => StateCompleted r
  | Failed _ f => StateFailed f
  end.

(** Documented behaviour (README, "Idempotency"): a free key is acquired; the
    same key and request replays what is stored for it, a different request
    is a conflict; only the owner completes or fails an entry. *)
Class ManagerLaws {jt : JSONText} (m : Manager) (find : Store -> string -> option entry) := {
  begin_free c k f s d s' :
    find s k = None -> Begin m c k f s = (Ok d, s') ->
    exists owner, d = StateAcquired owner /\ find s' k = Some (Processing f owner);
  begin_taken c k f s e d s' :
    find s k = Some e -> Begin m c k f s = (Ok d, s') ->
    find s' k = Some e /\ d = if decide (entry_fingerprint e = f) then decision_of e else StateConflict;
  complete_stores c k o r s s' f :
    find s k = Some (Processing f o) -> Complete m c k o r s = (Ok tt, s') ->
    find s' k = Some (Completed f (json_print r));
  fail_stores c k o r s s' f :
    find s k = Some (Processing f o) -> Fail m c k o r s = (Ok tt, s') -> find s' k = Some (Failed f r);
}.
End manager.
End Idempotency.

(** ** The platform's authorizer *)

Record Requirement := mkRequirement { Resource : string; Action : string; Scope : string }.

(** A refusal of [platformauthz.Enforce], and whether it is (wraps)
    [ErrDecisionUnavailable]. *)
Record Refusal := mkRefusal { unavailable : bool; refusal_cause : error }.

Class Authz {pf : Platform} := {
  ScopePlatform : string;
  (** [platformauthz.Enforce(ctx, authorizer, requirement)]; [None] is nil. *)
  Enforce : Ctx -> Requirement -> M (option Refusal);
}.

(** The decision service is a remote call: it leaves this database alone. *)
Class AuthzLaws {pf : Platform} {az : Authz} := {
  enforce_readonly c r : ReadOnly (Enforce c r);
  enforce_total c r w : exists x w', Enforce c r w = (Ok x, w');
}.

(** [ctx.Err() == context.DeadlineExceeded] when the chain has returned. *)
Class Deadlines {pf : Platform} := deadline_exceeded : Ctx -> World -> bool.

Module Middlewares.
Section middlewares.
Context {libs : Libs} {env : Env} {rd : Redis} {cx : Contexts} {hs : HMACJWT} {an : Authn} {az : Authz}
  {jt : JSONText} {dl : Deadlines}.

Definition RequestID : Middleware := fun next =>
  c ← get_gin;
  let id := Headers c "X-Request-ID" in
  id ← (if requestid.Valid id then mret id
        else r ← call requestid.Generate; mret (match r with Ok v => v | Err _ => "" end));
  modify_gin (set_key "request_id" id);;
  modify_gin (set_header "X-Request-ID" id);;
  modify_gin (fun c => set_context (requestid.WithContext (Context_ c) id) c);;
  next.

Definition Environment (profile : string) : Middleware := fun next =>
  modify_gin (set_key "environment" profile);;
  modify_gin (fun c => set_context (environment.WithContext (Context_ c) profile) c);;
  next.

Definition IdempotencyKey : Middleware := fun next =>
  c ← get_gin;
  let key := Headers c "Idempotency-Key" in
  if decide (key = "") then next
  else if negb (idempotency.Valid key) then FailC (Invalid "invalid Idempotency-Key" None)
  else
    modify_gin (set_header "Idempotency-Key" key);;
    modify_gin (fun c => set_context (idempotency.WithContext (Context_ c) key) c);;
    next.

(** [fmt.Sprint(subject)] of an absent value. *)
Definition subject_text (c : Gin) : string := default "<nil>" (Keys c !! "subject").
Definition nul : string := string_of [chr 0].

Definition request_digest (c : Gin) (body : bytes) : string :=
  hex (sha256 (bytes_of (subject_text c +:+ nul +:+ Method c +:+ nul +:+ FullPath c +:+ nul) ++ body)).

(** The body is read and put back. *)
Definition idempotencyFingerprint : HTTP (Result string) :=
  c ← get_gin;
  match ReadAll (RequestBody c) with
  | Err e => mret (Err e)
  | Ok body =>
      modify_gin (set_body (mkBody body None));;
      mret (Ok (request_digest c body))
  end.

(** What [responseCapture] has recorded: the bytes of the replies. *)
Definition captured (before : list Reply) (c : Gin) : bytes :=
  mjoin ((fun r => default [] (json_print <$> ReplyBody r)) <$> drop (length before) (Replies c)).

Definition unmarshal_response (data : bytes) : Result Response.t := j ← json_parse data; Response.of_json j.

Definition without_request_id (r : Response.t) : Response.t :=
  Response.mk (Response.Code r) (Response.Message r) (Response.Body r) "".
Definition with_request_id (id : string) (r : Response.t) : Response.t :=
  Response.mk (Response.Code r) (Response.Message r) (Response.Body r) id.

(** After [c.Next()]: persist the captured result; failures are logged. *)
Definition persist (m : Idempotency.Manager) (key owner : string) (before : list Reply) : HTTP unit :=
  c ← get_gin;
  let persistCtx := WithTimeout (WithoutCancel (Context_ c)) (2 * Second) in
  match unmarshal_response (captured before c) with
  | Err e => emit (LoggedFailure (Some e) (requestID c))
  | Ok response =>
      let response := without_request_id response in
      r ← call_store (if decide (400 <= WriterStatus c)
                      then Idempotency.Fail m persistCtx key owner
                             (Idempotency.mkFailure (Response.Code response) (Response.Message response) (WriterStatus c))
                      else Idempotency.Complete m persistCtx key owner (Response.to_json response));
      match r with
      | Err e => emit (LoggedFailure (Some e) (requestID c))
      | Ok _ => mret tt
      end
  end.

(** The [switch decision.State]. *)
Definition on_decision (m : Idempotency.Manager) (key : string) (d : Idempotency.Decision) : Middleware := fun next =>
  c ← get_gin;
  match d with
  | Idempotency.StateCompleted data =>
      match unmarshal_response data with
      | Err e => FailC (Unavailable "idempotency response is unavailable" (Some e))
      | Ok response => Abort;; JSON 200 (Response.to_json (with_request_id (requestID c) response))
      end
  | Idempotency.StateFailed f =>
      AbortWithStatusJSON (Idempotency.HTTPStatus f)
        (Response.mk (Idempotency.Code f) (Idempotency.Message f) JNull (requestID c))
  | Idempotency.StateProcessing => FailC RequestInProgress
  | Idempotency.StateConflict => FailC (Conflict "idempotency key belongs to a different request" None)
  | Idempotency.StateUnknown => FailC (Unavailable "idempotency state is invalid" None)
  | Idempotency.StateAcquired owner => next;; persist m key owner (Replies c)
  end.

Definition IdempotencyExecution (manager : option Idempotency.Manager) (paths : list string) : Middleware := fun next =>
  c ← get_gin;
  match idempotency.FromContext (Context_ c), manager with
  | Some key, Some m =>
      if negb (Idempotency.Enabled m) || bool_decide (Method c <> "POST") || negb (auth.MatchesAny (FullPath c) paths)
      then next
      else
        or_fail idempotencyFingerprint (fun e => Invalid "read idempotent request" (Some e)) (fun fingerprint =>
        c ← get_gin;
        or_fail (call_store (Idempotency.Begin m (Context_ c) key fingerprint))
          (fun e => Unavailable "idempotency is unavailable" (Some e)) (fun decision =>
        on_decision m key decision next))
  | _, _ => next
  end.

Definition RequestLogger : Middleware := fun next =>
  next;;
  c ← get_gin;
  emit (LoggedRequest (requestID c) (Method c) (FullPath c) (WriterStatus c) (RemoteAddr c)).

(** [metrics.Enabled()] is the flag; durations are not recorded. *)
Definition HTTPMetrics (enabled : bool) : Middleware := fun next =>
  next;;
  if negb enabled then mret tt
  else
    c ← get_gin;
    let route := if decide (FullPath c = "") then "unmatched" else FullPath c in
    emit (CountedRequest (Method c) route (WriterStatus c)).

Definition Timeout (timeout : Z) : Middleware := fun next =>
  c ← get_gin;
  let ctx := WithTimeout (Context_ c) timeout in
  modify_gin (set_context (authz_WithCallerCredential ctx (Headers c "Authorization")));;
  next;;
  expired ← (fun st => (deadline_exceeded ctx (world st), st));
  c ← get_gin;
  if (expired : bool) && negb (Written c) then FailC RequestTimeout else mret tt.

Definition identity_requirements : list (string * Requirement) :=
  let require resource action := mkRequirement resource action ScopePlatform in
  [("/api/v1/sessions/list", require "identity.session" "list");
   ("/api/v1/sessions/get", require "identity.session" "read");
   ("/api/v1/sessions/revoke", require "identity.session" "revoke");
   ("/api/v1/identities/register", require "identity.user" "create");
   ("/api/v1/identities/get", require "identity.user" "read");
   ("/api/v1/identities/list", require "identity.user" "list");
   ("/api/v1/identities/batch-get", require "identity.user" "list");
   ("/api/v1/identities/update-profile", require "identity.user" "update-profile");
   ("/api/v1/identities/update-status", require "identity.user" "update-status");
   ("/api/v1/identities/password-reset/issue", require "identity.user" "password-reset");
   ("/api/v1/identities/mfa/status", require "identity.user" "mfa-reset");
   ("/api/v1/identities/mfa/reset", require "identity.user" "mfa-reset");
   ("/api/v1/service-accounts/create", require "identity.service-account" "create");
   ("/api/v1/service-accounts/get", require "identity.service-account" "read");
   ("/api/v1/service-accounts/list", require "identity.service-account" "list");
   ("/api/v1/service-accounts/batch-get", require "identity.service-account" "list");
   ("/api/v1/service-accounts/update-status", require "identity.service-account" "update-status");
   ("/api/v1/service-accounts/rotate-secret", require "identity.service-account" "rotate-secret")].

Definition identityHTTPRequirement (route : string) : option Requirement :=
  (list_to_map identity_requirements : gmap string Requirement) !! route.

Definition Authorization (enabled : bool) : Middleware := fun next =>
  c ← get_gin;
  match identityHTTPRequirement (FullPath c) with
  | Some requirement =>
      if negb enabled then next
      else
        r ← call (Enforce (Context_ c) requirement);
        match r with
        | Ok None => next
        | Ok (Some refusal) =>
            if unavailable refusal
            then FailC (Unavailable "authorization decision is unavailable" (Some (refusal_cause refusal)))
            else FailC (Forbidden "permission denied")
        | Err _ => FailC (Forbidden "permission denied")
        end
  | None => next
  end.

Definition MaxBody (lim : Z) : Middleware := fun next =>
  modify_gin (fun c => set_body (mkBody (content (RequestBody c)) (Some lim)) c);; next.

Definition RequireJSON : Middleware := fun next =>
  c ← get_gin;
  if decide (Method c = "POST" /\ ContentLength c <> 0 /\ ParseMediaType (Headers c "Content-Type") <> Some "application/json")
  then AbortWithStatusJSON 415 (Response.mk CodeInvalidArgument "content type must be application/json" JNull (requestID c))
  else next.

Definition SecurityHeaders : Middleware := fun next =>
  modify_gin (set_header "X-Content-Type-Options" "nosniff");;
  modify_gin (set_header "X-Frame-Options" "DENY");;
  modify_gin (set_header "Referrer-Policy" "no-referrer");;
  modify_gin (set_header "Content-Security-Policy" "default-src 'none'; frame-ancestors 'none'");;
  modify_gin (set_header "Cache-Control" "no-store");;
  c ← get_gin;
  (if TLS c then modify_gin (set_header "Strict-Transport-Security" "max-age=31536000; includeSubDomains") else mret tt);;
  next.

(** [strings.Join(l, ", ")]. *)
Fixpoint join_comma (l : list string) : string :=
  match l with
  | [] => ""
  | [s] => s
  | s :: l' => s +:+ ", " +:+ join_comma l'
  end.

Definition CORS (cfg : Config.CORS.t) : Middleware := fun next =>
  if negb (Config.CORS.Enabled cfg) then next
  else
    c ← get_gin;
    let origin := Headers c "Origin" in
    if decide (origin = "") then next
    else if decide (origin ∉ Config.CORS.AllowedOrigins cfg) then
      AbortWithStatusJSON 403 (Response.mk CodeForbidden "origin is not allowed" JNull (requestID c))
    else
      modify_gin (set_header "Access-Control-Allow-Origin" origin);;
      modify_gin (set_header "Vary" "Origin");;
      modify_gin (set_header "Access-Control-Allow-Methods" "POST, GET, OPTIONS");;
      modify_gin (set_header "Access-Control-Allow-Headers" (join_comma (Config.CORS.AllowedHeaders cfg)));;
      modify_gin (set_header "Access-Control-Expose-Headers" (join_comma (Config.CORS.ExposedHeaders cfg)));;
      modify_gin (set_header "Access-Control-Max-Age" (format_int (int_Seconds (Config.CORS.MaxAge cfg))));;
      if decide (Method c = "OPTIONS") then AbortWithStatus 204 else next.

(** [RateKeyFunc] is a function of the context. *)
Definition RateLimit (limiter : ratelimit.Limiter) (rule : Config.RateLimitRule.t) (dimension : string)
    (keyFunc : Gin -> string) : Middleware := fun next =>
  if negb (ratelimit.Enabled limiter) then next
  else
    c ← get_gin;
    let key := keyFunc c in
    if decide (key = "") then next
    else
      r ← ratelimit.Allow limiter (Context_ c) ("rate:" +:+ dimension +:+ ":" +:+ key) rule;
      match r with
      | Err e =>
          if ratelimit.FailOpen limiter then emit (LoggedFailure (Some e) (requestID c));; next
          else FailC (Unavailable "rate limiter unavailable" (Some e))
      | Ok result =>
          modify_gin (set_header "X-RateLimit-Limit" (format_int (ratelimit.Limit result)));;
          modify_gin (set_header "X-RateLimit-Remaining" (format_int (ratelimit.Remaining result)));;
          if negb (ratelimit.Allowed result) then
            let retry := Z.max 1 (Z.quot (Round (ratelimit.RetryAfter result) Second) Second) in
            modify_gin (set_header "Retry-After" (format_int retry));;
            FailC TooManyRequests
          else next
      end.

Definition JWT (service : auth.Service) : Middleware := fun next =>
  c ← get_gin;
  let '(scheme, raw, ok) := Cut (Headers c "Authorization") space in
  if negb ok || negb (EqualFold scheme "Bearer") || bool_decide (raw = "") then
    FailC (Unauthorized "missing bearer token")
  else
    or_fail (call (auth.Parse service raw)) (fun _ => Unauthorized "invalid or expired token") (fun claims =>
    modify_gin (set_key "subject" (RSubject claims));; next).

Definition Authentication (service : auth.Service) (cfg : Config.Auth.t) : Middleware := fun next =>
  let policy := auth.HTTPPolicy service cfg in
  c ← get_gin;
  or_fail (call (policy_Authenticate policy (Context_ c) (FullPath c) (Headers c "Authorization")))
    (fun _ => Unauthorized "missing or invalid credential") (fun ctx =>
  modify_gin (set_context ctx);;
  (match principal_FromContext ctx with
   | Some identity => modify_gin (set_key "subject" (PID identity))
   | None => mret tt
   end);;
  next).
End middlewares.
End Middlewares.
