(* ===== verification/Router.v ===== *)
(** * The HTTP server

    [internal/transport/http/server.go]: the middleware chain every request
    passes, the routes and the groups they belong to.  The handlers of the
    metrics, profiling and documentation endpoints are not part of the
    repository ([External]); starting and stopping the listener, the panic
    recovery and the tracing middleware are not modelled. *)

From S2P Require Import Prelude.
From S2P Require Import GoStrings.
From S2P Require Import AppError.
From S2P Require Import Platform.
From S2P Require Import Model.
From S2P Require Import Runtime.
From S2P Require Import RequestContext.
From S2P Require Import Configuration.
From S2P Require Import ServiceBase.
From S2P Require Import Auth.
From S2P Require Import Json.
From S2P Require Import Messages.
From S2P Require Import Http.
From S2P Require Import Health.
From S2P Require Import Handlers.
From S2P Require Import Middleware.
Open Scope Z_scope.

(** What the transport needs from the libraries, in one class. *)
Class WebLibs {libs : Libs} := {
  web_redis :: Redis;
  web_contexts :: Contexts;
  web_hmac :: HMACJWT;
  web_authn :: Authn;
  web_authz :: Authz;
  web_json :: JSONText;
  web_time :: TimeText;
  web_body :: BodyDecoder;
  web_deadlines :: Deadlines;
  web_probes :: health.Probes;
  web_build :: buildinfo.Build;
  (** The reply of a third-party handler registered at a path. *)
  external : string -> Gin -> Reply;
  (** [router.SetTrustedProxies]. *)
  SetTrustedProxies : list string -> Result unit;
}.

Record Route {libs : Libs} {wl : WebLibs} := mkRoute {
  route_method : string;
  route_path : string;
  route_handlers : list Middleware;
}.
Arguments mkRoute {libs wl}.

(** The arguments of [NewServer]. *)
Record Server {libs : Libs} {wl : WebLibs} := mkServer {
  s_cfg : Config.t;
  s_handler : Handler;
  s_auth : auth.Service;
  s_limiter : ratelimit.Limiter;
  s_manager : option Idempotency.Manager;
  s_metrics : bool;
}.
Arguments mkServer {libs wl}.

Module Router.
Section router.
Context {libs : Libs} {wl : WebLibs} {env : Env}.

Definition external_handler (path : string) : Middleware :=
  final (c ← get_gin; modify_gin (add_reply (external path c))).

Definition pprofAuth (expected : string) : Middleware := fun next =>
  c ← get_gin;
  let '(scheme, token, ok) := Cut (Headers c "Authorization") space in
  if negb ok || negb (EqualFold scheme "Bearer") ||
     negb (ConstantTimeCompare (bytes_of token) (bytes_of expected) =? 1)
  then AbortWithStatus 401 else next.

Definition registerPprof (auth : Middleware) : list Route :=
  let get path := mkRoute "GET" ("/debug/pprof" +:+ path) [auth; external_handler ("/debug/pprof" +:+ path)] in
  [get "/"; get "/cmdline"; get "/profile";
   mkRoute "POST" "/debug/pprof/symbol" [auth; external_handler "/debug/pprof/symbol"];
   get "/symbol"; get "/trace"] ++
  ((fun profile => get ("/" +:+ profile)) <$> ["allocs"; "block"; "goroutine"; "heap"; "mutex"; "threadcreate"]).

(** [router.Use(...)]. *)
Definition global_chain (s : Server) : list Middleware :=
  let cfg := s_cfg s in
  [Middlewares.RequestID; Middlewares.IdempotencyKey;
   Middlewares.Environment (Config.Runtime.ActiveProfile (Config.Runtime cfg));
   Middlewares.RequestLogger; Middlewares.HTTPMetrics (s_metrics s); Middlewares.SecurityHeaders;
   Middlewares.CORS (Config.HTTP.CORS (Config.HTTP cfg)); Middlewares.MaxBody (Config.HTTP.MaxBodyBytes (Config.HTTP cfg));
   Middlewares.Timeout (Config.HTTP.RequestTimeout (Config.HTTP cfg)); Middlewares.RequireJSON].

Definition client_ip (c : Gin) : string := RemoteAddr c.
Definition subject_of (c : Gin) : string := default "" (Keys c !! "subject").

(** [router.Group("/api/v1", ...)] and [api.Use(...)]. *)
Definition api_chain (s : Server) : list Middleware :=
  let cfg := s_cfg s in
  let limits := Config.RateLimit cfg in
  [Middlewares.RateLimit (s_limiter s) (Config.RateLimit.IP limits) "ip" client_ip;
   Middlewares.RateLimit (s_limiter s) (Config.RateLimit.API limits) "api" FullPath;
   Middlewares.Authentication (s_auth s) (Config.Auth cfg);
   Middlewares.Authorization (Config.Authorization.Enabled (Config.Authorization cfg));
   Middlewares.RateLimit (s_limiter s) (Config.RateLimit.User limits) "user" subject_of;
   Middlewares.IdempotencyExecution (s_manager s) (Config.Idempotency.HTTPPaths (Config.Idempotency cfg))].

Definition login_limit (s : Server) (dimension : string) : Middleware :=
  Middlewares.RateLimit (s_limiter s) (Config.RateLimit.Login (Config.RateLimit (s_cfg s))) dimension client_ip.

(** The routes of the group, with what they add to its chain. *)
Definition api_routes (s : Server) : list (string * list Middleware) :=
  let h := s_handler s in
  [("/auth/login", [login_limit s "login"; final (handler.Login h)]);
   ("/auth/mfa/verify", [login_limit s "mfa-login"; final (handler.VerifyMFAChallenge h)]);
   ("/auth/refresh", [login_limit s "refresh"; final (handler.Refresh h)]);
   ("/auth/password-reset/confirm", [login_limit s "password-reset"; final (handler.ConfirmPasswordReset h)]);
   ("/auth/logout", [final (handler.Logout h)]);
   ("/auth/change-password", [final (handler.ChangePassword h)]);
   ("/auth/mfa/status", [final (handler.MFAStatus h)]);
   ("/auth/mfa/setup/start", [final (handler.StartMFASetup h)]);
   ("/auth/mfa/setup/confirm", [final (handler.ConfirmMFASetup h)]);
   ("/auth/mfa/recovery-codes/regenerate", [final (handler.RegenerateMFARecoveryCodes h)]);
   ("/auth/mfa/disable", [final (handler.DisableMFA h)]);
   ("/auth/sessions/list", [final handler.ListOwnSessions]);
   ("/auth/sessions/revoke", [final (handler.RevokeOwnSession h)]);
   ("/auth/service-token", [login_limit s "service-login"; final (handler.ServiceAccountToken h)]);
   ("/sessions/list", [final handler.ListSessions]);
   ("/sessions/get", [final handler.GetSession]);
   ("/sessions/revoke", [final (handler.RevokeSession h)]);
   ("/identities/register", [final (handler.RegisterIdentity h)]);
   ("/identities/get", [final handler.GetIdentity]);
   ("/identities/list", [final handler.ListIdentities]);
   ("/identities/batch-get", [final handler.BatchGetIdentities]);
   ("/identities/update-profile", [final (handler.UpdateIdentityProfile h)]);
   ("/identities/update-status", [final (handler.UpdateIdentityStatus h)]);
   ("/identities/password-reset/issue", [final (handler.IssuePasswordReset h)]);
   ("/identities/mfa/status", [final handler.AdminMFAStatus]);
   ("/identities/mfa/reset", [final (handler.AdminResetMFA h)]);
   ("/service-accounts/create", [final (handler.CreateServiceAccount h)]);
   ("/service-accounts/get", [final handler.GetServiceAccount]);
   ("/service-accounts/list", [final handler.ListServiceAccounts]);
   ("/service-accounts/batch-get", [final handler.BatchGetServiceAccounts]);
   ("/service-accounts/update-status", [final (handler.UpdateServiceAccountStatus h)]);
   ("/service-accounts/rotate-secret", [final (handler.RotateServiceAccountSecret h)]);
   ("/version", [final handler.Version]);
   ("/me", [final handler.Me])].

Definition api (s : Server) : list Route :=
  (fun '(path, handlers) => mkRoute "POST" ("/api/v1" +:+ path) (api_chain s ++ handlers)) <$> api_routes s.

Definition public_routes (s : Server) : list Route :=
  let h := s_handler s in
  let cfg := s_cfg s in
  mjoin ((fun m => [mkRoute m "/live" [final (handler.Live h)]; mkRoute m "/ready" [final (handler.Ready h)]])
         <$> ["GET"; "POST"]) ++
  [mkRoute "GET" "/.well-known/jwks.json" [final (handler.JWKS h)]] ++
  (if s_metrics s then [mkRoute "GET" "/metrics" [external_handler "/metrics"]] else []) ++
  (if Config.Observability.PprofEnabled (Config.Observability cfg)
   then registerPprof (pprofAuth (Config.Observability.PprofToken (Config.Observability cfg))) else []) ++
  (if Config.Swagger.Enabled (Config.Swagger cfg)
   then [mkRoute "GET" "/swagger/*any"
           ((if Config.Swagger.RequireAuth (Config.Swagger cfg) then [Middlewares.JWT (s_auth s)] else []) ++
            [external_handler "/swagger/*any"])]
   else []).

(** The routing table [NewServer] builds. *)
Definition NewServer (s : Server) : Result (list Route) :=
  match SetTrustedProxies (Config.HTTP.TrustedProxies (Config.HTTP (s_cfg s))) with
  | Err e => Err (Errorf "configure trusted proxies" e)
  | Ok _ => Ok (public_routes s ++ api s)
  end.

(** A request that the router has matched: the route with its method and
    [c.FullPath()]. *)
Definition matches (c : Gin) (r : Route) : Prop := route_method r = Method c /\ route_path r = FullPath c.
#[global] Instance matches_dec c r : Decision (matches c r).
Proof. unfold matches. apply _. Defined.

Definition route_of (routes : list Route) (c : Gin) : option Route := head (filter (matches c) routes).

Definition serve (s : Server) (r : Route) : HTTP unit := run (global_chain s ++ route_handlers r).
End router.
End Router.
