(* ===== verification/Grpc.v ===== *)
(** * The gRPC transport

    [internal/transport/grpc]: the methods of [identityServer], the health
    server, the permission table, [authenticateGRPC] and the interceptors of
    this repository.  Messages are records with the fields the code reads and
    sets.  The generated method names, the metadata of a call and the
    platform library's interceptors are parameters.  Streams, panics and
    metrics are in [GrpcStream], the server itself in [Startup]. *)

From S2P Require Import Prelude.
From S2P Require Import GoStrings.
From S2P Require Import AppError.
From S2P Require Import Platform.
From S2P Require Import Model.
From S2P Require Import Runtime.
From S2P Require Import RequestContext.
From S2P Require Import Configuration.
From S2P Require Import ServiceBase.
From S2P Require Import Sessions.
From S2P Require Import Users.
From S2P Require Import ServiceAccounts.
From S2P Require Import Auth.
From S2P Require Import Json.
From S2P Require Import Http.
From S2P Require Import Health.
From S2P Require Import Handlers.
From S2P Require Import Middleware.
Open Scope Z_scope.

(** A status error of gRPC. *)
Abbreviation status := (grpc_code * string)%type.

(** A call: a result or a status, and the new world. *)
Definition RPC (A : Type) : Type := World -> Res status A * World.
#[global] Instance RPC_ret : MRet RPC := fun A a w => (Ok a, w).
#[global] Instance RPC_bind : MBind RPC := fun A B k m w =>
  match m w with
  | (Ok a, w') => k a w'
  | (Err e, w') => (Err e, w')
  end.

#[global] Instance RPC_fmap : FMap RPC := fun A B f m w =>
  match m w with
  | (Ok a, w') => (Ok (f a), w')
  | (Err e, w') => (Err e, w')
  end.

(** ** Messages *)

(** [identityv1.UserStatus]; an unknown number is kept. *)
Inductive UserStatus :=
| USER_STATUS_UNSPECIFIED | USER_STATUS_ACTIVE | USER_STATUS_DISABLED | USER_STATUS_LOCKED | USER_STATUS_CLOSED
| USER_STATUS_OTHER (n : Z).
#[global] Instance UserStatus_eq_dec : EqDecision UserStatus.
Proof. solve_decision. Defined.

Module PbUser.
Record t := mk {
  Id : string; Username : string; DisplayName : string; Email : string; Phone : string; Status : UserStatus;
  CreatedAt : Z; UpdatedAt : Z; Version : Z; CreatedBy : string; UpdatedBy : string;
}.
End PbUser.

Module PbSession.
Record t := mk {
  Id : string; UserId : string; Username : string; UserDisplayName : string; TenantId : string;
  MembershipId : string; Status : string; ExpiresAt : Z; RevokedAt : option Z; RevokeReason : string;
  LastUsedAt : Z; ClientIp : string; UserAgent : string; Version : Z; CreatedAt : Z; UpdatedAt : Z;
  CreatedBy : string; UpdatedBy : string;
}.
End PbSession.

(** [commonv1.PageResult]. *)
Record PageResult := mkPageResult { PbTotal : Z; PbPage : Z; PbPageSize : Z }.

Record ListUsersRequest := mkListUsersRequest {
  Keyword : string;
  StatusFilter : UserStatus;
  PageRequest : option (Z * Z);   (** page and page size, [uint32] *)
}.
Record ListUsersResponse := mkListUsersResponse { PbUsers : list PbUser.t; PbPageResult : PageResult }.
Record ValidateSessionResponse := mkValidateResponse { Valid : bool; ValidExpiresAt : option Z }.
Record ServiceAccountMessage := mkAccountMessage {
  AccountId : string; AccountName : string; AccountEnabled : bool; AccountAudiences : list string;
}.

Definition uint64_of (z : Z) : Z := z mod 2 ^ 64.

(** ** [identity_server.go] *)
Module IdentityServer.
Section identity_server.
Context {libs : Libs} {env : Env} (s : ServiceBase.Service).

(** [v, err := m; if err != nil { return nil, grpcError(err) }]. *)
Definition service_call {A} (m : M A) : RPC A := fun w =>
  match m w with
  | (Ok a, w') => (Ok a, w')
  | (Err e, w') => (Err (grpcError e), w')
  end.
Definition fail {A} (e : status) : RPC A := fun w => (Err e, w).

Definition user_status (st : string) : UserStatus :=
  if decide (st = StatusActive) then USER_STATUS_ACTIVE
  else if decide (st = StatusDisabled) then USER_STATUS_DISABLED
  else if decide (st = StatusLocked) then USER_STATUS_LOCKED
  else if decide (st = StatusClosed) then USER_STATUS_CLOSED
  else USER_STATUS_UNSPECIFIED.

Definition identityUser (user : User.t) : PbUser.t :=
  let f := User.fields user in
  PbUser.mk (User.ID user) (User.Username user) (User.DisplayName user) (User.Email user) (User.Phone user)
    (user_status (User.Status user)) (CreatedAt f) (UpdatedAt f) (Version f) (CreatedBy f) (UpdatedBy f).

(** The clock is read only for a session that is not revoked. *)
Definition identitySession (session : Session.t) : RPC PbSession.t :=
  st ← (match Session.RevokedAt session with
        | Some _ => mret "revoked"
        | None => t ← service_call now; mret (if decide (After (Session.ExpiresAt session) t) then "active" else "expired")
        end);
  let f := Session.fields session in
  mret (PbSession.mk (Session.ID session) (Session.UserID session) (Session.Username session)
    (Session.UserDisplayName session) (Session.TenantID session) (Session.MembershipID session) st
    (Session.ExpiresAt session) (Session.RevokedAt session) (Session.RevokeReason session)
    (Session.LastUsedAt session) (Session.ClientIP session) (Session.UserAgent session) (Version f) (CreatedAt f)
    (UpdatedAt f) (CreatedBy f) (UpdatedBy f)).

Definition GetUser (ctx : Ctx) (user_id : string) : RPC PbUser.t :=
  user ← service_call (Users.GetUser ctx user_id);
  mret (identityUser user).

Definition BatchGetUsers (ctx : Ctx) (user_ids : list string) : RPC (list PbUser.t) :=
  if decide (100 < length user_ids)%nat then fail (GInvalidArgument, "at most 100 user IDs are allowed")
  else
    users ← service_call (Users.BatchGetUsers ctx user_ids);
    mret (identityUser <$> users).

(** The map lookup [{...}[request.GetStatus()]]. *)
Definition status_filter (st : UserStatus) : string :=
  match st with
  | USER_STATUS_ACTIVE => StatusActive
  | USER_STATUS_DISABLED => StatusDisabled
  | USER_STATUS_LOCKED => StatusLocked
  | USER_STATUS_CLOSED => StatusClosed
  | _ => ""
  end.

Definition ListUsers (ctx : Ctx) (request : ListUsersRequest) : RPC ListUsersResponse :=
  let '(page, pageSize) := default (1, 20) (PageRequest request) in
  let filter := status_filter (StatusFilter request) in
  if decide (StatusFilter request <> USER_STATUS_UNSPECIFIED /\ filter = "")
  then fail (GInvalidArgument, "invalid user status")
  else
    result ← service_call (Users.ListUsers ctx (Keyword request) filter page pageSize);
    mret (mkListUsersResponse (identityUser <$> Items result)
            (mkPageResult (uint64_of (Total result)) (uint32_of (PageNo result)) (uint32_of (PageSize result)))).

Definition GetSession (ctx : Ctx) (session_id : string) : RPC PbSession.t :=
  session ← service_call (Sessions.GetSessionByID ctx session_id);
  identitySession session.

Definition ValidateSession (ctx : Ctx) (session_id user_id : string) : RPC ValidateSessionResponse :=
  r ← service_call (Sessions.ValidateSession ctx session_id user_id);
  let '(session, valid) := r in
  mret (mkValidateResponse valid
          (if decide (Session.ExpiresAt session = zero_time) then None else Some (Session.ExpiresAt session))).

Definition RevokeTenantSessions (ctx : Ctx) (user_id tenant_id reason : string) : RPC Z :=
  service_call (Sessions.RevokeTenantSessions ctx user_id tenant_id reason).

Definition IssueTenantToken (ctx : Ctx) (user_id tenant_id membership_id session_id : string) : RPC (string * Z) :=
  service_call (Sessions.IssueTenantToken s ctx user_id tenant_id membership_id session_id).

Definition GetServiceAccount (ctx : Ctx) (service_account_id : string) : RPC ServiceAccountMessage :=
  account ← service_call (ServiceAccounts.GetServiceAccount ctx service_account_id);
  mret (mkAccountMessage (ServiceAccount.ID account) (ServiceAccount.Name account)
          (bool_decide (ServiceAccount.Status account = StatusActive)) (ServiceAccount.Audiences account)).
End identity_server.
End IdentityServer.

(** ** [server.go] *)

(** The methods of the generated [IdentityService]. *)
Inductive rpc_method :=
| M_GetUser | M_BatchGetUsers | M_ListUsers | M_GetSession | M_ValidateSession | M_RevokeTenantSessions
| M_IssueTenantToken | M_GetServiceAccount.
#[global] Instance rpc_method_eq_dec : EqDecision rpc_method.
Proof. solve_decision. Defined.

Class GrpcLibs {libs : Libs} := {
  (** [identityv1.IdentityService_..._FullMethodName]. *)
  FullMethodName : rpc_method -> string;
  (** [metadata.ValueFromIncomingContext(ctx, key)]. *)
  ValueFromIncomingContext : Ctx -> string -> list string;
  (** [authn.UnaryServerInterceptor(policy)] at a method. *)
  authn_UnaryServerInterceptor : forall {A}, Policy -> string -> (Ctx -> RPC A) -> Ctx -> RPC A;
  (** [authz.UnaryServerInterceptor(authorizer, resolver)] at a method. *)
  authz_UnaryServerInterceptor : forall {A}, (string -> option Requirement) -> string -> (Ctx -> RPC A) -> Ctx -> RPC A;
  (** [idempotency.UnaryServerInterceptor(manager, methods, logger)]. *)
  idempotency_UnaryServerInterceptor : forall {A}, list string -> string -> (Ctx -> RPC A) -> Ctx -> RPC A;
}.

(** An error, and no change of the database. *)
Definition silent_error {A} (w : World) (r : Res status A * World) : Prop :=
  w_log r.2 = w_log w /\ exists e, r.1 = Err e.

(** Documented behaviour: method names differ; an interceptor either answers
    itself, without an effect on the database and (the first two) with an
    error, or calls the handler once: the first with an authenticated context, the second after the permission was
    granted, the third with the same context.  A failed authentication is as
    silent as the bearer verifier of the policy. *)
Class GrpcLaws {libs : Libs} {gl : GrpcLibs} {an : Authn} {az : Authz} := {
  method_names_inj m m' : FullMethodName m = FullMethodName m' -> m = m';
  authn_intercepts A p method (h : Ctx -> RPC A) ctx w :
    (forall c raw, ReadOnly (Bearer p c raw)) ->
    silent_error w (authn_UnaryServerInterceptor p method h ctx w) \/
    exists authorization ctx' w1, policy_Authenticate p ctx method authorization w = (Ok ctx', w1) /\
      authn_UnaryServerInterceptor p method h ctx w = h ctx' w1;
  authz_intercepts A res method (h : Ctx -> RPC A) ctx w :
    silent_error w (authz_UnaryServerInterceptor res method h ctx w) \/
    exists w1, match res method with
               | Some rq => Enforce ctx rq w = (Ok None, w1)
               | None => w1 = w
               end /\ authz_UnaryServerInterceptor res method h ctx w = h ctx w1;
  idempotency_intercepts A ms method (h : Ctx -> RPC A) ctx w :
    w_log (idempotency_UnaryServerInterceptor ms method h ctx w).2 = w_log w \/
    w_log (idempotency_UnaryServerInterceptor ms method h ctx w).2 = w_log (h ctx w).2;
}.

Module GrpcServer.
Section grpc_server.
Context {libs : Libs} {env : Env} {cx : Contexts} {hs : HMACJWT} {an : Authn} {az : Authz} {gl : GrpcLibs}.

Definition identityGRPCRequirement (enabled : bool) (method : string) : option Requirement :=
  if negb enabled then None
  else
    let require resource action := mkRequirement resource action ScopePlatform in
    (list_to_map
      [(FullMethodName M_GetSession, require "identity.session" "read");
       (FullMethodName M_GetUser, require "identity.user" "read");
       (FullMethodName M_BatchGetUsers, require "identity.user" "batch-read");
       (FullMethodName M_ListUsers, require "identity.user" "list")] : gmap string Requirement) !! method.

(** [if values := ...; len(values) > 0 && requestid.Valid(values[0])]. *)
Definition requestIDInterceptor {A} (handler : Ctx -> RPC A) (ctx : Ctx) : RPC A :=
  let id := match ValueFromIncomingContext ctx "x-request-id" with
            | v :: _ => if requestid.Valid v then v else ""
            | [] => ""
            end in
  id ← (if decide (id = "") then IdentityServer.service_call requestid.Generate else mret id);
  handler (requestid.WithContext ctx id).

Definition idempotencyInterceptor {A} (handler : Ctx -> RPC A) (ctx : Ctx) : RPC A :=
  match ValueFromIncomingContext ctx "idempotency-key" with
  | [] => handler ctx
  | v :: _ =>
      if negb (idempotency.Valid v) then IdentityServer.fail (GInvalidArgument, "invalid idempotency-key")
      else handler (idempotency.WithContext ctx v)
  end.

Definition environmentInterceptor {A} (profile : string) (handler : Ctx -> RPC A) (ctx : Ctx) : RPC A :=
  handler (environment.WithContext ctx profile).

Definition authInterceptor {A} (service : auth.Service) (cfg : Config.Auth.t) (method : string)
    (handler : Ctx -> RPC A) (ctx : Ctx) : RPC A :=
  authn_UnaryServerInterceptor (auth.GRPCPolicy service cfg) method handler ctx.

Definition authenticateGRPC (ctx : Ctx) (method : string) (service : auth.Service) (cfg : Config.Auth.t) : RPC Ctx :=
  let authorization := default "" (head (ValueFromIncomingContext ctx "authorization")) in
  fun w =>
    match policy_Authenticate (auth.GRPCPolicy service cfg) ctx method authorization w with
    | (Ok authenticated, w') => (Ok authenticated, w')
    | (Err _, w') => (Err (GUnauthenticated, "missing or invalid credential"), w')
    end.

(** The unary chain of [NewServer], around a method of the service.  An [RPC]
    returns and has no counters, so the recovery and metrics interceptors, which
    pass on the reply and the world of such a call, have no place here; they
    are in [GrpcStream], and [recovery_and_metrics_pass] shows this. *)
Definition chain {A} (cfg : Config.t) (service : auth.Service) (m : rpc_method) (handler : Ctx -> RPC A) (ctx : Ctx) : RPC A :=
  let method := FullMethodName m in
  environmentInterceptor (Config.Runtime.ActiveProfile (Config.Runtime cfg))
    (requestIDInterceptor
      (idempotencyInterceptor
        (authInterceptor service (Config.Auth cfg) method
          (authz_UnaryServerInterceptor
             (identityGRPCRequirement (Config.Authorization.Enabled (Config.Authorization cfg))) method
             (idempotency_UnaryServerInterceptor (Config.Idempotency.GRPCMethods (Config.Idempotency cfg)) method
                handler))))) ctx.

(** A call of the service: the method with its request. *)
Inductive rpc_call :=
| C_GetUser (user_id : string)
| C_BatchGetUsers (user_ids : list string)
| C_ListUsers (request : ListUsersRequest)
| C_GetSession (session_id : string)
| C_ValidateSession (session_id user_id : string)
| C_RevokeTenantSessions (user_id tenant_id reason : string)
| C_IssueTenantToken (user_id tenant_id membership_id session_id : string)
| C_GetServiceAccount (service_account_id : string).

Definition method_of (c : rpc_call) : rpc_method :=
  match c with
  | C_GetUser _ => M_GetUser
  | C_BatchGetUsers _ => M_BatchGetUsers
  | C_ListUsers _ => M_ListUsers
  | C_GetSession _ => M_GetSession
  | C_ValidateSession _ _ => M_ValidateSession
  | C_RevokeTenantSessions _ _ _ => M_RevokeTenantSessions
  | C_IssueTenantToken _ _ _ _ => M_IssueTenantToken
  | C_GetServiceAccount _ => M_GetServiceAccount
  end.

Inductive rpc_reply :=
| R_User (user : PbUser.t)
| R_Users (users : list PbUser.t)
| R_UserPage (page : ListUsersResponse)
| R_Session (session : PbSession.t)
| R_Validated (response : ValidateSessionResponse)
| R_Revoked (count : Z)
| R_Token (token : string * Z)
| R_Account (account : ServiceAccountMessage).

(** The registered [identityServer]. *)
Definition dispatch (s : ServiceBase.Service) (c : rpc_call) (ctx : Ctx) : RPC rpc_reply :=
  match c with
  | C_GetUser u => R_User <$> IdentityServer.GetUser ctx u
  | C_BatchGetUsers us => R_Users <$> IdentityServer.BatchGetUsers ctx us
  | C_ListUsers r => R_UserPage <$> IdentityServer.ListUsers ctx r
  | C_GetSession i => R_Session <$> IdentityServer.GetSession ctx i
  | C_ValidateSession i u => R_Validated <$> IdentityServer.ValidateSession ctx i u
  | C_RevokeTenantSessions u t r => R_Revoked <$> IdentityServer.RevokeTenantSessions ctx u t r
  | C_IssueTenantToken u t m i => R_Token <$> IdentityServer.IssueTenantToken s ctx u t m i
  | C_GetServiceAccount i => R_Account <$> IdentityServer.GetServiceAccount ctx i
  end.

Definition serve (cfg : Config.t) (service : auth.Service) (s : ServiceBase.Service) (c : rpc_call) (ctx : Ctx) : RPC rpc_reply :=
  chain cfg service (method_of c) (dispatch s c) ctx.

Context {pr : health.Probes}.

(** [healthServer]: [true] is [SERVING]. *)
Definition Check (h : health.Service) (ctx : Ctx) : bool := (health.Ready h ctx).2.
Definition List_ (h : health.Service) : list (string * bool) := [("", true)].
End grpc_server.
End GrpcServer.
