(* ===== verification/ConcreteWeb.v ===== *)
(** * A concrete transport

    Instances of the parameters of the HTTP and gRPC transports with the laws
    the theorems assume about them, on top of [Concrete.v]: an executable
    authentication policy and authorizer, JSON text, an idempotency store and
    interceptors.  They show that the assumptions are consistent and let
    witnesses serve requests. *)

From Stdlib Require Import Ascii.
From stdpp Require Import countable.
From S2P Require Import Prelude.
From S2P Require Import GoStrings.
From S2P Require Import Encoding.
From S2P Require Import AppError.
From S2P Require Import Platform.
From S2P Require Import Configuration.
From S2P Require Import ConfigSpec.
From S2P Require Import Model.
From S2P Require Import Runtime.
From S2P Require Import RequestContext.
From S2P Require Import Token.
From S2P Require Import ServiceBase.
From S2P Require Import Concrete.
From S2P Require Import Auth.
From S2P Require Import Json.
From S2P Require Import JsonSpec.
From S2P Require Import Messages.
From S2P Require Import Http.
From S2P Require Import Health.
From S2P Require Import Handlers.
From S2P Require Import Middleware.
From S2P Require Import Router.
From S2P Require Import Grpc.
Open Scope Z_scope.

Module ConcreteWeb.
Import Concrete.

(** ** Contexts *)

Definition with_value (c : context) (k : context_key) (v : string) : context :=
  match k with
  | requestid_key => mkContext (c_principal c) (Some v) (c_environment c) (c_idempotency c) (c_metadata c)
  | environment_key => mkContext (c_principal c) (c_requestid c) (Some v) (c_idempotency c) (c_metadata c)
  end.

Definition contexts : @Contexts platform := {|
  WithValue := with_value : @Ctx platform -> _;
  Value := fun (c : @Ctx platform) k => match k with requestid_key => c_requestid c | environment_key => c_environment c end;
  WithTimeout := fun c _ => c;
  WithoutCancel := fun c => c;
  principal_FromContext := c_principal;
  idempotency_Valid := fun k => bool_decide (k <> "" /\ go_len k <= 128);
  idempotency_WithContext := fun (c : @Ctx platform) k =>
    mkContext (c_principal c) (c_requestid c) (c_environment c) (Some k) (c_metadata c);
  idempotency_FromContext := c_idempotency;
  authz_WithCallerCredential := fun c _ => c |}.

#[global] Instance contexts_laws : @ContextsLaws platform contexts.
Proof.
  split; simpl; try done.
  - by intros c [] v.
  - by intros c [] [] v Hne.
  - by intros c [] v.
  - intros c p. destruct (c_principal c); naive_solver.
Qed.

(** ** HS256 tokens *)

Definition registered_tuple (c : RegisteredClaims) :=
  (RIssuer c, RSubject c, RID c, RIssuedAt c, RNotBefore c, RExpiresAt c).
Definition tuple_registered (t : string * string * string * option Z * option Z * option Z) : RegisteredClaims :=
  let '(a, b, c, d, e, f) := t in mkRegistered a b c d e f.
#[global] Instance registered_eq_dec : EqDecision RegisteredClaims.
Proof. solve_decision. Defined.
#[global] Instance registered_countable : Countable RegisteredClaims.
Proof. apply (inj_countable' registered_tuple tuple_registered). by intros []. Defined.

Definition hs_sign (c : RegisteredClaims) (key : bytes) : string := string_of (bits (encode (c, string_of key))).
Definition hs_unsign (raw : string) : option (RegisteredClaims * string) := decode (unbits (bytes_of raw)).
Lemma hs_unsign_sign c key : hs_unsign (hs_sign c key) = Some (c, string_of key).
Proof. unfold hs_unsign, hs_sign. by rewrite bytes_of_string_of, unbits_bits, decode_encode. Qed.

Definition hs_valid_now (issuer : string) (now : Z) (c : RegisteredClaims) : bool :=
  bool_decide (RIssuer c = issuer) && match RExpiresAt c with Some e => now <? e | None => false end &&
  match RNotBefore c with Some n => n <=? now | None => true end &&
  match RIssuedAt c with Some i => i <=? now | None => true end.

Lemma hs_valid_now_spec i n c : hs_valid_now i n c = true <-> registered_valid i n c.
Proof.
  unfold hs_valid_now, registered_valid. rewrite !andb_true_iff, !bool_decide_eq_true.
  destruct (RExpiresAt c) as [e|], (RNotBefore c) as [nb|], (RIssuedAt c) as [ia|];
    (split;
      [ intros (((? & ?) & ?) & ?); try done; split_and!; try done;
        first [ (eexists; split; [done|lia]) | (intros ? [= <-]; lia) ]
      | intros (? & (e' & [= <-] & ?) & Hn & Hi); split_and!; try done; try lia;
        try (specialize (Hn _ eq_refl); lia); try (specialize (Hi _ eq_refl); lia) ]).
Qed.

Definition hmac : HMACJWT := {|
  hs_SignedString := fun c key => Ok (hs_sign c key);
  hs_content := fun raw => match hs_unsign raw with Some (c, _) => Some ("HS256", c) | None => None end;
  hs_verifies := fun key raw => match hs_unsign raw with Some (_, k) => bool_decide (k = string_of key) | None => false end;
  hs_ParseWithClaims := fun keyfunc iss now raw =>
    match hs_unsign raw with
    | Some (c, k) =>
        match keyfunc "HS256" with
        | Ok key => if bool_decide (k = string_of key) && hs_valid_now iss now c then Ok c
                    else Err (ErrorsNew "token is invalid")
        | Err e => Err e
        end
    | None => Err (ErrorsNew "token is malformed")
    end |}.

#[global] Instance hmac_laws : @HMACJWTLaws hmac.
Proof.
  split.
  - intros c key raw [= <-]. simpl. rewrite hs_unsign_sign. split; [done|]. by apply bool_decide_eq_true.
  - intros c key. simpl. eauto.
  - intros keyfunc i n raw c. simpl. destruct (hs_unsign raw) as [[c' k]|].
    2:{ split; [done|]. by intros (? & ? & ? & _). }
    destruct (keyfunc "HS256") as [key|e] eqn:Ek.
    + split.
      * intros H. destruct (bool_decide _) eqn:Eb; [|done]. simpl in H. destruct (hs_valid_now i n c') eqn:Ev; [|done].
        simplify_eq. exists "HS256", key. apply hs_valid_now_spec in Ev. rewrite Eb. done.
      * intros (m & key' & [= <- <-] & Hk & Hb & Hv). rewrite Ek in Hk. injection Hk as <-.
        apply hs_valid_now_spec in Hv. rewrite Hv, andb_true_r. by rewrite Hb.
    + split; [done|]. intros (m & key' & [= <- <-] & Hk & _). congruence.
Qed.

(** ** The authentication policy and the authorizer *)

Definition authenticate (p : @Policy platform) (ctx : @Ctx platform) (target authorization : string) : M (@Ctx platform) :=
  match filter (fun q => auth.MatchesAny target (Targets q) = true) (PSKs p) with
  | q :: _ => if auth.VerifyPSK authorization (Key q) then mret (set_principal (PSKPrincipal q) ctx)
              else throw (ErrorsNew "invalid pre-shared key")
  | [] =>
      if auth.MatchesAny target (SkipTargets p) then mret ctx
      else
        let '(scheme, raw, ok) := Cut authorization space in
        if ok && EqualFold scheme "Bearer" then pr ← Bearer p ctx raw; mret (set_principal pr ctx)
        else throw (ErrorsNew "missing bearer token")
  end.
Definition authn : @Authn platform := authenticate.

#[global] Instance authn_laws : @AuthnLaws platform authn.
Proof.
  split.
  - intros p ctx target au w ctx' w'. unfold policy_Authenticate, authn, authenticate.
    destruct (filter _ (PSKs p)) as [|q l] eqn:Ef.
    + assert (forall q, q ∈ PSKs p -> auth.MatchesAny target (Targets q) = false) as Hn.
      { intros q Hq. apply not_true_iff_false. intros Hm. apply (not_elem_of_nil q). rewrite <- Ef.
        by apply list_elem_of_filter. }
      destruct (auth.MatchesAny target (SkipTargets p)) eqn:Es; [intros _; by apply by_skip|].
      destruct (Cut au space) as [[scheme raw] ok] eqn:Ec. destruct ok; [|done]. cbn [andb].
      destruct (EqualFold scheme "Bearer") eqn:Eb; [|done].
      unfold mbind, M_bind. destruct (Bearer p ctx raw w) as [[pr|e] w1] eqn:E; [|done]. intros [= <- <-].
      by eapply by_bearer.
    + assert (q ∈ filter (fun q => auth.MatchesAny target (Targets q) = true) (PSKs p)) as [Hm Hq]%list_elem_of_filter
        by (rewrite Ef; apply list_elem_of_here).
      destruct (auth.VerifyPSK au (Key q)) eqn:Ev; [|done]. intros [= <- <-]. by eapply by_psk.
  - intros p ctx target au Hb w. unfold policy_Authenticate, authn, authenticate.
    destruct (filter _ (PSKs p)) as [|q l]; [|by destruct (auth.VerifyPSK au (Key q))].
    destruct (auth.MatchesAny target (SkipTargets p)); [done|].
    destruct (Cut au space) as [[scheme raw] ok]. destruct (ok && _); [|done].
    specialize (Hb ctx raw w). unfold mbind, M_bind. by destruct (Bearer p ctx raw w) as [[pr|e] w1].
Qed.

(** Service accounts may do everything, nobody else anything. *)
Definition authz : @Authz platform := {|
  ScopePlatform := "platform";
  Enforce := fun ctx _ => mret (match c_principal ctx with
    | Some p => if decide (PType p = "service_account") then None else Some (mkRefusal false (ErrorsNew "denied"))
    | None => Some (mkRefusal false (ErrorsNew "no principal")) end) |}.
#[global] Instance authz_laws : @AuthzLaws platform authz.
Proof. split; [done|]. intros c r w. simpl. by eexists _, _. Qed.

(** ** JSON text *)

Fixpoint tree_of (j : Json.json) : gen_tree string :=
  match j with
  | JNull => GenNode 0 []
  | JBool b => GenNode (if b then 1 else 2) []
  | JNumber n => GenNode 3 [GenLeaf n]
  | JString s => GenNode 4 [GenLeaf s]
  | JArray l => GenNode 5 (map tree_of l)
  | JObject l => GenNode 6 (map (fun f => GenNode 7 [GenLeaf f.1; tree_of f.2]) l)
  end.
Fixpoint of_tree (t : gen_tree string) : Json.json :=
  match t with
  | GenNode 1 _ => JBool true
  | GenNode 2 _ => JBool false
  | GenNode 3 [GenLeaf n] => JNumber n
  | GenNode 4 [GenLeaf s] => JString s
  | GenNode 5 l => JArray (map of_tree l)
  | GenNode 6 l => JObject (map (fun t => match t with GenNode _ [GenLeaf k; v] => (k, of_tree v) | _ => ("", JNull) end) l)
  | _ => JNull
  end.
Lemma of_tree_of j : of_tree (tree_of j) = j.
Proof.
  induction j as [|[]|n|s|l IH|l IH] using json_ind; simpl; try done.
  - f_equal. rewrite map_map. rewrite <- (map_id l) at 2. apply map_ext_in. rewrite Forall_forall in IH.
    intros a Ha. by apply IH, list_elem_of_In.
  - f_equal. rewrite map_map. rewrite <- (map_id l) at 2. apply map_ext_in. rewrite Forall_forall in IH.
    intros [k v] Ha. simpl. f_equal. apply (IH (k, v)). by apply list_elem_of_In.
Qed.

Definition print (j : Json.json) : bytes := bits (encode (tree_of j)).
Definition json_text : JSONText := {|
  json_print := print;
  json_parse := fun b => match decode (unbits b) with
    | Some t => Ok (sanitize (of_tree t))
    | None => Err (ErrorsNew "invalid character") end;
  float_text := fun s => s |}.
#[global] Instance json_text_laws : @JSONTextLaws json_text.
Proof. split; [|done..]. intros j. simpl. unfold print. by rewrite unbits_bits, decode_encode, of_tree_of. Qed.

(** ** The idempotency manager, with the keys of the store as owners *)

Definition redis : Redis := gmap string Idempotency.entry.
Definition manager : @Idempotency.Manager (@wp_platform libs) redis := {|
  Idempotency.Enabled := true;
  Idempotency.Begin := fun _ k f (s : gmap string Idempotency.entry) => match s !! k with
    | None => (Ok (Idempotency.StateAcquired k), <[k := Idempotency.Processing f k]> s)
    | Some e => (Ok (if decide (Idempotency.entry_fingerprint e = f) then Idempotency.decision_of e
                     else Idempotency.StateConflict), s) end;
  Idempotency.Complete := fun _ k o r (s : gmap string Idempotency.entry) => match s !! k with
    | Some (Idempotency.Processing f o') =>
        if decide (o = o') then (Ok tt, <[k := Idempotency.Completed f (print r)]> s)
        else (Err (ErrorsNew "not the owner"), s)
    | _ => (Err (ErrorsNew "not processing"), s) end;
  Idempotency.Fail := fun _ k o x (s : gmap string Idempotency.entry) => match s !! k with
    | Some (Idempotency.Processing f o') =>
        if decide (o = o') then (Ok tt, <[k := Idempotency.Failed f x]> s) else (Err (ErrorsNew "not the owner"), s)
    | _ => (Err (ErrorsNew "not processing"), s) end |}.
Definition find : @Store redis -> string -> option Idempotency.entry := fun (s : gmap string Idempotency.entry) k => s !! k.

#[global] Instance manager_laws : @Idempotency.ManagerLaws (@wp_platform libs) redis json_text manager find.
Proof.
  split; unfold find; simpl; intros c k.
  - intros f s d s' ->. intros [= <- <-]. exists k. by rewrite lookup_insert_eq.
  - intros f s e d s' He. rewrite He. by intros [= <- <-].
  - intros o r s s' f ->. rewrite decide_True by done. intros [= <-]. by rewrite lookup_insert_eq.
  - intros o r s s' f ->. rewrite decide_True by done. intros [= <-]. by rewrite lookup_insert_eq.
Qed.

(** ** The rest of the HTTP transport *)

Definition decoder : BodyDecoder := fun b => bs ← ReadAll b; @json_parse json_text bs.
Definition probes : @health.Probes platform := {|
  health.ping_database := fun _ _ => Ok tt; health.ping_redis := fun _ _ => Ok tt;
  health.latency := fun _ => "1ms"; health.database_first := true |}.
Definition build : buildinfo.Build := {|
  buildinfo.version := "1.0.0"; buildinfo.commit := "none"; buildinfo.buildTime := "unknown";
  buildinfo.startedAt := noon; buildinfo.uptime := "1s" |}.

#[global] Instance web : @WebLibs libs := {|
  web_redis := redis; web_contexts := contexts; web_hmac := hmac; web_authn := authn; web_authz := authz;
  web_json := json_text; web_time := format_int : TimeText; web_body := decoder;
  web_deadlines := (fun _ _ => false) : @Deadlines platform; web_probes := probes; web_build := build;
  external := fun _ _ => mkReply 200 None; SetTrustedProxies := fun _ => Ok tt |}.

(** ** A server and requests to it *)

Definition cfg : Config.t := ConcreteConfig.production "secret".
Definition auth_service {env : Env} : @auth.Service (@wp_platform libs) := auth.NewWithIdentity cfg service.
Definition limiter : ratelimit.Limiter :=
  ratelimit.New (Some (fun _ _ _ s => (Ok (ratelimit.mkBackend 1 9 0), s))) cfg.
Definition server_of {env : Env} : Server :=
  mkServer cfg (NewHandler auth_service (health.New true true cfg) service) auth_service limiter (Some manager) true.

(** An access token as the service issues it. *)
Definition access_token {env : Env} (subject type session : string) : string :=
  match (Issue (tokens service) subject type session "" "" (start db)).1 with Ok (t, _) => t | Err _ => "" end.

Definition post (path : string) (headers : list (string * string)) (body : Json.json) : Gin :=
  mkGin "POST" path
    (fun k => default "" (list_to_map (M := gmap string string) (("Content-Type", "application/json") :: headers) !! k))
    "10.0.0.1" false 1 (mkBody (print body) None) background ∅ ∅ [] false.
Definition received (g : Gin) (d : DB) : HState := mkH g (start d) (∅ : gmap string Idempotency.entry) [].

(** ** Interceptors *)

Definition method_name (m : rpc_method) : string :=
  match m with
  | M_GetUser => "/identity.v1.IdentityService/GetUser"
  | M_BatchGetUsers => "/identity.v1.IdentityService/BatchGetUsers"
  | M_ListUsers => "/identity.v1.IdentityService/ListUsers"
  | M_GetSession => "/identity.v1.IdentityService/GetSession"
  | M_ValidateSession => "/identity.v1.IdentityService/ValidateSession"
  | M_RevokeTenantSessions => "/identity.v1.IdentityService/RevokeTenantSessions"
  | M_IssueTenantToken => "/identity.v1.IdentityService/IssueTenantToken"
  | M_GetServiceAccount => "/identity.v1.IdentityService/GetServiceAccount"
  end.
Definition metadata_values (c : context) (k : string) : list string := snd <$> filter (fun f => f.1 = k) (c_metadata c).

Definition unauthenticated {A} : RPC A := fun w => (Err (GUnauthenticated, "unauthenticated"), w).

#[global] Instance grpc_libs : @GrpcLibs libs := {|
  FullMethodName := method_name;
  ValueFromIncomingContext := metadata_values : @Ctx platform -> _;
  authn_UnaryServerInterceptor := fun A p method h ctx w =>
    match authenticate p ctx method (default "" (head (metadata_values ctx "authorization"))) w with
    | (Ok ctx', w') => h ctx' w'
    | (Err _, w') => unauthenticated w'
    end;
  authz_UnaryServerInterceptor := fun A res method h ctx w =>
    match res method with
    | Some rq => match @Enforce platform authz ctx rq w with
                 | (Ok None, w') => h ctx w'
                 | (_, w') => (Err (GInternal, "permission denied"), w')
                 end
    | None => h ctx w
    end;
  idempotency_UnaryServerInterceptor := fun A _ _ h ctx => h ctx |}.

#[global] Instance grpc_laws : @GrpcLaws libs grpc_libs authn authz.
Proof.
  split.
  - by intros [] [].
  - intros A p method h ctx w Hb. simpl. set (au := default "" _).
    pose proof (authenticate_readonly (an := authn) p ctx method au Hb w) as Hlog.
    destruct (authenticate p ctx method au w) as [[ctx'|e] w'] eqn:E.
    + right. by exists au, ctx', w'.
    + left. unfold policy_Authenticate, authn in Hlog. rewrite E in Hlog. split; [exact Hlog|]. by eexists.
  - intros A res method h ctx w. simpl. destruct (res method) as [rq|]; [|by right; exists w].
    unfold mret, M_ret. destruct (c_principal ctx) as [p|]; [|by left; split; [|eexists]].
    destruct (decide (PType p = "service_account")); [|by left; split; [|eexists]]. right. by exists w.
  - by right.
Qed.
End ConcreteWeb.
