(* ===== verification/HttpLogic.v ===== *)
(** * Reasoning about the HTTP chain

    Two judgements on computations of [HTTP], each with rules that follow
    the code and a tactic that applies them: [Quietly m] ([m] makes no
    atomic step in the database) and [Answers m] ([m] writes exactly one
    reply).  [Once] and [Passes] are their forms for the links of a chain. *)

From S2P Require Import Prelude.
From S2P Require Import GoStrings.
From S2P Require Import AppError.
From S2P Require Import Platform.
From S2P Require Import Model.
From S2P Require Import Runtime.
From S2P Require Import RequestContext.
From S2P Require Import ServiceBase.
From S2P Require Import Auth.
From S2P Require Import Json.
From S2P Require Import Http.
Open Scope Z_scope.

Section logic.
Context {libs : Libs} {rd : Redis}.
Implicit Types st : HState.

Definition log_of st : list (DB * DB) := w_log (world st).
Definition replies st : list Reply := Replies (gin st).
Definition done st : bool := Done (gin st).

(** ** No effect on the database *)
Definition Quietly {A} (m : HTTP A) : Prop := forall st, log_of (m st).2 = log_of st.

Lemma Quietly_bind {A B} (m : HTTP A) (k : A -> HTTP B) : Quietly m -> (forall a, Quietly (k a)) -> Quietly (m ≫= k).
Proof using.
  intros Hm Hk st. unfold mbind, H_bind. specialize (Hm st). destruct (m st) as [a st1]. simpl in *.
  by rewrite Hk.
Qed.
Lemma Quietly_ret {A} (a : A) : Quietly (mret a).
Proof using. done. Qed.
Lemma Quietly_get : Quietly get_gin.
Proof using. done. Qed.
Lemma Quietly_modify f : Quietly (modify_gin f).
Proof using. done. Qed.
Lemma Quietly_emit e : Quietly (emit e).
Proof using. done. Qed.
Lemma Quietly_call {A} (m : M A) : ReadOnly m -> Quietly (call m).
Proof using.
  intros Hm st. unfold call. specialize (Hm (world st)). by destruct (m (world st)).
Qed.
Lemma Quietly_call_store {A} (f : Store -> A * Store) : Quietly (call_store f).
Proof using. intros st. unfold call_store. by destruct (f (store st)). Qed.

(** ** Replies *)
Definition Silent {A} (m : HTTP A) : Prop :=
  forall st, replies (m st).2 = replies st /\ done (m st).2 = done st.
Definition Answers (m : HTTP unit) : Prop := forall st, exists r, replies (m st).2 = replies st ++ [r].

Lemma Silent_bind {A B} (m : HTTP A) (k : A -> HTTP B) : Silent m -> (forall a, Silent (k a)) -> Silent (m ≫= k).
Proof using.
  intros Hm Hk st. unfold mbind, H_bind. specialize (Hm st). destruct (m st) as [a st1]. simpl in *.
  destruct (Hk a st1) as [-> ->]. done.
Qed.
Lemma Silent_ret {A} (a : A) : Silent (mret a).
Proof using. done. Qed.
Lemma Silent_get : Silent get_gin.
Proof using. done. Qed.
Lemma Silent_emit e : Silent (emit e).
Proof using. done. Qed.
Lemma Silent_call {A} (m : M A) : Silent (call m).
Proof using. intros st. unfold call. by destruct (m (world st)). Qed.
Lemma Silent_call_store {A} (f : Store -> A * Store) : Silent (call_store f).
Proof using. intros st. unfold call_store. by destruct (f (store st)). Qed.
Lemma Silent_modify f : (forall c, Replies (f c) = Replies c /\ Done (f c) = Done c) -> Silent (modify_gin f).
Proof using. intros Hf st. apply Hf. Qed.

Lemma Answers_bind {A} (m : HTTP A) k : Silent m -> (forall a, Answers (k a)) -> Answers (m ≫= k).
Proof using.
  intros Hm Hk st. unfold mbind, H_bind. specialize (Hm st). destruct (m st) as [a st1]. simpl in *.
  destruct (Hk a st1) as [r Hr]. exists r. by rewrite Hr, (proj1 Hm).
Qed.
Lemma Answers_JSON status j : Answers (JSON status j).
Proof using. intros st. eexists. done. Qed.
Lemma Answers_OK j : Answers (OK j).
Proof using. apply Answers_bind; [done|]. intros c. apply Answers_JSON. Qed.

Lemma FailC_spec err st :
  (FailC err st).2 =
  let c := gin st in
  let '(code, message, status, cause) :=
    match errors_As err with Some x => x | None => (CodeInternal, "internal server error", 500, Some err) end in
  mkH (add_reply (mkReply status (Some (Response.to_json (Response.mk code message JNull (requestID c))))) (set_done c))
    (world st) (store st)
    (events st ++ if decide (500 <= status) then [LoggedFailure cause (requestID c)] else []).
Proof using.
  unfold FailC. cbn [mbind H_bind get_gin].
  destruct (match errors_As err with Some x => x | None => _ end) as [[[code msg] status] cause].
  destruct (decide _); cbn; [done|]. by rewrite app_nil_r.
Qed.
Lemma Answers_FailC err : Answers (FailC err).
Proof using.
  intros st. rewrite FailC_spec. cbn zeta.
  destruct (match errors_As err with Some x => x | None => _ end) as [[[code msg] status] cause]. eexists. done.
Qed.
Lemma FailC_done err st : done (FailC err st).2 = true.
Proof using.
  rewrite FailC_spec. cbn zeta.
  by destruct (match errors_As err with Some x => x | None => _ end) as [[[code msg] status] cause].
Qed.
Lemma Quietly_FailC err : Quietly (FailC err).
Proof using.
  intros st. rewrite FailC_spec. cbn zeta.
  by destruct (match errors_As err with Some x => x | None => _ end) as [[[code msg] status] cause].
Qed.
Lemma Answers_or_fail {A} (m : HTTP (Result A)) f k :
  Silent m -> (forall a, Answers (k a)) -> Answers (or_fail m f k).
Proof using.
  intros Hm Hk. apply Answers_bind; [done|]. intros [a|e]; [apply Hk|apply Answers_FailC].
Qed.
End logic.

(** ** Automation *)

Create HintDb http discriminated.
#[export] Hint Constants Opaque : http.
#[export] Hint Resolve Quietly_ret Quietly_get Quietly_modify Quietly_emit Quietly_call_store Quietly_FailC : http.
#[export] Hint Resolve Silent_ret Silent_get Silent_emit Silent_call Silent_call_store : http.
#[export] Hint Resolve Answers_JSON Answers_OK Answers_FailC : http.

Ltac http_step :=
  match goal with
  | |- forall _, _ => intro
  | |- Silent (modify_gin _) => apply Silent_modify; intros; split; reflexivity
  | |- Silent (mbind _ _) => apply Silent_bind
  | |- Answers (mbind _ _) => apply Answers_bind
  | |- Answers (or_fail _ _ _) => apply Answers_or_fail
  | |- Quietly (mbind _ _) => apply Quietly_bind
  | |- Quietly (call _) => apply Quietly_call; solve [solve_readonly]
  | |- context [match ?x with _ => _ end] => destruct x
  | |- _ => solve [eauto with http]
  | |- Silent ?m => let h := get_head m in unfold h
  | |- Answers ?m => let h := get_head m in unfold h
  | |- Quietly ?m => let h := get_head m in unfold h
  end.
Ltac solve_http := repeat http_step.

(** ** Links of a chain *)
Section chain.
Context {libs : Libs} {rd : Redis}.
Implicit Types st : HState.

Lemma run_done hs st : done (run hs st).2 = true.
Proof using.
  revert st. induction hs as [|h hs IH]; intros st; cbn [run]; unfold unless_done, done.
  - by destruct (Done (gin st)) eqn:E.
  - destruct (Done (gin st)) eqn:E; [done|]. unfold mbind, H_bind. destruct (h (run hs) st) as [[] st1]. apply IH.
Qed.

Lemma run_skip hs st : done st = true -> run hs st = (tt, st).
Proof using. unfold done. intros Hd. destruct hs; cbn [run]; unfold unless_done; by rewrite Hd. Qed.

(** A link that leaves nothing to run after it, if [next] does not. *)
Definition Stops (h : Middleware) : Prop :=
  forall (next : HTTP unit) st, (forall st', done (next st').2 = true) -> done st = false -> done (h next st).2 = true.

(** The rest of the chain runs only through [next]. *)
Lemma run_cons h hs st : Stops h -> done st = false -> run (h :: hs) st = (tt, (h (run hs) st).2).
Proof using.
  intros Hh Hd. cbn [run]. unfold unless_done. unfold done in Hd. rewrite Hd. unfold mbind, H_bind.
  pose proof (Hh (run hs) st (run_done hs) Hd) as Hd1. destruct (h (run hs) st) as [[] st1]. by apply run_skip.
Qed.

(** Exactly one reply, and the end of the chain. *)
Definition Once (m : HTTP unit) : Prop :=
  forall st, done st = false -> done (m st).2 = true /\ exists r, replies (m st).2 = replies st ++ [r].
Definition Wraps (h : Middleware) : Prop := forall next, Once next -> Once (h next).

Lemma Once_run_final h : Answers h -> Once (run [final h]).
Proof using.
  intros Hh st Hd. cbn [run]. unfold done in Hd. unfold unless_done, final, mbind, H_bind. rewrite Hd.
  destruct (Hh st) as [r Hr]. destruct (h st) as [[] st1]. cbn in Hr.
  destruct (Done (gin st1)) eqn:E; (split; [first [exact E|reflexivity]|exists r; exact Hr]).
Qed.

Lemma Once_run_cons h hs : Wraps h -> Once (run hs) -> Once (run (h :: hs)).
Proof using.
  intros Hh Hr st Hd. cbn [run]. unfold unless_done. unfold done in Hd. rewrite Hd. unfold mbind, H_bind.
  destruct (Hh _ Hr st Hd) as [Hd1 Hrep]. destruct (h (run hs) st) as [[] st1]. rewrite run_skip by done. done.
Qed.

Lemma Once_run hs last : Forall Wraps hs -> Once (run last) -> Once (run (hs ++ last)).
Proof using. intros Hw Hl. induction Hw; [done|]. by apply Once_run_cons. Qed.

Lemma Once_bind {A} (m : HTTP A) k : Silent m -> (forall a, Once (k a)) -> Once (m ≫= k).
Proof using.
  intros Hm Hk st Hd. unfold mbind, H_bind. specialize (Hm st). destruct (m st) as [a st1]. simpl in *.
  destruct Hm as [Hr Hd']. destruct (Hk a st1) as [Hd1 [r Hr1]]; [congruence|]. split; [done|].
  exists r. by rewrite Hr1, Hr.
Qed.
(** What follows [next] may rely on the reply being written. *)
Lemma Once_after (m k : HTTP unit) :
  Once m -> (forall st, replies st <> [] -> replies (k st).2 = replies st /\ done (k st).2 = done st) -> Once (m;; k).
Proof using.
  intros Hm Hk st Hd. destruct (Hm st Hd) as [Hd1 [r Hr]]. unfold mbind, H_bind. destruct (m st) as [[] st1].
  cbn in *. destruct (Hk st1) as [Hk1 Hk2]; [rewrite Hr; by destruct (replies st)|]. split; [congruence|].
  exists r. congruence.
Qed.
Lemma Once_then (m k : HTTP unit) : Once m -> Silent k -> Once (m;; k).
Proof using. intros Hm Hk. apply Once_after; [done|]. intros st _. apply Hk. Qed.
Lemma Once_FailC err : Once (FailC err).
Proof using. intros st Hd. split; [apply FailC_done|apply Answers_FailC]. Qed.
Lemma Once_abort_json status r : Once (AbortWithStatusJSON status r).
Proof using. intros st Hd. split; [done|]. by eexists. Qed.
Lemma Once_abort_then status j : Once (Abort;; JSON status j).
Proof using. intros st Hd. split; [done|]. by eexists. Qed.
Lemma Once_abort status : Once (AbortWithStatus status).
Proof using. intros st Hd. split; [done|]. by eexists. Qed.
Lemma Once_or_fail {A} (m : HTTP (Result A)) f k : Silent m -> (forall a, Once (k a)) -> Once (or_fail m f k).
Proof using. intros Hm Hk. apply Once_bind; [done|]. intros [a|e]; [apply Hk|apply Once_FailC]. Qed.

(** ** Passing the database through

    [Passes h R]: either [h] answers by itself without touching the database,
    or it runs the rest of the chain, exactly once, in a state that is
    related to the current one by [R], and adds no effect of its own. *)
Definition Passes (h : Middleware) (R : HState -> HState -> Prop) : Prop :=
  forall (next : HTTP unit) st, (forall st', done (next st').2 = true) -> done st = false ->
  done (h next st).2 = true /\
  (log_of (h next st).2 = log_of st \/
   exists st1, R st st1 /\ log_of st1 = log_of st /\ done st1 = false /\ log_of (h next st).2 = log_of (next st1).2).

Lemma Passes_run h R hs st :
  Passes h R -> done st = false ->
  log_of (run (h :: hs) st).2 = log_of st \/
  exists st1, R st st1 /\ log_of st1 = log_of st /\ done st1 = false /\
    log_of (run (h :: hs) st).2 = log_of (run hs st1).2.
Proof using.
  intros Hh Hd. assert (Stops h) as Hs by (intros next st' Hn Hd'; by apply (Hh next st' Hn Hd')).
  rewrite run_cons by done. cbn [snd]. apply (Hh (run hs) st (run_done hs) Hd).
Qed.

Lemma Passes_weaken h (R S : HState -> HState -> Prop) :
  (forall st st1, R st st1 -> S st st1) -> Passes h R -> Passes h S.
Proof using.
  intros HRS Hh next st Hn Hd. destruct (Hh next st Hn Hd) as [H1 [H2|(st1 & HR & H2)]]; split; auto.
  right. exists st1. auto.
Qed.
End chain.

#[export] Hint Resolve Once_FailC Once_abort_json Once_abort Once_abort_then : http.

Ltac once_step :=
  match goal with
  | |- forall _, _ => intro
  | |- Wraps _ => intros ? ?
  | H : Once ?m |- Once ?m => exact H
  | H : Once ?m |- Once (mbind _ ?m) => apply Once_then; [exact H|solve [solve_http]]
  | |- Once (mbind _ Abort) => apply Once_abort_then
  | |- Once (mbind _ _) => apply Once_bind; [solve [solve_http]|]
  | |- Once (or_fail _ _ _) => apply Once_or_fail; [solve [solve_http]|]
  | |- Once (match ?x with _ => _ end) => destruct x
  | |- Once _ => solve [eauto with http]
  | |- Once (?f ?a) => let h := get_head (f a) in unfold h
  end.
Ltac solve_once := repeat once_step.

(** ** Which parts of a request a link keeps *)
Section keeping.
Context {libs : Libs} {rd : Redis}.
Implicit Types st : HState.

Definition request_of st : string * string * (string -> string) * string :=
  (Method (gin st), FullPath (gin st), Headers (gin st), RemoteAddr (gin st)).
(** The request line and headers are the same. *)
Definition kept st st1 : Prop := request_of st1 = request_of st.
(** The context too. *)
Definition same_context st st1 : Prop := kept st st1 /\ Context_ (gin st1) = Context_ (gin st).

#[global] Instance kept_preorder : PreOrder kept.
Proof using. split; [done|]. unfold kept. intros a b c -> ->. done. Qed.
#[global] Instance same_context_preorder : PreOrder same_context.
Proof using.
  split; [done|]. intros a b c [H1 H2] [H3 H4]. split; [by etrans|congruence].
Qed.

Context (R : HState -> HState -> Prop) {Rpre : PreOrder R}.

(** No step, no reply: only a move along [R]. *)
Definition Gentle {A} (m : HTTP A) : Prop :=
  forall st, done (m st).2 = done st /\ log_of (m st).2 = log_of st /\ R st (m st).2.

Lemma Gentle_bind {A B} (m : HTTP A) (k : A -> HTTP B) : Gentle m -> (forall a, Gentle (k a)) -> Gentle (m ≫= k).
Proof using Rpre.
  intros Hm Hk st. unfold mbind, H_bind. specialize (Hm st). destruct (m st) as [a st1]. cbn in *.
  destruct Hm as (H1 & H2 & H3), (Hk a st1) as (H4 & H5 & H6). split_and!; [congruence..|]. by etrans.
Qed.

Definition Via (next m : HTTP unit) : Prop :=
  forall st, (forall st', done (next st').2 = true) -> done st = false ->
  done (m st).2 = true /\
  (log_of (m st).2 = log_of st \/
   exists st1, R st st1 /\ log_of st1 = log_of st /\ done st1 = false /\ log_of (m st).2 = log_of (next st1).2).

Lemma Via_Passes (h : Middleware) : (forall next, Via next (h next)) -> Passes h R.
Proof using. intros Hh next st Hn Hd. by apply Hh. Qed.

Lemma Via_next next : Via next next.
Proof using Rpre. intros st Hn Hd. split; [apply Hn|]. right. exists st. done. Qed.

Lemma Via_bind {A} next (m : HTTP A) k : Gentle m -> (forall a, Via next (k a)) -> Via next (m ≫= k).
Proof using Rpre.
  intros Hm Hk st Hn Hd. unfold mbind, H_bind. specialize (Hm st). destruct (m st) as [a st1]. cbn in *.
  destruct Hm as (H1 & H2 & H3). destruct (Hk a st1 Hn) as [H4 H5]; [congruence|]. split; [done|].
  destruct H5 as [H5|(st2 & H5 & H6 & H7 & H8)]; [left; congruence|right].
  exists st2. split_and!; [by etrans|congruence..].
Qed.

Lemma Via_after next (k : HTTP unit) :
  Quietly k -> (forall st, done st = true -> done (k st).2 = true) -> Via next (next;; k).
Proof using Rpre.
  intros Hq Hd st Hn Hst. unfold mbind, H_bind. specialize (Hn st). destruct (next st) as [[] st1] eqn:E. cbn in *.
  split; [by apply Hd|]. right. exists st. rewrite E. split_and!; [done..|]. by rewrite Hq.
Qed.

Lemma Via_silent next (k : HTTP unit) : Quietly k -> Silent k -> Via next (next;; k).
Proof using Rpre. intros Hq Hs. apply Via_after; [done|]. intros st Hd. by rewrite (proj2 (Hs st)). Qed.

Lemma Via_answer next m : Quietly m -> (forall st, done (m st).2 = true) -> Via next m.
Proof using. intros Hq Hd st _ _. split; [apply Hd|]. left. apply Hq. Qed.

Lemma Via_or_fail {A} next (m : HTTP (Result A)) f k :
  Gentle m -> (forall a, Via next (k a)) -> Via next (or_fail m f k).
Proof using Rpre.
  intros Hm Hk. apply Via_bind; [done|]. intros [a|e]; [apply Hk|].
  apply Via_answer; [apply Quietly_FailC|apply FailC_done].
Qed.
Lemma Via_FailC next err : Via next (FailC err).
Proof using. apply Via_answer; [apply Quietly_FailC|apply FailC_done]. Qed.
Lemma Via_abort_json next status r : Via next (AbortWithStatusJSON status r).
Proof using. by apply Via_answer. Qed.
Lemma Via_abort_then next status j : Via next (Abort;; JSON status j).
Proof using. by apply Via_answer. Qed.
Lemma Via_abort next status : Via next (AbortWithStatus status).
Proof using. by apply Via_answer. Qed.
End keeping.

(** A call that only reads is gentle for both relations. *)
Lemma Gentle_call {libs : Libs} {rd : Redis} R {A} (m : M A) :
  (forall st w, R st (mkH (gin st) w (store st) (events st))) -> ReadOnly m -> Gentle R (call m).
Proof.
  intros HR Hm st. unfold call. specialize (Hm (world st)). destruct (m (world st)) as [r w] eqn:E. cbn in *.
  split_and!; [done|exact Hm|apply HR].
Qed.
Lemma Gentle_call_store {libs : Libs} {rd : Redis} R {A} (f : Store -> A * Store) :
  (forall st x, R st (mkH (gin st) (world st) x (events st))) -> Gentle R (call_store f).
Proof. intros HR st. unfold call_store. destruct (f (store st)). split_and!; [done..|apply HR]. Qed.

Ltac gentle_step :=
  match goal with
  | |- forall _, _ => intro
  | |- Gentle _ (mbind _ _) => apply Gentle_bind; [apply _|..]
  | |- Gentle _ (modify_gin _) => intro; repeat split
  | |- Gentle _ get_gin => intro; repeat split
  | |- Gentle _ (mret _) => intro; repeat split
  | |- Gentle _ (emit _) => intro; repeat split
  | |- Gentle _ (call_store _) => apply Gentle_call_store; intros; repeat split
  | |- Gentle _ (call _) => apply Gentle_call; [intros; repeat split|solve [solve_readonly]]
  | |- Gentle _ (match ?x with _ => _ end) => destruct x
  | |- Gentle _ ?m => let h := get_head m in unfold h
  end.
Ltac solve_gentle := repeat gentle_step.

Ltac via_step :=
  match goal with
  | |- forall _, _ => intro
  | |- Passes _ _ => apply Via_Passes
  | |- Via _ ?n ?n => apply Via_next; apply _
  | |- Via _ ?n (mbind _ ?n) => apply Via_silent; [apply _|solve [solve_http]..]
  | |- Via _ _ (FailC _) => apply Via_FailC
  | |- Via _ _ (AbortWithStatusJSON _ _) => apply Via_abort_json
  | |- Via _ _ (AbortWithStatus _) => apply Via_abort
  | |- Via _ _ (mbind _ Abort) => apply Via_abort_then
  | |- Via _ _ (mbind _ _) => apply Via_bind; [apply _|solve [solve_gentle]|]
  | |- Via _ _ (or_fail _ _ _) => apply Via_or_fail; [apply _|solve [solve_gentle]|]
  | |- Via _ _ (match ?x with _ => _ end) => destruct x
  | |- Via _ _ ?m => let h := get_head m in unfold h
  end.
Ltac solve_via := repeat via_step.
