(* ===== verification/HttpSpec.v ===== *)
(** * The HTTP transport: theorems

    Every request to a registered route is answered exactly once; a change of
    the database needs a credential and, on administrative routes, a
    permission; replays of idempotent requests; what replies carry. *)

From S2P Require Import Prelude.
From S2P Require Import GoStrings.
From S2P Require Import Encoding.
From S2P Require Import AppError.
From S2P Require Import Platform.
From S2P Require Import PathMatch.
From S2P Require Import Configuration.
From S2P Require Import Model.
From S2P Require Import Runtime.
From S2P Require Import RequestContext.
From S2P Require Import Token.
From S2P Require Import ServiceBase.
From S2P Require Import Concrete.
From S2P Require Import Sessions.
From S2P Require Import Auth.
From S2P Require Import Json.
From S2P Require Import Messages.
From S2P Require Import Http.
From S2P Require Import HttpLogic.
From S2P Require Import Health.
From S2P Require Import Handlers.
From S2P Require Import Middleware.
From S2P Require Import Router.
From S2P Require Import Grpc.
From S2P Require Import ConcreteWeb.
Open Scope Z_scope.

Section http_spec.
Context {libs : Libs} {wl : WebLibs} {env : Env}.
Implicit Types (st : HState) (s : Server).

(** ** One reply per request *)

Lemma Silent_time_Now : Silent handler.time_Now.
Proof using. done. Qed.
#[local] Hint Resolve Silent_time_Now : http.

(** A route of the group: at most its own rate limit, then the handler. *)
Inductive api_handlers s : list Middleware -> HTTP unit -> Prop :=
| plain_route m : api_handlers s [final m] m
| limited_route d m : api_handlers s [Router.login_limit s d; final m] m.

Lemma api_shape s : Forall (fun r => exists m, api_handlers s r.2 m /\ Answers m) (Router.api_routes s).
Proof using.
  unfold Router.api_routes. apply Forall_forall. intros r Hr. repeat (apply elem_of_cons in Hr as [->|Hr]);
    [..|by apply elem_of_nil in Hr].
  all: eexists; split; [first [apply plain_route|apply limited_route]|]; solve_http.
Qed.

Lemma wraps_Timeout t : Wraps (Middlewares.Timeout t).
Proof using.
  intros next Hn. apply Once_bind; [solve_http|]. intros c. apply Once_bind; [solve_http|]. intros _.
  apply Once_after; [done|]. intros st Hr. unfold mbind, H_bind, get_gin. cbn beta iota.
  unfold Written. rewrite bool_decide_true by done. by rewrite andb_false_r.
Qed.

Lemma wraps_global s : Forall Wraps (Router.global_chain s).
Proof using.
  unfold Router.global_chain. repeat apply Forall_cons_2; try apply Forall_nil_2.
  all: try solve [solve_once]. apply wraps_Timeout.
Qed.

Lemma wraps_api s : Forall Wraps (Router.api_chain s).
Proof using. unfold Router.api_chain. repeat apply Forall_cons_2; try apply Forall_nil_2. all: solve_once. Qed.

Lemma once_api s r : r ∈ Router.api s -> Once (run (route_handlers r)).
Proof using.
  intros ([path hs] & -> & Hin)%list_elem_of_fmap. cbn [route_handlers]. apply Once_run; [apply wraps_api|].
  pose proof (api_shape s) as Hs. rewrite Forall_forall in Hs. destruct (Hs _ Hin) as (m & Hm & Ha). cbn in Hm.
  destruct Hm; [|apply Once_run_cons; [solve_once|]]; by apply Once_run_final.
Qed.

Lemma Answers_external path : Answers (c ← get_gin; modify_gin (add_reply (external path c))).
Proof using. intros st. by eexists. Qed.

Lemma pprof_handlers auth r :
  r ∈ Router.registerPprof auth -> exists p, route_handlers r = [auth; Router.external_handler p].
Proof using.
  intros Hr. unfold Router.registerPprof in Hr. cbn in Hr.
  repeat (apply elem_of_cons in Hr as [->|Hr]; [by eexists|]). by apply elem_of_nil in Hr.
Qed.

Lemma once_pprof auth r : Wraps auth -> r ∈ Router.registerPprof auth -> Once (run (route_handlers r)).
Proof using.
  intros Ha [p ->]%pprof_handlers. apply Once_run_cons; [done|]. apply Once_run_final, Answers_external.
Qed.

Lemma once_public s r : r ∈ Router.public_routes s -> Once (run (route_handlers r)).
Proof using.
  unfold Router.public_routes. rewrite !elem_of_app. intros [H|[H|[H|[H|H]]]].
  - cbn in H. repeat (apply elem_of_cons in H as [->|H]; [apply Once_run_final; solve_http|]). by apply elem_of_nil in H.
  - apply list_elem_of_singleton in H as ->. apply Once_run_final; solve_http.
  - destruct (s_metrics s); [|by apply elem_of_nil in H]. apply list_elem_of_singleton in H as ->.
    apply Once_run_final, Answers_external.
  - destruct (Config.Observability.PprofEnabled _); [|by apply elem_of_nil in H].
    apply once_pprof in H; [done|]. solve_once.
  - destruct (Config.Swagger.Enabled _); [|by apply elem_of_nil in H]. apply list_elem_of_singleton in H as ->.
    cbn [route_handlers]. apply Once_run; [|apply Once_run_final, Answers_external].
    destruct (Config.Swagger.RequireAuth _); [|constructor]. apply Forall_singleton. solve_once.
Qed.

(** ** Who may change the database *)

Lemma passes_RateLimit l rule dim key : Passes (Middlewares.RateLimit l rule dim key) same_context.
Proof using. solve_via. Qed.

Lemma passes_Idempotency m paths : Passes (Middlewares.IdempotencyExecution m paths) same_context.
Proof using. solve_via. Qed.

Lemma passes_Timeout t : Passes (Middlewares.Timeout t) kept.
Proof using.
  apply Via_Passes. intros next. unfold Middlewares.Timeout.
  do 2 (apply Via_bind; [apply _|solve_gentle|]; intros ?).
  apply Via_after; [apply _|..].
  - intros st. unfold mbind, H_bind, get_gin. cbn beta iota. destruct (_ && _); [apply Quietly_FailC|done].
  - intros st Hd. unfold mbind, H_bind, get_gin. cbn beta iota. destruct (_ && _); [apply FailC_done|done].
Qed.

Lemma passes_global s : Forall (fun h => Passes h kept) (Router.global_chain s).
Proof using.
  unfold Router.global_chain. repeat apply Forall_cons_2; try apply Forall_nil_2.
  all: try solve [solve_via]. apply passes_Timeout.
Qed.

(** A chain of links that keep the request, in front of [hs]. *)
Lemma run_prefix (R : HState -> HState -> Prop) `{!PreOrder R} pre hs st :
  Forall (fun h => Passes h R) pre -> done st = false ->
  log_of (run (pre ++ hs) st).2 = log_of st \/
  exists st1, R st st1 /\ log_of st1 = log_of st /\ done st1 = false /\
    log_of (run (pre ++ hs) st).2 = log_of (run hs st1).2.
Proof using.
  intros Hp. revert st. induction Hp as [|h pre Hh _ IH]; intros st Hd; [right; by exists st|].
  destruct (Passes_run h R (pre ++ hs) st Hh Hd) as [H|(st1 & H1 & H2 & H3 & H4)]; [by left|].
  destruct (IH st1 H3) as [H|(st2 & H5 & H6 & H7 & H8)]; [left; cbn [app]; congruence|].
  right. exists st2. cbn [app]. split_and!; [by etrans|congruence..].
Qed.

(** What a successful authentication leaves for the rest of the chain. *)
Definition authenticated (a : auth.Service) (cfg : Config.Auth.t) st st1 : Prop :=
  kept st st1 /\
  policy_Authenticate (auth.HTTPPolicy a cfg) (Context_ (gin st)) (FullPath (gin st))
    (Headers (gin st) "Authorization") (world st) = (Ok (Context_ (gin st1)), world st1).

(** The permission the route requires has been granted to the context. *)
Definition authorized (enabled : bool) st st1 : Prop :=
  same_context st st1 /\
  forall rq, enabled = true -> Middlewares.identityHTTPRequirement (FullPath (gin st)) = Some rq ->
    Enforce (Context_ (gin st)) rq (world st) = (Ok None, world st1).

Lemma passes_Authentication a cfg :
  (forall c t h, ReadOnly (policy_Authenticate (auth.HTTPPolicy a cfg) c t h)) ->
  Passes (Middlewares.Authentication a cfg) (authenticated a cfg).
Proof using.
  intros Hro next st Hn Hd. unfold Middlewares.Authentication, or_fail, mbind, H_bind, get_gin, call.
  pose proof (Hro (Context_ (gin st)) (FullPath (gin st)) (Headers (gin st) "Authorization") (world st)) as Hlog.
  destruct (policy_Authenticate _ _ _ _ _) as [[ctx|e] w] eqn:E; cbn [fst snd] in *.
  2:{ split; [apply FailC_done|]. left. rewrite Quietly_FailC. exact Hlog. }
  set (st1 := (match principal_FromContext ctx with Some p => modify_gin (set_key "subject" (PID p))
                | None => mret tt end (mkH (set_context ctx (gin st)) w (store st) (events st))).2).
  assert (world st1 = w /\ Context_ (gin st1) = ctx /\ kept st st1 /\ done st1 = false) as (H1 & H2 & H3 & H4)
    by (unfold st1; destruct (principal_FromContext ctx); done).
  assert ((let '(_, st') := modify_gin (set_context ctx) (mkH (gin st) w (store st) (events st)) in
           let '(_, st'0) := match principal_FromContext ctx with
             | Some p => modify_gin (set_key "subject" (PID p)) | None => mret tt end st' in next st'0)
          = next st1) as -> by (unfold st1; by destruct (principal_FromContext ctx)).
  split; [apply Hn|]. right. exists st1. split_and!; [|by unfold log_of; rewrite H1|done|done].
  split; [done|]. by rewrite E, H2, H1.
Qed.

Lemma passes_Authorization enabled :
  (forall c r, ReadOnly (Enforce c r)) -> Passes (Middlewares.Authorization enabled) (authorized enabled).
Proof using.
  intros Hro next st Hn Hd. unfold Middlewares.Authorization, mbind, H_bind, get_gin, call.
  destruct (Middlewares.identityHTTPRequirement _) as [rq|] eqn:Er.
  2:{ split; [apply Hn|]. right. exists st. split; [|by split_and!].
      split; [reflexivity|]. intros rq _ Hrq. by rewrite Er in Hrq. }
  destruct enabled; cbn [negb].
  2:{ split; [apply Hn|]. right. exists st. split; [|by split_and!]. split; [reflexivity|]. intros rq' [=]. }
  specialize (Hro (Context_ (gin st)) rq (world st)).
  destruct (Enforce _ rq _) as [[[ref|]|e] w] eqn:E; cbn [fst snd] in *.
  - destruct (unavailable ref); (split; [apply FailC_done|]; left; rewrite Quietly_FailC; exact Hro).
  - split; [apply Hn|]. right. eexists. split; [|split; [|split; [|reflexivity]]]; [|exact Hro|done].
    split; [split; reflexivity|]. intros rq' _ Hrq. rewrite Er in Hrq. injection Hrq as <-. exact E.
  - split; [apply FailC_done|]; left; rewrite Quietly_FailC; exact Hro.
Qed.

(** One link of the chain in hypothesis [E], with its [Passes] lemma [P]. *)
Ltac pass_link P E D st1 K L :=
  match type of E with
  | _ = log_of (run (_ :: ?hs) ?st).2 =>
      let D1 := fresh "Hd" in let E1 := fresh "E" in
      destruct (Passes_run _ _ hs st P D) as [?|(st1 & K & L & D1 & E1)]; [left; congruence|];
      rewrite E1 in E; clear E1 D; rename D1 into D
  end.

(** The gate of the group: a change passes authentication and authorization. *)
Lemma api_gate {al : AuthnLaws} {zl : AuthzLaws} s ids hs st :
  s_auth s = auth.NewWithIdentity (s_cfg s) ids -> done st = false ->
  log_of (run (Router.api_chain s ++ hs) st).2 = log_of st \/
  exists st1 st2 st3 st4, same_context st st1 /\ authenticated (s_auth s) (Config.Auth (s_cfg s)) st1 st2 /\
    authorized (Config.Authorization.Enabled (Config.Authorization (s_cfg s))) st2 st3 /\ same_context st3 st4 /\
    log_of st4 = log_of st /\ done st4 = false /\
    log_of (run (Router.api_chain s ++ hs) st).2 = log_of (run hs st4).2.
Proof using.
  intros Hauth Hd.
  assert (forall c t h, ReadOnly (policy_Authenticate (auth.HTTPPolicy (s_auth s) (Config.Auth (s_cfg s))) c t h)) as Hro.
  { intros c t h. apply authenticate_readonly. intros c' raw. rewrite Hauth. apply ReadOnly_bearer. }
  remember (log_of (run (Router.api_chain s ++ hs) st).2) as final_log eqn:E.
  unfold Router.api_chain in E. cbn [app] in E.
  pose proof (passes_RateLimit (s_limiter s)) as Hrl.
  pass_link (Hrl (Config.RateLimit.IP (Config.RateLimit (s_cfg s))) "ip" Router.client_ip) E Hd st1 K1 L1.
  pass_link (Hrl (Config.RateLimit.API (Config.RateLimit (s_cfg s))) "api" FullPath) E Hd st2 K2 L2.
  pass_link (passes_Authentication (s_auth s) (Config.Auth (s_cfg s)) Hro) E Hd st3 K3 L3.
  pass_link (passes_Authorization (Config.Authorization.Enabled (Config.Authorization (s_cfg s))) enforce_readonly)
    E Hd st4 K4 L4.
  pass_link (Hrl (Config.RateLimit.User (Config.RateLimit (s_cfg s))) "user" Router.subject_of) E Hd st5 K5 L5.
  pass_link (passes_Idempotency (s_manager s) (Config.Idempotency.HTTPPaths (Config.Idempotency (s_cfg s))))
    E Hd st6 K6 L6.
  right. exists st2, st3, st4, st6. split_and!; [by etrans|exact K3|exact K4|by etrans|congruence|exact Hd|exact E].
Qed.

(** What has happened when the handlers of a route run in the context [ctx]. *)
Definition admitted (s : Server) st (path : string) (ctx : Ctx) : Prop :=
  exists st0 w1,
    kept st st0 /\
    authentication_passed (auth.HTTPPolicy (s_auth s) (Config.Auth (s_cfg s))) (Context_ (gin st0)) path
      (Headers (gin st) "Authorization") (world st0) ctx w1 /\
    (forall rq, Config.Authorization.Enabled (Config.Authorization (s_cfg s)) = true ->
       Middlewares.identityHTTPRequirement path = Some rq ->
       exists w2 w3, Enforce ctx rq w2 = (Ok None, w3)).

(** A request of the API is stopped without a change, or it is admitted and
    its handlers run once. *)
Lemma serve_admitted {al : AuthnLaws} {zl : AuthzLaws} s ids path hs st :
  s_auth s = auth.NewWithIdentity (s_cfg s) ids -> FullPath (gin st) = "/api/v1" +:+ path -> done st = false ->
  log_of (run (Router.global_chain s ++ Router.api_chain s ++ hs) st).2 = log_of st \/
  exists st2, admitted s st ("/api/v1" +:+ path) (Context_ (gin st2)) /\ log_of st2 = log_of st /\ done st2 = false /\
    log_of (run (Router.global_chain s ++ Router.api_chain s ++ hs) st).2 = log_of (run hs st2).2.
Proof using.
  intros Hauth Hpath Hd.
  destruct (run_prefix kept _ (Router.api_chain s ++ hs) st (passes_global s) Hd) as [?|(st0 & K0 & L0 & D0 & E0)]; [by left|].
  rewrite E0 in *.
  destruct (api_gate s ids hs st0 Hauth D0) as [?|(st1 & st2 & st3 & st4 & K1 & [K2 A2] & [K3 A3] & K4 & L4 & D4 & E)];
    [left; congruence|right].
  assert (kept st st1) as K by (etrans; [exact K0|apply K1]).
  assert (FullPath (gin st1) = "/api/v1" +:+ path /\ Headers (gin st1) = Headers (gin st)) as [HF HH].
  { unfold kept, request_of in K. injection K as _ HF HH _. by rewrite HF, HH, Hpath. }
  exists st4. split_and!; [|congruence|done|done]. exists st1, (world st2). rewrite (proj2 K4), (proj2 K3). split_and!; [done| |].
  - rewrite HF, HH in A2. by apply authenticate_sound in A2.
  - intros rq Hen Hrq. exists (world st2), (world st3). apply A3; [done|].
    injection K2 as _ HF2 _ _. by rewrite HF2, HF.
Qed.


Lemma route_of_elem routes c r : Router.route_of routes c = Some r -> r ∈ routes /\ Router.matches c r.
Proof using.
  unfold Router.route_of. intros H%head_Some_elem_of. apply list_elem_of_filter in H as [H1 H2]. done.
Qed.

Lemma NewServer_Ok s routes : Router.NewServer s = Ok routes -> routes = Router.public_routes s ++ Router.api s.
Proof using. unfold Router.NewServer. destruct (SetTrustedProxies _); congruence. Qed.

(** C20: Every request is answered, and only once.  For every route the
    server registers, public or of the API, serving a request ends with
    exactly one reply, whichever middleware stops it, whatever the identity
    service, the store and the libraries return. *)
Theorem every_request_answered_once s routes r st :
  Router.NewServer s = Ok routes -> r ∈ routes -> done st = false -> replies st = [] ->
  exists reply, replies (Router.serve s r st).2 = [reply].
Proof using.
  intros ->%NewServer_Ok Hr Hd Hrep.
  assert (Once (run (route_handlers r))) as Ho
    by (apply elem_of_app in Hr as [Hr|Hr]; [by eapply once_public|by eapply once_api]).
  destruct (Once_run _ _ (wraps_global s) Ho st Hd) as [_ [reply Hreply]]. exists reply.
  unfold Router.serve. by rewrite Hreply, Hrep.
Qed.
End http_spec.

(** ** Witnesses *)
Section witnesses.
Import Concrete ConcreteWeb.
#[local] Instance env0 : Env := quiet noon 0.

Definition carol : Json.json := JObject [("username", JString "carol"); ("display_name", JString "Carol");
  ("email", JString "carol@example.com"); ("password", JString "a long password")].
Definition register_request : HState :=
  received (post "/api/v1/identities/register"
    [("Authorization", "Bearer " +:+ access_token "admin" "service_account" "")] carol) db.

(** The route a request is served by. *)
Definition routed (st : HState) : Route :=
  default (mkRoute "" "" []) (Router.route_of (Router.api server_of) (gin st)).
Lemma routed_in st :
  match Router.route_of (Router.api server_of) (gin st) with Some _ => true | None => false end = true ->
  routed st ∈ Router.api server_of /\ Router.matches (gin st) (routed st).
Proof.
  unfold routed. destruct (Router.route_of _ _) as [r|] eqn:E; [|done]. intros _.
  apply route_of_elem in E as [H1 H2]. done.
Qed.
Definition register_route : Route := routed register_request.


Lemma answered_once_witness : exists reply,
  replies (Router.serve server_of register_route register_request).2 = [reply].
Proof.
  apply (every_request_answered_once server_of (Router.public_routes server_of ++ Router.api server_of)).
  - reflexivity.
  - apply elem_of_app. right. apply routed_in. vm_compute. reflexivity.
  - reflexivity.
  - reflexivity.
Defined.
End witnesses.
