(* ===== verification/EnvelopeSpec.v ===== *)
(** * What replies look like: theorems

    Every reply of a route of the API is the envelope of [response.go] with
    the id of its request, the permission table fits the routes, and a caller
    over a rate limit is told when to come back. *)

From S2P Require Import Prelude.
From S2P Require Import GoStrings.
From S2P Require Import AppError.
From S2P Require Import Platform.
From S2P Require Import Configuration.
From S2P Require Import ConfigSpec.
From S2P Require Import Model.
From S2P Require Import Runtime.
From S2P Require Import RequestContext.
From S2P Require Import Token.
From S2P Require Import ServiceBase.
From S2P Require Import Concrete.
From S2P Require Import Auth.
From S2P Require Import Json.
From S2P Require Import Messages.
From S2P Require Import Http.
From S2P Require Import HttpLogic.
From S2P Require Import Health.
From S2P Require Import Handlers.
From S2P Require Import Middleware.
From S2P Require Import Router.
From S2P Require Import HttpSpec.
From S2P Require Import Grpc.
From S2P Require Import ConcreteWeb.
Open Scope Z_scope.

Section envelope.
Context {libs : Libs} {wl : WebLibs} {env : Env}.
Implicit Types st : HState.

(** The request id is in the keys and in the response header, and the request
    has this method. *)
Definition tagged (id method : string) (c : Gin) : Prop :=
  requestID c = id /\ ResponseHeaders c !! "X-Request-ID" = Some id /\ Method c = method.

(** The envelope of [response.go], with that id. *)
Definition envelope (id : string) (r : Reply) : Prop :=
  exists e, ReplyBody r = Some (Response.to_json e) /\ Response.RequestID e = id.

(** An envelope, or the empty answer to a preflight request. *)
Definition is_envelope (id method : string) (r : Reply) : Prop :=
  envelope id r \/ (method = "OPTIONS" /\ ReplyStatus r = 204 /\ ReplyBody r = None).

Section judgement.
Context (id method : string).

Definition Enveloped {A} (m : HTTP A) : Prop := forall st, tagged id method (gin st) ->
  tagged id method (gin (m st).2) /\ exists l, replies (m st).2 = replies st ++ l /\ Forall (is_envelope id method) l.

Lemma Enveloped_bind {A B} (m : HTTP A) (k : A -> HTTP B) : Enveloped m -> (forall a, Enveloped (k a)) -> Enveloped (m ≫= k).
Proof using.
  intros Hm Hk st Ht. unfold mbind, H_bind. destruct (Hm st Ht) as (Ht1 & l1 & E1 & F1). destruct (m st) as [a st1].
  cbn in *. destruct (Hk a st1 Ht1) as (Ht2 & l2 & E2 & F2). split; [done|]. exists (l1 ++ l2).
  rewrite E2, E1, app_assoc. split; [done|]. by apply Forall_app.
Qed.
Lemma Enveloped_get {A} (k : Gin -> HTTP A) : (forall c, requestID c = id -> Method c = method -> Enveloped (k c)) -> Enveloped (get_gin ≫= k).
Proof using. intros Hk st Ht. unfold mbind, H_bind, get_gin. apply Hk; [apply Ht..|done]. Qed.
Lemma Enveloped_silent {A} (m : HTTP A) : (forall st, gin (m st).2 = gin st) -> Enveloped m.
Proof using. intros Hm st Ht. unfold replies. rewrite Hm. split; [done|]. exists []. by rewrite app_nil_r. Qed.
Lemma Enveloped_modify f : (forall c, Replies (f c) = Replies c /\ (tagged id method c -> tagged id method (f c))) -> Enveloped (modify_gin f).
Proof using.
  intros Hf st Ht. destruct (Hf (gin st)) as [H1 H2]. split; [by apply H2|]. exists []. rewrite app_nil_r. done.
Qed.
Lemma Enveloped_call {A} (m : M A) : Enveloped (call m).
Proof using. apply Enveloped_silent. intros st. unfold call. by destruct (m (world st)). Qed.
Lemma Enveloped_store {A} (f : Store -> A * Store) : Enveloped (call_store f).
Proof using. apply Enveloped_silent. intros st. unfold call_store. by destruct (f (store st)). Qed.
Lemma Enveloped_JSON status r : Response.RequestID r = id -> Enveloped (JSON status (Response.to_json r)).
Proof using.
  intros Hr st Ht. split; [done|]. eexists. split; [done|]. apply Forall_singleton. left. by exists r.
Qed.
Lemma Enveloped_Abort : Enveloped Abort.
Proof using. by apply Enveloped_modify. Qed.
Lemma Enveloped_abort_json status r : Response.RequestID r = id -> Enveloped (AbortWithStatusJSON status r).
Proof using. intros Hr. apply Enveloped_bind; [apply Enveloped_Abort|]. intros _. by apply Enveloped_JSON. Qed.
Lemma Enveloped_preflight : method = "OPTIONS" -> Enveloped (AbortWithStatus 204).
Proof using.
  intros Hm. apply Enveloped_bind; [|intros _; apply Enveloped_Abort]. intros st Ht. split; [done|]. eexists. split; [done|].
  apply Forall_singleton. by right.
Qed.
Lemma Enveloped_FailC err : Enveloped (FailC err).
Proof using.
  apply Enveloped_get. intros c Hc _.
  destruct (match errors_As err with Some x => x | None => _ end) as [[[code msg] status] cause].
  apply Enveloped_bind; [|intros _; by apply Enveloped_abort_json]. case_decide; by apply Enveloped_silent.
Qed.
Lemma Enveloped_OK body : Enveloped (OK body).
Proof using. apply Enveloped_get. intros c Hc _. by apply Enveloped_JSON. Qed.
Lemma Enveloped_or_fail {A} (m : HTTP (Result A)) f k : Enveloped m -> (forall a, Enveloped (k a)) -> Enveloped (or_fail m f k).
Proof using. intros Hm Hk. apply Enveloped_bind; [done|]. intros [a|e]; [apply Hk|apply Enveloped_FailC]. Qed.

Lemma Enveloped_run hs : Forall (fun h : Middleware => forall next, Enveloped next -> Enveloped (h next)) hs -> Enveloped (run hs).
Proof using.
  induction 1 as [|h hs Hh _ IH]; cbn [run]; intros st Ht; unfold unless_done; destruct (Done (gin st)).
  1, 3: split; [done|]; exists []; by rewrite app_nil_r.
  - by apply Enveloped_Abort.
  - apply Enveloped_bind; [by apply Hh|done|done].
Qed.

End judgement.

Lemma tagged_key id mt k v c : k <> "request_id" -> tagged id mt c -> tagged id mt (set_key k v c).
Proof using. intros Hk [H1 H2]. split; [|done]. unfold requestID in *. cbn. by rewrite lookup_insert_ne. Qed.
Lemma tagged_header id mt k v c : k <> "X-Request-ID" -> tagged id mt c -> tagged id mt (set_header k v c).
Proof using. intros Hk (H1 & H2 & H3). split; [done|]. split; [|done]. cbn. by rewrite lookup_insert_ne. Qed.
End envelope.

Ltac env_step :=
  match goal with
  | |- forall _, _ => intro
  | H : Enveloped ?i ?t ?m |- Enveloped ?i ?t ?m => exact H
  | |- Enveloped _ _ (mbind _ get_gin) => apply Enveloped_get; intros ? ? ?
  | |- Enveloped _ _ (mbind _ _) => apply Enveloped_bind
  | |- Enveloped _ _ (or_fail _ _ _) => apply Enveloped_or_fail
  | |- Enveloped _ _ (modify_gin (set_key _ _)) => apply Enveloped_modify; intros ?; split; [reflexivity|by apply tagged_key]
  | |- Enveloped _ _ (modify_gin (set_header _ _)) => apply Enveloped_modify; intros ?; split; [reflexivity|by apply tagged_header]
  | |- Enveloped _ _ (modify_gin _) => apply Enveloped_modify; intros ?; split; [reflexivity|exact (fun H => H)]
  | |- Enveloped _ _ (FailC _) => apply Enveloped_FailC
  | |- Enveloped _ _ (OK _) => apply Enveloped_OK
  | |- Enveloped _ _ (AbortWithStatusJSON _ _) => apply Enveloped_abort_json; assumption
  | |- Enveloped _ _ (AbortWithStatus 204) => apply Enveloped_preflight; congruence
  | |- Enveloped _ _ Abort => apply Enveloped_Abort
  | |- Enveloped _ _ (JSON _ (Response.to_json _)) => apply Enveloped_JSON; assumption
  | |- Enveloped _ _ (mret _) => apply Enveloped_silent; reflexivity
  | |- Enveloped _ _ get_gin => apply Enveloped_silent; reflexivity
  | |- Enveloped _ _ (emit _) => apply Enveloped_silent; reflexivity
  | |- Enveloped _ _ (fun st => (_, st)) => apply Enveloped_silent; reflexivity
  | |- Enveloped _ _ handler.time_Now => apply Enveloped_silent; reflexivity
  | |- Enveloped _ _ (call _) => apply Enveloped_call
  | |- Enveloped _ _ (call_store _) => apply Enveloped_store
  | |- Enveloped _ _ (match ?x with _ => _ end) => destruct x
  | |- Enveloped _ _ ?m => let h := get_head m in unfold h
  end.
Ltac solve_env := repeat env_step.

Section theorems.
Context {libs : Libs} {wl : WebLibs} {env : Env}.
Implicit Types st : HState.

Abbreviation keeps_envelopes id mt := (fun h : Middleware => forall next, Enveloped id mt next -> Enveloped id mt (h next)).

Lemma global_envelopes id mt s : Forall (keeps_envelopes id mt) (tail (Router.global_chain s)).
Proof using.
  unfold Router.global_chain. cbn [tail]. repeat apply Forall_cons_2; try apply Forall_nil_2. all: intros next Hn.
  all: solve_env.
Qed.

Lemma api_envelopes id mt s : Forall (keeps_envelopes id mt) (Router.api_chain s).
Proof using.
  unfold Router.api_chain. repeat apply Forall_cons_2; try apply Forall_nil_2. all: intros next Hn; solve_env.
Qed.

Lemma route_envelopes id mt s r : r ∈ Router.api_routes s -> Forall (keeps_envelopes id mt) r.2.
Proof using.
  intros Hr. unfold Router.api_routes in Hr. repeat (apply elem_of_cons in Hr as [->|Hr]); [..|by apply elem_of_nil in Hr].
  all: cbn [snd]; repeat apply Forall_cons_2; try apply Forall_nil_2; intros next Hn; unfold final; solve_env.
Qed.

(** The id of a request: the one it brings, if that is valid, or a new one. *)
Definition request_id_of st : string :=
  if requestid.Valid (Headers (gin st) "X-Request-ID") then Headers (gin st) "X-Request-ID"
  else match (requestid.Generate (world st)).1 with Ok v => v | Err _ => "" end.

Lemma RequestID_run next st :
  exists st1, Middlewares.RequestID next st = next st1 /\ tagged (request_id_of st) (Method (gin st)) (gin st1) /\ replies st1 = replies st.
Proof using.
  unfold Middlewares.RequestID, request_id_of, mbind, H_bind, get_gin.
  destruct (requestid.Valid _); cbn; [|unfold call; destruct (requestid.Generate (world st)) as [g w]; cbn].
  all: eexists; split; [reflexivity|]; split; [split_and!|reflexivity]; try done; unfold requestID; cbn; by rewrite lookup_insert_eq.
Qed.

(** C21: Every reply of the API has the type the clients expect: exactly one
    reply is written, and to a request that the router sends to the route
    (its method and path) it is always the envelope of [response.go]; only an
    [OPTIONS] request that reaches the route's handlers may get the empty 204
    of a preflight.  The envelope and the [X-Request-ID] header carry the id of
    the request: the one it brought, if valid, or the one generated for it. *)
Theorem api_replies_are_envelopes s r st :
  r ∈ Router.api s -> done st = false -> replies st = [] ->
  let st' := (Router.serve s r st).2 in
  exists reply, replies st' = [reply] /\ is_envelope (request_id_of st) (Method (gin st)) reply /\
    (Router.matches (gin st) r -> envelope (request_id_of st) reply) /\
    ResponseHeaders (gin st') !! "X-Request-ID" = Some (request_id_of st).
Proof using.
  intros Hr Hd Hrep st'. set (id := request_id_of st).
  destruct (Once_run _ _ (wraps_global s) (once_api s r Hr) st Hd) as [_ [reply Hreply]].
  apply list_elem_of_fmap in Hr as ([path hs] & -> & Hin).
  assert (Enveloped id (Method (gin st)) (run (tail (Router.global_chain s) ++ Router.api_chain s ++ hs))) as He.
  { apply Enveloped_run, Forall_app. split; [apply global_envelopes|]. apply Forall_app.
    split; [apply api_envelopes|]. by apply (route_envelopes id _ s (path, hs)). }
  destruct (RequestID_run (run (tail (Router.global_chain s) ++ Router.api_chain s ++ hs)) st) as (st1 & E & Ht & R1).
  assert (st' = (run (tail (Router.global_chain s) ++ Router.api_chain s ++ hs) st1).2) as Hst'.
  { unfold st', Router.serve. cbn [route_handlers]. change (Router.global_chain s) with
      (Middlewares.RequestID :: tail (Router.global_chain s)). cbn [app].
    rewrite run_cons; [by rewrite E| |done]. intros next st2 Hn _.
    destruct (RequestID_run next st2) as (st3 & -> & _). apply Hn. }
  destruct (He st1 Ht) as ((_ & Hh & _) & l & Hl & Hf). rewrite <- Hst', R1, Hrep in Hl. cbn in Hl.
  rewrite <- Hst' in Hh. change (replies st' = replies st ++ [reply]) in Hreply. rewrite Hrep in Hreply. cbn in Hreply.
  rewrite Hreply in Hl. subst l. apply (proj1 (Forall_singleton _ _)) in Hf. exists reply. split; [done|]. split; [exact Hf|]. split; [|done].
  intros [Hm _]. destruct Hf as [He'|(Ho & _)]; [done|]. cbn in Hm. by rewrite Ho in Hm.
Qed.

(** ** The permission table *)

(** Routes a caller uses on its own behalf, or before it is known. *)
Definition self_service (path : string) : bool := HasPrefix path "/auth/" || bool_decide (path ∈ ["/version"; "/me"]).

(** No administrative route lacks a permission: every route of the API
    outside [/auth/], [/version] and [/me] has a requirement on a resource of
    the identity service in the platform's scope, and the self-service routes
    have none. *)
Theorem administrative_routes_guarded s path hs :
  (path, hs) ∈ Router.api_routes s ->
  match Middlewares.identityHTTPRequirement ("/api/v1" +:+ path) with
  | Some rq => self_service path = false /\ Scope rq = ScopePlatform /\ HasPrefix (Resource rq) "identity." = true
  | None => self_service path = true
  end.
Proof using.
  intros Hr. unfold Router.api_routes in Hr.
  repeat (apply elem_of_cons in Hr as [[= -> _]|Hr]; [vm_compute; repeat split; reflexivity|]).
  destruct (not_elem_of_nil _ Hr).
Qed.

(** Every entry of the table belongs to a route. *)
Lemma requirements_have_routes s route rq :
  (route, rq) ∈ Middlewares.identity_requirements -> exists r, r ∈ Router.api s /\ route_path r = route.
Proof using.
  intros Hr.
  assert (forallb (fun x => bool_decide (x.1 ∈ (route_path <$> Router.api s))) Middlewares.identity_requirements = true) as Hall
    by (vm_compute; reflexivity).
  rewrite forallb_forall in Hall. specialize (Hall (route, rq)). rewrite <- list_elem_of_In in Hall.
  apply Hall, bool_decide_eq_true in Hr. cbn [fst] in Hr. apply list_elem_of_fmap in Hr as (r & -> & Hr). eauto.
Qed.

(** ** Rate limits *)

Lemma Round_near d m : 0 < m -> 0 <= d <= int64_max - m -> exists q, Round d m = q * m /\ 0 <= q /\ 2 * Z.abs (q * m - d) <= m.
Proof using.
  intros Hm Hd. unfold Round. destruct (Z.ltb_spec d 0); [lia|]. pose proof (Z.mod_pos_bound d m Hm).
  pose proof (Z.div_mod d m ltac:(lia)) as Hdm. assert (0 <= d / m) by (apply Z.div_pos; lia).
  cbv zeta. destruct (Z.ltb_spec (2 * (d mod m)) m).
  - exists (d / m). nia.
  - destruct (Z.leb_spec (d + m - d mod m) int64_max); [|lia]. exists (d / m + 1). nia.
Qed.

(** A caller over a limit is refused without running anything: one 429
    reply, no change of the world, and [Retry-After] is at least one second
    and within half a second of what the limiter said. *)
Theorem rate_limited_refusal l b rule dim key next st v s :
  ratelimit.Enabled l = true -> ratelimit.backend l = Some b -> key (gin st) <> "" ->
  b (Context_ (gin st)) ("rate:" +:+ dim +:+ ":" +:+ key (gin st)) rule (store st) = (Ok v, s) ->
  ratelimit.BAllowed v <= 0 -> 0 <= ratelimit.BRetryAfter v <= int64_max - Second ->
  let st' := (Middlewares.RateLimit l rule dim key next st).2 in
  world st' = world st /\ done st' = true /\
  replies st' = replies st ++ [mkReply 429 (Some (Response.to_json
    (Response.mk CodeTooManyRequests "too many requests" JNull (requestID (gin st)))))] /\
  exists n, ResponseHeaders (gin st') !! "Retry-After" = Some (format_int n) /\ 1 <= n /\
    (n = 1 \/ 2 * Z.abs (n * Second - ratelimit.BRetryAfter v) <= Second).
Proof using.
  intros He Hb Hk Hv Ha Hr st'. unfold st', Middlewares.RateLimit. unfold ratelimit.Enabled in *. rewrite He. cbn [negb].
  unfold mbind, H_bind, get_gin. rewrite decide_False by done. unfold ratelimit.Allow. rewrite He, Hb. cbn [negb].
  unfold mbind, H_bind, call_store. cbn [store]. rewrite Hv. cbn.
  rewrite bool_decide_false by lia. cbn. rewrite FailC_spec. cbn. split_and!; try done.
  rewrite lookup_insert_eq. eexists. split; [done|]. split; [lia|].
  destruct (Round_near (ratelimit.BRetryAfter v) Second) as (q & -> & Hq & Hn); [done|done|].
  rewrite Z.quot_mul by done. destruct (Z.max_spec 1 q) as [[_ ->]|[_ ->]]; auto.
Qed.
End theorems.

(** ** Witnesses *)
Section witnesses.
Import Concrete ConcreteWeb.
#[local] Instance env0 : Env := quiet noon 0.

Lemma envelopes_witness : exists reply,
  replies (Router.serve server_of register_route register_request).2 = [reply] /\
  envelope (request_id_of register_request) reply /\ request_id_of register_request <> "".
Proof.
  destruct (api_replies_are_envelopes server_of register_route register_request) as (reply & H1 & _ & H2 & _).
  - apply routed_in. vm_compute. reflexivity.
  - reflexivity.
  - reflexivity.
  - exists reply. split; [exact H1|]. split; [apply H2; split; reflexivity|]. vm_compute. discriminate.
Defined.

Lemma administrative_routes_witness :
  self_service "/sessions/revoke" = false /\
  Middlewares.identityHTTPRequirement "/api/v1/sessions/revoke" = Some (mkRequirement "identity.session" "revoke" "platform").
Proof.
  assert (Middlewares.identityHTTPRequirement "/api/v1/sessions/revoke" =
    Some (mkRequirement "identity.session" "revoke" "platform")) as E by (vm_compute; reflexivity).
  split; [|exact E].
  pose proof (administrative_routes_guarded server_of "/sessions/revoke" [final (handler.RevokeSession (s_handler server_of))]) as H.
  change ("/api/v1" +:+ "/sessions/revoke") with "/api/v1/sessions/revoke" in H. rewrite E in H. apply H.
  unfold Router.api_routes. repeat (first [apply list_elem_of_here|apply list_elem_of_further]).
Defined.

(** Over the limit, with 1.4 seconds to wait. *)
Definition strict : ratelimit.Limiter :=
  ratelimit.New (Some (fun _ _ _ s => (Ok (ratelimit.mkBackend 0 0 1400000000), s))) cfg.
Lemma rate_limited_witness : exists n,
  ResponseHeaders (gin (Middlewares.RateLimit strict ConcreteConfig.rule "ip" Router.client_ip (mret tt) register_request).2)
    !! "Retry-After" = Some (format_int n) /\ 1 <= n.
Proof.
  destruct (rate_limited_refusal strict (fun _ _ _ s => (Ok (ratelimit.mkBackend 0 0 1400000000), s)) ConcreteConfig.rule "ip"
    Router.client_ip (mret tt) register_request (ratelimit.mkBackend 0 0 1400000000) (store register_request))
    as (_ & _ & _ & n & H1 & H2 & _).
  - reflexivity.
  - reflexivity.
  - discriminate.
  - reflexivity.
  - discriminate.
  - split; discriminate.
  - exists n. split; [exact H1|exact H2].
Defined.
End witnesses.
