(* ===== verification/ReplaySpec.v ===== *)
(** * Replays of idempotent requests: theorems *)

From S2P Require Import Prelude.
From S2P Require Import GoStrings.
From S2P Require Import Encoding.
From S2P Require Import Digest.
From S2P Require Import AppError.
From S2P Require Import Platform.
From S2P Require Import PathMatch.
From S2P Require Import Configuration.
From S2P Require Import Model.
From S2P Require Import Runtime.
From S2P Require Import RequestContext.
From S2P Require Import Token.
From S2P Require Import ServiceBase.
From S2P Require Import Concrete.
From S2P Require Import Auth.
From S2P Require Import Json.
From S2P Require Import JsonSpec.
From S2P Require Import Http.
From S2P Require Import HttpLogic.
From S2P Require Import Middleware.
From S2P Require Import Router.
From S2P Require Import ConcreteWeb.
Open Scope Z_scope.

(** ** Responses survive a trip through JSON *)
Section replay.
Context {libs : Libs} {env : Env} {rd : Redis} {cx : Contexts} {hs : HMACJWT} {an : Authn} {az : Authz}
  {jt : JSONText} {dl : Deadlines} {jl : JSONTextLaws}.
Implicit Types st : HState.

Definition stored (r : Response.t) : Response.t :=
  Response.mk (Response.Code r) (to_valid (Response.Message r)) (norm (Response.Body r)) (to_valid (Response.RequestID r)).

Lemma response_trip r :
  int64_min <= Response.Code r <= int64_max ->
  Middlewares.unmarshal_response (json_print (Response.to_json r)) = Ok (stored r).
Proof using jl.
  intros Hc. unfold Middlewares.unmarshal_response. rewrite parse_print. cbn [mbind Res_bind].
  destruct r as [c m b i]. unfold Response.to_json, stored, norm.
  cbn [Response.Code Response.Message Response.Body Response.RequestID] in *.
  assert (forall o, exists o', sanitize (JObject ([("code", jint c); ("message", JString m); ("body", b)] ++ o)) =
    JObject ([("code", jint c); ("message", JString (to_valid m)); ("body", sanitize b)] ++ o') /\
    o' = map (fun f => (to_valid f.1, sanitize f.2)) o) as Hs by (intros o; eexists; split; reflexivity).
  destruct (Hs (omit_string "request_id" i)) as (o' & -> & ->). unfold omit_string, Response.of_json.
  cbn [object_of mbind Res_bind]. unfold int_field, string_field.
  destruct (decide (i = "")) as [->|Hi]; cbn [app map fst snd sanitize].
  2: change (to_valid "request_id") with "request_id".
  all: eval_names; cbn [members filter list_filter fmap list_fmap decode_all decode_int decode_string mbind Res_bind jint].
  all: unfold jint; cbn [decode_int]; rewrite format_int_parse by done; reflexivity.
Qed.

(** ** The middleware on a request it applies to *)
Context (m : Idempotency.Manager) (paths : list string).

(** A request that carries the key [k] and the body [body] to a route with
    idempotent execution. *)
Definition eligible (k : string) (body : bytes) st : Prop :=
  idempotency_FromContext (Context_ (gin st)) = Some k /\ Idempotency.Enabled m = true /\
  Method (gin st) = "POST" /\ auth.MatchesAny (FullPath (gin st)) paths = true /\
  ReadAll (RequestBody (gin st)) = Ok body.

(** The state after the body was read and put back, with the store [s]. *)
Definition reread (body : bytes) (s : Store) st : HState :=
  mkH (set_body (mkBody body None) (gin st)) (world st) s (events st).

Lemma execution_eligible k body next st d s :
  eligible k body st ->
  Idempotency.Begin m (Context_ (gin st)) k (Middlewares.request_digest (gin st) body) (store st) = (Ok d, s) ->
  Middlewares.IdempotencyExecution (Some m) paths next st = Middlewares.on_decision m k d next (reread body s st).
Proof using.
  intros (Hk & He & Hm & Hp & Hb) Hd. unfold Middlewares.IdempotencyExecution, idempotency.FromContext.
  unfold or_fail, Middlewares.idempotencyFingerprint, mbind, H_bind, get_gin, modify_gin, call_store, mret, H_ret.
  rewrite Hk, He, Hp, bool_decide_false by (intros H; by apply H). cbn [negb orb]. rewrite Hb.
  cbn [gin store]. change (Context_ (set_body _ (gin st))) with (Context_ (gin st)). rewrite Hd. reflexivity.
Qed.

(** An acquired key whose handler answered with success is completed with the
    answer, without its request id. *)
Lemma acquired_completes k owner next st st' r :
  replies st = [] -> next st = (tt, st') -> replies st' = [mkReply 200 (Some (Response.to_json r))] ->
  int64_min <= Response.Code r <= int64_max ->
  exists c, (Middlewares.on_decision m k (Idempotency.StateAcquired owner) next st).2 =
    let '(x, s) := Idempotency.Complete m c k owner (Response.to_json (Middlewares.without_request_id (stored r))) (store st') in
    mkH (gin st') (world st') s
      (events st' ++ match x with Err e => [LoggedFailure (Some e) (requestID (gin st'))] | Ok _ => [] end).
Proof using jl.
  intros Hr Hn Hr' Hc. exists (WithTimeout (WithoutCancel (Context_ (gin st'))) (2 * Second)).
  unfold Middlewares.on_decision. unfold mbind, H_bind, get_gin. rewrite Hn. unfold replies in *. rewrite Hr.
  unfold Middlewares.persist, mbind, H_bind, get_gin, Middlewares.captured.
  rewrite Hr'. cbn [drop length fmap list_fmap option_fmap option_map ReplyBody default from_option mjoin list_join].
  unfold id. rewrite app_nil_r, response_trip by done.
  unfold WriterStatus. rewrite Hr'. cbn [head ReplyStatus]. rewrite decide_False by lia.
  unfold call_store. destruct (Idempotency.Complete m _ k owner _ (store st')) as [[[]|e] s]; cbn; [|done].
  by rewrite app_nil_r.
Qed.

Context (find : Store -> string -> option Idempotency.entry) {ml : Idempotency.ManagerLaws m find}.

(** C18: A retried request is answered from the store.  After a first
    request with a free idempotency key whose handler answered with success
    and whose result was stored, a second request with the same key, body,
    route and subject gets the same response, with its own request id, and
    nothing runs: the state of the identity service is untouched whatever the
    handler would do.  The body is the first one as JSON decoding into [any]
    normalises it. *)
Theorem idempotent_replay k body next1 next2 st1 st1' st2 r d1 s1 d2 s2 :
  eligible k body st1 -> eligible k body st2 ->
  Middlewares.subject_text (gin st1) = Middlewares.subject_text (gin st2) -> FullPath (gin st1) = FullPath (gin st2) ->
  (* the first request: a free key, a handler that answers with success, a result that is stored *)
  find (store st1) k = None -> replies st1 = [] ->
  Idempotency.Begin m (Context_ (gin st1)) k (Middlewares.request_digest (gin st1) body) (store st1) = (Ok d1, s1) ->
  next1 (reread body s1 st1) = (tt, st1') -> replies st1' = [mkReply 200 (Some (Response.to_json r))] ->
  int64_min <= Response.Code r <= int64_max -> find (store st1') k = find s1 k ->
  (forall c o x, d1 = Idempotency.StateAcquired o -> (Idempotency.Complete m c k o x (store st1')).1 = Ok tt) ->
  (* the second request finds what the first one left *)
  find (store st2) k = find (store (Middlewares.IdempotencyExecution (Some m) paths next1 st1).2) k ->
  Idempotency.Begin m (Context_ (gin st2)) k (Middlewares.request_digest (gin st2) body) (store st2) = (Ok d2, s2) ->
  let st2' := (Middlewares.IdempotencyExecution (Some m) paths next2 st2).2 in
  world st2' = world st2 /\
  replies st2' = replies st2 ++ [mkReply 200 (Some (Response.to_json
    (Response.mk (Response.Code r) (to_valid (Response.Message r)) (norm (Response.Body r)) (requestID (gin st2)))))].
Proof using jl ml.
  intros E1 E2 Hs Hf H1 R1 B1 N1 R1' Hc H1' Hok H2 B2 st2'.
  destruct (Idempotency.begin_free _ _ _ _ _ _ H1 B1) as (owner & -> & Hp).
  assert (find (store (Middlewares.IdempotencyExecution (Some m) paths next1 st1).2) k =
    Some (Idempotency.Completed (Middlewares.request_digest (gin st1) body)
            (json_print (Response.to_json (Middlewares.without_request_id (stored r)))))) as Hfind.
  { rewrite (execution_eligible k body next1 st1 _ _ E1 B1).
    destruct (acquired_completes k owner next1 (reread body s1 st1) st1' r R1 N1 R1' Hc) as [c ->].
    specialize (Hok c owner (Response.to_json (Middlewares.without_request_id (stored r))) eq_refl).
    destruct (Idempotency.Complete m c k owner _ (store st1')) as [x s] eqn:Ec. cbn in Hok. subst x. cbn.
    eapply Idempotency.complete_stores; [|exact Ec]. by rewrite H1'. }
  rewrite Hfind in H2. destruct (Idempotency.begin_taken _ _ _ _ _ _ _ H2 B2) as [_ Hd2].
  assert (Middlewares.request_digest (gin st1) body = Middlewares.request_digest (gin st2) body) as Hdig.
  { unfold Middlewares.request_digest. destruct E1 as (_ & _ & M1 & _), E2 as (_ & _ & M2 & _). by rewrite Hs, Hf, M1, M2. }
  cbn [Idempotency.entry_fingerprint] in Hd2. rewrite decide_True in Hd2 by done. cbn in Hd2. subst d2 st2'.
  rewrite (execution_eligible k body next2 st2 _ _ E2 B2). unfold Middlewares.on_decision.
  unfold mbind, H_bind, get_gin. rewrite response_trip by done. split; [done|].
  unfold replies. cbn. unfold stored, Middlewares.without_request_id, Middlewares.with_request_id.
  cbn [Response.Code Response.Message Response.Body Response.RequestID]. by rewrite to_valid_idem, norm_idem.
Qed.

(** What identifies a request to the store: the subject, the method, the
    route and the body, separated by NUL bytes. *)
Definition request_bytes (c : Gin) (body : bytes) : bytes :=
  bytes_of (Middlewares.subject_text c) ++ [chr 0] ++ bytes_of (Method c) ++ [chr 0] ++ bytes_of (FullPath c) ++ [chr 0] ++ body.
Definition no_nul (x : string) : Prop := chr 0 ∉ bytes_of x.
Definition plain_request (c : Gin) : Prop := no_nul (Middlewares.subject_text c) /\ no_nul (Method c) /\ no_nul (FullPath c).

Lemma digest_of_bytes c body : Middlewares.request_digest c body = hex (sha256 (request_bytes c body)).
Proof using.
  unfold Middlewares.request_digest, request_bytes, Middlewares.nul. rewrite !bytes_of_app, bytes_of_string_of. f_equal.
  f_equal. by rewrite <-!app_assoc.
Qed.

(** The first NUL ends the text before it. *)
Lemma nul_split x y (l k : bytes) :
  no_nul x -> no_nul y -> bytes_of x ++ [chr 0] ++ l = bytes_of y ++ [chr 0] ++ k -> x = y /\ l = k.
Proof using.
  unfold no_nul. intros Hx Hy. intros H.
  assert (forall p q, chr 0 ∉ p -> chr 0 ∉ q -> p ++ chr 0 :: l = q ++ chr 0 :: k -> p = q /\ l = k) as Hsplit.
  { induction p as [|a p IH]; intros [|b q] Hp Hq Heq; simpl in Heq; injection Heq; [done|..].
    - intros _ <-. by destruct Hq; left.
    - intros _ ->. by destruct Hp; left.
    - intros Heq' ->.
      assert (p = q /\ l = k) as [-> ->]; [|done].
      apply IH; [intros ?; apply Hp; by right|intros ?; apply Hq; by right|done]. }
  destruct (Hsplit _ _ Hx Hy H) as [E ->]. split; [|done]. by apply bytes_of_inj.
Qed.

Lemma request_bytes_inj c1 b1 c2 b2 : plain_request c1 -> plain_request c2 -> request_bytes c1 b1 = request_bytes c2 b2 ->
  Middlewares.subject_text c1 = Middlewares.subject_text c2 /\ Method c1 = Method c2 /\ FullPath c1 = FullPath c2 /\ b1 = b2.
Proof using.
  intros (? & ? & ?) (? & ? & ?) Heq. unfold request_bytes in Heq. apply nul_split in Heq as [? Heq]; [|done..].
  apply nul_split in Heq as [? Heq]; [|done..]. by apply nul_split in Heq as [? ->].
Qed.

(** C19: An idempotency key is bound to its request.  The store holds, under
    the key of a request, the entry of an earlier request that differs from it
    in the subject, the route or the body (both are plain: no NUL in subject,
    method or route; and SHA-256 does not collide on these two).  The request
    is then refused with 409, the handler does not run, and the entry stays. *)
Theorem key_conflict_refused k body next st body0 st0 e d s :
  eligible k body st -> eligible k body0 st0 ->
  find (store st) k = Some e -> Idempotency.entry_fingerprint e = Middlewares.request_digest (gin st0) body0 ->
  (Middlewares.subject_text (gin st0), FullPath (gin st0), body0) <> (Middlewares.subject_text (gin st), FullPath (gin st), body) ->
  plain_request (gin st0) -> plain_request (gin st) ->
  (sha256 (request_bytes (gin st0) body0) = sha256 (request_bytes (gin st) body) ->
   request_bytes (gin st0) body0 = request_bytes (gin st) body) ->
  Idempotency.Begin m (Context_ (gin st)) k (Middlewares.request_digest (gin st) body) (store st) = (Ok d, s) ->
  let st' := (Middlewares.IdempotencyExecution (Some m) paths next st).2 in
  world st' = world st /\ find (store st') k = Some e /\
  replies st' = replies st ++ [mkReply 409 (Some (Response.to_json
    (Response.mk CodeConflict "idempotency key belongs to a different request" JNull (requestID (gin st)))))].
Proof using ml.
  intros E E0 Hf Hfp Hdiff P0 P Hsha B st'. destruct (Idempotency.begin_taken _ _ _ _ _ _ _ Hf B) as [Hs Hd].
  assert (Idempotency.entry_fingerprint e <> Middlewares.request_digest (gin st) body) as Hne.
  { rewrite Hfp, !digest_of_bytes. intros Hx%hex_inj%Hsha%request_bytes_inj; [|done..].
    apply Hdiff. destruct Hx as (-> & _ & -> & ->). done. }
  rewrite decide_False in Hd by done. subst d st'. rewrite (execution_eligible k body next st _ _ E B).
  unfold Middlewares.on_decision, mbind, H_bind, get_gin. rewrite FailC_spec. cbn. done.
Qed.
End replay.

(** ** Witnesses *)
Section witnesses.
Import Concrete ConcreteWeb.
#[local] Instance env0 : Env := quiet noon 0.

Definition revoke_path : string := "/api/v1/sessions/revoke".
Definition keyed_context : context := mkContext None None None (Some "key-1") [].
(** A request with an idempotency key, on a store. *)
Definition keyed (body : Json.json) (s : gmap string Idempotency.entry) : HState :=
  mkH (set_context (keyed_context : @Ctx (@wp_platform libs)) (post revoke_path [] body)) (start db) s [].
Definition revoke_body : Json.json := JObject [("session_id", JString "s1"); ("version", jint 1)].
Definition other_body : Json.json := JObject [("session_id", JString "s2"); ("version", jint 1)].
Definition answer : Json.json := JObject [("id", JString "s1"); ("status", JString "revoked")].
Definition store_after : gmap string Idempotency.entry :=
  store (Middlewares.IdempotencyExecution (Some manager) [revoke_path] (OK answer) (keyed revoke_body ∅)).2.

Lemma keyed_eligible body s : eligible (libs := libs) manager [revoke_path] "key-1" (print body) (keyed body s).
Proof. unfold eligible. split_and!; vm_compute; reflexivity. Qed.

(** The second handler would fail; it does not run. *)
Lemma idempotent_replay_witness :
  replies (Middlewares.IdempotencyExecution (Some manager) [revoke_path] (FailC (ErrorsNew "not again"))
    (keyed revoke_body store_after)).2 =
  [mkReply 200 (Some (Response.to_json (Response.mk 0 "success" answer "")))].
Proof.
  set (st1 := keyed revoke_body ∅). set (st2 := keyed revoke_body store_after).
  set (dig := Middlewares.request_digest (gin st1) (print revoke_body)).
  set (s1 := <["key-1" := Idempotency.Processing dig "key-1"]> (∅ : gmap string Idempotency.entry)).
  destruct (idempotent_replay (libs := libs) manager [revoke_path] find "key-1" (print revoke_body) (OK answer)
    (FailC (ErrorsNew "not again")) st1 (OK answer (reread (print revoke_body) s1 st1)).2 st2
    (Response.mk 0 "success" answer "") (Idempotency.StateAcquired "key-1") s1
    (Idempotency.StateCompleted (print (Response.to_json (Response.mk 0 "success" answer "")))) store_after) as [_ H].
  - apply keyed_eligible.
  - apply keyed_eligible.
  - reflexivity.
  - reflexivity.
  - reflexivity.
  - reflexivity.
  - reflexivity.
  - reflexivity.
  - reflexivity.
  - split; discriminate.
  - reflexivity.
  - intros c o x [= <-]. reflexivity.
  - reflexivity.
  - vm_compute. reflexivity.
  - exact H.
Defined.

#[local] Instance plain_request_dec c : Decision (plain_request (libs := libs) c).
Proof. unfold plain_request, no_nul. apply _. Defined.

Lemma key_conflict_witness :
  replies (Middlewares.IdempotencyExecution (Some manager) [revoke_path] (OK answer) (keyed other_body store_after)).2 =
  [mkReply 409 (Some (Response.to_json (Response.mk 7 "idempotency key belongs to a different request" JNull "")))].
Proof.
  set (st := keyed other_body store_after).
  set (e := Idempotency.Completed (Middlewares.request_digest (gin (keyed revoke_body ∅)) (print revoke_body))
              (print (Response.to_json (Response.mk 0 "success" answer "")))).
  assert (bool_decide (plain_request (libs := libs) (gin (keyed revoke_body ∅))) = true) as P0 by (vm_compute; reflexivity).
  assert (bool_decide (plain_request (libs := libs) (gin st)) = true) as P by (vm_compute; reflexivity).
  apply bool_decide_eq_true in P0, P.
  destruct (key_conflict_refused (libs := libs) manager [revoke_path] find "key-1" (print other_body) (OK answer) st
    (print revoke_body) (keyed revoke_body ∅) e Idempotency.StateConflict store_after) as (_ & _ & H).
  - apply keyed_eligible.
  - apply keyed_eligible.
  - vm_compute. reflexivity.
  - reflexivity.
  - intros H. vm_compute in H. discriminate H.
  - exact P0.
  - exact P.
  - intros H. vm_compute in H. discriminate H.
  - vm_compute. reflexivity.
  - exact H.
Defined.
End witnesses.
