(* ===== verification/AuthSpec.v ===== *)
(** * Authentication: theorems

    Bearer tokens are accepted only for live sessions, pre-shared keys only
    in full, and route patterns mean what their globs say. *)

From S2P Require Import Prelude.
From S2P Require Import GoStrings.
From S2P Require Import Encoding.
From S2P Require Import AppError.
From S2P Require Import Platform.
From S2P Require Import PathMatch.
From S2P Require Import Configuration.
From S2P Require Import Table.
From S2P Require Import Model.
From S2P Require Import Runtime.
From S2P Require Import RequestContext.
From S2P Require Import Evolution.
From S2P Require Import Guarantee.
From S2P Require Import Inversion.
From S2P Require Import Token.
From S2P Require Import ServiceBase.
From S2P Require Import Concrete.
From S2P Require Import Sessions.
From S2P Require Import SessionsSpec.
From S2P Require Import Auth.
From S2P Require Import Router.
From S2P Require Import ConcreteWeb.
From Stdlib Require Import Ascii.
Open Scope Z_scope.

(** ** Route patterns *)

(** C35: Route patterns mean what they say: for a list of patterns without
    character classes and escapes, a route is matched by [MatchesAny] exactly
    if one of the patterns is a glob of it, where [*] stands for any sequence
    and [?] for any single character that is not a slash. *)
Theorem matches_any_globs route patterns :
  ascii_string route -> Forall plain_pattern patterns ->
  auth.MatchesAny route patterns = true <-> Exists (fun p => glob p route) patterns.
Proof.
  intros Hr Hp. induction Hp as [|p ps Hp _ IH]; cbn [auth.MatchesAny].
  - split; [done|]. by intros ?%Exists_nil.
  - rewrite Exists_cons, <- IH. destruct (Match_plain_total p route Hp) as [b Hb]. rewrite Hb.
    destruct b.
    + split; [|done]. intros _. left. by apply Match_sound.
    + split; [by right|]. intros [Hg|Hg]; [|done]. exfalso.
      apply Match_complete in Hg; [congruence|done..].
Qed.

(** ** Pre-shared keys *)

(** A pre-shared key is accepted exactly if it is not empty and the
    header is the scheme [PSK], in any case, one space, and the whole key. *)
Theorem psk_accepted_iff authorization key :
  auth.VerifyPSK authorization key = true <->
  key <> "" /\ exists scheme, authorization = scheme +:+ " " +:+ key /\ (space ∉ bytes_of scheme) /\ EqualFold scheme "PSK" = true.
Proof.
  unfold auth.VerifyPSK, Cut. destruct (cut_bytes space (bytes_of authorization)) as [[a b]|] eqn:E.
  - apply cut_bytes_Some in E as [E Ha].
    assert (authorization = string_of a +:+ " " +:+ string_of b) as Hauth.
    { apply bytes_of_inj. by rewrite E, !bytes_of_app, !bytes_of_string_of. }
    cbn [negb orb]. split.
    + destruct (EqualFold (string_of a) "PSK") eqn:Ef; [|done]. cbn [negb orb].
      destruct (bool_decide (string_of b = "")) eqn:Eb; [done|]. apply bool_decide_eq_false in Eb.
      destruct (bool_decide (_ <> _)); [done|]. cbn [orb]. unfold ConstantTimeCompare.
      destruct (decide _) as [Hk|]; [|done]. intros _. apply bytes_of_inj in Hk. subst key. split; [done|].
      exists (string_of a). rewrite bytes_of_string_of. done.
    + intros (Hk & scheme & -> & Hs & Hf). rewrite !bytes_of_app in E.
      pose proof (cut_bytes_app space (bytes_of scheme) (bytes_of key) Hs) as E1.
      pose proof (cut_bytes_app space a b Ha) as E2. rewrite <- E in E2. cbn in E1, E2. rewrite E1 in E2.
      injection E2 as <- <-. rewrite !string_of_bytes_of, Hf, !bool_decide_false by auto.
      cbn [negb orb]. unfold ConstantTimeCompare. by rewrite decide_True.
  - cbn [negb orb]. split; [done|]. intros (_ & scheme & -> & Hs & _). exfalso.
    rewrite !bytes_of_app in E. pose proof (cut_bytes_app space (bytes_of scheme) (bytes_of key) Hs) as E1.
    cbn in E, E1. congruence.
Qed.

Section bearer.
Context {libs : Libs} {hs : HMACJWT} {env : Env}.

(** ** Bearer tokens *)

Lemma bearer_run cfg ids ctx raw w p w' :
  auth.VerifyBearer (auth.NewWithIdentity cfg ids) ctx raw w = (Ok p, w') ->
  exists claims t, ParseAt (tokens ids) t raw = Ok claims /\ (exists i, t = env_clock i) /\
    p = mkPrincipal (Subject claims) (SubjectType claims) (TenantID claims) (MembershipID claims) (SessionID claims) /\
    (SubjectType claims = "user" -> SessionID claims <> "" ->
     exists x w1 w2, Sessions.ValidateSession ctx (SessionID claims) (Subject claims) w1 = (Ok (x, true), w2) /\
       w_db w1 = w_db w /\ w' = w2).
Proof using.
  intros H. unfold auth.VerifyBearer in H. cbn [auth.NewWithIdentity auth.identities auth.identity_verifier
    auth.verifier_Parse auth.verifier_ValidateSession] in H.
  apply bind_Ok in H as (claims & w1 & Hp & H). unfold Parse in Hp.
  apply bind_Ok in Hp as (t & w0 & Ht & Hp). apply lift_Ok in Hp as [Hp ->].
  pose proof (now_reading _ _ _ Ht) as Hi. apply now_Ok in Ht as (_ & Hdb & _).
  exists claims, t. split; [done|]. split; [done|].
  apply bind_Ok in H as ([] & w2 & Hv & H). apply ret_Ok in H as [<- <-]. split; [done|].
  intros Hty Hsid. rewrite decide_True in Hv by done. apply bind_Ok in Hv as ([x b] & w3 & Hv & H).
  apply map_err_Ok in Hv. destruct b; [|done]. apply ret_Ok in H as [_ ->].
  eexists _, _, _. split; [exact Hv|]. split; [|done]. done.
Qed.

(** C17: A bearer token is accepted only if the token issuer accepts it now,
    the principal is the one it names, and a token of a user session is
    accepted only while the row of the session exists for that user, is not
    revoked and has not expired. *)
Theorem bearer_needs_live_session cfg ids ctx raw w p w' :
  auth.VerifyBearer (auth.NewWithIdentity cfg ids) ctx raw w = (Ok p, w') -> schema_ok (w_db w') ->
  exists claims i, ParseAt (tokens ids) (env_clock i) raw = Ok claims /\
    p = mkPrincipal (Subject claims) (SubjectType claims) (TenantID claims) (MembershipID claims) (SessionID claims) /\
    (PType p = "user" -> PSessionID p <> "" ->
     exists x j, sessions (w_db w') !! PSessionID p = Some x /\ Session.UserID x = PID p /\
       Session.RevokedAt x = None /\ env_clock j < Session.ExpiresAt x).
Proof using.
  intros (claims & t & Hp & [i ->] & -> & Hs)%bearer_run Hd. exists claims, i. split; [done|]. split; [done|].
  cbn [PType PSessionID PID]. intros Hty Hsid. destruct (Hs Hty Hsid) as (x & w1 & w2 & Hv & _ & ->).
  destruct (proj1 (validate_session_iff _ _ _ _ _ _ _ Hv Hd) eq_refl) as (? & ? & ? & ?). eauto 8.
Qed.

(** Revocation takes effect at once: from a state in which a session is
    revoked, no access token of that session is accepted, valid as it may
    still be by itself, whatever other requests do meanwhile. *)
Theorem revoked_session_refused cfg ids ctx raw w p w' k x :
  Rely safe_step -> schema_ok (w_db w) -> sessions (w_db w) !! k = Some x -> Session.RevokedAt x <> None -> k <> "" ->
  auth.VerifyBearer (auth.NewWithIdentity cfg ids) ctx raw w = (Ok p, w') -> PType p = "user" -> PSessionID p <> k.
Proof using.
  intros Hr Hd Hk Hx Hne (claims & t & _ & _ & -> & Hs)%bearer_run Hty. cbn [PType PSessionID] in *. intros <-.
  destruct (Hs Hty Hne) as (y & w1 & w2 & Hv & Hdb & ->).
  assert (TxSteps safe_step (Sessions.ValidateSession ctx (SessionID claims) (Subject claims))) as HT by solve_txsteps.
  pose proof (TxSteps_run _ _ _ _ _ HT Hv) as S.
  rewrite Hdb in S. destruct (S Hd) as [E Hd2].
  destruct (proj1 (validate_session_iff _ _ _ _ _ _ _ Hv Hd2) eq_refl) as (Hy & _ & Hl & _).
  destruct (ev_sessions _ _ E _ _ Hk) as (y' & Hy' & He). rewrite Hy in Hy'. injection Hy' as <-.
  apply session_frozen in He; [|done]. subst y. done.
Qed.

(** ** The service's own HS256 tokens *)
Context {hl : HMACJWTLaws}.

(** A token the service issues itself (HS256) carries the subject and is
    accepted exactly from the second of its issue until its expiry. *)
Theorem hs_issue_then_parse s subject w raw w1 :
  0 < auth.ttl s -> auth.Issue s subject w = (Ok raw, w1) ->
  exists c t0, hs_content raw = Some ("HS256", c) /\ RSubject c = subject /\ (exists i, t0 = env_clock i) /\
    forall w2, let t := env_clock (w_clk w2) in
      (exists w3, auth.Parse s raw w2 = (Ok c, w3)) <-> NewNumericDate t0 <= t < NewNumericDate (t0 + auth.ttl s).
Proof using hl.
  intros Ht H. unfold auth.Issue in H. destruct (auth.Enabled s) eqn:En; [|done]. cbn [negb] in H.
  apply bind_Ok in H as (t0 & w0 & Hn & H). apply bind_Ok in H as (jti & w2 & Hj & H). apply lift_Ok in H as [Hsig _].
  apply now_reading in Hn as Hi. destruct (hs_sign_content _ _ _ Hsig) as [Hc Hv]. eexists _, t0. split; [exact Hc|].
  split; [done|]. split; [done|]. intros w3. unfold auth.Parse. rewrite En. cbn [negb].
  unfold mbind, M_bind, now, map_err, lift. cbn [fst snd].
  destruct (hs_ParseWithClaims _ _ _ raw) as [c|e] eqn:Ep.
  - apply hs_parse_spec in Ep as (m & key & Hc' & Hk & Hv' & _ & (e & He & Hlt) & Hnb & _). rewrite Hc in Hc'.
    injection Hc' as <- <-. cbn in He, Hnb. injection He as <-. specialize (Hnb _ eq_refl).
    split; [lia|]. intros _. eauto.
  - split; [by intros [? ?]|]. intros Hr. exfalso.
    assert (exists c, hs_ParseWithClaims (auth.hs_keyfunc s) (auth.issuer s) (env_clock (w_clk w3)) raw = Ok c) as [c Hok].
    { eexists. apply hs_parse_spec. exists "HS256", (auth.secret s). split; [exact Hc|]. split; [done|]. split; [done|].
      split; [done|]. cbn. split; [eauto with lia|]. split; intros ? [= <-]; lia. }
    congruence.
Qed.
End bearer.

(** ** Witnesses *)
Section witnesses.
Import Concrete ConcreteWeb.
#[local] Instance env0 : Env := quiet noon 0.

Lemma matches_any_witness : Exists (fun p => glob p "/api/v1/sessions/revoke") ["/api/v1/auth/*"; "/api/v1/*/revoke"].
Proof.
  apply matches_any_globs.
  - apply (bool_decide_unpack _). vm_compute. exact I.
  - apply (bool_decide_unpack _). vm_compute. exact I.
  - vm_compute. reflexivity.
Defined.

Lemma bearer_witness : exists p w' x,
  auth.VerifyBearer (auth.NewWithIdentity cfg service) nobody (access_token "u1" "user" "s1") (start db) = (Ok p, w') /\
  PType p = "user" /\ sessions (w_db w') !! PSessionID p = Some x /\ Session.RevokedAt x = None.
Proof.
  assert (match auth.VerifyBearer (auth.NewWithIdentity cfg service) nobody (access_token "u1" "user" "s1") (start db) with
          | (Ok p, w') => bool_decide (PType p = "user" /\ PSessionID p = "s1") && schema_check (w_db w')
          | _ => false end = true) as Hb by (vm_compute; reflexivity).
  destruct (auth.VerifyBearer _ _ _ _) as [[p|e] w'] eqn:E; [|discriminate Hb].
  apply andb_true_iff in Hb as [[Hty Hs]%bool_decide_eq_true Hd%schema_check_sound].
  destruct (bearer_needs_live_session cfg service nobody _ _ _ _ E Hd) as (claims & i & _ & _ & H).
  destruct H as (x & j & H1 & _ & H2 & _); [exact Hty|rewrite Hs; discriminate|].
  exists p, w', x. split; [reflexivity|]. split; [exact Hty|]. split; [exact H1|exact H2].
Defined.

(** The session [s1] of Alice is revoked, [s2] is live. *)
Definition revoked : Session.t :=
  Session.mk "s1" "u1" "" "" (hash_token "refresh-1") "" "" (noon + Hour) (Some noon) "logout" (noon - Hour) "10.0.0.1" "curl" old.
Definition half_revoked : DB := set_sessions (<["s1" := revoked]> (sessions db)) db.

Lemma revoked_refused_witness : exists p w',
  auth.VerifyBearer (auth.NewWithIdentity cfg service) nobody (access_token "u1" "user" "s2") (start half_revoked) = (Ok p, w') /\
  PSessionID p <> "s1".
Proof.
  assert (match auth.VerifyBearer (auth.NewWithIdentity cfg service) nobody (access_token "u1" "user" "s2") (start half_revoked) with
          | (Ok p, w') => bool_decide (PType p = "user") | _ => false end = true) as Hb by (vm_compute; reflexivity).
  destruct (auth.VerifyBearer _ _ _ _) as [[p|e] w'] eqn:E; [|discriminate Hb]. apply bool_decide_eq_true in Hb.
  exists p, w'. split; [reflexivity|].
  apply (revoked_session_refused cfg service nobody (access_token "u1" "user" "s2") (start half_revoked) p w' "s1" revoked).
  - apply quiet_rely.
  - apply schema_check_sound. vm_compute. reflexivity.
  - vm_compute. reflexivity.
  - discriminate.
  - discriminate.
  - exact E.
  - exact Hb.
Defined.

Definition hs_service : @auth.Service (@wp_platform libs) :=
  auth.mk "identity" (replicate 32 (chr 5)) Hour "client" "secret" None.
Lemma hs_issue_witness : exists raw w1 c,
  auth.Issue hs_service "client" (start db) = (Ok raw, w1) /\ hs_content raw = Some ("HS256", c) /\ RSubject c = "client".
Proof.
  assert (is_ok (auth.Issue hs_service "client" (start db)).1 = true) as Hb by (vm_compute; reflexivity).
  destruct (auth.Issue hs_service "client" (start db)) as [[raw|e] w1] eqn:E; [|discriminate Hb].
  destruct (hs_issue_then_parse hs_service "client" (start db) raw w1) as (c & t0 & H1 & H2 & _); [reflexivity|exact E|].
  exists raw, w1, c. split; [reflexivity|]. split; [exact H1|exact H2].
Defined.
End witnesses.
