(* ===== verification/GrpcSpec.v ===== *)
(** * The gRPC transport: theorems

    What has happened before a call changes the database, and which calls
    can. *)

From S2P Require Import Prelude.
From S2P Require Import GoStrings.
From S2P Require Import AppError.
From S2P Require Import Platform.
From S2P Require Import Configuration.
From S2P Require Import Model.
From S2P Require Import Runtime.
From S2P Require Import RequestContext.
From S2P Require Import Guarantee.
From S2P Require Import Token.
From S2P Require Import ServiceBase.
From S2P Require Import Concrete.
From S2P Require Import Sessions.
From S2P Require Import Users.
From S2P Require Import ServiceAccounts.
From S2P Require Import Auth.
From S2P Require Import Json.
From S2P Require Import Http.
From S2P Require Import HttpLogic.
From S2P Require Import Health.
From S2P Require Import Middleware.
From S2P Require Import Router.
From S2P Require Import Grpc.
From S2P Require Import ConcreteWeb.
Open Scope Z_scope.

Section grpc_spec.
Context {libs : Libs} {env : Env} {cx : Contexts} {hs : HMACJWT} {an : Authn} {az : Authz} {gl : GrpcLibs}.

(** ** Calls that only read *)

Definition Reads {A} (m : RPC A) : Prop := forall w, w_log (m w).2 = w_log w.

Lemma Reads_ret {A} (a : A) : Reads (mret a).
Proof using. done. Qed.
Lemma Reads_fail {A} e : Reads (IdentityServer.fail (A := A) e).
Proof using. done. Qed.
Lemma Reads_bind {A B} (m : RPC A) (k : A -> RPC B) : Reads m -> (forall a, Reads (k a)) -> Reads (m ≫= k).
Proof using.
  intros Hm Hk w. unfold mbind, RPC_bind. specialize (Hm w). destruct (m w) as [[a|e] w']; simpl in *; [|done].
  by rewrite (Hk a).
Qed.
Lemma Reads_fmap {A B} (f : A -> B) (m : RPC A) : Reads m -> Reads (f <$> m).
Proof using. intros Hm w. unfold fmap, RPC_fmap. specialize (Hm w). by destruct (m w) as [[a|e] w']. Qed.
Lemma Reads_call {A} (m : M A) : ReadOnly m -> Reads (IdentityServer.service_call m).
Proof using. intros Hm w. unfold IdentityServer.service_call. specialize (Hm w). by destruct (m w) as [[a|e] w']. Qed.

Ltac solve_reads :=
  repeat first [ apply Reads_ret | apply Reads_fail | (apply Reads_call; solve_readonly) | apply Reads_fmap
               | (apply Reads_bind; [|intros ?])
               | match goal with
                 | |- Reads (match ?x with _ => _ end) => destruct x
                 | |- Reads (let '(_, _) := ?x in _) => destruct x
                 | |- Reads ?m => let h := get_head m in unfold h
                 end ].

(** The calls that may write. *)
Definition mutates (m : rpc_method) : Prop := m = M_RevokeTenantSessions \/ m = M_IssueTenantToken.

Lemma dispatch_reads s c ctx : ~ mutates (GrpcServer.method_of c) -> Reads (GrpcServer.dispatch s c ctx).
Proof using.
  unfold mutates. destruct c; cbn [GrpcServer.method_of GrpcServer.dispatch]; intros Hm;
    try (exfalso; apply Hm; by auto); solve_reads.
Qed.

(** ** The chain of interceptors *)

(** The permissions of the service: the four reads of users and sessions. *)
Definition permission_of (m : rpc_method) : option Requirement :=
  match m with
  | M_GetSession => Some (mkRequirement "identity.session" "read" ScopePlatform)
  | M_GetUser => Some (mkRequirement "identity.user" "read" ScopePlatform)
  | M_BatchGetUsers => Some (mkRequirement "identity.user" "batch-read" ScopePlatform)
  | M_ListUsers => Some (mkRequirement "identity.user" "list" ScopePlatform)
  | _ => None
  end.

Lemma requirement_table {gw : GrpcLaws} enabled m :
  GrpcServer.identityGRPCRequirement enabled (FullMethodName m) = if enabled then permission_of m else None.
Proof using.
  destruct enabled; [|done]. unfold GrpcServer.identityGRPCRequirement. cbn [negb list_to_map foldr fst snd].
  assert (forall m', m <> m' -> FullMethodName m' <> FullMethodName m) as Hne
    by (intros m' Hm E; by apply method_names_inj in E).
  destruct m; cbn [permission_of];
    repeat first [ rewrite lookup_insert_eq | (rewrite lookup_insert_ne by (by apply Hne)) ]; try done.
  all: by rewrite lookup_empty.
Qed.

Lemma requestID_gate {A} (h : Ctx -> RPC A) ctx w :
  exists ctx' w', w_log w' = w_log w /\ GrpcServer.requestIDInterceptor h ctx w = h ctx' w' \/
  silent_error w (GrpcServer.requestIDInterceptor h ctx w).
Proof using.
  unfold GrpcServer.requestIDInterceptor. set (id := match _ with [] => _ | _ => _ end).
  unfold mbind, RPC_bind. case_decide.
  - unfold IdentityServer.service_call. pose proof (ReadOnly_Generate w) as Hg.
    destruct (requestid.Generate w) as [[g|e] w1]; simpl in Hg.
    + exists (requestid.WithContext ctx g), w1. by left.
    + exists ctx, w. right. split; [done|]. by eexists.
  - exists (requestid.WithContext ctx id), w. by left.
Qed.

Lemma idempotency_gate {A} (h : Ctx -> RPC A) ctx w :
  exists ctx', GrpcServer.idempotencyInterceptor h ctx w = h ctx' w \/
  silent_error w (GrpcServer.idempotencyInterceptor h ctx w).
Proof using.
  unfold GrpcServer.idempotencyInterceptor. destruct (ValueFromIncomingContext ctx "idempotency-key") as [|v l];
    [exists ctx; by left|]. destruct (idempotency.Valid v); cbn [negb].
  - exists (idempotency.WithContext ctx v). by left.
  - exists ctx. right. split; [done|]. by eexists.
Qed.

(** Past the chain: authentication was passed for the method (a credential, or
    a method that the configuration skips), and with authorization enabled the
    permission of the method, if it has one, was granted. *)
Definition admitted_call (cfg : Config.t) (service : auth.Service) (m : rpc_method) (w : World) (ctx : Ctx) (w2 : World) : Prop :=
  exists ctx0 w0 authorization w1,
    w_log w0 = w_log w /\ w_log w2 = w_log w /\
    authentication_passed (auth.GRPCPolicy service (Config.Auth cfg)) ctx0 (FullMethodName m) authorization w0 ctx w1 /\
    (forall rq, Config.Authorization.Enabled (Config.Authorization cfg) = true -> permission_of m = Some rq ->
       Enforce ctx rq w1 = (Ok None, w2)).

Lemma chain_gate {al : AuthnLaws} {zl : AuthzLaws} {gw : GrpcLaws} {A} cfg ids m (h : Ctx -> RPC A) ctx w :
  let service := auth.NewWithIdentity cfg ids in
  let r := GrpcServer.chain cfg service m h ctx w in
  silent_error w r \/
  exists ctx' w2, admitted_call cfg service m w ctx' w2 /\ (w_log r.2 = w_log w2 \/ w_log r.2 = w_log (h ctx' w2).2).
Proof using.
  intros service r. unfold r, GrpcServer.chain, GrpcServer.environmentInterceptor. clear r.
  set (h1 := authz_UnaryServerInterceptor _ _ _). set (h2 := GrpcServer.authInterceptor _ _ _ _).
  destruct (requestID_gate (GrpcServer.idempotencyInterceptor h2) (environment.WithContext ctx
    (Config.Runtime.ActiveProfile (Config.Runtime cfg))) w) as (ctx1 & w1 & [[L1 E1]|H]); [|by left].
  rewrite E1. clear E1.
  destruct (idempotency_gate h2 ctx1 w1) as (ctx2 & [E2|[H1 H2]]); [|left; by split; [congruence|]].
  rewrite E2. clear E2. unfold h2, GrpcServer.authInterceptor.
  assert (forall c raw, ReadOnly (Bearer (auth.GRPCPolicy service (Config.Auth cfg)) c raw)) as Hro
    by (intros; apply ReadOnly_bearer).
  destruct (authn_intercepts A (auth.GRPCPolicy service (Config.Auth cfg)) (FullMethodName m) h1 ctx2 w1 Hro)
    as [[H1 H2]|(au & ctx3 & w3 & Ha & ->)]; [left; by split; [congruence|]|].
  pose proof (authenticate_readonly _ ctx2 (FullMethodName m) au Hro w1) as L3. rewrite Ha in L3. simpl in L3.
  unfold h1. destruct (authz_intercepts A (GrpcServer.identityGRPCRequirement (Config.Authorization.Enabled
      (Config.Authorization cfg))) (FullMethodName m) (idempotency_UnaryServerInterceptor (Config.Idempotency.GRPCMethods
      (Config.Idempotency cfg)) (FullMethodName m) h) ctx3 w3) as [[H1 H2]|(w4 & Hz & ->)];
    [left; by split; [congruence|]|].
  assert (w_log w4 = w_log w3) as L4.
  { rewrite requirement_table in Hz. destruct (Config.Authorization.Enabled _); [|congruence].
    destruct (permission_of m) as [rq|]; [|congruence]. pose proof (enforce_readonly ctx3 rq w3) as L. by rewrite Hz in L. }
  right. exists ctx3, w4. split.
  - exists ctx2, w1, au, w3. split; [done|]. split; [congruence|]. split; [by apply authenticate_sound|].
    intros rq Hen Hrq. by rewrite requirement_table, Hen, Hrq in Hz.
  - apply idempotency_intercepts.
Qed.

(** A gRPC call gets a reply only past the chain: authentication was
    passed for the method, and with authorization enabled the permission of
    the four methods that read users and sessions was granted to the
    authenticated context. *)
Theorem grpc_reply_admitted {al : AuthnLaws} {zl : AuthzLaws} {gw : GrpcLaws} cfg ids s c ctx w reply w' :
  GrpcServer.serve cfg (auth.NewWithIdentity cfg ids) s c ctx w = (Ok reply, w') ->
  exists ctx' w2, admitted_call cfg (auth.NewWithIdentity cfg ids) (GrpcServer.method_of c) w ctx' w2.
Proof using.
  intros H. unfold GrpcServer.serve in H.
  destruct (chain_gate cfg ids (GrpcServer.method_of c) (GrpcServer.dispatch s c) ctx w) as [[_ [e He]]|(ctx' & w2 & Ha & _)];
    [|by eauto]. rewrite H in He. discriminate He.
Qed.

Lemma issue_needs_service s u t m i ctx w :
  w_log (IdentityServer.IssueTenantToken s ctx u t m i w).2 <> w_log w ->
  exists p, principal_Require ctx = Ok p /\ (PType p = TypeServiceAccount \/ PType p = TypeSystem).
Proof using.
  unfold IdentityServer.IssueTenantToken, IdentityServer.service_call, Sessions.IssueTenantToken, mbind, M_bind,
    map_err, lift. destruct (principal_Require ctx) as [p|e]; [|by intros []].
  intros H. exists p. split; [done|]. destruct (decide (PType p <> TypeServiceAccount /\ PType p <> TypeSystem)) as [Hd|Hd].
  - exfalso. apply H. unfold reject. by rewrite decide_True.
  - destruct (decide (PType p = TypeServiceAccount)), (decide (PType p = TypeSystem)); auto. exfalso. auto.
Qed.

(** C31: A gRPC call changes the database only past the chain, only in
    [RevokeTenantSessions] and [IssueTenantToken], and only as the method does
    in the authenticated context; the second needs a service account or the
    system as caller. *)
Theorem grpc_changes_admitted {al : AuthnLaws} {zl : AuthzLaws} {gw : GrpcLaws} cfg ids s c ctx w r w' :
  GrpcServer.serve cfg (auth.NewWithIdentity cfg ids) s c ctx w = (r, w') -> w_log w' <> w_log w ->
  mutates (GrpcServer.method_of c) /\
  exists ctx' w2, admitted_call cfg (auth.NewWithIdentity cfg ids) (GrpcServer.method_of c) w ctx' w2 /\
    w_log w' = w_log (GrpcServer.dispatch s c ctx' w2).2 /\
    (GrpcServer.method_of c = M_IssueTenantToken ->
     exists p, principal_Require ctx' = Ok p /\ (PType p = TypeServiceAccount \/ PType p = TypeSystem)).
Proof using.
  intros H Hlog. unfold GrpcServer.serve in H.
  destruct (chain_gate cfg ids (GrpcServer.method_of c) (GrpcServer.dispatch s c) ctx w) as [[Hs _]|(ctx' & w2 & Ha & Hl)];
    rewrite H in *; simpl in *; [done|].
  assert (w_log w2 = w_log w) as L2 by (destruct Ha as (? & ? & ? & ? & ? & ? & _); done).
  destruct Hl as [Hl|Hl]; [congruence|].
  assert (mutates (GrpcServer.method_of c)) as Hm.
  { destruct (decide (GrpcServer.method_of c = M_RevokeTenantSessions)), (decide (GrpcServer.method_of c = M_IssueTenantToken));
      unfold mutates; auto. exfalso. apply Hlog. rewrite Hl, <- L2. apply dispatch_reads. by intros [|]. }
  split; [done|]. exists ctx', w2. split; [done|]. split; [done|]. intros Hi.
  destruct c; try discriminate Hi. apply (issue_needs_service s user_id tenant_id membership_id session_id ctx' w2).
  rewrite Hl in Hlog. cbn [GrpcServer.dispatch] in Hlog. unfold fmap, RPC_fmap in Hlog.
  destruct (IdentityServer.IssueTenantToken s ctx' _ _ _ _ w2) as [[a|e] w3]; simpl in *; congruence.
Qed.
End grpc_spec.

(** ** Witnesses *)
Section witnesses.
Import Concrete ConcreteWeb.
#[local] Instance env0 : Env := quiet noon 0.

(** A call with an access token. *)
Definition call_as (subject type : string) : context :=
  mkContext None None None None [("authorization", "Bearer " +:+ access_token subject type "")].
Definition bob_call : @Ctx (@wp_platform libs) := call_as "u2" "user".
Definition tenant_revocation : GrpcServer.rpc_call := GrpcServer.C_RevokeTenantSessions "u1" "" "because".

Lemma grpc_reply_witness : exists ctx' w2,
  admitted_call cfg auth_service M_GetUser (start db) ctx' w2.
Proof.
  assert (is_ok (GrpcServer.serve cfg auth_service service (GrpcServer.C_GetUser "u1")
    (call_as "admin" "service_account") (start db)).1 = true) as Hb by (vm_compute; reflexivity).
  destruct (GrpcServer.serve cfg auth_service service (GrpcServer.C_GetUser "u1") (call_as "admin" "service_account")
    (start db)) as [[reply|e] w'] eqn:E; [|discriminate Hb].
  exact (grpc_reply_admitted cfg service service (GrpcServer.C_GetUser "u1") _ _ reply w' E).
Defined.

Lemma grpc_changes_witness :
  mutates (GrpcServer.method_of tenant_revocation) /\
  w_log (GrpcServer.serve cfg auth_service service tenant_revocation bob_call (start db)).2 <> [].
Proof.
  assert (w_log (GrpcServer.serve cfg auth_service service tenant_revocation bob_call (start db)).2 <> []) as Hl.
  { assert (length (w_log (GrpcServer.serve cfg auth_service service tenant_revocation bob_call (start db)).2) = 1%nat) as Hn
      by (vm_compute; reflexivity). intros H. rewrite H in Hn. discriminate Hn. }
  split; [|exact Hl].
  destruct (GrpcServer.serve cfg auth_service service tenant_revocation bob_call (start db)) as [r w'] eqn:E.
  exact (proj1 (grpc_changes_admitted cfg service service tenant_revocation bob_call (start db) r w' E Hl)).
Defined.

(** Any user with a token revokes the sessions of another user: the method
    has no permission, and the service asks for no type of caller. *)
Lemma user_revokes_others_sessions :
  (GrpcServer.serve cfg auth_service service tenant_revocation bob_call (start db)).1 = Ok (GrpcServer.R_Revoked 2).
Proof. vm_compute. reflexivity. Qed.
End witnesses.
