(* ===== verification/RefinementSpec.v ===== *)
(** * The transports refine the service

    [System.v] is the abstract system: requests that call one operation each.
    Serving an HTTP request or a gRPC call makes no atomic change of its own:
    what it does to the database is what one operation of the service does,
    the one its route or method is for, so the invariants of [SystemSpec.v]
    hold of the running servers, and [LedgerSpec.v] says what a route can do
    to the data. *)

From S2P Require Import Prelude.
From S2P Require Import GoStrings.
From S2P Require Import AppError.
From S2P Require Import Platform.
From S2P Require Import Configuration.
From S2P Require Import Model.
From S2P Require Import Runtime.
From S2P Require Import Evolution.
From S2P Require Import RequestContext.
From S2P Require Import Guarantee.
From S2P Require Import Token.
From S2P Require Import ServiceBase.
From S2P Require Import Concrete.
From S2P Require Import Sessions.
From S2P Require Import Users.
From S2P Require Import ServiceAccounts.
From S2P Require Import MFAService.
From S2P Require Import PasswordReset.
From S2P Require Import System.
From S2P Require Import Ledger.
From S2P Require Import LedgerSpec.
From S2P Require Import Auth.
From S2P Require Import Json.
From S2P Require Import Messages.
From S2P Require Import Http.
From S2P Require Import HttpLogic.
From S2P Require Import Health.
From S2P Require Import Handlers.
From S2P Require Import Middleware.
From S2P Require Import Router.
From S2P Require Import HttpSpec.
From S2P Require Import Grpc.
From S2P Require Import GrpcSpec.
From S2P Require Import ConcreteWeb.
Open Scope Z_scope.

Section refinement.
Context {libs : Libs}.

(** The route whose handler calls the operation of a request.  Operations
    that only get or list, and those of gRPC, are given none. *)
Definition operation_path (r : Request) : option string :=
  match r with
  | Register _ _ _ _ _ _ => Some "/api/v1/identities/register"
  | Login _ _ _ _ => Some "/api/v1/auth/login"
  | Refresh _ _ => Some "/api/v1/auth/refresh"
  | Logout _ _ _ => Some "/api/v1/auth/logout"
  | ChangePassword _ _ _ => Some "/api/v1/auth/change-password"
  | UpdateUserStatus _ _ _ _ _ => Some "/api/v1/identities/update-status"
  | UpdateUserProfile _ _ _ _ _ _ _ => Some "/api/v1/identities/update-profile"
  | RevokeOwnSessionByID _ _ _ _ => Some "/api/v1/auth/sessions/revoke"
  | RevokeSessionByID _ _ _ _ => Some "/api/v1/sessions/revoke"
  | CreateServiceAccount _ _ _ => Some "/api/v1/service-accounts/create"
  | RotateServiceAccountSecret _ _ _ => Some "/api/v1/service-accounts/rotate-secret"
  | UpdateServiceAccountStatus _ _ _ _ => Some "/api/v1/service-accounts/update-status"
  | ServiceAccountToken _ _ _ => Some "/api/v1/auth/service-token"
  | VerifyMFAChallenge _ _ _ _ => Some "/api/v1/auth/mfa/verify"
  | StartMFASetup _ _ => Some "/api/v1/auth/mfa/setup/start"
  | ConfirmMFASetup _ _ _ => Some "/api/v1/auth/mfa/setup/confirm"
  | DisableMFA _ _ _ _ => Some "/api/v1/auth/mfa/disable"
  | RegenerateMFARecoveryCodes _ _ _ _ => Some "/api/v1/auth/mfa/recovery-codes/regenerate"
  | AdminResetMFA _ _ _ _ => Some "/api/v1/identities/mfa/reset"
  | IssuePasswordReset _ _ _ => Some "/api/v1/identities/password-reset/issue"
  | ConfirmPasswordReset _ _ _ => Some "/api/v1/auth/password-reset/confirm"
  | _ => None
  end.
(** The context an operation is called with. *)
Definition request_ctx (r : Request) : Ctx :=
  match r with
  | Register c _ _ _ _ _ | Login c _ _ _ | Refresh c _ | Logout c _ _ | ChangePassword c _ _ | GetUser c _
  | ListUsers c _ _ _ _ | UpdateUserStatus c _ _ _ _ | UpdateUserProfile c _ _ _ _ _ _ | BatchGetUsers c _
  | ValidateSession c _ _ | ListSessions c _ _ _ _ _ | ListOwnSessions c _ _ _ | RevokeOwnSessionByID c _ _ _
  | RevokeSessionByID c _ _ _ | GetSessionByID c _ | RevokeTenantSessions c _ _ _ | IssueTenantToken c _ _ _ _
  | GetServiceAccount c _ | ListServiceAccounts c _ _ _ _ | BatchGetServiceAccounts c _ | CreateServiceAccount c _ _
  | RotateServiceAccountSecret c _ _ | UpdateServiceAccountStatus c _ _ _ | ServiceAccountToken c _ _
  | VerifyMFAChallenge c _ _ _ | MFAStatus c | AdminMFAStatus c _ | StartMFASetup c _ | ConfirmMFASetup c _ _
  | DisableMFA c _ _ _ | RegenerateMFARecoveryCodes c _ _ _ | AdminResetMFA c _ _ _ | IssuePasswordReset c _ _
  | ConfirmPasswordReset c _ _ => c
  end.

(** The requests of a route in a context. *)
Definition at_path (path : string) (c : Ctx) (r : Request) : Prop := operation_path r = Some path /\ request_ctx r = c.

(** The gRPC method of an operation that writes. *)
Definition at_method (m : rpc_method) (r : Request) : Prop :=
  match r with
  | RevokeTenantSessions _ _ _ _ => m = M_RevokeTenantSessions
  | IssueTenantToken _ _ _ _ _ => m = M_IssueTenantToken
  | _ => False
  end.

Context {env : Env}.

(** A list of atomic changes is what one request of the system, of those
    that [Q] admits, does in this environment, or nothing. *)
Definition one_operation (Q : Request -> Prop) (svc : Service) (l : list (DB * DB)) : Prop :=
  l = [] \/ exists r w, Q r /\ l = changes (handle svc r) w.

(** A change is a step of the system, and a sequence of moves of the ledger
    that are permitted to one of these requests. *)
Definition change_of (Q : Request -> Prop) (svc : Service) (p : DB * DB) : Prop :=
  step svc p.1 p.2 /\ exists r, Q r /\ obeys (permitted r) p.1 p.2.

Lemma one_operation_changes Q svc l : one_operation Q svc l -> Forall (change_of Q svc) l.
Proof using.
  intros [->|(r & w & HQ & ->)]; [constructor|]. apply Forall_forall. intros [d d'] Hin.
  split; [by eapply step_request|]. exists r. split; [done|]. by eapply request_refines.
Qed.

Context (svc : Service).

Lemma handle_log r w : w_log (handle svc r w).2 = w_log w ++ changes (handle svc r) w.
Proof using.
  destruct (handle_steps svc r w) as (l & Hl & _). unfold changes. by rewrite Hl, drop_app_length.
Qed.

(** The world after the operation is the world after the request. *)
Definition Runs {A} (r : Request) (m : M A) : Prop := forall w, (m w).2 = (handle svc r w).2.

Lemma Runs_drop {A} r (m : M A) : handle svc r = drop_result m -> Runs r m.
Proof using.
  intros Hr w. rewrite Hr. unfold drop_result, mbind, M_bind. by destruct (m w) as [[a|e] w'].
Qed.

(** ** HTTP *)
Section http.
Context {wl : WebLibs}.
Implicit Types st : HState.

Context (c : Ctx) (Q : Request -> Prop).

(** Run in the context [c], [m] does what one admissible request does. *)
Definition Performs (m : HTTP unit) : Prop :=
  forall st, Context_ (gin st) = c -> exists l, log_of (m st).2 = log_of st ++ l /\ one_operation Q svc l.

Lemma Performs_quiet m : Quietly m -> Performs m.
Proof using. intros Hm st _. exists []. rewrite app_nil_r. split; [apply Hm|by left]. Qed.
Lemma Performs_bind {A} (m : HTTP A) k :
  Gentle same_context m -> (forall st a st', Context_ (gin st) = c -> m st = (a, st') -> Performs (k a)) -> Performs (m ≫= k).
Proof using.
  intros Hm Hk st Hc. unfold mbind, H_bind. specialize (Hm st). destruct (m st) as [a st1] eqn:E. cbn [snd] in Hm.
  destruct Hm as (_ & Hl1 & _ & Hc1). destruct (Hk st a st1 Hc E st1) as (l & Hl & Ho); [congruence|].
  exists l. by rewrite Hl, Hl1.
Qed.
Lemma Performs_or_fail {A} (m : HTTP (Result A)) f k :
  Gentle same_context m -> (forall a, Performs (k a)) -> Performs (or_fail m f k).
Proof using.
  intros Hm Hk. apply Performs_bind; [done|]. intros _ [a|e] _ _ _; [apply Hk|apply Performs_quiet, Quietly_FailC].
Qed.
Lemma Performs_op {A} r (m : M A) f k : Runs r m -> Q r -> (forall a, Quietly (k a)) -> Performs (or_fail (call m) f k).
Proof using.
  intros Hm HQ Hk st _. exists (changes (handle svc r) (world st)). split; [|right; eauto].
  unfold or_fail, mbind, H_bind, call. specialize (Hm (world st)). destruct (m (world st)) as [[a|e] w] eqn:E; simpl in Hm.
  - rewrite Hk. unfold log_of at 1. simpl. rewrite Hm. apply handle_log.
  - rewrite Quietly_FailC. unfold log_of at 1. simpl. rewrite Hm. apply handle_log.
Qed.

End http.
End refinement.

(** The request that calls an operation. *)
Ltac request_of_op m :=
  lazymatch m with
  | Users.Register _ ?c ?u ?n ?e ?p ?pw => constr:(Register c u n e p pw)
  | Users.Login _ ?c ?l ?pw ?cl => constr:(Login c l pw cl)
  | Sessions.Refresh _ ?c ?t => constr:(Refresh c t)
  | Sessions.Logout _ ?c ?i ?re => constr:(Logout c i re)
  | Users.ChangePassword _ ?c ?p ?n => constr:(ChangePassword c p n)
  | Users.UpdateUserStatus _ ?c ?i ?x ?re ?v => constr:(UpdateUserStatus c i x re v)
  | Users.UpdateUserProfile _ ?c ?i ?n ?e ?p ?re ?v => constr:(UpdateUserProfile c i n e p re v)
  | Sessions.RevokeOwnSessionByID _ ?c ?i ?re ?v => constr:(RevokeOwnSessionByID c i re v)
  | Sessions.RevokeSessionByID _ ?c ?i ?re ?v => constr:(RevokeSessionByID c i re v)
  | Sessions.RevokeTenantSessions ?c ?u ?t ?re => constr:(RevokeTenantSessions c u t re)
  | Sessions.IssueTenantToken _ ?c ?u ?t ?m ?i => constr:(IssueTenantToken c u t m i)
  | ServiceAccounts.CreateServiceAccount _ ?c ?n ?a => constr:(CreateServiceAccount c n a)
  | ServiceAccounts.RotateServiceAccountSecret _ ?c ?i ?v => constr:(RotateServiceAccountSecret c i v)
  | ServiceAccounts.UpdateServiceAccountStatus _ ?c ?i ?x ?v => constr:(UpdateServiceAccountStatus c i x v)
  | ServiceAccounts.ServiceAccountToken _ ?c ?i ?x => constr:(ServiceAccountToken c i x)
  | MFA.VerifyMFAChallenge _ ?c ?t ?x ?y => constr:(VerifyMFAChallenge c t x y)
  | MFA.StartMFASetup _ ?c ?p => constr:(StartMFASetup c p)
  | MFA.ConfirmMFASetup _ ?c ?x ?v => constr:(ConfirmMFASetup c x v)
  | MFA.DisableMFA _ ?c ?p ?x ?v => constr:(DisableMFA c p x v)
  | MFA.RegenerateMFARecoveryCodes _ ?c ?p ?x ?v => constr:(RegenerateMFARecoveryCodes c p x v)
  | MFA.AdminResetMFA _ ?c ?u ?re ?v => constr:(AdminResetMFA c u re v)
  | PasswordReset.IssuePasswordReset _ ?c ?u ?re => constr:(IssuePasswordReset c u re)
  | PasswordReset.ConfirmPasswordReset _ ?c ?t ?n => constr:(ConfirmPasswordReset c t n)
  end.
Ltac solve_runs :=
  match goal with
  | |- Runs _ ?r ?m => let q := request_of_op m in unify r q; first [by apply Runs_drop | by intros ?]
  end.

(** The context that a handler reads. *)
Lemma get_gin_run {libs : Libs} {rd : Redis} st a st' : get_gin st = (a, st') -> a = gin st.
Proof. by intros [= -> _]. Qed.
Lemma ctx_of_run {libs : Libs} {rd : Redis} st a st' : handler.ctx_of st = (a, st') -> a = Context_ (gin st).
Proof. by intros [= -> _]. Qed.
Ltac reads_context :=
  let C := fresh "C" in let R := fresh "R" in intros ? ? ? C R;
  first [ apply ctx_of_run in R | apply get_gin_run in R; subst | clear R ].

Ltac performs_step :=
  match goal with
  | |- forall _, _ => intro
  | |- Performs _ _ _ (or_fail (call _) _ _) =>
      eapply Performs_op; [solve [solve_runs]|split; [reflexivity|cbn [request_ctx]; congruence]|solve [solve_http]]
  | |- Performs _ _ _ (or_fail _ _ _) => apply Performs_or_fail; [solve [solve_gentle]|]
  | |- Performs _ _ _ (mbind _ _) => apply Performs_bind; [solve [solve_gentle]|reads_context]
  | |- Performs _ _ _ (match ?x with _ => _ end) => destruct x
  | |- Performs _ _ _ _ => apply Performs_quiet; solve [solve_http]
  | |- Performs _ _ _ ?m => let h := get_head m in unfold h
  end.
Ltac solve_performs := repeat performs_step.

Section theorems.
Context {libs : Libs} {env : Env} {wl : WebLibs}.
Implicit Types st : HState.

Lemma Quietly_time_Now : Quietly handler.time_Now.
Proof using. done. Qed.
#[local] Hint Resolve Quietly_time_Now : http.

Lemma routes_perform s :
  Forall (fun r => exists m, api_handlers s r.2 m /\
      forall c, Performs (h_identities (s_handler s)) c (at_path ("/api/v1" +:+ r.1) c) m)
    (Router.api_routes s).
Proof using.
  unfold Router.api_routes. apply Forall_forall. intros r Hr. repeat (apply elem_of_cons in Hr as [->|Hr]);
    [..|by apply elem_of_nil in Hr].
  all: eexists; split; [first [apply plain_route|apply limited_route]|].
  all: solve_performs.
Qed.

(** *** Routes outside the group do not touch the database *)

Definition Calm (h : Middleware) : Prop := forall next, Quietly next -> Quietly (h next).

Lemma Quietly_run hs : Forall Calm hs -> Quietly (run hs).
Proof using.
  induction 1 as [|h hs Hh _ IH]; intros st; cbn [run]; unfold unless_done; destruct (Done (gin st)); try done.
  apply Quietly_bind; [by apply Hh|done].
Qed.
Lemma Calm_final m : Quietly m -> Calm (final m).
Proof using. by intros Hm next _. Qed.
Lemma Calm_external p : Calm (Router.external_handler p).
Proof using. by intros next _ st. Qed.
Lemma Calm_pprof token : Calm (Router.pprofAuth token).
Proof using. intros next Hn. unfold Router.pprofAuth. solve_http. Qed.
Lemma Calm_JWT a : Calm (Middlewares.JWT a).
Proof using.
  intros next Hn. unfold Middlewares.JWT. apply Quietly_bind; [done|]. intros c.
  destruct (Cut _ _) as [[scheme raw] ok]. destruct (_ || _); [apply Quietly_FailC|]. unfold or_fail. solve_http.
Qed.

Lemma public_quiet s r : r ∈ Router.public_routes s -> Quietly (run (route_handlers r)).
Proof using.
  unfold Router.public_routes. rewrite !elem_of_app. intros H. apply Quietly_run. destruct H as [H|[H|[H|[H|H]]]].
  - cbn in H. repeat (apply elem_of_cons in H as [->|H]; [apply Forall_singleton, Calm_final; solve_http|]).
    by apply elem_of_nil in H.
  - apply list_elem_of_singleton in H as ->. apply Forall_singleton, Calm_final. solve_http.
  - destruct (s_metrics s); [|by apply elem_of_nil in H]. apply list_elem_of_singleton in H as ->.
    apply Forall_singleton, Calm_external.
  - destruct (Config.Observability.PprofEnabled _); [|by apply elem_of_nil in H]. apply pprof_handlers in H as [p ->].
    apply Forall_cons_2; [apply Calm_pprof|]. apply Forall_singleton, Calm_external.
  - destruct (Config.Swagger.Enabled _); [|by apply elem_of_nil in H]. apply list_elem_of_singleton in H as ->.
    apply Forall_app. split; [|apply Forall_singleton, Calm_external].
    destruct (Config.Swagger.RequireAuth _); [|constructor]. apply Forall_singleton, Calm_JWT.
Qed.

(** *** Routes of the group perform one operation *)

Lemma performs_final svc Q m st : Performs svc (Context_ (gin st)) Q m -> done st = false ->
  exists l, log_of (run [final m] st).2 = log_of st ++ l /\ one_operation Q svc l.
Proof using.
  intros Hm Hd. unfold done in Hd. cbn [run]. unfold unless_done, final, mbind, H_bind. rewrite Hd.
  specialize (Hm st eq_refl). destruct (m st) as [[] st1]. destruct Hm as (l & Hl & Ho). exists l. split; [|done].
  cbn in Hl. by destruct (Done (gin st1)).
Qed.

Lemma performs_route s Q hs m st :
  api_handlers s hs m -> Performs (h_identities (s_handler s)) (Context_ (gin st)) Q m -> done st = false ->
  exists l, log_of (run hs st).2 = log_of st ++ l /\ one_operation Q (h_identities (s_handler s)) l.
Proof using.
  intros [m'|d m'] Hm Hd; [by apply performs_final|].
  destruct (Passes_run _ _ [final m'] st (passes_RateLimit (s_limiter s) (Config.RateLimit.Login (Config.RateLimit (s_cfg s)))
    d Router.client_ip) Hd) as [H|(st1 & K1 & L1 & D1 & H)].
  - exists []. rewrite app_nil_r. split; [exact H|by left].
  - rewrite <- (proj2 K1) in Hm. destruct (performs_final _ _ _ st1 Hm D1) as (l & Hl & Ho). exists l. split; [|done].
    unfold Router.login_limit. by rewrite H, Hl, L1.
Qed.

(** What serving a request does: nothing, or what the operation of its route
    does in the context that was admitted. *)
Definition served (s : Server) (r : Route) st (l : list (DB * DB)) : Prop :=
  l = [] \/ exists ctx, admitted s st (route_path r) ctx /\
    one_operation (at_path (route_path r) ctx) (h_identities (s_handler s)) l.

Lemma serve_served {al : AuthnLaws} {zl : AuthzLaws} s ids routes r st :
  s_auth s = auth.NewWithIdentity (s_cfg s) ids -> Router.NewServer s = Ok routes ->
  Router.route_of routes (gin st) = Some r -> done st = false ->
  exists l, log_of (Router.serve s r st).2 = log_of st ++ l /\ served s r st l.
Proof using.
  intros Hauth ->%NewServer_Ok [Hr [_ Hpath]]%route_of_elem Hd.
  assert (forall st', log_of st' = log_of st -> exists l, log_of st' = log_of st ++ l /\ served s r st l) as Hquiet
    by (intros st' ->; exists []; rewrite app_nil_r; split; [done|by left]).
  unfold Router.serve. apply elem_of_app in Hr as [Hr|([path hs] & -> & Hin)%list_elem_of_fmap].
  - apply Hquiet. destruct (run_prefix kept _ (route_handlers r) st (passes_global s) Hd) as [H|(st0 & _ & L0 & _ & E0)];
      [done|]. rewrite E0, <- L0. by apply (public_quiet s).
  - cbn [route_handlers route_path] in *.
    destruct (serve_admitted s ids path hs st Hauth) as [H|(st2 & A & L2 & D2 & ->)]; [done..|by apply Hquiet|].
    pose proof (routes_perform s) as Hs. rewrite Forall_forall in Hs. destruct (Hs _ Hin) as (m & Hm & Hp). cbn in Hm.
    destruct (performs_route s _ hs m st2 Hm (Hp _) D2) as (l & Hl & Ho). exists l. rewrite <- L2. split; [done|]. right. eauto.
Qed.

(** C4: The HTTP server refines the abstract system and the ledger: whatever
    route a request is matched to, in any environment, serving it makes no
    change, or exactly the atomic changes of one operation of the identity
    service: the operation the route is for, called in the context that
    authentication and authorization admitted for that route.  Each change is
    a [step] of the system, which keeps its invariants, and a sequence of
    moves of the ledger that are permitted to that operation. *)
Theorem http_refines_system {al : AuthnLaws} {zl : AuthzLaws} s ids routes r st :
  s_auth s = auth.NewWithIdentity (s_cfg s) ids -> Router.NewServer s = Ok routes ->
  Router.route_of routes (gin st) = Some r -> done st = false ->
  let svc := h_identities (s_handler s) in
  exists l, log_of (Router.serve s r st).2 = log_of st ++ l /\
    (l = [] \/ exists ctx, admitted s st (route_path r) ctx /\ one_operation (at_path (route_path r) ctx) svc l /\
       Forall (change_of (at_path (route_path r) ctx) svc) l).
Proof using.
  intros Hauth HN Hr Hd svc. destruct (serve_served s ids routes r st Hauth HN Hr Hd) as (l & Hl & [->|(ctx & A & Ho)]).
  - exists []. split; [done|by left].
  - exists l. split; [done|]. right. exists ctx. split_and!; [done..|]. by apply one_operation_changes.
Qed.

(** *** Self-service over HTTP *)

Definition self_service_paths : list string :=
  ["/api/v1/auth/logout"; "/api/v1/auth/change-password"; "/api/v1/auth/sessions/revoke";
   "/api/v1/auth/mfa/setup/start"; "/api/v1/auth/mfa/setup/confirm"; "/api/v1/auth/mfa/disable";
   "/api/v1/auth/mfa/recovery-codes/regenerate"].

Lemma self_service_at path ctx q : path ∈ self_service_paths -> at_path path ctx q -> self_service q = Some ctx.
Proof using.
  intros Hp [Hq <-]. unfold self_service_paths in Hp.
  destruct q; cbn in Hq; try discriminate Hq; injection Hq as <-; try reflexivity.
  all: apply (bool_decide_pack _) in Hp; vm_compute in Hp; destruct Hp.
Qed.

(** C6: Over HTTP, self-service stays with the caller.  Other requests make
    safe steps in between, and the server enforces its constraints.  If a
    request to one of the routes by which users manage their account changes
    the database at all, authentication was passed and its context has a
    principal, and the change leaves every password, session, second factor and
    recovery code of every user but that principal as it was, and no account,
    service account, login challenge or password-reset token of anybody is
    touched, whatever the body of the request says. *)
Theorem http_self_service {al : AuthnLaws} {zl : AuthzLaws} s ids routes r st :
  Rely safe_step -> Enforced ->
  s_auth s = auth.NewWithIdentity (s_cfg s) ids -> Router.NewServer s = Ok routes ->
  Router.route_of routes (gin st) = Some r -> done st = false -> route_path r ∈ self_service_paths ->
  log_of (Router.serve s r st).2 <> log_of st ->
  exists ctx p l, admitted s st (route_path r) ctx /\ principal_Require ctx = Ok p /\
    log_of (Router.serve s r st).2 = log_of st ++ l /\
    Forall (fun ch => others_untouched (PID p) (ledger ch.1) (ledger ch.2)) l.
Proof using.
  intros Hrely He Hauth HN Hr Hd Hp Hlog. destruct (serve_served s ids routes r st Hauth HN Hr Hd) as (l & Hl & Hs).
  assert (l <> []) as Hne by (intros ->; by rewrite Hl, app_nil_r in Hlog).
  destruct Hs as [?|(ctx & A & [?|(q & w & Hq & ->)])]; [done..|].
  pose proof (self_service_at _ _ _ Hp Hq) as Hself.
  destruct (principal_Require ctx) as [p|e] eqn:Ep; [|by rewrite (self_service_caller _ _ _ _ w Hself Ep) in Hne].
  exists ctx, p, (changes (handle (h_identities (s_handler s)) q) w). split_and!; [done..|].
  apply Forall_forall. intros [d d'] Hin. by eapply self_service_untouched.
Qed.

(** ** gRPC *)
Context {gl : GrpcLibs}.

Lemma dispatch_performs svc c ctx w :
  exists l, w_log (GrpcServer.dispatch svc c ctx w).2 = w_log w ++ l /\ one_operation (at_method (GrpcServer.method_of c)) svc l.
Proof using.
  destruct (decide (GrpcServer.method_of c = M_RevokeTenantSessions \/ GrpcServer.method_of c = M_IssueTenantToken)) as [Hm|Hm].
  2:{ exists []. rewrite app_nil_r. split; [by apply dispatch_reads|by left]. }
  assert (forall A B (f : A -> B) r (m : M A), Runs svc r m ->
    w_log ((f <$> IdentityServer.service_call m) w).2 = w_log w ++ changes (handle svc r) w) as Hop.
  { intros A B f r m Hr. rewrite <- handle_log, <- Hr. unfold fmap, RPC_fmap, IdentityServer.service_call.
    by destruct (m w) as [[a|e] w']. }
  destruct c; destruct Hm as [Hm|Hm]; try discriminate Hm; cbn [GrpcServer.dispatch].
  - exists (changes (handle svc (RevokeTenantSessions ctx user_id tenant_id reason)) w).
    split; [apply Hop; solve_runs|]. right. do 2 eexists. split; [|reflexivity]. done.
  - exists (changes (handle svc (IssueTenantToken ctx user_id tenant_id membership_id session_id)) w).
    split; [apply Hop; solve_runs|]. right. do 2 eexists. split; [|reflexivity]. done.
Qed.

(** The gRPC server refines system and ledger in the same way: a call makes
    the changes of at most one operation, that of its method. *)
Theorem grpc_refines_system {al : AuthnLaws} {zl : AuthzLaws} {gw : GrpcLaws} cfg ids svc c ctx w :
  exists l, w_log (GrpcServer.serve cfg (auth.NewWithIdentity cfg ids) svc c ctx w).2 = w_log w ++ l /\
    one_operation (at_method (GrpcServer.method_of c)) svc l /\ Forall (change_of (at_method (GrpcServer.method_of c)) svc) l.
Proof using.
  cut (exists l, w_log (GrpcServer.serve cfg (auth.NewWithIdentity cfg ids) svc c ctx w).2 = w_log w ++ l /\
    one_operation (at_method (GrpcServer.method_of c)) svc l).
  { intros (l & Hl & Ho). exists l. split; [done|]. split; [done|]. by apply one_operation_changes. }
  unfold GrpcServer.serve.
  assert (forall w', w_log w' = w_log w -> exists l, w_log w' = w_log w ++ l /\
    one_operation (at_method (GrpcServer.method_of c)) svc l) as Hquiet
    by (intros w' ->; exists []; rewrite app_nil_r; split; [done|by left]).
  destruct (chain_gate cfg ids (GrpcServer.method_of c) (GrpcServer.dispatch svc c) ctx w)
    as [[H _]|(ctx' & w2 & (_ & _ & _ & _ & _ & L2 & _) & [H|H])]; [by apply Hquiet|apply Hquiet; congruence|].
  destruct (dispatch_performs svc c ctx' w2) as (l & Hl & Ho). exists l. split; [|done]. congruence.
Qed.
End theorems.

(** ** Witnesses *)
Section witnesses.
Import Concrete ConcreteWeb.
#[local] Instance env0 : Env := quiet noon 0.

Definition all_routes {env : Env} : list Route := Router.public_routes server_of ++ Router.api server_of.
Definition route_for {env : Env} (st : HState) : Route := default (mkRoute "" "" []) (Router.route_of all_routes (gin st)).
Lemma route_for_ok {env : Env} st :
  match Router.route_of all_routes (gin st) with Some _ => true | None => false end = true ->
  Router.route_of all_routes (gin st) = Some (route_for st).
Proof. unfold route_for. by destruct (Router.route_of _ _). Qed.

Lemma http_refines_witness : exists l ctx,
  log_of (Router.serve server_of (route_for register_request) register_request).2 = l /\ length l = 1%nat /\
  one_operation (at_path "/api/v1/identities/register" ctx) service l.
Proof.
  assert (length (log_of (Router.serve server_of (route_for register_request) register_request).2) = 1%nat) as Hlen
    by (vm_compute; reflexivity).
  assert (route_path (route_for register_request) = "/api/v1/identities/register") as Hp by (vm_compute; reflexivity).
  destruct (http_refines_system server_of service all_routes (route_for register_request) register_request)
    as (l & Hl & [->|(ctx & _ & Ho & _)]).
  - reflexivity.
  - reflexivity.
  - apply route_for_ok. vm_compute. reflexivity.
  - reflexivity.
  - rewrite Hl in Hlen. discriminate Hlen.
  - rewrite Hl in Hlen |- *. rewrite Hp in Ho. exists l, ctx. exact (conj eq_refl (conj Hlen Ho)).
Defined.

Lemma grpc_refines_witness : exists l,
  w_log (GrpcServer.serve cfg auth_service service tenant_revocation bob_call (start db)).2 = l /\ length l = 1%nat /\
  one_operation (at_method M_RevokeTenantSessions) service l.
Proof.
  destruct (grpc_refines_system cfg service service tenant_revocation bob_call (start db)) as (l & Hl & Ho & _).
  exists l. split; [exact Hl|]. split; [|exact Ho].
  apply (f_equal length) in Hl. rewrite <- (app_nil_l l). etrans; [symmetry; exact Hl|]. vm_compute. reflexivity.
Defined.
End witnesses.

(** In an environment that enforces the schema. *)
Section guarded_witness.
Import Concrete ConcreteWeb.
#[local] Instance env1 : Env := guarded noon 0.

(** Alice changes her password. *)
Definition password_request : HState :=
  received (post "/api/v1/auth/change-password" [("Authorization", "Bearer " +:+ access_token "u1" "user" "s1")]
    (JObject [("current_password", JString password); ("new_password", JString "another password")])) db.
Definition guarded_run : HState :=
  (Router.serve server_of (route_for password_request) password_request).2.

Lemma http_self_service_witness : exists ctx p l,
  principal_Require ctx = Ok p /\ log_of guarded_run = l /\
  length l = 1%nat /\ Forall (fun ch => others_untouched (PID p) (ledger ch.1) (ledger ch.2)) l.
Proof.
  assert (length (log_of guarded_run) = 1%nat) as Hlen by (vm_compute; reflexivity).
  destruct (http_self_service server_of service all_routes (route_for password_request) password_request
    (guarded_rely noon 0) (guarded_enforced noon 0)) as (ctx & p & l & _ & Hp & Hl & HF).
  - reflexivity.
  - reflexivity.
  - apply route_for_ok. vm_compute. reflexivity.
  - reflexivity.
  - assert (bool_decide (route_path (route_for password_request) ∈ self_service_paths) = true) as Hb by (vm_compute; reflexivity).
    apply bool_decide_eq_true in Hb. exact Hb.
  - intros H. assert (log_of guarded_run = log_of password_request) as H' by exact H. rewrite H' in Hlen. discriminate Hlen.
  - assert (log_of guarded_run = l) as Hl' by exact Hl. rewrite Hl' in Hlen.
    exists ctx, p, l. exact (conj Hp (conj Hl' (conj Hlen HF))).
Defined.
End guarded_witness.
