(* ===== verification/Outbound.v ===== *)
(** * Outbound clients

    [internal/outbound] and [internal/grpcclient]: HTTP and gRPC clients with
    credentials, retries with exponential backoff and a circuit breaker, and
    the registry of named clients.  A client runs in the state monad [Net],
    which records what is sent, how long it waits and what is counted.  What
    the network answers to the n-th message, whether a wait is cut short by
    the context, whether the breaker library admits a call after the outcomes
    it was told, and the files and URLs of the standard library are the
    parameter [Network].  Durations are measured and spans recorded by the
    metrics and tracing libraries only. *)

From S2P Require Import Prelude.
From S2P Require Import GoStrings.
From S2P Require Import AppError.
From S2P Require Import Platform.
From S2P Require Import PathMatch.
From S2P Require Import Configuration.
From S2P Require Import Model.
From S2P Require Import Runtime.
From S2P Require Import RequestContext.
From S2P Require Import Json.
From S2P Require Import Middleware.
From Stdlib Require Import SpecFloat.
Open Scope Z_scope.

(** [http.Header]: canonical names with their values. *)
Definition Header : Type := gmap string (list string).
Definition header_Get (h : Header) (k : string) : string := default "" (h !! k ≫= head).
Definition header_Set (k v : string) (h : Header) : Header := <[k := [v]]> h.

Record HTTPRequest := mkHTTPRequest { rq_method : string; rq_url : string; rq_body : bytes; rq_headers : Header }.
Record HTTPResponse := mkHTTPResponse { StatusCode : Z; resp_body : bytes }.

(** [status.Code] of the codes the client distinguishes. *)
Definition codes_OK : Z := 0.
Definition codes_Unknown : Z := 2.
Definition codes_DeadlineExceeded : Z := 4.
Definition codes_ResourceExhausted : Z := 8.
Definition codes_Unavailable : Z := 14.

(** The error of a call: a status, or any other error. *)
Inductive call_error := StatusError (code : Z) (message : string) | OtherError (e : error).
Definition status_Code (err : option call_error) : Z :=
  match err with
  | None => codes_OK
  | Some (StatusError code _) => code
  | Some (OtherError _) => codes_Unknown
  end.

(** How a breaker counts an execution. *)
Inductive outcome := Succeeded | Failed | Excluded | Refused.

(** [gobreaker.Settings]; [ReadyToTrip] takes [counts.ConsecutiveFailures].
    [IsExcluded] is applied where an outcome is recorded. *)
Record Settings := mkSettings {
  s_protocol : string; s_Name : string; s_Timeout : Z; ReadyToTrip : Z -> bool;
}.

Class Network {pf : Platform} := {
  URL : Type;
  url_Parse : string -> Result URL;
  Scheme : URL -> string;
  Host : URL -> string;
  ResolveReference : URL -> URL -> URL;
  url_String : URL -> string;
  (** [http.NewRequestWithContext(ctx, method, target, _)]. *)
  NewRequest : string -> string -> Result unit;
  (** [client.Do] of the n-th request. *)
  http_Do : nat -> HTTPRequest -> Result (option HTTPResponse);
  (** The context of the n-th wait is done before the timer. *)
  interrupted : nat -> Z -> option error;
  (** The breaker refuses an execution after these. *)
  breaker_refuses : Settings -> list outcome -> option error;
  (** [errors.Is(err, context.Canceled)]. *)
  is_Canceled : error -> bool;
  (** The n-th call on a connection. *)
  invoke : nat -> Ctx -> string -> option call_error;
  (** [codes.Code.String()]. *)
  code_String : Z -> string;
  has_Deadline : Ctx -> bool;
  AppendToOutgoingContext : Ctx -> list (string * string) -> Ctx;
  OutgoingMetadata : Ctx -> list (string * string);
  ReadFile : string -> Result bytes;
  AppendCertsFromPEM : bytes -> bool;
  LoadX509KeyPair : string -> string -> Result unit;
  (** [grpc.NewClient(target, _)], and [Close] of the connection to a name. *)
  grpc_NewClient : string -> Result unit;
  conn_Close : string -> option error;
}.

(** Documented behaviour: metadata are appended, and deadlines leave the
    values of a context alone. *)
Class NetworkLaws {pf : Platform} {cx : Contexts} {nw : Network} := {
  append_outgoing c l : OutgoingMetadata (AppendToOutgoingContext c l) = OutgoingMetadata c ++ l;
  append_idempotency c l : idempotency_FromContext (AppendToOutgoingContext c l) = idempotency_FromContext c;
  timeout_outgoing c t : OutgoingMetadata (WithTimeout c t) = OutgoingMetadata c;
  timeout_value c t k : Value (WithTimeout c t) k = Value c k;
}.

(** ** The state of a client *)
Record NetState {pf : Platform} := mkNet {
  sent : list HTTPRequest;
  called : list (Ctx * string);
  waits : list Z;
  executions : list (string * string * outcome);
  counted : list (string * string * string);
}.
Arguments mkNet {pf}.

Definition Net {pf : Platform} (A : Type) : Type := NetState -> A * NetState.
#[global] Instance Net_ret {pf : Platform} : MRet Net := fun A a st => (a, st).
#[global] Instance Net_bind {pf : Platform} : MBind Net := fun A B k m st => let '(a, st') := m st in k a st'.

Section effects.
Context {pf : Platform} {nw : Network}.

Definition send (r : HTTPRequest) : Net (Result (option HTTPResponse)) := fun st =>
  (http_Do (length (sent st)) r, mkNet (sent st ++ [r]) (called st) (waits st) (executions st) (counted st)).
Definition place_call (c : Ctx) (method : string) : Net (option call_error) := fun st =>
  (invoke (length (called st)) c method,
   mkNet (sent st) (called st ++ [(c, method)]) (waits st) (executions st) (counted st)).
(** [select] between the context and a timer. *)
Definition wait (delay : Z) : Net (Result unit) := fun st =>
  (match interrupted (length (waits st)) delay with Some e => Err e | None => Ok tt end,
   mkNet (sent st) (called st) (waits st ++ [delay]) (executions st) (counted st)).
Definition record_execution (s : Settings) (o : outcome) (st : NetState) : NetState :=
  mkNet (sent st) (called st) (waits st) (executions st ++ [(s_protocol s, s_Name s, o)]) (counted st).
(** The outcomes of the breaker [s]. *)
Definition history (s : Settings) (st : NetState) : list outcome :=
  snd <$> filter (fun e => e.1 = (s_protocol s, s_Name s)) (executions st).
(** [breaker.Execute(f)]: [judge] is how its result counts, and [reject] the
    result of a refusal. *)
Definition breaker_Execute {A} (s : Settings) (f : Net A) (judge : A -> outcome) (reject : error -> A) : Net A := fun st =>
  match breaker_refuses s (history s st) with
  | Some e => (reject e, record_execution s Refused st)
  | None => let '(a, st') := f st in (a, record_execution s (judge a) st')
  end.
Definition count (protocol name status : string) : Net unit := fun st =>
  (tt, mkNet (sent st) (called st) (waits st) (executions st) (counted st ++ [(protocol, name, status)])).
End effects.

(** ** [internal/outbound/http.go] *)
Module outbound.
Section outbound.
Context {pf : Platform} {cx : Contexts} {nw : Network} {up : UnicodePrint}.

Record HTTPClient := mkClient {
  c_name : string;
  c_baseURL : URL;
  c_cfg : Config.HTTPUpstream.t;
  c_breaker : option Settings;
  c_metrics : bool;    (** [metrics != nil && metrics.Enabled()] *)
}.

Definition retryableMethod (ctx : Ctx) (method : string) : bool :=
  if decide (method ∈ ["GET"; "HEAD"; "OPTIONS"; "PUT"; "DELETE"]) then true
  else match idempotency.FromContext ctx with Some _ => true | None => false end.

Definition retryableHTTPStatus (status : Z) : bool := bool_decide (status ∈ [429; 502; 503; 504]).

Definition applyHTTPAuth (auth : Config.ClientAuth.t) (h : Header) : Header :=
  if decide (Config.ClientAuth.Type_ auth = "bearer")
  then header_Set "Authorization" ("Bearer " +:+ Config.ClientAuth.Token auth) h
  else if decide (Config.ClientAuth.Type_ auth = "psk")
  then header_Set "Authorization" ("PSK " +:+ Config.ClientAuth.Token auth) h
  else h.

(** [time.Duration(f)] of a [float64]; out of range, what amd64 yields. *)
Definition duration_of_float (f : spec_float) : Z :=
  match f with
  | S754_zero _ => 0
  | S754_finite _ _ _ =>
      let v := float_to_int f in if decide (int64_min <= v <= int64_max) then v else int64_min
  | _ => int64_min
  end.

Definition backoff_delay (retry : Config.Retry.t) (attempt : Z) : Z :=
  let delay := duration_of_float (SFmul 53 1024 (float_of_Z (Config.Retry.InitialBackoff retry))
                                    (float_of_Z (2 ^ (attempt - 1)))) in
  if decide (Config.Retry.MaxBackoff retry < delay) then Config.Retry.MaxBackoff retry else delay.

Definition waitBackoff (retry : Config.Retry.t) (attempt : Z) : Net (Result unit) := wait (backoff_delay retry attempt).

(** The headers of an attempt. *)
Definition request_headers (cfg : Config.HTTPUpstream.t) (body : bytes) (headers : Header) : Header :=
  applyHTTPAuth (Config.HTTPUpstream.Auth cfg)
    (if decide (body <> [] /\ header_Get headers "Content-Type" = "")
     then header_Set "Content-Type" "application/json" headers else headers).

(** [for attempt := 1; attempt <= maxAttempts; attempt++]; [left] counts the
    attempts that are left. *)
Fixpoint attempt_loop (c : HTTPClient) (method target : string) (body : bytes) (headers : Header)
    (maxAttempts : Z) (left : nat) (attempt : Z) : Net (Result (option HTTPResponse)) :=
  match left with
  | O => mret (Err (ErrorsNew "outbound HTTP attempts exhausted"))
  | S left' =>
      match NewRequest method target with
      | Err e => mret (Err (Errorf "create outbound HTTP request" e))
      | Ok _ =>
          r ← send (mkHTTPRequest method target body (request_headers (c_cfg c) body headers));
          let again : Net (Result (option HTTPResponse)) :=
            if decide (attempt < maxAttempts) then
              w ← waitBackoff (Config.HTTPUpstream.Retry (c_cfg c)) attempt;
              match w with
              | Err e => mret (Err e)
              | Ok _ => attempt_loop c method target body headers maxAttempts left' (attempt + 1)
              end
            else attempt_loop c method target body headers maxAttempts left' (attempt + 1) in
          match r with
          | Ok None => mret (Ok None)
          | Ok (Some response) =>
              if negb (retryableHTTPStatus (StatusCode response)) || bool_decide (attempt = maxAttempts)
              then mret (Ok (Some response)) else again
          | Err e =>
              if decide (attempt = maxAttempts) then mret (Err (Errorf "call outbound HTTP service" e)) else again
          end
      end
  end.

Definition max_attempts (c : HTTPClient) (ctx : Ctx) (method : string) : Z :=
  if retryableMethod ctx method then Config.Retry.MaxAttempts (Config.HTTPUpstream.Retry (c_cfg c)) else 1.

(** [reference.IsAbs()] is a scheme. *)
Definition doWithRetry (c : HTTPClient) (ctx : Ctx) (method requestPath : string) (body : bytes) (headers : Header)
    : Net (Result (option HTTPResponse)) :=
  match url_Parse requestPath with
  | Err _ => mret (Err (ErrorsNew "outbound HTTP path must be relative"))
  | Ok reference =>
      if decide (Scheme reference <> "" \/ Host reference <> "")
      then mret (Err (ErrorsNew "outbound HTTP path must be relative"))
      else
        let target := url_String (ResolveReference (c_baseURL c) reference) in
        let maxAttempts := max_attempts c ctx method in
        attempt_loop c method target body headers maxAttempts (Z.to_nat maxAttempts) 1
  end.

Definition breaker_settings (name : string) (cfg : Config.Breaker.t) : Settings :=
  mkSettings "http" name (Config.Breaker.OpenTimeout cfg)
    (fun consecutiveFailures => bool_decide (Config.Breaker.FailureThreshold cfg <= consecutiveFailures)).

(** [IsExcluded]. *)
Definition is_excluded (err : error) : bool := is_Canceled err.

(** What the function given to the breaker returns: a result, or the
    [statusError] that carries a response. *)
Definition judge (r : Result (option HTTPResponse) + HTTPResponse) : outcome :=
  match r with
  | inr _ => Failed
  | inl (Ok _) => Succeeded
  | inl (Err e) => if is_excluded e then Excluded else Failed
  end.

Definition execute (c : HTTPClient) (ctx : Ctx) (method requestPath : string) (body : bytes) (headers : Header)
    : Net (Result (option HTTPResponse)) :=
  match c_breaker c with
  | None => doWithRetry c ctx method requestPath body headers
  | Some breaker =>
      r ← breaker_Execute breaker
        (response ← doWithRetry c ctx method requestPath body headers;
         mret (match response with
               | Ok (Some resp) => if retryableHTTPStatus (StatusCode resp) then inr resp else inl (Ok (Some resp))
               | _ => inl response
               end))
        judge (fun e => inl (Err e));
      mret (match r with inl result => result | inr resp => Ok (Some resp) end)
  end.

Definition Do (c : HTTPClient) (ctx : Ctx) (method requestPath : string) (body : bytes) (headers : Header)
    : Net (Result (option HTTPResponse)) :=
  r ← execute c ctx method requestPath body headers;
  let status := match r with Ok (Some response) => format_int (StatusCode response) | _ => "error" end in
  (if c_metrics c then count "http" (c_name c) status else mret tt);;
  mret r.

Definition httpTransport (cfg : Config.ClientTLS.t) : Result unit :=
  (if decide (Config.ClientTLS.CAFile cfg <> "") then
     match ReadFile (Config.ClientTLS.CAFile cfg) with
     | Err e => Err (Errorf "read outbound HTTP CA" e)
     | Ok pem => if AppendCertsFromPEM pem then Ok tt else Err (ErrorsNew "parse outbound HTTP CA")
     end
   else Ok tt);;
  (if decide (Config.ClientTLS.CertFile cfg <> "") then
     match LoadX509KeyPair (Config.ClientTLS.CertFile cfg) (Config.ClientTLS.KeyFile cfg) with
     | Err e => Err (Errorf "load outbound HTTP client certificate" e)
     | Ok _ => Ok tt
     end
   else Ok tt).

Definition NewHTTPClient (name : string) (cfg : Config.HTTPUpstream.t) (metrics : bool) : Result HTTPClient :=
  if decide (Config.ClientAuth.Type_ (Config.HTTPUpstream.Auth cfg) <> "" /\
             Config.ClientTLS.Enabled (Config.HTTPUpstream.TLS cfg) = false)
  then Err (ErrorsNew "refusing to send outbound HTTP credentials without TLS")
  else match url_Parse (Config.HTTPUpstream.BaseURL cfg) with
  | Err _ => Err (ErrorsNew ("parse outbound HTTP base URL " +:+ Quote (Config.HTTPUpstream.BaseURL cfg)))
  | Ok baseURL =>
      if decide (Scheme baseURL = "" \/ Host baseURL = "")
      then Err (ErrorsNew ("parse outbound HTTP base URL " +:+ Quote (Config.HTTPUpstream.BaseURL cfg)))
      else
        httpTransport (Config.HTTPUpstream.TLS cfg);;
        Ok (mkClient name baseURL cfg
              (if Config.Breaker.Enabled (Config.HTTPUpstream.Breaker cfg)
               then Some (breaker_settings name (Config.HTTPUpstream.Breaker cfg)) else None) metrics)
  end.
End outbound.
End outbound.

(** ** [internal/grpcclient/client.go] *)
Module grpcclient.

Module TLSConfig.
Record t := mk {
  Enabled : bool; ServerName : string; CAFile : string; CertFile : string; KeyFile : string; AllowInsecureToken : bool;
}.
End TLSConfig.

(** [Metrics != nil] and [Metrics.Enabled()] are one flag. *)
Record Config_ := mkConfig {
  Target : string;
  Timeout : Z;
  Token : string;
  PSK : string;
  TLS : TLSConfig.t;
  Name : string;
  Retry : Config.Retry.t;
  Breaker : Config.Breaker.t;
  Metrics : bool;
}.

Section grpcclient.
Context {pf : Platform} {cx : Contexts} {nw : Network}.

(** [grpc.UnaryInvoker] and [grpc.UnaryClientInterceptor]. *)
Definition Invoker : Type := Ctx -> string -> Net (option call_error).
Definition Interceptor : Type := Invoker -> Invoker.

Fixpoint match_any (patterns : list string) (method : string) : bool :=
  match patterns with
  | [] => false
  | pattern :: rest => match Match pattern method with Some true => true | _ => match_any rest method end
  end.

Definition retryGRPCMethod (ctx : Ctx) (method : string) (patterns : list string) : bool :=
  match idempotency.FromContext ctx with
  | Some _ => true
  | None => match_any patterns method
  end.

(** [cfg.InitialBackoff << (attempt - 1)] on 64 bits. *)
Definition retry_delay (cfg : Config.Retry.t) (attempt : Z) : Z :=
  let delay := wrap64 (Z.shiftl (Config.Retry.InitialBackoff cfg) (attempt - 1)) in
  if decide (Config.Retry.MaxBackoff cfg < delay) then Config.Retry.MaxBackoff cfg else delay.
Definition waitRetry (cfg : Config.Retry.t) (attempt : Z) : Net (Result unit) := wait (retry_delay cfg attempt).

Definition transient (code : Z) : bool := bool_decide (code = codes_Unavailable \/ code = codes_ResourceExhausted).

(** The loop; [err] is the error of the previous attempt. *)
Fixpoint retry_loop (cfg : Config.Retry.t) (invoker : Net (option call_error)) (left : nat) (attempt : Z)
    (err : option call_error) : Net (option call_error) :=
  match left with
  | O => mret err
  | S left' =>
      err ← invoker;
      if negb (transient (status_Code err)) then mret err
      else if decide (attempt < Config.Retry.MaxAttempts cfg) then
        w ← waitRetry cfg attempt;
        match w with
        | Err e => mret (Some (OtherError e))
        | Ok _ => retry_loop cfg invoker left' (attempt + 1) err
        end
      else retry_loop cfg invoker left' (attempt + 1) err
  end.

Definition retryInterceptor (cfg : Config.Retry.t) : Interceptor := fun invoker ctx method =>
  if negb (retryGRPCMethod ctx method (Config.Retry.Methods cfg)) then invoker ctx method
  else retry_loop cfg (invoker ctx method) (Z.to_nat (Config.Retry.MaxAttempts cfg)) 1 None.

(** [IsExcluded]. *)
Definition is_excluded (err : option call_error) : bool :=
  let code := status_Code err in
  bool_decide (code <> codes_Unavailable /\ code <> codes_ResourceExhausted /\ code <> codes_DeadlineExceeded).

Definition judge (err : option call_error) : outcome :=
  match err with
  | None => Succeeded
  | Some _ => if is_excluded err then Excluded else Failed
  end.

Definition breakerInterceptor (name : string) (cfg : Config.Breaker.t) : Interceptor := fun invoker ctx method =>
  breaker_Execute
    (mkSettings "grpc" name (Config.Breaker.OpenTimeout cfg)
       (fun consecutiveFailures => bool_decide (Config.Breaker.FailureThreshold cfg <= consecutiveFailures)))
    (invoker ctx method) judge (fun e => Some (OtherError e)).

Definition metricsInterceptor (name : string) (enabled : bool) : Interceptor := fun invoker ctx method =>
  err ← invoker ctx method;
  (if enabled then count "grpc" name (code_String (status_Code err)) else mret tt);;
  mret err.

Definition timeoutInterceptor (timeout : Z) : Interceptor := fun invoker ctx method =>
  if has_Deadline ctx then invoker ctx method else invoker (WithTimeout ctx timeout) method.

Definition RequestIDFromContext (ctx : Ctx) : string * bool := requestid.FromContext ctx.
Definition WithRequestID (ctx : Ctx) (id : string) : Ctx := requestid.WithContext ctx id.
Definition WithIdempotencyKey (ctx : Ctx) (key : string) : Ctx := idempotency.WithContext ctx key.

(** The metadata a call carries. *)
Definition call_pairs (token psk : string) (ctx : Ctx) : list (string * string) :=
  (if decide (token <> "") then [("authorization", "Bearer " +:+ token)]
   else if decide (psk <> "") then [("authorization", "PSK " +:+ psk)] else []) ++
  (let '(requestID, ok) := RequestIDFromContext ctx in if (ok : bool) then [("x-request-id", requestID)] else []) ++
  (match idempotency.FromContext ctx with Some key => [("idempotency-key", key)] | None => [] end).

Definition metadataInterceptor (token psk : string) : Interceptor := fun invoker ctx method =>
  let pairs := call_pairs token psk ctx in
  invoker (if decide (pairs = []) then ctx else AppendToOutgoingContext ctx pairs) method.

Definition transportCredentials (cfg : TLSConfig.t) : Result unit :=
  if negb (TLSConfig.Enabled cfg) then Ok tt
  else
    (if decide (TLSConfig.CAFile cfg <> "") then
       match ReadFile (TLSConfig.CAFile cfg) with
       | Err e => Err (Errorf "read grpc CA" e)
       | Ok pem => if AppendCertsFromPEM pem then Ok tt else Err (ErrorsNew "parse grpc CA")
       end
     else Ok tt);;
    (if decide (TLSConfig.CertFile cfg <> "" \/ TLSConfig.KeyFile cfg <> "") then
       if decide (TLSConfig.CertFile cfg = "" \/ TLSConfig.KeyFile cfg = "")
       then Err (ErrorsNew "grpc client certificate and key must be configured together")
       else match LoadX509KeyPair (TLSConfig.CertFile cfg) (TLSConfig.KeyFile cfg) with
            | Err e => Err (Errorf "load grpc client certificate" e)
            | Ok _ => Ok tt
            end
     else Ok tt).

(** A connection is its interceptors, the first one outermost. *)
Definition Dial (cfg : Config_) : Result (list Interceptor) :=
  if decide (Target cfg = "") then Err (ErrorsNew "grpc client target is required")
  else if decide (Timeout cfg <= 0) then Err (ErrorsNew "grpc client timeout must be positive")
  else
    transportCredentials (TLS cfg);;
    if decide (Token cfg <> "" /\ TLSConfig.Enabled (TLS cfg) = false /\ TLSConfig.AllowInsecureToken (TLS cfg) = false)
    then Err (ErrorsNew "refusing to send grpc bearer token without TLS")
    else if decide (PSK cfg <> "" /\ Token cfg <> "")
    then Err (ErrorsNew "grpc client bearer token and PSK are mutually exclusive")
    else if decide (PSK cfg <> "" /\ TLSConfig.Enabled (TLS cfg) = false /\ TLSConfig.AllowInsecureToken (TLS cfg) = false)
    then Err (ErrorsNew "refusing to send grpc PSK without TLS")
    else
      grpc_NewClient (Target cfg);;
      Ok ([timeoutInterceptor (Timeout cfg); metadataInterceptor (Token cfg) (PSK cfg);
           metricsInterceptor (Name cfg) (Metrics cfg)] ++
          (if Config.Breaker.Enabled (Breaker cfg) then [breakerInterceptor (Name cfg) (Breaker cfg)] else []) ++
          (if decide (1 < Config.Retry.MaxAttempts (Retry cfg)) then [retryInterceptor (Retry cfg)] else [])).

(** A call on a connection. *)
Definition Invoke (interceptors : list Interceptor) : Invoker := foldr (fun i next => i next) place_call interceptors.
End grpcclient.
End grpcclient.

(** ** [internal/outbound/registry.go] *)
Module registry.
Section registry.
Context {pf : Platform} {cx : Contexts} {nw : Network} {up : UnicodePrint} {mo : MapOrder}.

Record Registry := mkRegistry {
  http : gmap string outbound.HTTPClient;
  grpc : gmap string (list grpcclient.Interceptor);
}.

Definition client_config (name : string) (u : Config.GRPCUpstream.t) (metrics : bool) : grpcclient.Config_ :=
  let tls := Config.GRPCUpstream.TLS u in
  let auth := Config.GRPCUpstream.Auth u in
  grpcclient.mkConfig (Config.GRPCUpstream.Target u) (Config.GRPCUpstream.Timeout u)
    (if decide (Config.ClientAuth.Type_ auth = "bearer") then Config.ClientAuth.Token auth else "")
    (if decide (Config.ClientAuth.Type_ auth = "psk") then Config.ClientAuth.Token auth else "")
    (grpcclient.TLSConfig.mk (Config.ClientTLS.Enabled tls) (Config.ClientTLS.ServerName tls) (Config.ClientTLS.CAFile tls)
       (Config.ClientTLS.CertFile tls) (Config.ClientTLS.KeyFile tls) false)
    name (Config.GRPCUpstream.Retry u) (Config.GRPCUpstream.Breaker u) metrics.

Fixpoint add_http (metrics : bool) (l : list (string * Config.HTTPUpstream.t)) (r : Registry) : Result Registry :=
  match l with
  | [] => Ok r
  | (name, u) :: l' =>
      match outbound.NewHTTPClient name u metrics with
      | Err e => Err (Errorf ("create outbound HTTP client " +:+ Quote name) e)
      | Ok client => add_http metrics l' (mkRegistry (<[name := client]> (http r)) (grpc r))
      end
  end.

Fixpoint add_grpc (metrics : bool) (l : list (string * Config.GRPCUpstream.t)) (r : Registry) : Result Registry :=
  match l with
  | [] => Ok r
  | (name, u) :: l' =>
      match grpcclient.Dial (client_config name u metrics) with
      | Err e => Err (Errorf ("create outbound gRPC client " +:+ Quote name) e)
      | Ok connection => add_grpc metrics l' (mkRegistry (http r) (<[name := connection]> (grpc r)))
      end
  end.

Definition NewRegistry (cfg : Config.t) (metrics : bool) : Result Registry :=
  r ← add_http metrics (map_range (map_to_list (Config.Outbound.HTTP (Config.Outbound cfg)))) (mkRegistry ∅ ∅);
  add_grpc metrics (map_range (map_to_list (Config.Outbound.GRPC (Config.Outbound cfg)))) r.

(** The first error of the connections. *)
Fixpoint close_all (names : list string) (closeErr : option error) : option error :=
  match names with
  | [] => closeErr
  | name :: names' =>
      close_all names' (match conn_Close name, closeErr with
                        | Some err, None => Some (Errorf ("close outbound gRPC client " +:+ Quote name) err)
                        | _, _ => closeErr
                        end)
  end.
Definition close (r : Registry) : option error := close_all (map_range (fst <$> map_to_list (grpc r))) None.

Definition HTTP (r : Registry) (name : string) : option outbound.HTTPClient := http r !! name.
Definition GRPC (r : Registry) (name : string) : option (list grpcclient.Interceptor) := grpc r !! name.
End registry.
End registry.
