(* ===== verification/OutboundSpec.v ===== *)
(** * Outbound clients: theorems

    How often a request is sent, what is waited between the attempts, what
    every attempt carries, and that credentials travel over TLS only. *)

From S2P Require Import Prelude.
From S2P Require Import GoStrings.
From S2P Require Import AppError.
From S2P Require Import Platform.
From S2P Require Import PathMatch.
From S2P Require Import Configuration.
From S2P Require Import ConfigSpec.
From S2P Require Import Model.
From S2P Require Import Runtime.
From S2P Require Import RequestContext.
From S2P Require Import Json.
From S2P Require Import Token.
From S2P Require Import ServiceBase.
From S2P Require Import Concrete.
From S2P Require Import Router.
From S2P Require Import ConcreteWeb.
From S2P Require Import Outbound.
Open Scope Z_scope.

(** Delays of the attempts from [attempt] on. *)
Definition delays (delay : Z -> Z) (attempt : Z) (k : nat) : list Z := (fun i => delay (attempt + Z.of_nat i)) <$> seq 0 k.

Lemma delays_S delay a k : delays delay a (S k) = delay a :: delays delay (a + 1) k.
Proof.
  unfold delays. cbn [seq]. rewrite fmap_cons, <- (fmap_S_seq 0 k), <- list_fmap_compose. f_equal; [f_equal; lia|].
  apply list_fmap_ext. intros _ i _. cbn. f_equal. lia.
Qed.

Section outbound_spec.
Context {pf : Platform} {cx : Contexts} {nw : Network} {up : UnicodePrint}.
Implicit Types st : NetState.

(** ** HTTP *)

(** An answer that leads to another attempt. *)
Definition worth_retrying (r : Result (option HTTPResponse)) : Prop :=
  match r with
  | Err _ => True
  | Ok (Some response) => outbound.retryableHTTPStatus (StatusCode response) = true
  | Ok None => False
  end.

(** [n] attempts of the same request [rq], with the waits [ws] in between:
    every attempt but the last was worth retrying, and a response is that of
    the last attempt. *)
Definition attempts_of (st st' : NetState) (rq : HTTPRequest) (n : nat) (ws : list Z) (r : Result (option HTTPResponse)) : Prop :=
  sent st' = sent st ++ replicate n rq /\ waits st' = waits st ++ ws /\ called st' = called st /\
  (forall i, (S i < n)%nat -> worth_retrying (http_Do (length (sent st) + i) rq)) /\
  match r with
  | Ok response => exists m, n = S m /\ http_Do (length (sent st) + m) rq = Ok response
  | Err _ => True
  end.

Lemma attempts_next st st1 st' rq d n ws r :
  sent st1 = sent st ++ [rq] -> waits st1 = waits st ++ [d] -> called st1 = called st ->
  worth_retrying (http_Do (length (sent st)) rq) -> (0 < n)%nat ->
  attempts_of st1 st' rq n ws r -> attempts_of st st' rq (S n) (d :: ws) r.
Proof using.
  intros Hs Hw Hc Hworth Hn (E1 & E2 & E3 & E4 & E5). rewrite Hs in *. split_and!.
  - rewrite E1, <- app_assoc. done.
  - rewrite E2, Hw, <- app_assoc. done.
  - congruence.
  - intros [|i] Hi; [by rewrite Nat.add_0_r|]. specialize (E4 i ltac:(lia)). rewrite length_app in E4. cbn in E4.
    by replace (length (sent st) + S i)%nat with (length (sent st) + 1 + i)%nat by lia.
  - destruct r as [resp|e]; [|done]. destruct E5 as (m & -> & E5). exists (S m). split; [done|].
    rewrite length_app in E5. cbn in E5. by replace (length (sent st) + S m)%nat with (length (sent st) + 1 + m)%nat by lia.
Qed.

Lemma attempt_loop_spec c method target body headers max left attempt st r st' :
  attempt + Z.of_nat left = max + 1 -> (0 < left)%nat ->
  outbound.attempt_loop c method target body headers max left attempt st = (r, st') ->
  let rq := mkHTTPRequest method target body (outbound.request_headers (outbound.c_cfg c) body headers) in
  let delay := outbound.backoff_delay (Config.HTTPUpstream.Retry (outbound.c_cfg c)) in
  (NewRequest method target = Ok tt -> exists n k, (0 < n <= left)%nat /\ (k < left)%nat /\ (k <= n)%nat /\
     attempts_of st st' rq n (delays delay attempt k) r) /\
  (NewRequest method target <> Ok tt -> st' = st /\ exists e, r = Err e).
Proof using.
  intros Hleft Hpos H rq delay. revert attempt st Hleft Hpos H. induction left as [|left IH]; [lia|]. intros attempt st Hleft _ H.
  cbn [outbound.attempt_loop] in H. destruct (NewRequest method target) as [[]|e] eqn:En.
  2:{ split; [done|]. intros _. injection H as <- <-. eauto. }
  split; [intros _|done]. unfold mbind, Net_bind, send in H. fold rq in H.
  set (st1 := mkNet _ _ _ _ _) in H.
  assert (forall x, http_Do (length (sent st)) rq = x -> (x = r /\ st1 = st') \/
    (match x with Err _ => exists e, r = Err e | _ => False end /\ st1 = st') ->
    exists n k, (0 < n <= S left)%nat /\ (k < S left)%nat /\ (k <= n)%nat /\ attempts_of st st' rq n (delays delay attempt k) r) as Hstop.
  { intros x Hx Hr. exists 1%nat, 0%nat. split_and!; try lia.
    assert (st1 = st') as <- by (destruct Hr as [[]|[]]; done). split_and!; try done; [by rewrite app_nil_r|lia|].
    destruct r as [resp|e']; [|done]. exists 0%nat. split; [done|]. rewrite Nat.add_0_r.
    destruct Hr as [[-> _]|[Hr _]]; [done|]. destruct x; [done|]. by destruct Hr. }
  assert (forall x (again := if decide (attempt < max) then
      fun s => let '(w, s') := outbound.waitBackoff (Config.HTTPUpstream.Retry (outbound.c_cfg c)) attempt s in
        match w with Err e => mret (Err e) | Ok _ =>
          outbound.attempt_loop c method target body headers max left (attempt + 1) end s'
      else outbound.attempt_loop c method target body headers max left (attempt + 1)),
    http_Do (length (sent st)) rq = x -> worth_retrying x -> attempt <> max -> again st1 = (r, st') ->
    exists n k, (0 < n <= S left)%nat /\ (k < S left)%nat /\ (k <= n)%nat /\ attempts_of st st' rq n (delays delay attempt k) r) as Hagain.
  { intros x again Hx Hw Hne Ha. unfold again in Ha. rewrite decide_True in Ha by lia.
    unfold outbound.waitBackoff, wait in Ha. fold delay in Ha. set (st2 := mkNet _ _ _ _ _) in Ha.
    destruct (interrupted _ _) as [e|].
    - injection Ha as <- <-. exists 1%nat, 1%nat. split_and!; try lia. rewrite delays_S. split_and!; try done. intros i Hi. lia.
    - destruct (IH (attempt + 1) st2) as [IH1 _]; [lia|lia|exact Ha|]. destruct (IH1 eq_refl) as (n & k & Hn & Hk & Hkn & Hat).
      exists (S n), (S k). split_and!; try lia. rewrite delays_S. eapply attempts_next; [..|exact Hat]; [done..|by rewrite Hx|lia]. }
  destruct (http_Do (length (sent st)) rq) as [[resp|]|e] eqn:Ed.
  - destruct (outbound.retryableHTTPStatus (StatusCode resp)) eqn:Es; cbn [negb orb] in H.
    + destruct (bool_decide (attempt = max)) eqn:Eb.
      * injection H as <- <-. apply (Hstop _ eq_refl). by left.
      * apply bool_decide_eq_false in Eb. exact (Hagain _ eq_refl Es Eb H).
    + injection H as <- <-. apply (Hstop _ eq_refl). by left.
  - injection H as <- <-. apply (Hstop _ eq_refl). by left.
  - destruct (decide (attempt = max)) as [Ea|Ea]; [|exact (Hagain _ eq_refl I Ea H)]. injection H as <- <-.
    apply (Hstop _ eq_refl). right. split; [by eexists|done].
Qed.

Lemma delay_bounded retry a k :
  Forall (fun d => d <= Config.Retry.MaxBackoff retry) (delays (outbound.backoff_delay retry) a k).
Proof using.
  apply Forall_fmap, Forall_forall. intros i _. cbn. unfold outbound.backoff_delay. case_decide; lia.
Qed.

(** A run that only sends HTTP requests: [attempts_of] up to the breaker and
    the counters. *)
Definition bounded_run c ctx method body headers st st' r : Prop :=
  exists n k rq, Z.of_nat n <= outbound.max_attempts c ctx method /\
    rq_method rq = method /\ rq_body rq = body /\
    rq_headers rq = outbound.request_headers (outbound.c_cfg c) body headers /\
    attempts_of st st' rq n (delays (outbound.backoff_delay (Config.HTTPUpstream.Retry (outbound.c_cfg c))) 1 k) r.

Lemma bounded_none c ctx method body headers st st' e :
  1 <= outbound.max_attempts c ctx method -> sent st' = sent st -> waits st' = waits st -> called st' = called st ->
  bounded_run c ctx method body headers st st' (Err e).
Proof using.
  intros Hm Hs Hw Hc. exists 0%nat, 0%nat, (mkHTTPRequest method "" body (outbound.request_headers (outbound.c_cfg c) body headers)).
  split_and!; try done; [lia|]. unfold attempts_of, delays. cbn. rewrite !app_nil_r. split_and!; try done. intros i Hi. lia.
Qed.

Lemma doWithRetry_bounded c ctx method path body headers st r st' :
  1 <= outbound.max_attempts c ctx method ->
  outbound.doWithRetry c ctx method path body headers st = (r, st') -> bounded_run c ctx method body headers st st' r.
Proof using.
  intros Hm H. unfold outbound.doWithRetry in H.
  destruct (url_Parse path) as [u|e]; [|injection H as <- <-; by apply bounded_none].
  destruct (decide _) as [Hd|Hd]; [injection H as <- <-; by apply bounded_none|].
  apply attempt_loop_spec in H as [H1 H2]; [|lia|lia].
  destruct (NewRequest method _) as [[]|e] eqn:En.
  - destruct (H1 eq_refl) as (n & k & Hn & _ & _ & Hat). eexists n, k, _. split; [lia|]. split_and!; [..|exact Hat]; done.
  - destruct H2 as [-> [e' ->]]; [done|]. by apply bounded_none.
Qed.

(** The breaker and the counters leave the messages and the waits alone. *)
Definition same_traffic (st st' : NetState) : Prop := sent st' = sent st /\ waits st' = waits st /\ called st' = called st.

Lemma bounded_traffic c ctx method body headers st st1 st' r :
  bounded_run c ctx method body headers st st1 r -> same_traffic st1 st' -> bounded_run c ctx method body headers st st' r.
Proof using.
  intros (n & k & rq & Hn & H1 & H2 & H3 & A1 & A2 & A3 & A4) (E1 & E2 & E3). exists n, k, rq. unfold attempts_of.
  rewrite E1, E2, E3. done.
Qed.

Lemma execute_bounded c ctx method path body headers st r st' :
  1 <= outbound.max_attempts c ctx method ->
  outbound.execute c ctx method path body headers st = (r, st') -> bounded_run c ctx method body headers st st' r.
Proof using.
  intros Hm H. unfold outbound.execute in H. destruct (outbound.c_breaker c) as [b|]; [|by eapply doWithRetry_bounded].
  unfold mbind, Net_bind, breaker_Execute in H. destruct (breaker_refuses _ _) as [e|].
  { injection H as <- <-. by apply bounded_none. }
  destruct (outbound.doWithRetry c ctx method path body headers st) as [r1 s1] eqn:Ed.
  apply doWithRetry_bounded in Ed; [|done].
  destruct r1 as [[resp|]|e]; [destruct (outbound.retryableHTTPStatus _)|..]; injection H as <- <-;
    by eapply bounded_traffic.
Qed.

Lemma Do_bounded c ctx method path body headers st r st' :
  1 <= outbound.max_attempts c ctx method ->
  outbound.Do c ctx method path body headers st = (r, st') -> bounded_run c ctx method body headers st st' r.
Proof using.
  intros Hm H. unfold outbound.Do, mbind, Net_bind in H.
  destruct (outbound.execute c ctx method path body headers st) as [r1 s1] eqn:Ee. apply execute_bounded in Ee; [|done].
  destruct (outbound.c_metrics c); injection H as <- <-; by eapply bounded_traffic.
Qed.

(** ** gRPC *)

Lemma retry_delay_exact cfg a :
  0 < Config.Retry.InitialBackoff cfg <= 2 ^ 59 -> 1 <= a <= 4 ->
  grpcclient.retry_delay cfg a = Z.min (Config.Retry.InitialBackoff cfg * 2 ^ (a - 1)) (Config.Retry.MaxBackoff cfg).
Proof using.
  intros Hi Ha. unfold grpcclient.retry_delay. rewrite Z.shiftl_mul_pow2 by lia.
  assert (0 < 2 ^ (a - 1) <= 2 ^ 3) by (split; [apply Z.pow_pos_nonneg; lia|apply Z.pow_le_mono_r; lia]).
  rewrite wrap64_id by (unfold int64_min, int64_max; nia). case_decide; lia.
Qed.

(** [n] attempts of a call with the waits [ws]; every attempt but the last
    failed transiently. *)
Definition calls_of (st st' : NetState) (ctx : Ctx) (method : string) (n : nat) (ws : list Z) : Prop :=
  called st' = called st ++ replicate n (ctx, method) /\ waits st' = waits st ++ ws /\ sent st' = sent st /\
  (forall i, (S i < n)%nat -> grpcclient.transient (status_Code (invoke (length (called st) + i) ctx method)) = true).

Lemma retry_loop_spec cfg ctx method left attempt err st r st' :
  attempt + Z.of_nat left = Config.Retry.MaxAttempts cfg + 1 -> (0 < left)%nat ->
  grpcclient.retry_loop cfg (place_call ctx method) left attempt err st = (r, st') ->
  exists n k, (0 < n <= left)%nat /\ (k <= n)%nat /\ (k < left)%nat /\
    calls_of st st' ctx method n (delays (grpcclient.retry_delay cfg) attempt k) /\
    (k < n -> exists m, n = S m /\ r = invoke (length (called st) + m) ctx method)%nat.
Proof using.
  revert attempt err st. induction left as [|left IH]; intros attempt err st Hleft Hpos H; [lia|].
  cbn [grpcclient.retry_loop] in H. unfold mbind, Net_bind, place_call in H. set (st1 := mkNet _ _ _ _ _) in H.
  destruct (grpcclient.transient (status_Code (invoke (length (called st)) ctx method))) eqn:Et; cbn [negb] in H.
  2:{ injection H as <- <-. exists 1%nat, 0%nat. unfold calls_of, delays. cbn. rewrite app_nil_r. split_and!; try lia; try done.
      intros _. exists 0%nat. by rewrite Nat.add_0_r. }
  destruct (decide (attempt < Config.Retry.MaxAttempts cfg)) as [Ha|Ha].
  - unfold grpcclient.waitRetry, wait in H. set (st2 := mkNet _ _ _ _ _) in H. destruct (interrupted _ _) as [e|].
    + injection H as <- <-. exists 1%nat, 1%nat. rewrite delays_S. split_and!; try lia; try done.
      unfold calls_of. split_and!; try done. intros i Hi. lia.
    + apply IH in H as (n & k & Hn & Hk & Hkl & (C1 & C2 & C3 & C4) & Hr); [|lia|lia].
      cbn in C1, C2, C3, C4, Hr. rewrite length_app in C4, Hr. cbn in C4, Hr.
      exists (S n), (S k). rewrite delays_S. unfold calls_of. split_and!; try lia.
      * rewrite C1, <- app_assoc. done.
      * rewrite C2, <- app_assoc. done.
      * done.
      * intros [|i] Hi; [by rewrite Nat.add_0_r|]. specialize (C4 i ltac:(lia)).
        by replace (length (called st) + S i)%nat with (length (called st) + 1 + i)%nat by lia.
      * intros Hkn. destruct Hr as (m & -> & ->); [lia|]. exists (S m). split; [done|]. f_equal. lia.
  - destruct left; [|lia]. cbn in H. injection H as <- <-. exists 1%nat, 0%nat. unfold calls_of, delays. cbn. rewrite app_nil_r. split_and!; try lia; try done.
    intros _. exists 0%nat. by rewrite Nat.add_0_r.
Qed.

(** The attempts a call may take. *)
Definition call_budget (cfg : Config.Retry.t) (ctx : Ctx) (method : string) : Z :=
  if grpcclient.retryGRPCMethod ctx method (Config.Retry.Methods cfg) then Config.Retry.MaxAttempts cfg else 1.

Context {mo : MapOrder} {HM : MapOrderLaws} {HC : ContextsLaws} {HN : NetworkLaws}.

(** The waits of a policy, without the machine arithmetic. *)
Definition doubling (cfg : Config.Retry.t) (k : nat) : list Z :=
  (fun i => Z.min (Config.Retry.InitialBackoff cfg * 2 ^ Z.of_nat i) (Config.Retry.MaxBackoff cfg)) <$> seq 0 k.

Lemma delays_doubling cfg k :
  0 < Config.Retry.InitialBackoff cfg <= 2 ^ 59 -> (k <= 4)%nat ->
  delays (grpcclient.retry_delay cfg) 1 k = doubling cfg k.
Proof using.
  intros Hi Hk. apply list_fmap_ext. intros j i [-> Hj]%lookup_seq. cbn. rewrite retry_delay_exact by lia. do 3 f_equal. lia.
Qed.

(** A run of at most [call_budget] calls under the context [ctx']; a result
    that is not the end of a wait or a refusal is that of the last call. *)
Definition call_run (cfg : Config.Retry.t) (ctx ctx' : Ctx) (method : string) (st st' : NetState) (r : option call_error) : Prop :=
  exists n k, Z.of_nat n <= call_budget cfg ctx method /\ (k <= n)%nat /\ (k <= 4)%nat /\
    calls_of st st' ctx' method n (doubling cfg k) /\
    (k < n -> exists m, n = S m /\ r = invoke (length (called st) + m) ctx' method)%nat.

(** What validation says of a retry policy. *)
Definition valid_retry (cfg : Config.Retry.t) : Prop :=
  1 <= Config.Retry.MaxAttempts cfg <= 5 /\ 0 < Config.Retry.InitialBackoff cfg <= Config.Retry.MaxBackoff cfg.

Lemma budget_pos cfg ctx method : valid_retry cfg -> 1 <= call_budget cfg ctx method <= 5.
Proof using. unfold valid_retry, call_budget. case_match; lia. Qed.

Lemma single_call cfg ctx method st r st' :
  valid_retry cfg -> place_call ctx method st = (r, st') -> call_run cfg ctx ctx method st st' r.
Proof using.
  intros Hv H. pose proof (budget_pos cfg ctx method Hv). injection H as <- <-. exists 1%nat, 0%nat.
  unfold calls_of, doubling. cbn. rewrite app_nil_r. split_and!; try lia; try done. intros _. exists 0%nat. by rewrite Nat.add_0_r.
Qed.

Lemma retried_call cfg ctx method st r st' :
  valid_retry cfg -> Config.Retry.InitialBackoff cfg <= 2 ^ 59 ->
  grpcclient.retryInterceptor cfg place_call ctx method st = (r, st') -> call_run cfg ctx ctx method st st' r.
Proof using.
  intros Hv Hi H. unfold grpcclient.retryInterceptor in H.
  destruct (grpcclient.retryGRPCMethod ctx method (Config.Retry.Methods cfg)) eqn:Er; [|by apply single_call].
  cbn [negb] in H. destruct Hv as [Hm Hb].
  apply retry_loop_spec in H as (n & k & Hn & Hk & Hkl & Hc & Hr); [|lia|lia].
  exists n, k. unfold call_budget. rewrite Er, <- delays_doubling by lia. split_and!; try lia; done.
Qed.

Lemma refused_call cfg ctx method st st' r :
  valid_retry cfg -> same_traffic st st' -> call_run cfg ctx ctx method st st' r.
Proof using.
  intros Hv (E1 & E2 & E3). pose proof (budget_pos cfg ctx method Hv). exists 0%nat, 0%nat. unfold calls_of, doubling. cbn.
  rewrite E1, E2, E3, !app_nil_r. split_and!; try lia; done.
Qed.

Lemma call_traffic cfg ctx ctx' method st st1 st' r :
  call_run cfg ctx ctx' method st st1 r -> same_traffic st1 st' -> call_run cfg ctx ctx' method st st' r.
Proof using.
  intros (n & k & H1 & H2 & H3 & H4 & H5) (E1 & E2 & E3). exists n, k. unfold calls_of in *. by rewrite E1, E2, E3.
Qed.

(** The context below the first two interceptors. *)
Definition dressed (cfg : grpcclient.Config_) (ctx : Ctx) : Ctx :=
  let ctx1 := if has_Deadline ctx then ctx else WithTimeout ctx (grpcclient.Timeout cfg) in
  let pairs := grpcclient.call_pairs (grpcclient.Token cfg) (grpcclient.PSK cfg) ctx1 in
  if decide (pairs = []) then ctx1 else AppendToOutgoingContext ctx1 pairs.

Lemma pairs_timeout token psk ctx t :
  grpcclient.call_pairs token psk (WithTimeout ctx t) = grpcclient.call_pairs token psk ctx.
Proof using HC HN.
  unfold grpcclient.call_pairs, grpcclient.RequestIDFromContext, requestid.FromContext, idempotency.FromContext.
  by rewrite timeout_value, idempotency_timeout.
Qed.

Lemma dressed_metadata cfg ctx :
  OutgoingMetadata (dressed cfg ctx) =
  OutgoingMetadata ctx ++ grpcclient.call_pairs (grpcclient.Token cfg) (grpcclient.PSK cfg) ctx.
Proof using HC HN.
  unfold dressed. destruct (has_Deadline ctx); rewrite ?pairs_timeout; case_decide as Hp;
    rewrite ?append_outgoing, ?timeout_outgoing, ?Hp, ?app_nil_r; done.
Qed.

Lemma dressed_budget retry cfg ctx method : call_budget retry (dressed cfg ctx) method = call_budget retry ctx method.
Proof using HC HN.
  unfold call_budget, grpcclient.retryGRPCMethod, idempotency.FromContext, dressed.
  destruct (has_Deadline ctx); case_decide; by rewrite ?append_idempotency, ?idempotency_timeout.
Qed.

Lemma Dial_Ok cfg conn : grpcclient.Dial cfg = Ok conn ->
  conn = [grpcclient.timeoutInterceptor (grpcclient.Timeout cfg);
          grpcclient.metadataInterceptor (grpcclient.Token cfg) (grpcclient.PSK cfg);
          grpcclient.metricsInterceptor (grpcclient.Name cfg) (grpcclient.Metrics cfg)] ++
         (if Config.Breaker.Enabled (grpcclient.Breaker cfg)
          then [grpcclient.breakerInterceptor (grpcclient.Name cfg) (grpcclient.Breaker cfg)] else []) ++
         (if decide (1 < Config.Retry.MaxAttempts (grpcclient.Retry cfg))
          then [grpcclient.retryInterceptor (grpcclient.Retry cfg)] else []) /\
  (grpcclient.TLSConfig.Enabled (grpcclient.TLS cfg) = false ->
   grpcclient.TLSConfig.AllowInsecureToken (grpcclient.TLS cfg) = false -> grpcclient.Token cfg = "" /\ grpcclient.PSK cfg = "").
Proof using.
  unfold grpcclient.Dial. intros H. do 2 (case_decide; [done|]). apply seq_Ok in H as [_ H].
  destruct (decide _) as [|Ht] in H; [done|]. destruct (decide _) as [|_] in H; [done|].
  destruct (decide _) as [|Hp] in H; [done|]. apply seq_Ok in H as [_ H]. injection H as <-. split; [done|].
  intros Ho Ha. clear - Ho Ha Ht Hp. split; apply dec_stable; tauto.
Qed.

Lemma Invoke_run cfg conn ctx method st r st' :
  grpcclient.Dial cfg = Ok conn -> valid_retry (grpcclient.Retry cfg) ->
  Config.Retry.InitialBackoff (grpcclient.Retry cfg) <= 2 ^ 59 ->
  grpcclient.Invoke conn ctx method st = (r, st') ->
  call_run (grpcclient.Retry cfg) ctx (dressed cfg ctx) method st st' r.
Proof using HC HN.
  intros [-> _]%Dial_Ok Hv Hi H.
  assert (forall inner, (forall c s r1 s1, inner c method s = (r1, s1) -> call_run (grpcclient.Retry cfg) c c method s s1 r1) ->
    grpcclient.Invoke [grpcclient.timeoutInterceptor (grpcclient.Timeout cfg);
      grpcclient.metadataInterceptor (grpcclient.Token cfg) (grpcclient.PSK cfg);
      grpcclient.metricsInterceptor (grpcclient.Name cfg) (grpcclient.Metrics cfg); fun _ => inner] ctx method st = (r, st') ->
    call_run (grpcclient.Retry cfg) ctx (dressed cfg ctx) method st st' r) as Hout.
  { intros inner Hin Hrun. assert (exists s1, inner (dressed cfg ctx) method st = (r, s1) /\ same_traffic s1 st') as (s1 & E1 & E2).
    { unfold dressed. cbn in Hrun. unfold grpcclient.timeoutInterceptor, grpcclient.metadataInterceptor,
        grpcclient.metricsInterceptor, mbind, Net_bind in Hrun.
      destruct (has_Deadline ctx); match type of Hrun with context [inner ?c method st] => destruct (inner c method st) as [r1 s1] end;
        exists s1; destruct (grpcclient.Metrics cfg); injection Hrun as <- <-; done. }
    eapply call_traffic in E2; [|by eapply Hin]. destruct E2 as (n & k & Hn & E2). exists n, k.
    by rewrite <- (dressed_budget _ cfg). }
  apply (Hout (grpcclient.Invoke ((if Config.Breaker.Enabled (grpcclient.Breaker cfg)
          then [grpcclient.breakerInterceptor (grpcclient.Name cfg) (grpcclient.Breaker cfg)] else []) ++
         (if decide (1 < Config.Retry.MaxAttempts (grpcclient.Retry cfg))
          then [grpcclient.retryInterceptor (grpcclient.Retry cfg)] else [])))); [|exact H].
  clear H Hout st st' r. intros c s r s' H.
  assert (forall s r s', grpcclient.Invoke (if decide (1 < Config.Retry.MaxAttempts (grpcclient.Retry cfg))
          then [grpcclient.retryInterceptor (grpcclient.Retry cfg)] else []) c method s = (r, s') ->
    call_run (grpcclient.Retry cfg) c c method s s' r) as Hbase.
  { intros s0 r0 s0'. case_decide; [by apply retried_call|by apply single_call]. }
  destruct (Config.Breaker.Enabled (grpcclient.Breaker cfg)); [|by apply Hbase].
  cbn in H. unfold grpcclient.breakerInterceptor, breaker_Execute in H. destruct (breaker_refuses _ _) as [e|].
  { injection H as <- <-. by apply refused_call. }
  match type of H with context [let '(_, _) := ?f in _] => destruct f as [r1 s1] eqn:Ef end.
  injection H as <- <-. eapply call_traffic; [by apply Hbase|done].
Qed.

(** ** The registry of a validated configuration *)

Lemma add_http_Ok metrics l r r' : registry.add_http metrics l r = Ok r' ->
  registry.grpc r' = registry.grpc r /\ forall name c, registry.http r' !! name = Some c ->
    registry.http r !! name = Some c \/ exists u, (name, u) ∈ l /\ outbound.NewHTTPClient name u metrics = Ok c.
Proof using.
  revert r. induction l as [|[nm u] l IH]; intros r H; cbn in H; [injection H as <-; eauto|].
  destruct (outbound.NewHTTPClient nm u metrics) as [c|e] eqn:En; [|done]. apply IH in H as [-> H]. split; [done|].
  intros name c' [Hc|(u' & Hu & Hc)]%H; [|right; exists u'; split; [by right|done]].
  cbn in Hc. apply lookup_insert_Some in Hc as [[<- <-]|[_ Hc]]; [|by left]. right. exists u. split; [by left|done].
Qed.

Lemma add_grpc_Ok metrics l r r' : registry.add_grpc metrics l r = Ok r' ->
  registry.http r' = registry.http r /\ forall name c, registry.grpc r' !! name = Some c ->
    registry.grpc r !! name = Some c \/
    exists u, (name, u) ∈ l /\ grpcclient.Dial (registry.client_config name u metrics) = Ok c.
Proof using.
  revert r. induction l as [|[nm u] l IH]; intros r H; cbn in H; [injection H as <-; eauto|].
  destruct (grpcclient.Dial _) as [c|e] eqn:En; [|done]. apply IH in H as [-> H]. split; [done|].
  intros name c' [Hc|(u' & Hu & Hc)]%H; [|right; exists u'; split; [by right|done]].
  cbn in Hc. apply lookup_insert_Some in Hc as [[<- <-]|[_ Hc]]; [|by left]. right. exists u. split; [by left|done].
Qed.

Lemma in_range {A} (m : gmap string A) name a : (name, a) ∈ map_range (map_to_list m) <-> m !! name = Some a.
Proof using HM. rewrite map_range_perm. apply elem_of_map_to_list. Qed.

Lemma NewRegistry_Ok cfg metrics reg : registry.NewRegistry cfg metrics = Ok reg ->
  (forall name c, registry.HTTP reg name = Some c -> exists u,
     Config.Outbound.HTTP (Config.Outbound cfg) !! name = Some u /\ outbound.NewHTTPClient name u metrics = Ok c) /\
  (forall name c, registry.GRPC reg name = Some c -> exists u,
     Config.Outbound.GRPC (Config.Outbound cfg) !! name = Some u /\
     grpcclient.Dial (registry.client_config name u metrics) = Ok c).
Proof using HM.
  unfold registry.NewRegistry, registry.HTTP, registry.GRPC.
  destruct (registry.add_http _ _ _) as [r|e] eqn:Eh; [|done]. cbn. intros Hg.
  apply add_http_Ok in Eh as [Eg Eh]. apply add_grpc_Ok in Hg as [-> Hg]. split; intros name c Hc.
  - destruct (Eh _ _ Hc) as [H0|(u & Hu & Hn)]; [by cbn in H0; rewrite lookup_empty in H0|]. exists u. by rewrite <- in_range.
  - destruct (Hg _ _ Hc) as [H0|(u & Hu & Hn)]; [by rewrite Eg in H0; cbn in H0; rewrite lookup_empty in H0|]. exists u. by rewrite <- in_range.
Qed.

Lemma policy_valid name auth retry breaker tls :
  Config.validateClientPolicy name auth retry breaker tls = Ok tt ->
  valid_retry retry /\ (Config.ClientAuth.Type_ auth <> "" -> Config.ClientTLS.Enabled tls = true).
Proof using.
  unfold Config.validateClientPolicy. cbv zeta. intros H. inv_checks H. unfold valid_retry. split.
  - match goal with H : ~ (Config.Retry.MaxAttempts _ < 1 \/ _) |- _ => clear - H end. lia.
  - intros Ht. match goal with H : ~ (_ /\ Config.ClientTLS.Enabled _ = false) |- _ => clear - H Ht end.
    apply not_false_iff_true. tauto.
Qed.

Lemma validated_upstreams cfg u : Config.Validate cfg = Ok u ->
  (forall name up, Config.Outbound.HTTP (Config.Outbound cfg) !! name = Some up ->
     valid_retry (Config.HTTPUpstream.Retry up) /\
     (Config.ClientAuth.Type_ (Config.HTTPUpstream.Auth up) <> "" ->
      Config.ClientTLS.Enabled (Config.HTTPUpstream.TLS up) = true)) /\
  (forall name up, Config.Outbound.GRPC (Config.Outbound cfg) !! name = Some up ->
     valid_retry (Config.GRPCUpstream.Retry up) /\
     (Config.ClientAuth.Type_ (Config.GRPCUpstream.Auth up) <> "" ->
      Config.ClientTLS.Enabled (Config.GRPCUpstream.TLS up) = true)).
Proof using HM.
  intros (_ & _ & _ & H)%Validate_parts. unfold Config.validate_background in H. cbv zeta in H. inv_checks H.
  repeat match goal with H : Forall _ (map_range _) |- _ => rewrite Forall_forall in H end.
  split; intros name up' Hu%in_range;
    match goal with H : forall x, x ∈ map_range _ -> _ |- _ => specialize (H _ Hu); cbn in H; apply seq_Ok in H as [_ H];
      by apply policy_valid in H end.
Qed.

Lemma client_config_kept name u metrics c : outbound.NewHTTPClient name u metrics = Ok c -> outbound.c_cfg c = u.
Proof using.
  unfold outbound.NewHTTPClient. case_decide; [done|]. destruct (url_Parse _) as [b|e]; [|done]. case_decide; [done|].
  intros [_ Hc]%seq_Ok. by injection Hc as <-.
Qed.

(** C33: A client of the registry that a validated configuration builds sends a
    request at most [max_attempts] times, hence at most five, and at most once
    if the method is not safe to repeat and the context carries no idempotency
    key.  Every attempt is the same request with the credentials of the
    configured upstream; every attempt but the last failed or met a status that
    is worth retrying, and a response is that of the last attempt, whether a
    breaker is in between or not.  No wait is longer than [max_backoff]. *)
Theorem outbound_attempts_bounded cfg u metrics reg name c ctx method path body headers st r st' :
  Config.Validate cfg = Ok u -> registry.NewRegistry cfg metrics = Ok reg -> registry.HTTP reg name = Some c ->
  outbound.Do c ctx method path body headers st = (r, st') ->
  exists up n k rq, Config.Outbound.HTTP (Config.Outbound cfg) !! name = Some up /\
    Z.of_nat n <= Config.Retry.MaxAttempts (Config.HTTPUpstream.Retry up) <= 5 /\
    (outbound.retryableMethod ctx method = false -> (n <= 1)%nat) /\
    rq_method rq = method /\ rq_body rq = body /\ rq_headers rq = outbound.request_headers up body headers /\
    attempts_of st st' rq n (delays (outbound.backoff_delay (Config.HTTPUpstream.Retry up)) 1 k) r /\
    Forall (fun d => d <= Config.Retry.MaxBackoff (Config.HTTPUpstream.Retry up))
      (delays (outbound.backoff_delay (Config.HTTPUpstream.Retry up)) 1 k).
Proof using HM.
  intros [Hv _]%validated_upstreams [Hr _]%NewRegistry_Ok Hc H. destruct (Hr _ _ Hc) as (up' & Hup & Hn).
  destruct (Hv _ _ Hup) as [[Hm _] _]. apply client_config_kept in Hn as <-.
  assert (1 <= outbound.max_attempts c ctx method <= Config.Retry.MaxAttempts (Config.HTTPUpstream.Retry (outbound.c_cfg c)))
    by (unfold outbound.max_attempts; case_match; lia).
  apply Do_bounded in H as (n & k & rq & H1 & H2 & H3 & H4 & H5); [|lia].
  exists (outbound.c_cfg c), n, k, rq. split_and!; try done; try lia; [|apply delay_bounded].
  intros Hq. unfold outbound.max_attempts in H1. rewrite Hq in H1. lia.
Qed.

Lemma plain_pairs u name metrics ctx :
  (Config.ClientAuth.Type_ (Config.GRPCUpstream.Auth u) <> "" -> Config.ClientTLS.Enabled (Config.GRPCUpstream.TLS u) = true) ->
  Config.ClientTLS.Enabled (Config.GRPCUpstream.TLS u) = false ->
  let cc := registry.client_config name u metrics in
  "authorization" ∉ (grpcclient.call_pairs (grpcclient.Token cc) (grpcclient.PSK cc) ctx).*1.
Proof using.
  intros Ht Ho. assert (Config.ClientAuth.Type_ (Config.GRPCUpstream.Auth u) = "") as He.
  { apply dec_stable. intros Hne. specialize (Ht Hne). congruence. }
  cbn. rewrite He, !(decide_False (P := "" = _)) by done. unfold grpcclient.call_pairs.
  rewrite !(decide_False (P := "" <> "")) by (intros Hn; by apply Hn). cbn [app]. rewrite fmap_app. intros [H|H]%elem_of_app.
  - destruct (grpcclient.RequestIDFromContext ctx) as [id []]; cbn in H; [|by apply not_elem_of_nil in H].
    by apply list_elem_of_singleton in H.
  - destruct (idempotency.FromContext ctx); cbn in H; [|by apply not_elem_of_nil in H]. by apply list_elem_of_singleton in H.
Qed.

(** C34: A gRPC call through the registry that a validated configuration builds:
    the interceptors place at most five calls, and one only if neither the
    context has an idempotency key nor the method matches a retry pattern.  All
    calls carry the metadata of the caller's context followed by the
    credential, the request id and the idempotency key; every call but the last
    failed transiently; the waits double from [initial_backoff] up to
    [max_backoff] (the 64-bit shift does not overflow up to 2^59 ns); without
    TLS no credential is sent. *)
Theorem grpc_call_policy cfg u metrics reg name conn ctx method st r st' :
  Config.Validate cfg = Ok u -> registry.NewRegistry cfg metrics = Ok reg -> registry.GRPC reg name = Some conn ->
  (forall up, Config.Outbound.GRPC (Config.Outbound cfg) !! name = Some up ->
     Config.Retry.InitialBackoff (Config.GRPCUpstream.Retry up) <= 2 ^ 59) ->
  grpcclient.Invoke conn ctx method st = (r, st') ->
  exists up ctx', Config.Outbound.GRPC (Config.Outbound cfg) !! name = Some up /\
    let cc := registry.client_config name up metrics in
    let pairs := grpcclient.call_pairs (grpcclient.Token cc) (grpcclient.PSK cc) ctx in
    call_run (Config.GRPCUpstream.Retry up) ctx ctx' method st st' r /\
    OutgoingMetadata ctx' = OutgoingMetadata ctx ++ pairs /\
    (Config.ClientTLS.Enabled (Config.GRPCUpstream.TLS up) = false -> "authorization" ∉ pairs.*1).
Proof using HM HC HN.
  intros [_ Hv]%validated_upstreams [_ Hr]%NewRegistry_Ok Hc Hi H. destruct (Hr _ _ Hc) as (up' & Hup & Hd).
  destruct (Hv _ _ Hup) as [Hval Htls]. specialize (Hi _ Hup).
  exists up', (dressed (registry.client_config name up' metrics) ctx). split; [done|]. cbv zeta.
  split; [exact (Invoke_run _ _ _ _ _ _ _ Hd Hval Hi H)|]. split; [apply dressed_metadata|]. by apply plain_pairs.
Qed.
End outbound_spec.

(** ** A concrete network *)
Module ConcreteNet.
Import Concrete ConcreteConfig ConcreteWeb.
#[local] Existing Instance contexts.

(** A URL is scheme, host and path; a reference is an absolute path. *)
Record url := mkURL { u_scheme : string; u_host : string; u_path : string }.
Fixpoint until_slash (l : bytes) : bytes * bytes :=
  match l with
  | [] => ([], [])
  | a :: l' => if decide (a = c_slash) then ([], l) else let '(h, p) := until_slash l' in (a :: h, p)
  end.
Definition parse_url (s : string) : url :=
  let rest n := until_slash (drop n (bytes_of s)) in
  if HasPrefix s "http://" then mkURL "http" (string_of (rest 7%nat).1) (string_of (rest 7%nat).2)
  else if HasPrefix s "https://" then mkURL "https" (string_of (rest 8%nat).1) (string_of (rest 8%nat).2)
  else mkURL "" "" s.

(** The first two messages fail transiently; a context holds its outgoing
    metadata; breakers open after three failures in a row. *)
Fixpoint last_failures (h : list outcome) (n : Z) : Z :=
  match h with
  | [] => n
  | Failed :: h' => last_failures h' (n + 1)
  | Succeeded :: h' => last_failures h' 0
  | _ :: h' => last_failures h' n
  end.
#[global] Instance net : @Network (@wp_platform libs) := {|
  URL := url;
  url_Parse := fun s => Ok (parse_url s);
  Scheme := u_scheme;
  Host := u_host;
  ResolveReference := fun b r => mkURL (u_scheme b) (u_host b) (u_path r);
  url_String := fun u => u_scheme u +:+ "://" +:+ u_host u +:+ u_path u;
  NewRequest := fun _ _ => Ok tt;
  http_Do := fun n _ => Ok (Some (mkHTTPResponse (if decide (n < 2)%nat then 503 else 200) []));
  interrupted := fun _ _ => None;
  breaker_refuses := fun s h => if ReadyToTrip s (last_failures h 0) then Some (ErrorsNew "circuit breaker is open") else None;
  is_Canceled := fun _ => false;
  invoke := fun n _ _ => if decide (n < 2)%nat then Some (StatusError codes_Unavailable "busy") else None;
  code_String := format_int;
  has_Deadline := fun _ => false;
  AppendToOutgoingContext := fun (c : @Ctx (@wp_platform libs)) l =>
    mkContext (c_principal c) (c_requestid c) (c_environment c) (c_idempotency c) (c_metadata c ++ l);
  OutgoingMetadata := c_metadata;
  ReadFile := fun _ => Ok [];
  AppendCertsFromPEM := fun _ => true;
  LoadX509KeyPair := fun _ _ => Ok tt;
  grpc_NewClient := fun _ => Ok tt;
  conn_Close := fun _ => None |}.

#[global] Instance net_laws : @NetworkLaws (@wp_platform libs) contexts net.
Proof. split; done. Qed.

(** An HTTP upstream with credentials and a gRPC upstream, both with three
    attempts, in a production configuration. *)
Definition policy : Config.Retry.t := Config.Retry.mk 3 Second (5 * Second) ["/billing.v1.Invoices/Get*"].
Definition breaker : Config.Breaker.t := Config.Breaker.mk true 3 Minute.
Definition bearer : Config.ClientAuth.t := Config.ClientAuth.mk "bearer" "s3cret".
Definition billing (base : string) : Config.HTTPUpstream.t := Config.HTTPUpstream.mk base Second bearer policy breaker some_tls.
Definition invoices : Config.GRPCUpstream.t :=
  Config.GRPCUpstream.mk "billing:9090" Second bearer policy breaker some_tls.
Definition with_outbound (o : Config.Outbound.t) (c : Config.t) : Config.t :=
  Config.mk (Config.Runtime c) (Config.App c) (Config.HTTP c) (Config.GRPC c) (Config.Log c) (Config.Database c)
    (Config.Redis c) (Config.Health c) (Config.RateLimit c) (Config.Observability c) (Config.Swagger c) (Config.JWT c)
    (Config.MFA c) (Config.Auth c) (Config.Authorization c) (Config.Cron c) (Config.Migration c) (Config.User c)
    (Config.Idempotency c) o (Config.EventBus c).
Definition deployed (base : string) : Config.t :=
  with_outbound (Config.Outbound.mk {["billing" := billing base]} (<["invoices" := invoices]> {["authorization" := upstream]}))
    (production "s").
Definition idle : @NetState (@wp_platform libs) := mkNet [] [] [] [] [].
Definition clients (base : string) : Result registry.Registry := registry.NewRegistry (deployed base) true.
End ConcreteNet.

(** ** Witnesses *)
Section witnesses.
Import Concrete ConcreteConfig ConcreteWeb ConcreteNet.
#[local] Existing Instance contexts.

Definition got_three (x : option (Result (option HTTPResponse) * @NetState (@wp_platform libs))) : bool :=
  match x with
  | Some (Ok (Some resp), st') => bool_decide (StatusCode resp = 200 /\ length (sent st') = 3%nat /\ waits st' = [Second; 2 * Second])
  | _ => false
  end.
Definition fetch (base : string) : option (Result (option HTTPResponse) * @NetState (@wp_platform libs)) :=
  match clients base with
  | Ok reg => (fun c => outbound.Do c (background : @Ctx (@wp_platform libs)) "GET" "/invoices" [] ∅ idle) <$> registry.HTTP reg "billing"
  | Err _ => None
  end.

Lemma outbound_attempts_witness :
  got_three (fetch "https://billing/") = true /\
  exists reg c r st', clients "https://billing/" = Ok reg /\ registry.HTTP reg "billing" = Some c /\
    outbound.Do c (background : @Ctx (@wp_platform libs)) "GET" "/invoices" [] ∅ idle = (r, st') /\
    exists n rq, (n <= 5)%nat /\ sent st' = replicate n rq /\ rq_method rq = "GET".
Proof.
  assert (got_three (fetch "https://billing/") = true) as Hg by (vm_compute; reflexivity).
  split; [exact Hg|]. unfold fetch in Hg. destruct (clients "https://billing/") as [reg|e] eqn:Er; [|discriminate Hg].
  destruct (registry.HTTP reg "billing") as [c|] eqn:Ec; [|discriminate Hg].
  destruct (outbound.Do c (background : @Ctx (@wp_platform libs)) "GET" "/invoices" [] ∅ idle) as [r st'] eqn:Ed.
  exists reg, c, r, st'. split; [reflexivity|]. split; [exact Ec|]. split; [exact Ed|].
  assert (Config.Validate (deployed "https://billing/") = Ok tt) as Hv by (vm_compute; reflexivity).
  unfold clients in Er.
  destruct (outbound_attempts_bounded (deployed "https://billing/") tt true reg "billing" c
    (background : @Ctx (@wp_platform libs)) "GET" "/invoices" [] ∅ idle r st' Hv Er Ec Ed)
    as (up & n & k & rq & _ & Hn & _ & Hm & _ & _ & (Hs & _) & _).
  exists n, rq. split; [lia|]. split; [exact Hs|exact Hm].
Defined.

Definition call_invoices : option (option call_error * @NetState (@wp_platform libs)) :=
  match clients "https://billing/" with
  | Ok reg => (fun conn => grpcclient.Invoke conn (background : @Ctx (@wp_platform libs)) "/billing.v1.Invoices/GetInvoice" idle) <$>
                registry.GRPC reg "invoices"
  | Err _ => None
  end.

Definition called_three (x : option (option call_error * @NetState (@wp_platform libs))) : bool :=
  match x with
  | Some (None, st') => bool_decide (length (called st') = 3%nat /\ waits st' = [Second; 2 * Second])
  | _ => false
  end.

Lemma grpc_call_witness :
  called_three call_invoices = true /\
  exists reg conn r st' ctx', clients "https://billing/" = Ok reg /\ registry.GRPC reg "invoices" = Some conn /\
    grpcclient.Invoke conn (background : @Ctx (@wp_platform libs)) "/billing.v1.Invoices/GetInvoice" idle = (r, st') /\
    OutgoingMetadata ctx' = [("authorization", "Bearer s3cret")] /\
    call_run policy (background : @Ctx (@wp_platform libs)) ctx' "/billing.v1.Invoices/GetInvoice" idle st' r.
Proof.
  assert (called_three call_invoices = true) as Hc by (vm_compute; reflexivity). split; [exact Hc|].
  assert (Config.Validate (deployed "https://billing/") = Ok tt) as Hv by (vm_compute; reflexivity).
  unfold call_invoices in Hc. destruct (clients "https://billing/") as [reg|e] eqn:Er; [|discriminate Hc].
  destruct (registry.GRPC reg "invoices") as [conn|] eqn:Ec; [|discriminate Hc].
  destruct (grpcclient.Invoke conn (background : @Ctx (@wp_platform libs)) "/billing.v1.Invoices/GetInvoice" idle) as [r st'] eqn:Ei.
  unfold clients in Er.
  destruct (grpc_call_policy (deployed "https://billing/") tt true reg "invoices" conn
    (background : @Ctx (@wp_platform libs)) "/billing.v1.Invoices/GetInvoice" idle r st' Hv Er Ec) with (2 := Ei) as (up & ctx' & Hup & Hrun & Hmd & _).
  { intros up Hup. vm_compute in Hup. injection Hup as <-. vm_compute. discriminate. }
  vm_compute in Hup. injection Hup as <-. exists reg, conn, r, st', ctx'.
  split; [reflexivity|]. split; [exact Ec|]. split; [exact Ei|]. split; [exact Hmd|exact Hrun].
Defined.

(** Validation and construction ask for [tls.enabled] only, and nothing looks
    at the scheme of [base_url]: with [http://] the bearer token is sent, three
    times here, to a plain-text URL. *)
Lemma credentials_over_plain_http :
  Config.Validate (deployed "http://billing/") = Ok tt /\
  exists r st' rq, fetch "http://billing/" = Some (r, st') /\ sent st' = replicate 3 rq /\
    rq_url rq = "http://billing/invoices" /\ rq_headers rq !! "Authorization" = Some ["Bearer s3cret"].
Proof.
  split; [vm_compute; reflexivity|]. eexists _, _, _. split; [vm_compute; reflexivity|].
  split; [cbn; reflexivity|]. split; vm_compute; reflexivity.
Qed.
End witnesses.
