(* ===== verification/ExampleUser.v ===== *)
(** * The example user module

    [internal/user]: users with a name and an email behind a cache, a lock and
    the idempotency manager.  The module is shared by concurrent requests, and
    its hard part is their interleaving, so a request is a program: a tree of
    atomic operations on the shared state ([prog]).  One operation is a
    statement or a transaction of the database, one call to Redis (cache, lock
    or idempotency manager), a reading of the clock, a fresh UUID or a log
    line.  [exec] runs one operation under a [choice] of the environment: what
    the clock and the UUID generator return, and where the driver or the
    network fails.  [run] executes a whole request, [step] one operation of one
    of many requests, the arrival of a request or the expiry of a key.

    Parameters for code outside the repository: Redis with the lock of the
    platform library ([RedisKV]), its idempotency manager, [uuid.Parse],
    [mail.ParseAddress] and the text of instants. *)

From S2P Require Import Prelude.
From S2P Require Import GoStrings.
From S2P Require Import Encoding.
From S2P Require Import Digest.
From S2P Require Import Table.
From S2P Require Import AppError.
From S2P Require Import Platform.
From S2P Require Import Model.
From S2P Require Import Runtime.
From S2P Require Import Repository.
From S2P Require Import ServiceBase.
From S2P Require Import Configuration.
From S2P Require Import RequestContext.
From S2P Require Import Json.
From S2P Require Import Messages.
From S2P Require Import Http.
From S2P Require Import Middleware.
Open Scope Z_scope.

(** ** Parameters *)

Class UserLibs := {
  (** [uuid.Parse(id)]; the id itself is not used. *)
  uuid_Parse : string -> Result unit;
  (** [mail.ParseAddress(s)], its [Address]. *)
  mail_ParseAddress : string -> Result string;
  (** The year of an instant can be written as JSON; reading it back. *)
  time_encodes : Z -> bool;
  time_Parse : string -> Result Z;
}.

Class RedisKV {pf : Platform} {rd : Redis} := {
  redis_Get : string -> Store -> Result (option bytes) * Store;   (** [None] is [redis.Nil] *)
  redis_Set : string -> bytes -> Z -> Store -> Result unit * Store;
  redis_Del : string -> Store -> Result unit * Store;
  (** The time to live of a key is over. *)
  redis_Expire : string -> Store -> Store;
  (** [locker.Lock(ctx, key, ttl, retryDelay)] at the moment it returns, the
      lock is the token; [lock.Unlock]. *)
  locker_Lock : Ctx -> string -> Z -> Z -> Store -> Result string * Store;
  lock_Unlock : Ctx -> string -> string -> Store -> Result unit * Store;
}.

Module user.

(** ** [model.go] *)
Record User := mkUser {
  ID : string;
  Name : string;
  Email : string;
  Version : Z;
  CreatedAt : Z;
  UpdatedAt : Z;
}.
#[global] Instance User_eq_dec : EqDecision User.
Proof. solve_decision. Defined.

Record Page := mkPage { Users : list User; Total : Z; Page_ : Z; PageSize : Z }.

Section json.
Context {tx : TimeText} {ul : UserLibs}.

Definition to_json (u : User) : json :=
  JObject [("id", JString (ID u)); ("name", JString (Name u)); ("email", JString (Email u));
           ("version", jint (Version u)); ("created_at", jtime (CreatedAt u)); ("updated_at", jtime (UpdatedAt u))].

(** The zero [time.Time]. *)
Definition zero_time : Z := -62135596800 * Second.
Definition decode_time (old : Z) (j : json) : Result Z :=
  match j with
  | JString s => time_Parse s
  | JNull => Ok old
  | _ => type_error "time.Time"
  end.
Definition of_json (j : json) : Result User :=
  o ← object_of j;
  id ← string_field "id" o;
  name ← string_field "name" o;
  email ← string_field "email" o;
  version ← int_field "version" o;
  created ← decode_all decode_time zero_time (members "created_at" o);
  updated ← decode_all decode_time zero_time (members "updated_at" o);
  Ok (mkUser id name email version created updated).

Context {jt : JSONText}.
(** [json.Marshal(user)] fails on an instant outside of the calendar. *)
Definition Marshal (u : User) : Result bytes :=
  if time_encodes (CreatedAt u) && time_encodes (UpdatedAt u) then Ok (json_print (to_json u))
  else Err (ErrorsNew "json: error calling MarshalJSON for type time.Time").
Definition Unmarshal (data : bytes) : Result User := j ← json_parse data; of_json j.
End json.

(** ** Requests as programs *)
Abbreviation Rows := (gmap string User).

(** An error of the driver, as [uniqueViolation] takes it apart. *)
Inductive sql_error := MySQLError (number : Z) (msg : string) | PgError (code : string) (msg : string) | OtherError (msg : string).
Definition sql_error_text (e : sql_error) : string := match e with MySQLError _ m | PgError _ m | OtherError m => m end.
Definition driver_error (e : sql_error) : error := Driver (sql_error_text e).

(** An error of the repository: one of its sentinels ([ErrConflict] wrapped
    with [email]) or any other error. *)
Inductive rerror := ErrNotFound | ErrConflict | ErrVersion | Other (e : error).
Definition rerror_error (e : rerror) : error :=
  match e with
  | ErrNotFound => ErrorsNew "user not found"
  | ErrConflict => ErrorsNew "user already exists: email"
  | ErrVersion => ErrorsNew "user version conflict"
  | Other e => e
  end.

Section programs.
Context {rd : Redis}.

Inductive op : Type -> Type :=
| Now : op Z
| NewUUID : op string
| Query {A} (q : nat -> Rows -> Res sql_error A) : op (Res sql_error A)
| Statement {A} (f : Rows -> Res sql_error (Rows * A)) : op (Res sql_error A)
(** [Within] of a body whose one statement may fail. *)
| Transaction (db : bool) (fn : option sql_error -> Rows -> Res rerror Rows) : op (Res rerror unit)
| OnStore {A} (f : Store -> Result A * Store) : op (Result A)
| Warn (msg : string) : op unit.

Inductive prog (A : Type) : Type :=
| Ret (a : A)
| Do {X} (o : op X) (k : X -> prog A).
#[global] Arguments Ret {A}.
#[global] Arguments Do {A X}.

#[global] Instance prog_ret : MRet prog := @Ret.
#[global] Instance prog_bind : MBind prog := fun A B f => fix bind p :=
  match p with
  | Ret a => f a
  | Do o k => Do o (fun x => bind (k x))
  end.
Definition perform {X} (o : op X) : prog X := Do o Ret.

(** What the environment decides about one operation: a network failure of a
    call to Redis may or may not have had its effect. *)
Record choice := mkChoice {
  ch_time : Z;
  ch_uuid : string;
  ch_pick : nat;
  ch_begin : option sql_error;
  ch_statement : option sql_error;
  ch_end : option sql_error;
  ch_network : option (error * bool);
}.

(** [past] is a ghost: every content the table has had. *)
Record State := mkState { rows : Rows; past : list Rows; store : Store; warned : list string }.
Definition set_rows (t : Rows) (st : State) : State := mkState t (past st ++ [t]) (store st) (warned st).
Definition set_store (s : Store) (st : State) : State := mkState (rows st) (past st) s (warned st).

(** [Transactor.Within] around one statement. *)
Definition exec_tx (ch : choice) (db : bool) (fn : option sql_error -> Rows -> Res rerror Rows) (st : State)
    : Res rerror unit * State :=
  if negb db then (Err (Other (ErrorsNew "begin transaction: database is disabled")), st)
  else match ch_begin ch with
  | Some e => (Err (Other (Errorf "begin transaction" (driver_error e))), st)
  | None =>
      match fn (ch_statement ch) (rows st), ch_end ch with
      | Err e, Some e' =>
          (Err (Other (Errorf ("rollback transaction after " +:+ error_text (rerror_error e)) (driver_error e'))), st)
      | Err e, None => (Err e, st)
      | Ok _, Some e' => (Err (Other (Errorf "commit transaction" (driver_error e'))), st)
      | Ok t', None => (Ok tt, set_rows t' st)
      end
  end.

Definition exec {X} (ch : choice) (o : op X) (st : State) : X * State :=
  match o in op X return X * State with
  | Now => (ch_time ch, st)
  | NewUUID => (ch_uuid ch, st)
  | Query q => (match ch_statement ch with Some e => Err e | None => q (ch_pick ch) (rows st) end, st)
  | Statement f =>
      match ch_statement ch with
      | Some e => (Err e, st)
      | None => match f (rows st) with Err e => (Err e, st) | Ok (t', a) => (Ok a, set_rows t' st) end
      end
  | Transaction db fn => exec_tx ch db fn st
  | OnStore f =>
      match ch_network ch with
      | Some (e, done) => (Err e, if (done : bool) then set_store (f (store st)).2 st else st)
      | None => let '(r, s') := f (store st) in (r, set_store s' st)
      end
  | Warn msg => (tt, mkState (rows st) (past st) (store st) (warned st ++ [msg]))
  end.

(** A request alone, from the n-th choice on. *)
Fixpoint run {A} (env : nat -> choice) (n : nat) (p : prog A) (st : State) : A * State :=
  match p with
  | Ret a => (a, st)
  | Do o k => let '(x, st') := exec (env n) o st in run env (S n) (k x) st'
  end.
End programs.

(** ** [repository.go] *)
Module SQLRepository.
Section repository.
Context {rd : Redis} {srv : SQLServer} {uc : UnicodeCase}.

Definition uniqueViolation (e : sql_error) : bool :=
  match e with
  | MySQLError number _ => bool_decide (number = 1062)
  | PgError code _ => bool_decide (code = "23505")
  | OtherError msg => Contains (ToLower msg) "duplicate key"
  end.
(** What PostgreSQL reports. *)
Definition unique_error : sql_error := PgError "23505" (violation_text UniqueViolation).

Definition conflict_or (what : string) (e : sql_error) : rerror :=
  if uniqueViolation e then ErrConflict else Other (Errorf what (driver_error e)).

(** [INSERT]: the id is the primary key and the email is unique. *)
Definition insert_user (u : User) (t : Rows) : Res sql_error Rows :=
  if decide (is_Some (t !! ID u) \/ clash Email u t) then Err unique_error else Ok (<[ID u := u]> t).

(** The statement of a transaction, with the fault it meets. *)
Definition Create (db : bool) (u : User) (fault : option sql_error) (t : Rows) : Res rerror Rows :=
  if negb db then Err (Other (ErrorsNew "create user: database is disabled"))
  else match (match fault with Some e => Err e | None => insert_user u t end) with
  | Err e => Err (conflict_or "insert user" e)
  | Ok t' => Ok t'
  end.

Definition Get (db : bool) (id : string) : prog (Res rerror User) :=
  if negb db then mret (Err (Other (ErrorsNew "get user: database is disabled")))
  else
    r ← perform (Query (fun n t => Ok (sql_get (fun u => ID u = id) n t)));
    mret (match r with
          | Err e => Err (Other (Errorf "select user" (driver_error e)))
          | Ok None => Err ErrNotFound
          | Ok (Some u) => Ok u
          end).

(** [ORDER BY created_at DESC, id DESC]. *)
Definition list_order (a b : User) : Prop :=
  CreatedAt b < CreatedAt a \/ (CreatedAt a = CreatedAt b /\ sql_text_le (ID b) (ID a) = true).
#[global] Instance list_order_dec a b : Decision (list_order a b).
Proof. unfold list_order. apply _. Defined.

Definition List (db : bool) (limit offset : Z) : prog (Res rerror (list User * Z)) :=
  if negb db then mret (Err (Other (ErrorsNew "list users: database is disabled")))
  else
    c ← perform (Query (fun _ t => Ok (Z.of_nat (size t))));
    match c with
    | Err e => mret (Err (Other (Errorf "count users" (driver_error e))))
    | Ok total =>
        r ← perform (Query (fun _ t => match sql_page list_order limit offset (snd <$> map_to_list t) with
                                       | Some l => Ok l
                                       | None => Err (PgError "2201X" "OFFSET must not be negative")
                                       end));
        mret (match r with
              | Err e => Err (Other (Errorf "list users" (driver_error e)))
              | Ok users => Ok (users, total)
              end)
    end.

(** The unique index on [email]. *)
Definition emails_unique (t : Rows) : Prop :=
  map_Forall (fun k r => map_Forall (fun k' r' => Email r = Email r' -> k = k') t) t.
#[global] Instance emails_unique_dec t : Decision (emails_unique t).
Proof. unfold emails_unique. apply _. Defined.

Definition set_user (u r : User) : option User :=
  if decide (Version r + 1 <= int64_max)
  then Some (mkUser (ID r) (Name u) (Email u) (Version r + 1) (CreatedAt r) (UpdatedAt u)) else None.

(** [UPDATE ... WHERE id = ? AND version = ?], with the number of rows. *)
Definition update_user (u : User) (t : Rows) : Res sql_error (Rows * Z) :=
  match sql_update (fun r => ID r = ID u /\ Version r = Version u) (set_user u) t with
  | None => Err (PgError "22003" "bigint out of range")
  | Some (t', n) => if decide (emails_unique t') then Ok (t', n) else Err unique_error
  end.

Definition affected (count : Z) : Res rerror unit := if decide (count = 0) then Err ErrVersion else Ok tt.

Definition Update (db : bool) (u : User) : prog (Res rerror unit) :=
  if negb db then mret (Err (Other (ErrorsNew "update user: database is disabled")))
  else
    r ← perform (Statement (update_user u));
    mret (match r with Err e => Err (conflict_or "update user" e) | Ok n => affected n end).

Definition Delete (db : bool) (id : string) (version : Z) : prog (Res rerror unit) :=
  if negb db then mret (Err (Other (ErrorsNew "delete user: database is disabled")))
  else
    r ← perform (Statement (fun t => Ok (sql_delete (fun r => ID r = id /\ Version r = version) t)));
    mret (match r with Err e => Err (Other (Errorf "delete user" (driver_error e))) | Ok n => affected n end).
End repository.
End SQLRepository.

(** ** [service.go] *)
Section service.
Context {libs : Libs} {rd : Redis} {cx : Contexts} {ul : UserLibs} {kv : RedisKV} {jt : JSONText} {tx : TimeText}.

Definition defaultPageSize : Z := 20.
Definition maxPageSize : Z := 100.
Definition cacheKeyPrefix : string := "user:".

(** [repository] and [transactor] may have a database or not; [redis] and
    [locker] may be nil. *)
Record Service := mkService {
  repository_db : bool;
  transactor : Transactor;
  redis : bool;
  locker : bool;
  cfg : Config.UserOptions.t;
  idempotency_ : option Idempotency.Manager;
}.
Definition NewService (repository_db : bool) (transactor : Transactor) (redis locker : bool)
    (manager : option Idempotency.Manager) (c : Config.t) : Service :=
  mkService repository_db transactor redis locker (Config.User c) manager.

Definition validate (name email : string) : Result (string * string) :=
  let name := TrimSpace name in
  let email := ToLower (TrimSpace email) in
  let characters := Z.of_nat (length (runes (bytes_of name))) in
  if decide (characters < 1 \/ 100 < characters)
  then Err (Invalid "name must contain between 1 and 100 characters" None)
  else match mail_ParseAddress email with
  | Err e => Err (Invalid "invalid email" (Some e))
  | Ok address =>
      if decide (address <> email \/ 254 < go_len email) then Err (Invalid "invalid email" None) else Ok (name, email)
  end.

Definition translate (err : rerror) : error :=
  match err with
  | ErrNotFound => NotFound "user not found"
  | ErrConflict => Conflict "email already exists" (Some (rerror_error err))
  | ErrVersion => StaleVersion (rerror_error err)
  | Other e => Internal e
  end.

Definition emailLockKey (email : string) : string := "user:create:" +:+ hex (sha256 (bytes_of email)).
Definition cache_key (id : string) : string := cacheKeyPrefix +:+ id.

Definition cacheGet (s : Service) (id : string) : prog (option User) :=
  if negb (redis s) then mret None
  else
    r ← perform (OnStore (redis_Get (cache_key id)));
    match r with
    | Ok None => mret None
    | Err _ => perform (Warn "read user cache failed");; mret None
    | Ok (Some data) =>
        match Unmarshal data with
        | Err _ => perform (Warn "decode user cache failed");; mret None
        | Ok u => mret (Some u)
        end
    end.

Definition cacheSet (s : Service) (u : User) : prog unit :=
  if negb (redis s) then mret tt
  else match Marshal u with
  | Err _ => perform (Warn "encode user cache failed")
  | Ok data =>
      r ← perform (OnStore (redis_Set (cache_key (ID u)) data (Config.UserOptions.CacheTTL (cfg s))));
      match r with Err _ => perform (Warn "write user cache failed") | Ok _ => mret tt end
  end.

Definition cacheDelete (s : Service) (id : string) : prog unit :=
  if negb (redis s) then mret tt
  else
    r ← perform (OnStore (redis_Del (cache_key id)));
    match r with Err _ => perform (Warn "delete user cache failed") | Ok _ => mret tt end.

(** The part of [createOnce] under the lock. *)
Definition insert_once (s : Service) (name email : string) : prog (Result User) :=
  now ← perform Now;
  id ← perform NewUUID;
  let created := mkUser id name email 1 now now in
  r ← perform (Transaction (tx_db (transactor s)) (SQLRepository.Create (repository_db s) created));
  match r with
  | Err e => mret (Err (translate e))
  | Ok _ => cacheSet s created;; mret (Ok created)
  end.

Definition createOnce (s : Service) (ctx : Ctx) (name email : string) : prog (Result User) :=
  if negb (Available (transactor s)) then mret (Err (Unavailable "database is unavailable" None))
  else if negb (locker s) then insert_once s name email
  else
    l ← perform (OnStore (locker_Lock ctx (emailLockKey email) (Config.UserOptions.LockTTL (cfg s))
                            (Config.UserOptions.LockRetryDelay (cfg s))));
    match l with
    | Err e => mret (Err (Unavailable "user creation is temporarily unavailable" (Some e)))
    | Ok lock =>
        r ← insert_once s name email;
        u ← perform (OnStore (lock_Unlock (WithTimeout (WithoutCancel ctx) Second) (emailLockKey email) lock));
        match u with Err _ => perform (Warn "release user creation lock failed") | Ok _ => mret tt end;;
        mret r
    end.

Definition fingerprint (name email : string) : string :=
  hex (sha256 (bytes_of ("user.create" +:+ Middlewares.nul +:+ name +:+ Middlewares.nul +:+ email))).

(** [errors.As], or the error made internal. *)
Definition failure_of (err : error) : Idempotency.Failure :=
  match errors_As err with
  | Some (code, message, status, _) => Idempotency.mkFailure code message status
  | None => Idempotency.mkFailure CodeInternal "internal server error" 500
  end.

(** After [createOnce]: the result is stored; failures are logged. *)
Definition finish (m : Idempotency.Manager) (ctx : Ctx) (key owner : string) (r : Result User) : prog unit :=
  let finishCtx := WithTimeout (WithoutCancel ctx) (2 * Second) in
  match r with
  | Err e =>
      x ← perform (OnStore (Idempotency.Fail m finishCtx key owner (failure_of e)));
      match x with Err _ => perform (Warn "store idempotency failure failed") | Ok _ => mret tt end
  | Ok created =>
      x ← perform (OnStore (Idempotency.Complete m finishCtx key owner (to_json created)));
      match x with Err _ => perform (Warn "store idempotency result failed") | Ok _ => mret tt end
  end.

Definition Create (s : Service) (ctx : Ctx) (name email : string) : prog (Result User) :=
  match validate name email with
  | Err e => mret (Err e)
  | Ok (name, email) =>
      match idempotency.FromContext ctx with
      | None => createOnce s ctx name email
      | Some key =>
          match idempotency_ s with
          | None => mret (Err (Unavailable "idempotency is unavailable" None))
          | Some m =>
              if negb (Idempotency.Enabled m) then mret (Err (Unavailable "idempotency is unavailable" None))
              else
                d ← perform (OnStore (Idempotency.Begin m ctx key (fingerprint name email)));
                match d with
                | Err e => mret (Err (Unavailable "idempotency is unavailable" (Some e)))
                | Ok (Idempotency.StateCompleted data) =>
                    mret (match Unmarshal data with Err e => Err (Internal e) | Ok replay => Ok replay end)
                | Ok (Idempotency.StateFailed f) =>
                    mret (Err (AppErr (Idempotency.Code f) (Idempotency.Message f) (Idempotency.HTTPStatus f) None))
                | Ok Idempotency.StateProcessing => mret (Err RequestInProgress)
                | Ok Idempotency.StateConflict =>
                    mret (Err (Conflict "idempotency key was used with a different request" None))
                | Ok Idempotency.StateUnknown => mret (Err (Internal (ErrorsNew "unknown idempotency state")))
                | Ok (Idempotency.StateAcquired owner) =>
                    r ← createOnce s ctx name email;
                    finish m ctx key owner r;;
                    mret r
                end
          end
      end
  end.

Definition Get (s : Service) (id : string) : prog (Result User) :=
  match uuid_Parse id with
  | Err e => mret (Err (Invalid "invalid user id" (Some e)))
  | Ok _ =>
      if negb (Available (transactor s)) then mret (Err (Unavailable "database is unavailable" None))
      else
        c ← cacheGet s id;
        match c with
        | Some cached => mret (Ok cached)
        | None =>
            r ← SQLRepository.Get (repository_db s) id;
            match r with
            | Err e => mret (Err (translate e))
            | Ok u => cacheSet s u;; mret (Ok u)
            end
        end
  end.

(** [(page-1)*pageSize] on 64 bits. *)
Definition List (s : Service) (page pageSize : Z) : prog (Result Page) :=
  if negb (Available (transactor s)) then mret (Err (Unavailable "database is unavailable" None))
  else
    let page := if decide (page = 0) then 1 else page in
    let pageSize := if decide (pageSize = 0) then defaultPageSize else pageSize in
    if decide (page < 1 \/ pageSize < 1 \/ maxPageSize < pageSize)
    then mret (Err (Invalid "page must be positive and page_size must be between 1 and 100" None))
    else
      r ← SQLRepository.List (repository_db s) pageSize (wrap64 ((page - 1) * pageSize));
      mret (match r with
            | Err e => Err (translate e)
            | Ok (users, total) => Ok (mkPage users total page pageSize)
            end).

Definition Update (s : Service) (id name email : string) (version : Z) : prog (Result User) :=
  match uuid_Parse id with
  | Err e => mret (Err (Invalid "invalid user id" (Some e)))
  | Ok _ =>
      if negb (Available (transactor s)) then mret (Err (Unavailable "database is unavailable" None))
      else match validate name email with
      | Err e => mret (Err e)
      | Ok (name, email) =>
          if decide (version < 1) then mret (Err (Invalid "version must be positive" None))
          else
            now ← perform Now;
            r ← SQLRepository.Update (repository_db s) (mkUser id name email version zero_time now);
            match r with
            | Err e => mret (Err (translate e))
            | Ok _ => cacheDelete s id;; Get s id
            end
      end
  end.

Definition Delete (s : Service) (id : string) (version : Z) : prog (Result unit) :=
  match uuid_Parse id with
  | Err e => mret (Err (Invalid "invalid user id" (Some e)))
  | Ok _ =>
      if negb (Available (transactor s)) then mret (Err (Unavailable "database is unavailable" None))
      else if decide (version < 1) then mret (Err (Invalid "version must be positive" None))
      else
        r ← SQLRepository.Delete (repository_db s) id version;
        match r with
        | Err e => mret (Err (translate e))
        | Ok _ => cacheDelete s id;; mret (Ok tt)
        end
  end.

(** ** Concurrent requests *)

Inductive Request :=
| RCreate (ctx : Ctx) (name email : string)
| RGet (id : string)
| RList (page pageSize : Z)
| RUpdate (id name email : string) (version : Z)
| RDelete (id : string) (version : Z).

Inductive Answer := AUser (r : Result User) | APage (r : Result Page) | ADone (r : Result unit).

Definition serve (s : Service) (q : Request) : prog Answer :=
  match q with
  | RCreate ctx name email => r ← Create s ctx name email; mret (AUser r)
  | RGet id => r ← Get s id; mret (AUser r)
  | RList page size => r ← List s page size; mret (APage r)
  | RUpdate id name email version => r ← Update s id name email version; mret (AUser r)
  | RDelete id version => r ← Delete s id version; mret (ADone r)
  end.

(** The shared state and the requests with what is left of them. *)
Record Sys := mkSys { shared : State; threads : list (Request * prog Answer) }.

Inductive event :=
| Arrive (q : Request)
| Advance (i : nat) (ch : choice)
| Expire (key : string).

(** One event; an event that is not possible changes nothing. *)
Definition step (s : Service) (e : event) (y : Sys) : Sys :=
  match e with
  | Arrive q => mkSys (shared y) (threads y ++ [(q, serve s q)])
  | Advance i ch =>
      match threads y !! i with
      | Some (q, Do o k) => let '(x, st) := exec ch o (shared y) in mkSys st (<[i := (q, k x)]> (threads y))
      | _ => y
      end
  | Expire key => mkSys (set_store (redis_Expire key (store (shared y))) (shared y)) (threads y)
  end.
Definition steps (s : Service) (es : list event) (y : Sys) : Sys := foldl (fun y e => step s e y) y es.
End service.
End user.
