(* ===== verification/ExampleUserLogic.v ===== *)
(** * The example user module: a logic for interleaved requests

    What the statements do to the table, the trip of a user through JSON, and
    a predicate [safe] on programs that is closed under the steps of other
    requests, with the proofs that every operation is safe. *)

From S2P Require Import Prelude.
From S2P Require Import GoStrings.
From S2P Require Import Encoding.
From S2P Require Import Digest.
From S2P Require Import Table.
From S2P Require Import AppError.
From S2P Require Import Platform.
From S2P Require Import Model.
From S2P Require Import Runtime.
From S2P Require Import ServiceBase.
From S2P Require Import Configuration.
From S2P Require Import RequestContext.
From S2P Require Import Json.
From S2P Require Import JsonSpec.
From S2P Require Import Messages.
From S2P Require Import Http.
From S2P Require Import Middleware.
From S2P Require Import ExampleUser.
Open Scope Z_scope.
Import user.

(** ** Laws of the parameters

    Documented behaviour of Redis strings, of the lock and of the manager
    (each keeps to its own keys), of [uuid.Parse] (at most 45 characters) and
    of instants in JSON. *)
Class UserLaws {libs : Libs} {rd : Redis} {ul : UserLibs} {kv : RedisKV} {tx : TimeText} (peek : Store -> string -> option bytes) := {
  get_law k s : redis_Get k s = (Ok (peek s k), s);
  set_law k d ttl s : (redis_Set k d ttl s).1 = Ok tt /\
    forall k', peek (redis_Set k d ttl s).2 k' = if decide (k' = k) then Some d else peek s k';
  del_law k s : (redis_Del k s).1 = Ok tt /\
    forall k', peek (redis_Del k s).2 k' = if decide (k' = k) then None else peek s k';
  expire_law k s k' : peek (redis_Expire k s) k' = if decide (k' = k) then None else peek s k';
  lock_frame c k t d s k' : k' <> k -> peek (locker_Lock c k t d s).2 k' = peek s k';
  unlock_frame c k o s k' : k' <> k -> peek (lock_Unlock c k o s).2 k' = peek s k';
  uuid_length id u : uuid_Parse id = Ok u -> go_len id <= 45;
  time_round t : time_encodes t = true -> time_Parse (to_valid (time_text t)) = Ok t;
}.

(** The manager leaves the cache alone. *)
Class ManagerFrame {libs : Libs} {rd : Redis} (peek : Store -> string -> option bytes) (m : Idempotency.Manager) := {
  begin_frame c k f s id : peek (Idempotency.Begin m c k f s).2 (cache_key id) = peek s (cache_key id);
  complete_frame c k o j s id : peek (Idempotency.Complete m c k o j s).2 (cache_key id) = peek s (cache_key id);
  fail_frame c k o x s id : peek (Idempotency.Fail m c k o x s).2 (cache_key id) = peek s (cache_key id);
}.

(** Cache and locks leave the manager's entries alone. *)
Class FindFrame {libs : Libs} {rd : Redis} {kv : RedisKV} (find : Store -> string -> option Idempotency.entry) := {
  find_set k d ttl s key : find (redis_Set k d ttl s).2 key = find s key;
  find_lock c k t d s key : find (locker_Lock c k t d s).2 key = find s key;
  find_unlock c k o s key : find (lock_Unlock c k o s).2 key = find s key;
}.
(** Deleting and expiring keys adds no entry. *)
Class FindShrinks {libs : Libs} {rd : Redis} {kv : RedisKV} (find : Store -> string -> option Idempotency.entry) := {
  find_get k s key : find (redis_Get k s).2 key = find s key;
  find_del k s key e : find (redis_Del k s).2 key = Some e -> find s key = Some e;
  find_expire k s key e : find (redis_Expire k s) key = Some e -> find s key = Some e;
}.
(** Results come from [Complete] only, and [Begin] replays what is stored for
    the same key and fingerprint. *)
Class ManagerResults {libs : Libs} {rd : Redis} {jt : JSONText} (find : Store -> string -> option Idempotency.entry)
    (m : Idempotency.Manager) := {
  begin_results c k f s key fp data :
    find (Idempotency.Begin m c k f s).2 key = Some (Idempotency.Completed fp data) -> find s key = Some (Idempotency.Completed fp data);
  begin_replays c k f s data :
    (Idempotency.Begin m c k f s).1 = Ok (Idempotency.StateCompleted data) -> find s k = Some (Idempotency.Completed f data);
  complete_results c k o j s key fp data :
    find (Idempotency.Complete m c k o j s).2 key = Some (Idempotency.Completed fp data) ->
    find s key = Some (Idempotency.Completed fp data) \/ data = json_print j;
  fail_results c k o x s key fp data :
    find (Idempotency.Fail m c k o x s).2 key = Some (Idempotency.Completed fp data) -> find s key = Some (Idempotency.Completed fp data);
}.

(** ** Tables *)
Section tables.
Context {libs : Libs} {ul : UserLibs}.

Definition valid_text (name email : string) : Prop :=
  1 <= Z.of_nat (length (runes (bytes_of name))) <= 100 /\ mail_ParseAddress email = Ok email /\ go_len email <= 254.
Record valid_user (u : User) : Prop := {
  vu_text : valid_text (Name u) (Email u);
  vu_version : 1 <= Version u <= int64_max;
}.

Record table_ok (t : Rows) : Prop := {
  to_keyed : keyed_by ID t;
  to_unique : SQLRepository.emails_unique t;
  to_valid_rows : map_Forall (fun _ u => valid_user u) t;
}.

(** How a row may change in one step: unchanged, the next version, removed,
    or new with version 1. *)
Definition row_step (o o' : option User) : Prop :=
  match o, o' with
  | Some u, Some u' => u' = u \/ (Version u' = Version u + 1 /\ CreatedAt u' = CreatedAt u)
  | None, Some u' => Version u' = 1
  | _, None => True
  end.
Definition evolve (t t' : Rows) : Prop := forall id, row_step (t !! id) (t' !! id).

Lemma evolve_refl t : evolve t t.
Proof using. intros id. destruct (t !! id); cbn; auto. Qed.

Lemma table_ok_empty : table_ok ∅.
Proof using. split; [intros k r H; by rewrite lookup_empty in H|apply map_Forall_empty..]. Qed.

Lemma validate_Ok name email name' email' : validate name email = Ok (name', email') -> valid_text name' email'.
Proof using.
  unfold validate. case_decide as Hn; [done|]. destruct (mail_ParseAddress _) as [a|e] eqn:Ea; [|done].
  case_decide as He; [done|]. intros [= <- <-]. apply Decidable.not_or in He as [He1 He2]. apply dec_stable in He1 as ->.
  split_and!; [lia..|done|lia].
Qed.

Lemma create_ok u t t' :
  table_ok t -> valid_user u -> Version u = 1 -> SQLRepository.insert_user u t = Ok t' ->
  table_ok t' /\ evolve t t' /\ t' !! ID u = Some u.
Proof using.
  intros [Hk Hu Hv] Hval H1 H. unfold SQLRepository.insert_user in H. case_decide as Hd; [done|]. injection H as <-.
  apply Decidable.not_or in Hd as [Hnone%eq_None_not_Some Hclash]. split_and!; [split| |apply lookup_insert_eq].
  - intros k r [[<- <-]|[_ Hr]]%lookup_insert_Some; [done|by apply Hk].
  - apply map_Forall_insert_2.
    + apply map_Forall_insert_2; [done|]. intros k r Hr He. exfalso. apply Hclash. exists k, r. done.
    + intros k r Hr. apply map_Forall_insert_2; [|exact (Hu k r Hr)]. intros He. exfalso. apply Hclash. by exists k, r.
  - by apply map_Forall_insert_2.
  - intros id. destruct (decide (ID u = id)) as [<-|Hne].
    + by rewrite Hnone, lookup_insert_eq.
    + rewrite lookup_insert_ne by done. destruct (t !! id); cbn; auto.
Qed.

(** What one [UPDATE] does: the row of that version becomes the next version,
    or nothing changes and no row is counted. *)
Lemma update_ok u t t' n :
  table_ok t -> valid_text (Name u) (Email u) -> SQLRepository.update_user u t = Ok (t', n) ->
  table_ok t' /\ evolve t t' /\
  ((n = 0 /\ t' = t) \/
   (n = 1 /\ exists r, t !! ID u = Some r /\ Version r = Version u /\
      t' = <[ID u := mkUser (ID u) (Name u) (Email u) (Version u + 1) (CreatedAt r) (UpdatedAt u)]> t)).
Proof using.
  intros [Hk Hu Hv] Hval H. unfold SQLRepository.update_user in H.
  destruct (sql_update _ _ t) as [[t1 n1]|] eqn:Es; [|done]. case_decide as Hun; [|done]. injection H as <- <-.
  assert (forall r : User, ID r = ID u /\ Version r = Version u -> ID r = ID u) as Hp by (by intros r []).
  assert ((forall k r, t !! k = Some r -> ~ (ID r = ID u /\ Version r = Version u)) -> table_ok t1 /\ evolve t t1 /\
    ((n1 = 0 /\ t1 = t) \/ (n1 = 1 /\ exists r, t !! ID u = Some r /\ Version r = Version u /\
      t1 = <[ID u := mkUser (ID u) (Name u) (Email u) (Version u + 1) (CreatedAt r) (UpdatedAt u)]> t))) as Hidle.
  { intros Hno. apply (sql_count_zero (fun r => ID r = ID u /\ Version r = Version u)) in Hno. pose proof (sql_update_count _ _ _ _ _ Es) as Hn1. rewrite Hno in Hn1. subst n1.
    apply sql_update_zero in Es as ->. split_and!; [done|apply evolve_refl|by left]. }
  destruct (t !! ID u) as [r|] eqn:Er; [destruct (decide (Version r = Version u)) as [Ev|Ev]|].
  - destruct (sql_update_key ID _ _ _ _ _ _ _ Hk Hp Es Er) as (r' & Hr' & -> & ->); [by rewrite (Hk _ _ Er)|].
    unfold SQLRepository.set_user in Hr'. case_decide as Hm; [|done]. rewrite (Hk _ _ Er), Ev in Hr'. injection Hr' as <-.
    split_and!; [split| |right; eauto].
    + by apply keyed_by_insert.
    + done.
    + apply map_Forall_insert_2; [|done]. pose proof (vu_version _ (Hv _ _ Er)). split; cbn; [done|lia].
    + intros id. destruct (decide (ID u = id)) as [<-|Hne].
      * rewrite Er, lookup_insert_eq. cbn. right. split; [lia|done].
      * rewrite lookup_insert_ne by done. destruct (t !! id); cbn; auto.
  - apply Hidle. intros k r' Hr' [Hi Hve]. rewrite <- (Hk k r' Hr'), Hi in Hr'. congruence.
  - apply Hidle. intros k r' Hr' [Hi Hve]. rewrite <- (Hk k r' Hr'), Hi in Hr'. congruence.
Qed.

Lemma delete_ok id version t :
  table_ok t -> let '(t', n) := sql_delete (fun r => ID r = id /\ Version r = version) t in
  table_ok t' /\ evolve t t' /\
  (n <> 0 -> exists r, t !! id = Some r /\ Version r = version /\ t' !! id = None).
Proof using.
  intros [Hk Hu Hv]. destruct (sql_delete _ t) as [t' n] eqn:Ed.
  assert (t' = (sql_delete (fun r => ID r = id /\ Version r = version) t).1) as -> by (by rewrite Ed).
  pose proof (sql_delete_subset (fun r => ID r = id /\ Version r = version) t) as Hs. split_and!; [split| |].
  - by eapply keyed_by_subset.
  - intros k r Hr k' r' Hr'. apply (Hu k r (lookup_weaken _ _ _ _ Hr Hs) k' r' (lookup_weaken _ _ _ _ Hr' Hs)).
  - intros k r Hr. apply (Hv k r). by eapply lookup_weaken.
  - intros k. rewrite sql_delete_lookup. destruct (t !! k) as [r|]; cbn; [|done]. case_decide; cbn; auto.
  - intros Hn. assert (n = sql_count (fun r => ID r = id /\ Version r = version) t) as Hc by (unfold sql_delete in Ed; by simplify_eq).
    destruct (sql_count_pos (fun r => ID r = id /\ Version r = version) t) as [Hex _].
    destruct Hex as (k & r & Hr & Hi & Hve). { unfold sql_count in *. lia. }
    rewrite (Hk k r Hr) in Hi. subst k. exists r. split_and!; [done..|]. rewrite sql_delete_lookup, Hr. cbn.
    by rewrite decide_True by (split; [by apply Hk|done]).
Qed.
End tables.

(** ** JSON *)
Section json.
Context {libs : Libs} {rd : Redis} {cx : Contexts} {ul : UserLibs} {kv : RedisKV} {jt : JSONText} {tx : TimeText}
  {jl : JSONTextLaws} {peek : Store -> string -> option bytes} {laws : UserLaws peek}.

(** A user after a trip through JSON. *)
Definition through_json (u : User) : User :=
  mkUser (to_valid (ID u)) (to_valid (Name u)) (to_valid (Email u)) (Version u) (CreatedAt u) (UpdatedAt u).

Lemma user_round_trip u data :
  int64_min <= Version u <= int64_max -> Marshal u = Ok data -> Unmarshal data = Ok (through_json u).
Proof using jl laws.
  intros Hv. unfold Marshal. destruct (time_encodes (CreatedAt u)) eqn:E1; [|done].
  destruct (time_encodes (UpdatedAt u)) eqn:E2; [|done]. cbn [andb]. intros [= <-]. unfold Unmarshal.
  rewrite parse_print. cbn [mbind Res_bind]. unfold to_json, of_json, jtime, jint. cbn [sanitize map fst snd].
  assert (forall o, object_of (JObject o) = Ok o) as Ho by done. rewrite Ho. cbn [mbind Res_bind].
  unfold string_field, int_field.
  change (to_valid "id") with "id". change (to_valid "name") with "name". change (to_valid "email") with "email".
  change (to_valid "version") with "version". change (to_valid "created_at") with "created_at".
  change (to_valid "updated_at") with "updated_at". eval_names.
  cbn [members filter list_filter fmap list_fmap decode_all decode_string decode_time mbind Res_bind].
  cbn [decode_int]. rewrite format_int_parse by done. cbn [mbind Res_bind decode_all].
  rewrite !time_round by done. reflexivity.
Qed.
End json.

(** ** A logic for programs that share the state *)
Section logic.
Context {libs : Libs} {rd : Redis} {cx : Contexts} {ul : UserLibs} {kv : RedisKV} {jt : JSONText} {tx : TimeText}
  {peek : Store -> string -> option bytes} {laws : UserLaws peek}
  {find : Store -> string -> option Idempotency.entry}.

(** A change of the table leaves two consecutive contents behind. *)
Definition changed (h : list Rows) (t t' : Rows) : Prop := exists i, h !! i = Some t /\ h !! S i = Some t'.

Lemma changed_mono h h' t t' : changed h t t' -> h `prefix_of` h' -> changed h' t t'.
Proof using. intros (i & H1 & H2) Hp. exists i. split; by eapply prefix_lookup_Some. Qed.

(** A row that was inserted, with these fields. *)
Definition created (h : list Rows) (name email : string) (u : User) : Prop :=
  Name u = name /\ Email u = email /\ Version u = 1 /\ exists t, changed h t (<[ID u := u]> t) /\ t !! ID u = None.

Lemma created_mono h h' n e u : created h n e u -> h `prefix_of` h' -> created h' n e u.
Proof using. intros (? & ? & ? & t & Hc & Hn) Hp. split_and!; try done. exists t. split; [by eapply changed_mono|done]. Qed.

(** Every stored result encodes a row that was inserted. *)
Definition results_ok (h : list Rows) (s : Store) : Prop :=
  forall key fp data, find s key = Some (Idempotency.Completed fp data) ->
    exists n e u, created h n e u /\ data = json_print (to_json u).

Lemma results_ok_mono h h' s : h `prefix_of` h' -> results_ok h s -> results_ok h' s.
Proof using.
  intros Hp H key fp data Hd. destruct (H key fp data Hd) as (n & e & u & Hc & Hu). exists n, e, u.
  split; [by eapply created_mono|done].
Qed.

(** What is cached under the id of a user was the row of that id at some time. *)
Definition cache_ok (h : list Rows) (s : Store) : Prop :=
  forall id data, uuid_Parse id = Ok tt -> peek s (cache_key id) = Some data ->
    exists t u, t ∈ h /\ t !! id = Some u /\ valid_user u /\ Marshal u = Ok data.

(** Consecutive contents of the table. *)
Definition linked (h : list Rows) : Prop :=
  forall i t t', h !! i = Some t -> h !! S i = Some t' -> evolve t t'.

Record inv (st : State) : Prop := {
  inv_last : last (past st) = Some (rows st);
  inv_tables : Forall table_ok (past st);
  inv_linked : linked (past st);
  inv_cache : cache_ok (past st) (store st);
  inv_results : results_ok (past st) (store st);
}.

Lemma inv_rows st : inv st -> rows st ∈ past st.
Proof using. intros [H _ _ _ _]. apply last_Some in H as [l ->]. apply elem_of_app. right. by left. Qed.
Lemma inv_table st : inv st -> table_ok (rows st).
Proof using. intros H. pose proof (inv_rows _ H) as Hr. destruct H as [_ Ht _ _ _]. rewrite Forall_forall in Ht. by apply Ht. Qed.

Lemma cache_ok_mono h h' s : h `prefix_of` h' -> cache_ok h s -> cache_ok h' s.
Proof using.
  intros [l ->] H id data Hid Hd. destruct (H id data Hid Hd) as (t & u & Ht & Hu). exists t, u.
  split; [apply elem_of_app; by left|done].
Qed.

Lemma inv_set_rows st t : inv st -> table_ok t -> evolve (rows st) t -> inv (set_rows t st).
Proof using.
  intros [Hl Ht Hk Hc Hres] Hok Hev. split; cbn.
  - by rewrite last_snoc.
  - apply Forall_app. split; [done|by constructor].
  - intros i a b Ha Hb. destruct (decide (S i < length (past st))%nat) as [Hi|Hi].
    + rewrite lookup_app_l in Ha, Hb by lia. by eapply Hk.
    + assert (S i = length (past st)) as Hlen.
      { apply lookup_lt_Some in Hb. rewrite length_app in Hb. cbn in Hb. lia. }
      rewrite lookup_app_l in Ha by lia. rewrite lookup_app_r, Hlen, Nat.sub_diag in Hb by lia. injection Hb as <-.
      rewrite last_lookup, <- Hlen in Hl. cbn in Hl. by assert (a = rows st) as -> by congruence.
  - eapply cache_ok_mono; [|done]. by exists [t].
  - eapply results_ok_mono; [|done]. by exists [t].
Qed.

(** [safe Post p h]: from every state that extends the history [h], whatever
    other requests do in between, [p] keeps the invariant, and if it finishes
    its result satisfies [Post] of the history. *)
Fixpoint safe {A} (Post : list Rows -> A -> Prop) (p : prog A) (h : list Rows) : Prop :=
  match p with
  | Ret a => forall h', h `prefix_of` h' -> Post h' a
  | Do o k => forall ch st, inv st -> h `prefix_of` past st ->
      let '(x, st') := exec ch o st in
      inv st' /\ past st `prefix_of` past st' /\ safe Post (k x) (past st')
  end.

Lemma safe_mono {A} (Post : list Rows -> A -> Prop) p h h' : safe Post p h -> h `prefix_of` h' -> safe Post p h'.
Proof using.
  destruct p as [a|X o k]; cbn; intros H Hp.
  - intros h2 H2. apply H. by etrans.
  - intros ch st Hi Hst. apply H; [done|]. by etrans.
Qed.

Lemma safe_bind {A B} (Mid : list Rows -> A -> Prop) (Post : list Rows -> B -> Prop) (p : prog A) (f : A -> prog B) h :
  safe Mid p h -> (forall a h', h `prefix_of` h' -> (forall h2, h' `prefix_of` h2 -> Mid h2 a) -> safe Post (f a) h') ->
  safe Post (p ≫= f) h.
Proof using.
  revert h. induction p as [a|X o k IH]; intros h Hp Hf; cbn in *.
  - by apply Hf.
  - intros ch st Hi Hst. specialize (Hp ch st Hi Hst). destruct (exec ch o st) as [x st'].
    destruct Hp as (H1 & H2 & H3). split_and!; [done..|]. apply IH; [done|]. intros a h' Hh. apply Hf. etrans; [exact Hst|].
    by etrans.
Qed.

Lemma safe_ret {A} (Post : list Rows -> A -> Prop) a h : (forall h', h `prefix_of` h' -> Post h' a) -> safe Post (mret a) h.
Proof using. done. Qed.

Lemma safe_weaken {A} (P Q : list Rows -> A -> Prop) p h :
  safe P p h -> (forall h' a, h `prefix_of` h' -> P h' a -> Q h' a) -> safe Q p h.
Proof using.
  revert h. induction p as [a|X o k IH]; intros h Hp Hf; cbn in *; [eauto|].
  intros ch st Hi Hst. specialize (Hp ch st Hi Hst). destruct (exec ch o st) as [x st']. destruct Hp as (H1 & H2 & H3).
  split_and!; [done..|]. apply IH; [done|]. intros h' a Hh. apply Hf. etrans; [exact Hst|]. by etrans.
Qed.

(** *** Operations *)
Definition any {A} : list Rows -> A -> Prop := fun _ _ => True.

Lemma safe_now h : safe any (perform Now) h.
Proof using. intros ch st Hi Hst. by split_and!. Qed.
Lemma safe_uuid h : safe any (perform NewUUID) h.
Proof using. intros ch st Hi Hst. by split_and!. Qed.
Lemma safe_warn m h : safe any (perform (Warn m)) h.
Proof using. intros ch st Hi Hst. cbn. split_and!; [|done|done]. destruct Hi. by split. Qed.

Lemma safe_query {A} (q : nat -> Rows -> Res sql_error A) h (Post : list Rows -> Res sql_error A -> Prop) :
  (forall h' e, Post h' (Err e)) ->
  (forall n t h', table_ok t -> t ∈ h' -> Post h' (q n t)) -> safe Post (perform (Query q)) h.
Proof using.
  intros He Hq ch st Hi Hst. cbn. split_and!; [done..|]. intros h' Hh. destruct (ch_statement ch) as [e|]; [apply He|].
  apply Hq; [by apply inv_table|]. destruct Hh as [l ->]. apply elem_of_app. left. by apply inv_rows.
Qed.


Lemma inv_changed st t : inv st -> changed (past (set_rows t st)) (rows st) t.
Proof using.
  intros [Hl _ _ _]. apply last_Some in Hl as [l Hl]. exists (length l). cbn. rewrite Hl. split.
  - rewrite lookup_app_l by (rewrite length_app; cbn; lia). by rewrite lookup_app_r, Nat.sub_diag by lia.
  - rewrite lookup_app_r by (rewrite length_app; cbn; lia). rewrite length_app. cbn.
    by replace (S (length l) - (length l + 1))%nat with 0%nat by lia.
Qed.

Lemma safe_statement {A} (f : Rows -> Res sql_error (Rows * A)) h (Post : list Rows -> Res sql_error A -> Prop) :
  (forall h' e, Post h' (Err e)) ->
  (forall t t' a, table_ok t -> f t = Ok (t', a) -> table_ok t' /\ evolve t t' /\
     forall h', changed h' t t' -> Post h' (Ok a)) ->
  safe Post (perform (Statement f)) h.
Proof using.
  intros He Hf ch st Hi Hst. cbn. destruct (ch_statement ch) as [e|]; [by split_and!; [..|intros ? _; apply He]|].
  destruct (f (rows st)) as [[t' a]|e] eqn:Ef; [|by split_and!; [..|intros ? _; apply He]].
  destruct (Hf _ _ _ (inv_table _ Hi) Ef) as (H1 & H2 & H3). split_and!.
  - by apply inv_set_rows.
  - by exists [t'].
  - intros h' Hh. apply H3. eapply changed_mono; [by apply inv_changed|done].
Qed.

Lemma safe_transaction db fn h (Post : list Rows -> Res rerror unit -> Prop) :
  (forall h' e, Post h' (Err e)) ->
  (forall x t t', table_ok t -> fn x t = Ok t' -> table_ok t' /\ evolve t t' /\ forall h', changed h' t t' -> Post h' (Ok tt)) ->
  safe Post (perform (Transaction db fn)) h.
Proof using.
  intros He Hf ch st Hi Hst. cbn. unfold exec_tx.
  assert (forall e, inv st /\ past st `prefix_of` past st /\ forall h', past st `prefix_of` h' -> Post h' (Err e)) as Hsame
    by (intros e; split_and!; [done..|intros h' _; apply He]).
  destruct db; cbn [negb]; [|apply Hsame]. destruct (ch_begin ch) as [e|]; [apply Hsame|].
  destruct (fn (ch_statement ch) (rows st)) as [t'|e] eqn:Ef; destruct (ch_end ch) as [e'|]; try apply Hsame.
  destruct (Hf _ _ _ (inv_table _ Hi) Ef) as (H1 & H2 & H3). split_and!.
  - by apply inv_set_rows.
  - by exists [t'].
  - intros h' Hh. apply H3. eapply changed_mono; [by apply inv_changed|done].
Qed.

(** A call to Redis that keeps the cache. *)
Definition keeps_cache {A} (f : Store -> Result A * Store) (h : list Rows) : Prop :=
  forall h' s, h `prefix_of` h' -> cache_ok h' s -> cache_ok h' (f s).2.

(** ... and the stored results. *)
Definition keeps_results {A} (f : Store -> Result A * Store) (h : list Rows) : Prop :=
  forall h' s, h `prefix_of` h' -> results_ok h' s -> results_ok h' (f s).2.

Lemma keeps_results_same {A} (f : Store -> Result A * Store) h :
  (forall s key fp data, find (f s).2 key = Some (Idempotency.Completed fp data) -> find s key = Some (Idempotency.Completed fp data)) ->
  keeps_results f h.
Proof using. intros Hf h' s _ Hr key fp data Hd. eapply Hr. by apply Hf. Qed.

Lemma safe_store {A} (f : Store -> Result A * Store) h (Post : list Rows -> Result A -> Prop) :
  keeps_cache f h -> keeps_results f h -> (forall h' e, Post h' (Err e)) ->
  (forall h' h2 s, h `prefix_of` h' -> cache_ok h' s -> results_ok h' s -> h' `prefix_of` h2 -> Post h2 (f s).1) ->
  safe Post (perform (OnStore f)) h.
Proof using.
  intros Hk Hkr He Hp ch st Hi Hst. cbn.
  assert (forall s, cache_ok (past st) s -> results_ok (past st) s -> inv (set_store s st)) as Hs
    by (intros s Hc Hr; destruct Hi; by split).
  pose proof (inv_cache _ Hi) as Hc. pose proof (Hk (past st) (store st) Hst Hc) as Hc'.
  pose proof (inv_results _ Hi) as Hr. pose proof (Hkr (past st) (store st) Hst Hr) as Hr'.
  destruct (ch_network ch) as [[e done]|].
  - destruct done; (split_and!; [auto|done|intros h' _; apply He]).
  - specialize (Hp (past st)). specialize (fun h2 => Hp h2 (store st) Hst Hc Hr). destruct (f (store st)) as [r s']. cbn in *.
    by split_and!; [apply Hs|..].
Qed.
End logic.

(** ** The operations are safe *)
Section operations.
Context {libs : Libs} {rd : Redis} {cx : Contexts} {ul : UserLibs} {kv : RedisKV} {jt : JSONText} {tx : TimeText}
  {jl : JSONTextLaws} {peek : Store -> string -> option bytes} {laws : UserLaws peek}
  {find : Store -> string -> option Idempotency.entry} {ff : FindFrame find} {fs : FindShrinks find}.
Implicit Types h : list Rows.

Lemma cache_key_inj id id' : cache_key id = cache_key id' -> id = id'.
Proof using.
  unfold cache_key, cacheKeyPrefix. intros H%(f_equal bytes_of). rewrite !bytes_of_app in H. apply app_inv_head in H.
  by rewrite <- (string_of_bytes_of id), H, string_of_bytes_of.
Qed.

Lemma go_len_app a b : go_len (a +:+ b) = go_len a + go_len b.
Proof using. unfold go_len. rewrite bytes_of_app, length_app. lia. Qed.
Lemma hex_sha256_length l : go_len (hex (sha256 l)) = 64.
Proof using.
  unfold go_len, hex. rewrite bytes_of_string_of. pose proof (length_sha256 l) as H. revert H. generalize (sha256 l).
  intros x H. enough (forall y : bytes, length (mjoin ((fun b => [hex_digit (code b / 16); hex_digit (code b mod 16)]) <$> y)) = (2 * length y)%nat).
  - rewrite H0, H. done.
  - induction y as [|b y IH]; [done|]. rewrite fmap_cons. change (mjoin (?a :: ?l)) with (a ++ mjoin l). rewrite length_app, IH. cbn. lia.
Qed.

(** The key of a lock is never the key of a cached user, although it has the
    same prefix. *)
Lemma lock_key_not_cached email id : uuid_Parse id = Ok tt -> cache_key id <> emailLockKey email.
Proof using laws.
  intros H%uuid_length Hk. apply (f_equal go_len) in Hk. unfold cache_key, cacheKeyPrefix, emailLockKey in Hk.
  rewrite !go_len_app in Hk. change (go_len "user:") with 5 in Hk. change (go_len "user:create:") with 12 in Hk.
  rewrite hex_sha256_length in Hk. lia.
Qed.

Lemma keeps_same {A} (f : Store -> Result A * Store) h :
  (forall s id, uuid_Parse id = Ok tt -> peek (f s).2 (cache_key id) = peek s (cache_key id)) -> keeps_cache (peek := peek) f h.
Proof using. intros Hf h' s _ Hc id data Hid Hd. rewrite Hf in Hd by done. by apply Hc. Qed.


Lemma keeps_set u data ttl h t : t ∈ h -> t !! ID u = Some u -> valid_user u -> Marshal u = Ok data ->
  keeps_cache (peek := peek) (redis_Set (cache_key (ID u)) data ttl) h.
Proof using laws.
  intros Ht Hu Hv Hm h' s [l ->] Hc id d Hid Hd. destruct (set_law (cache_key (ID u)) data ttl s) as [_ Hs]. rewrite Hs in Hd.
  case_decide as Hk; [|by apply Hc]. injection Hd as <-. apply cache_key_inj in Hk as ->. exists t, u.
  split; [apply elem_of_app; by left|done].
Qed.
Lemma keeps_del k h : keeps_cache (peek := peek) (redis_Del k) h.
Proof using laws.
  intros h' s _ Hc id d Hid Hd. destruct (del_law k s) as [_ Hs]. rewrite Hs in Hd. case_decide; [done|by apply Hc].
Qed.
Lemma keeps_expire k h s : cache_ok (peek := peek) h s -> cache_ok (peek := peek) h (redis_Expire k s).
Proof using laws. intros Hc id d Hid Hd. rewrite expire_law in Hd. case_decide; [done|by apply Hc]. Qed.

(** A row that was read or written may be cached. *)
Definition known (h : list Rows) (id : string) (u : User) : Prop := exists t, t ∈ h /\ t !! id = Some u /\ valid_user u /\ ID u = id.

Lemma known_mono h h' id u : known h id u -> h `prefix_of` h' -> known h' id u.
Proof using. intros (t & Ht & Hu) [l ->]. exists t. split; [apply elem_of_app; by left|done]. Qed.

Lemma safe_cacheGet s id h : uuid_Parse id = Ok tt ->
  safe (peek := peek) (find := find) (fun h' r => match r with
    | Some u => exists t r, t ∈ h' /\ t !! id = Some r /\ u = through_json r
    | None => True end) (cacheGet s id) h.
Proof using jl laws ff fs.
  intros Hid. unfold cacheGet. destruct (redis s); cbn [negb]; [|by apply safe_ret].
  eapply safe_bind.
  { apply (safe_store _ _ (fun h' r => match r with
      | Ok (Some data) => exists t u, t ∈ h' /\ t !! id = Some u /\ valid_user u /\ Marshal u = Ok data | _ => True end)).
    - apply keeps_same. intros s' id' _. by rewrite get_law.
    - apply keeps_results_same. intros s' key fp data. by rewrite find_get.
    - done.
    - intros h' h2 s' Hp Hc _ [l ->]. rewrite get_law. cbn. destruct (peek s' (cache_key id)) as [data|] eqn:Ed; [|done].
      destruct (Hc id data Hid Ed) as (t & u & Ht & Hu). exists t, u. split; [apply elem_of_app; by left|done]. }
  intros r h' Hp Hr. destruct r as [[data|]|e]; [|by apply safe_ret|].
  - destruct (Hr h' (reflexivity _)) as (t & u & Ht & Hu & Hv & Hm).
    rewrite (user_round_trip u data) by (done || (pose proof (vu_version _ Hv); unfold int64_min; lia)).
    apply safe_ret. intros h2 [l ->]. exists t, u. split; [apply elem_of_app; by left|done].
  - eapply safe_bind; [apply safe_warn|]. intros _ h2 _ _. by apply safe_ret.
Qed.

Lemma safe_cacheSet s id u h : known h id u -> safe (peek := peek) (find := find) any (cacheSet s u) h.
Proof using laws ff fs.
  intros Hk. unfold cacheSet. destruct (redis s); cbn [negb]; [|by apply safe_ret].
  destruct (Marshal u) as [data|e] eqn:Em; [|apply safe_warn]. eapply safe_bind.
  { apply (safe_store _ _ any); [| |done..]; [|apply keeps_results_same; intros *; by rewrite find_set].
    destruct Hk as (t & Ht & Hu & Hv & Hi). rewrite <- Hi in Hu. by eapply keeps_set. }
  intros r h' _ _. destruct r; [by apply safe_ret|apply safe_warn].
Qed.

Lemma safe_cacheDelete s id h : safe (peek := peek) (find := find) any (cacheDelete s id) h.
Proof using laws ff fs.
  unfold cacheDelete. destruct (redis s); cbn [negb]; [|by apply safe_ret]. eapply safe_bind.
  { apply (safe_store _ _ any); [apply keeps_del|apply keeps_results_same; intros *; apply find_del|done..]. }
  intros r h' _ _. destruct r; [by apply safe_ret|apply safe_warn].
Qed.

(** ** What the answers mean *)

(** [u] is a row that [id] had at some time, up to the encoding of its text. *)
Definition had (h : list Rows) (id : string) (u : User) : Prop := exists t r, t ∈ h /\ t !! id = Some r /\ (u = r \/ u = through_json r).

(** The answer to a repeated request: the stored encoding of a row that was
    inserted, decoded again. *)
Definition replayed (h : list Rows) (u : User) : Prop :=
  exists n e u0, created h n e u0 /\ Unmarshal (json_print (to_json u0)) = Ok u.
Definition updated (h : list Rows) (id name email : string) (version : Z) : Prop :=
  exists t r now, t !! id = Some r /\ Version r = version /\
    changed h t (<[id := mkUser id name email (version + 1) (CreatedAt r) now]> t).
Definition deleted (h : list Rows) (id : string) (version : Z) : Prop :=
  exists t t' r, t !! id = Some r /\ Version r = version /\ t' !! id = None /\ changed h t t'.

Definition answer_ok (q : Request) (h : list Rows) (a : Answer) : Prop :=
  match q, a with
  | RCreate ctx name email, AUser (Ok u) =>
      exists n e, validate name email = Ok (n, e) /\
        (created h n e u \/ (is_Some (idempotency.FromContext ctx) /\ replayed h u))
  | RGet id, AUser (Ok u) => had h id u
  | RList page pageSize, APage (Ok p) =>
      1 <= Page_ p /\ 1 <= PageSize p <= 100 /\ Z.of_nat (length (Users p)) <= PageSize p /\
      (exists t, t ∈ h /\ Total p = Z.of_nat (size t)) /\
      exists t, t ∈ h /\ Forall (fun u => t !! ID u = Some u) (Users p) /\
        sql_page SQLRepository.list_order (PageSize p) (wrap64 ((Page_ p - 1) * PageSize p)) (snd <$> map_to_list t) = Some (Users p)
  | RUpdate id name email version, AUser (Ok u) =>
      had h id u /\ exists n e, validate name email = Ok (n, e) /\ updated h id n e version
  | RDelete id version, ADone (Ok _) => deleted h id version
  | _, _ => True
  end.

Lemma validated name email n e id v now :
  validate name email = Ok (n, e) -> 1 <= v <= int64_max -> valid_user (mkUser id n e v now now).
Proof using. intros H%validate_Ok Hv. by split. Qed.

Lemma safe_Get db id h :
  safe (peek := peek) (find := find) (fun h' r => match r with Ok u => known h' id u | Err _ => True end) (SQLRepository.Get db id) h.
Proof using.
  unfold SQLRepository.Get. destruct db; cbn [negb]; [|by apply safe_ret]. eapply safe_bind.
  { apply (safe_query _ _ (fun h' r => match r with Ok (Some u) => known h' id u | _ => True end)); [done|].
    intros n t h' Hok Ht. cbn. destruct (sql_get _ n t) as [u|] eqn:Eg; [|done].
    destruct (sql_get_key ID _ _ _ id _ (to_keyed _ Hok) (fun _ H => H) Eg) as [Hu Hi]. exists t. split_and!; try done.
    by apply (to_valid_rows _ Hok id). }
  intros r h' Hp Hr. apply safe_ret. intros h2 Hh. specialize (Hr h2 Hh). by destruct r as [[u|]|e].
Qed.

Lemma safe_GetUser s id h :
  safe (peek := peek) (find := find) (fun h' r => match r with Ok u => had h' id u | Err _ => True end) (Get s id) h.
Proof using jl laws ff fs.
  unfold Get. destruct (uuid_Parse id) as [[]|e] eqn:Hid; [|by apply safe_ret].
  destruct (Available (transactor s)); cbn [negb]; [|by apply safe_ret].
  eapply safe_bind; [by apply safe_cacheGet|]. intros c h1 Hp Hc. destruct c as [u|].
  { apply safe_ret. intros h2 Hh. destruct (Hc h2 Hh) as (t & r & Ht & Hr & ->). exists t, r. eauto. }
  eapply safe_bind; [apply safe_Get|]. intros r h2 _ Hr. destruct r as [u|e]; [|by apply safe_ret].
  eapply safe_bind; [by eapply safe_cacheSet, Hr|]. intros _ h3 Hh _. apply safe_ret. intros h4 Hh'.
  destruct (Hr h4) as (t & Ht & Hu & _); [by etrans|]. exists t, u. eauto.
Qed.

Lemma prefix_elem h h' t : t ∈ h -> h `prefix_of` h' -> t ∈ h'.
Proof using. intros Ht [l ->]. apply elem_of_app. by left. Qed.

Lemma safe_List s page size h :
  safe (peek := peek) (find := find) (fun h' r => answer_ok (RList page size) h' (APage r)) (List s page size) h.
Proof using.
  unfold List. destruct (Available (transactor s)); cbn [negb]; [|by apply safe_ret].
  set (pg := if decide (page = 0) then 1 else page). set (sz := if decide (size = 0) then defaultPageSize else size).
  cbv zeta. case_decide as Hb; [by apply safe_ret|]. apply Decidable.not_or in Hb as [H1 [H2 H3]%Decidable.not_or].
  unfold maxPageSize in H3. set (off := wrap64 ((pg - 1) * sz)).
  set (Page := fun (h' : list Rows) (l : list User) => Z.of_nat (length l) <= sz /\
    exists t, t ∈ h' /\ Forall (fun u => t !! ID u = Some u) l /\
      sql_page SQLRepository.list_order sz off (snd <$> map_to_list t) = Some l).
  apply (safe_bind (fun h' r => match r with
      | Ok (l, total) => (exists t, t ∈ h' /\ total = Z.of_nat (Datatypes.length (map_to_list t))) /\ Page h' l
      | Err _ => True end)).
  { unfold SQLRepository.List. destruct (repository_db s); cbn [negb]; [|by apply safe_ret].
    eapply safe_bind.
    { apply (safe_query _ _ (fun h' r => match r with
        | Ok total => exists t, t ∈ h' /\ total = Z.of_nat (Datatypes.length (map_to_list t)) | Err _ => True end)); [done|].
      intros _ t h' _ Ht. exists t. split; [done|]. by rewrite length_map_to_list. }
    intros c h1 _ Hc. destruct c as [total|e]; [|by apply safe_ret].
    eapply safe_bind.
    { apply (safe_query _ _ (fun h' r => match r with Ok l => Page h' l | Err _ => True end)); [done|].
      intros _ t h' Hok Ht. destruct (sql_page _ _ _ _) as [l|] eqn:Ep; [|done]. split; [by eapply sql_page_length|].
      exists t. split_and!; try done. apply Forall_forall. intros u Hu. eapply sql_page_elem in Hu; [|exact Ep].
      apply list_elem_of_fmap in Hu as ([k u'] & -> & Hk%elem_of_map_to_list). cbn. by rewrite (to_keyed _ Hok k u' Hk). }
    intros r h2 Hp Hr. apply safe_ret. intros h3 Hh. specialize (Hr h3 Hh). destruct r; [|done]. split; [|done].
    apply Hc. by etrans. }
  intros r h1 _ Hr. apply safe_ret. intros h2 Hh. specialize (Hr h2 Hh). destruct r as [[l total]|e]; [|done].
  destruct Hr as [(t & Ht & Htotal) [Hl Hpage]]. cbn. split; [lia|]. split; [lia|]. split; [exact Hl|].
  split; [|exact Hpage]. exists t. split; [done|]. by rewrite <-length_map_to_list.
Qed.

Lemma safe_Update s id name email version h :
  safe (peek := peek) (find := find) (fun h' r => answer_ok (RUpdate id name email version) h' (AUser r)) (Update s id name email version) h.
Proof using jl laws ff fs.
  unfold Update. destruct (uuid_Parse id) as [[]|e] eqn:Hid; [|by apply safe_ret].
  destruct (Available (transactor s)); cbn [negb]; [|by apply safe_ret].
  destruct (validate name email) as [[n e]|e] eqn:Ev; [|by apply safe_ret]. case_decide as Hver; [by apply safe_ret|].
  eapply safe_bind; [apply safe_now|]. intros now h1 _ _.
  apply (safe_bind (fun h' r => match r with Ok _ => updated h' id n e version | Err _ => True end)).
  { unfold SQLRepository.Update. destruct (repository_db s); cbn [negb]; [|by apply safe_ret].
    apply (safe_bind (fun h' (r : Res sql_error Z) => match r with Ok c => c <> 0 -> updated h' id n e version | Err _ => True end)).
    - apply safe_statement; [done|]. intros t t' c Hok Hu.
      destruct (update_ok (mkUser id n e version zero_time now) _ _ _ Hok (validate_Ok _ _ _ _ Ev) Hu) as (H1 & H2 & H3). split_and!; [done..|].
      intros h' Hch Hc. destruct H3 as [[-> _]|(_ & r & Hr & Hve & ->)]; [done|]. exists t, r, now. done.
    - intros r h2 _ Hr. apply safe_ret. intros h3 Hh. specialize (Hr h3 Hh). destruct r as [c|e']; [|done].
      unfold SQLRepository.affected. case_decide; [done|]. by apply Hr. }
  intros r h2 _ Hr. destruct r as [[]|e']; [|by apply safe_ret].
  eapply safe_bind; [apply safe_cacheDelete|]. intros _ h3 Hh _.
  eapply safe_weaken; [apply safe_GetUser|]. intros h4 [u|e'] Hh4; [|done]. intros Hhad. cbn. split; [done|].
  exists n, e. split; [done|]. apply Hr. by etrans.
Qed.

Lemma safe_Delete s id version h :
  safe (peek := peek) (find := find) (fun h' r => answer_ok (RDelete id version) h' (ADone r)) (Delete s id version) h.
Proof using jl laws ff fs.
  unfold Delete. destruct (uuid_Parse id) as [[]|e] eqn:Hid; [|by apply safe_ret].
  destruct (Available (transactor s)); cbn [negb]; [|by apply safe_ret]. case_decide as Hver; [by apply safe_ret|].
  apply (safe_bind (fun h' r => match r with Ok _ => deleted h' id version | Err _ => True end)).
  { unfold SQLRepository.Delete. destruct (repository_db s); cbn [negb]; [|by apply safe_ret].
    apply (safe_bind (fun h' (r : Res sql_error Z) => match r with Ok c => c <> 0 -> deleted h' id version | Err _ => True end)).
    - apply safe_statement; [done|]. intros t t' c Hok Hd. injection Hd as Ht' Hc'.
      pose proof (delete_ok id version t Hok) as Hdel. cbn in Hdel. rewrite Ht', Hc' in Hdel.
      destruct Hdel as (H1 & H2 & H3). split_and!; [done..|]. intros h' Hch Hc. destruct (H3 Hc) as (r & Hr & Hve & Hn).
      exists t, t', r. done.
    - intros r h2 _ Hr. apply safe_ret. intros h3 Hh. specialize (Hr h3 Hh). destruct r as [c|e']; [|done].
      unfold SQLRepository.affected. case_decide; [done|]. by apply Hr. }
  intros r h2 _ Hr. destruct r as [[]|e']; [|by apply safe_ret].
  eapply safe_bind; [apply safe_cacheDelete|]. intros _ h3 Hh _. apply safe_ret. intros h4 Hh4. apply Hr. by etrans.
Qed.

Lemma safe_insert_once s name email h : valid_text name email ->
  safe (peek := peek) (find := find) (fun h' r => match r with Ok u => created h' name email u | Err _ => True end) (insert_once s name email) h.
Proof using laws ff fs.
  intros Hv. unfold insert_once. eapply safe_bind; [apply safe_now|]. intros now h1 _ _.
  eapply safe_bind; [apply safe_uuid|]. intros id h2 _ _. set (u := mkUser id name email 1 now now).
  apply (safe_bind (fun h' r => match r with Ok _ => known h' id u /\ created h' name email u | Err _ => True end)).
  { apply safe_transaction; [done|]. intros x t t' Hok H. unfold SQLRepository.Create in H.
    destruct (repository_db s); cbn [negb] in H; [|done]. destruct x as [e|]; [done|].
    destruct (SQLRepository.insert_user u t) as [t1|e] eqn:Ei; [|done]. injection H as <-.
    assert (valid_user u) as Hu by (split; [done|cbn; unfold int64_max; lia]).
    destruct (create_ok u t t1 Hok Hu eq_refl Ei) as (H1 & H2 & H3). split_and!; [done..|].
    intros h' Hch. unfold SQLRepository.insert_user in Ei. case_decide as Hd; [done|]. injection Ei as <-.
    apply Decidable.not_or in Hd as [Hd%eq_None_not_Some _]. split.
    - destruct Hch as (i & _ & Hi). exists (<[ID u := u]> t). split_and!; try done. by eapply list_elem_of_lookup_2.
    - unfold created. split_and!; try done. exists t. done. }
  intros r h3 _ Hr. destruct r as [[]|e]; [|by apply safe_ret].
  eapply safe_bind; [by eapply safe_cacheSet, Hr|]. intros _ h4 Hh _. apply safe_ret. intros h5 Hh'. apply Hr. by etrans.
Qed.

Lemma safe_createOnce s ctx name email h : valid_text name email ->
  safe (peek := peek) (find := find) (fun h' r => match r with Ok u => created h' name email u | Err _ => True end) (createOnce s ctx name email) h.
Proof using laws ff fs.
  intros Hv. unfold createOnce. destruct (Available (transactor s)); cbn [negb]; [|by apply safe_ret].
  destruct (locker s); cbn [negb]; [|by apply safe_insert_once].
  eapply safe_bind.
  { apply (safe_store _ _ any); [| |done..]; [|apply keeps_results_same; intros *; by rewrite find_lock].
    apply keeps_same. intros s' id Hid. apply lock_frame. by apply lock_key_not_cached. }
  intros l h1 _ _. destruct l as [lock|e]; [|by apply safe_ret].
  eapply safe_bind; [by apply safe_insert_once|]. intros r h2 _ Hr. eapply safe_bind.
  { apply (safe_store _ _ any); [| |done..]; [|apply keeps_results_same; intros *; by rewrite find_unlock].
    apply keeps_same. intros s' id Hid. apply unlock_frame. by apply lock_key_not_cached. }
  intros x h3 Hh _. eapply (safe_bind any); [destruct x; [by apply safe_ret|apply safe_warn]|].
  intros _ h4 Hh4 _. apply safe_ret. intros h5 Hh5. apply Hr. by do 2 (etrans; [done|]).
Qed.

Lemma safe_Create s ctx name email h : (forall m, idempotency_ s = Some m -> ManagerFrame peek m /\ ManagerResults find m) ->
  safe (peek := peek) (find := find) (fun h' r => answer_ok (RCreate ctx name email) h' (AUser r)) (Create s ctx name email) h.
Proof using laws ff fs.
  intros Hm. unfold Create, answer_ok.
  destruct (validate name email) as [[n e]|e] eqn:Ev; [|by apply safe_ret].
  destruct (idempotency.FromContext ctx) as [key|].
  2:{ eapply safe_weaken; [by eapply safe_createOnce, validate_Ok|]. intros h' [u|e'] _ Hu; [|done]. eauto. }
  apply (safe_weaken (fun h' r => match r with Ok u => created h' n e u \/ replayed h' u | Err _ => True end)).
  2:{ intros h' [u|e'] _ Hu; [|done]. exists n, e. split; [done|]. destruct Hu; eauto. }
  destruct (idempotency_ s) as [m|] eqn:Em; [|by apply safe_ret]. destruct (Hm m eq_refl) as [Hf Hres].
  destruct (Idempotency.Enabled m); cbn [negb]; [|by apply safe_ret].
  apply (safe_bind (fun h' d => match d with
    | Ok (Idempotency.StateCompleted data) => exists n e u, created h' n e u /\ data = json_print (to_json u) | _ => True end)).
  { apply safe_store.
    - apply keeps_same. intros s' id _. apply begin_frame.
    - apply keeps_results_same. intros *. apply begin_results.
    - done.
    - intros h' h2 s' _ _ Hr Hh. destruct (Idempotency.Begin _ _ _ _ s').1 as [[]|] eqn:Eb; try done.
      apply begin_replays in Eb. by apply (results_ok_mono _ _ _ Hh Hr) in Eb. }
  intros d h1 _ Hd. destruct d as [[owner| |data|f| |]|e']; try by apply safe_ret.
  2:{ apply safe_ret. intros h2 Hh. destruct (Hd h2 Hh) as (n' & e' & u0 & Hc & ->).
      destruct (Unmarshal (json_print (to_json u0))) as [u|] eqn:Eu; [|done]. right. by exists n', e', u0. }
  eapply safe_bind; [by eapply safe_createOnce, validate_Ok|]. intros r h2 _ Hr.
  apply (safe_bind any); [|intros ? h3 Hh _; apply safe_ret; intros h4 Hh4; destruct r; [|done]; left; apply Hr; by etrans].
  unfold finish. destruct r as [u|e'].
  - eapply safe_bind; [apply (safe_store _ _ any); [| |done..]|].
    + apply keeps_same. intros s' id _. apply complete_frame.
    + intros h' s' Hh Hok k fp data Hfind. apply complete_results in Hfind as [Hfind| ->]; [by eapply Hok|].
      exists n, e, u. split; [by apply Hr|done].
    + intros x h3 _ _. destruct x; [by apply safe_ret|apply safe_warn].
  - eapply safe_bind; [apply (safe_store _ _ any); [| |done..]|].
    + apply keeps_same. intros s' id _. apply fail_frame.
    + apply keeps_results_same. intros *. apply fail_results.
    + intros x h3 _ _. destruct x; [by apply safe_ret|apply safe_warn].
Qed.

Lemma safe_serve s q h : (forall m, idempotency_ s = Some m -> ManagerFrame peek m /\ ManagerResults find m) ->
  safe (peek := peek) (find := find) (answer_ok q) (serve s q) h.
Proof using jl laws ff fs.
  intros Hm. destruct q as [ctx name email|id|page size|id name email version|id version]; cbn [serve].
  - eapply safe_bind; [by apply safe_Create|]. intros r h' _ Hr. by apply safe_ret.
  - eapply safe_bind; [apply safe_GetUser|]. intros r h' _ Hr. apply safe_ret. intros h2 Hh. specialize (Hr h2 Hh). by destruct r.
  - eapply safe_bind; [apply safe_List|]. intros r h' _ Hr. by apply safe_ret.
  - eapply safe_bind; [apply safe_Update|]. intros r h' _ Hr. by apply safe_ret.
  - eapply safe_bind; [apply safe_Delete|]. intros r h' _ Hr. by apply safe_ret.
Qed.
End operations.
