(* ===== verification/ExampleUserSpec.v ===== *)
(** * The example user module: theorems

    Invariants of all interleavings of requests under all faults, what the
    answers mean, the behaviour of a request alone, replays, and the races of
    the cache. *)

From S2P Require Import Prelude.
From S2P Require Import GoStrings.
From S2P Require Import Encoding.
From S2P Require Import Digest.
From S2P Require Import Table.
From S2P Require Import AppError.
From S2P Require Import Platform.
From S2P Require Import Model.
From S2P Require Import Runtime.
From S2P Require Import ServiceBase.
From S2P Require Import Configuration.
From S2P Require Import RequestContext.
From S2P Require Import Json.
From S2P Require Import JsonSpec.
From S2P Require Import Messages.
From S2P Require Import Http.
From S2P Require Import Middleware.
From S2P Require Import Concrete.
From S2P Require Import Token.
From S2P Require Import Router.
From S2P Require Import ConcreteWeb.
From S2P Require Import ExampleUser.
From S2P Require Import ExampleUserLogic.
Open Scope Z_scope.
Import user.

(** ** All interleavings *)
Section system.
Context {libs : Libs} {rd : Redis} {cx : Contexts} {ul : UserLibs} {kv : RedisKV} {jt : JSONText} {tx : TimeText}
  {jl : JSONTextLaws} {peek : Store -> string -> option bytes} {laws : UserLaws peek}
  {find : Store -> string -> option Idempotency.entry} {ff : FindFrame find} {fs : FindShrinks find}.

Definition initial (s0 : Store) : Sys := mkSys (mkState ∅ [∅] s0 []) [].

Record sys_inv (y : Sys) : Prop := {
  si_shared : inv (peek := peek) (find := find) (shared y);
  si_threads : Forall (fun qp => safe (peek := peek) (find := find) (answer_ok qp.1) qp.2 (past (shared y))) (threads y);
}.

Lemma initial_inv s0 : (forall id, uuid_Parse id = Ok tt -> peek s0 (cache_key id) = None) -> (forall key, find s0 key = None) ->
  sys_inv (initial s0).
Proof using.
  intros Hs Hf. split; [|constructor]. split; cbn; [done|constructor; [apply table_ok_empty|constructor]| | |].
  - intros [|i] t t' _ H; done.
  - intros id data Hid Hd. rewrite Hs in Hd by done. done.
  - intros key fp data Hd. by rewrite Hf in Hd.
Qed.

Lemma step_inv s e y : (forall m, idempotency_ s = Some m -> ManagerFrame peek m /\ ManagerResults find m) -> sys_inv y -> sys_inv (step s e y).
Proof using jl laws ff fs.
  intros Hm [Hi Ht]. destruct e as [q|i ch|key]; cbn.
  - split; [done|]. cbn. apply Forall_app. split; [done|]. constructor; [by apply safe_serve|constructor].
  - destruct (threads y !! i) as [[q [a|X o k]]|] eqn:Ei; [by split| |by split].
    pose proof (Forall_lookup_1 _ _ _ _ Ht Ei) as Hs. cbn in Hs. specialize (Hs ch (shared y) Hi (reflexivity _)).
    destruct (exec ch o (shared y)) as [x st]. destruct Hs as (H1 & H2 & H3). split; [done|]. cbn.
    apply Forall_insert; [|done]. eapply Forall_impl; [exact Ht|]. intros [q' p'] Hp. cbn in *. by eapply safe_mono.
  - split; [|done]. destruct Hi as [H1 H2 H3 H4 H5]. split; cbn; try done; [by apply keeps_expire|].
    intros k fp data Hd. by eapply H5, find_expire.
Qed.

Lemma steps_inv s es y : (forall m, idempotency_ s = Some m -> ManagerFrame peek m /\ ManagerResults find m) -> sys_inv y -> sys_inv (steps s es y).
Proof using jl laws ff fs.
  intros Hm. revert y. induction es as [|e es IH]; intros y Hy; [done|]. apply IH. by apply step_inv.
Qed.

(** C22: In every interleaving of any requests, with any faults of the database,
    the cache, the locks and the idempotency manager, and with expiring cache
    entries, starting from an empty table, cache and manager: rows stay valid
    and keyed, addresses unique, a row changes only to its next version, and
    every successful answer is true of some moment.  A creation answers with
    the row it inserted with the validated fields, or, when it has an
    idempotency key, with the stored result of a creation that inserted its
    row; an update replaced exactly the given version with the validated
    fields, and answers with a state that the user had; a deletion removed
    exactly the given version; a read answers with a state that the user had
    (text after its trip through JSON when it comes from the cache); a page has
    the requested bounds and is the page of that number of some state of the
    table, and its total is the number of rows of some state. *)
Theorem user_interleavings s s0 es :
  (forall m, idempotency_ s = Some m -> ManagerFrame peek m /\ ManagerResults find m) ->
  (forall id, uuid_Parse id = Ok tt -> peek s0 (cache_key id) = None) -> (forall key, find s0 key = None) ->
  let y := steps s es (initial s0) in
  Forall table_ok (past (shared y)) /\ linked (past (shared y)) /\ last (past (shared y)) = Some (rows (shared y)) /\
  forall i q a, threads y !! i = Some (q, Ret a) -> answer_ok q (past (shared y)) a.
Proof using jl laws ff fs.
  intros Hm Hs Hf y. assert (sys_inv y) as [[H1 H2 H3 _ _] Ht] by (by apply steps_inv, initial_inv). split_and!; [done..|].
  intros i q a Hi. apply (Forall_lookup_1 _ _ _ _ Ht Hi). done.
Qed.
End system.

(** ** A request alone *)

(** No fault. *)
Definition quiet (ch : choice) : Prop :=
  ch_begin ch = None /\ ch_statement ch = None /\ ch_end ch = None /\ ch_network ch = None.

Section alone.
Context {libs : Libs} {rd : Redis} {cx : Contexts} {ul : UserLibs} {kv : RedisKV} {jt : JSONText} {tx : TimeText}
  {jl : JSONTextLaws} {peek : Store -> string -> option bytes} {laws : UserLaws peek}.
Context (env : nat -> choice) (Henv : forall n, quiet (env n)).

(** The program ends with [a] and [st'], whatever the clock says. *)
Definition yields {A} (p : prog A) (st : State) (a : A) (st' : State) : Prop := forall n, run env n p st = (a, st').

Lemma prog_run_bind {A B} (p : prog A) (f : A -> prog B) n st :
  exists m, run env n (p ≫= f) st = let '(a, st') := run env n p st in run env m (f a) st'.
Proof using.
  revert n st. induction p as [a|X o k IH]; intros n st; cbn; [by exists n|]. destruct (exec (env n) o st) as [x st']. apply IH.
Qed.

Lemma run_perform {X B} (o : op X) (f : X -> prog B) n st :
  run env n (perform o ≫= f) st = let '(x, st') := exec (env n) o st in run env (S n) (f x) st'.
Proof using. done. Qed.

Lemma yields_bind {A B} (p : prog A) (f : A -> prog B) st a st1 b st2 :
  yields p st a st1 -> yields (f a) st1 b st2 -> yields (p ≫= f) st b st2.
Proof using. intros H1 H2 n. destruct (prog_run_bind p f n st) as [m ->]. by rewrite H1, H2. Qed.

Lemma yields_ret {A} (a : A) st : yields (mret a) st a st.
Proof using. by intros n. Qed.
Lemma yields_store {A} (f : Store -> Result A * Store) st :
  yields (perform (OnStore f)) st (f (store st)).1 (set_store (f (store st)).2 st).
Proof using Henv. intros n. destruct (Henv n) as (_ & _ & _ & H). cbn. rewrite H. by destruct (f (store st)). Qed.
Lemma yields_warn m st : yields (perform (Warn m)) st tt (mkState (rows st) (past st) (store st) (warned st ++ [m])).
Proof using. by intros n. Qed.
Lemma yields_statement {A} (f : Rows -> Res sql_error (Rows * A)) st t' a :
  f (rows st) = Ok (t', a) -> yields (perform (Statement f)) st (Ok a) (set_rows t' st).
Proof using Henv. intros Hf n. destruct (Henv n) as (_ & H & _). cbn. by rewrite H, Hf. Qed.

Context (s : Service) (Havail : Available (transactor s) = true) (Hdb : repository_db s = true).

Lemma yields_Get id st r : keyed_by ID (rows st) -> rows st !! id = Some r ->
  yields (SQLRepository.Get true id) st (Ok r) st.
Proof using Henv.
  intros Hk Hr n. destruct (Henv n) as (_ & H & _). cbn. rewrite H.
  by rewrite (sql_get_key_intro ID _ _ _ id r Hk (fun _ E => E) Hr (Hk _ _ Hr)).
Qed.

(** Setting and deleting in the cache leave the table alone. *)
Lemma yields_cacheSet u st : exists st', yields (cacheSet s u) st tt st' /\ rows st' = rows st /\
  (redis s = true -> forall data, Marshal u = Ok data -> peek (store st') (cache_key (ID u)) = Some data) /\
  (redis s = true -> forall e, Marshal u = Err e -> store st' = store st).
Proof using Henv laws.
  unfold cacheSet. destruct (redis s); cbn [negb]; [|eexists; split; [apply yields_ret|done]].
  destruct (Marshal u) as [data|e]; [|eexists; split; [apply yields_warn|done]].
  pose proof (set_law (cache_key (ID u)) data (Config.UserOptions.CacheTTL (cfg s)) (store st)) as [H1 H2].
  eexists. split; [eapply yields_bind; [apply yields_store|]; rewrite H1; apply yields_ret|]. cbn. split_and!; [done| |done].
  intros _ d [= <-]. by rewrite H2, decide_True.
Qed.

Lemma yields_cacheDelete id st : exists st', yields (cacheDelete s id) st tt st' /\ rows st' = rows st /\
  (redis s = true -> peek (store st') (cache_key id) = None).
Proof using Henv laws.
  unfold cacheDelete. destruct (redis s); cbn [negb]; [|eexists; split; [apply yields_ret|done]].
  pose proof (del_law (cache_key id) (store st)) as [H1 H2].
  eexists. split; [eapply yields_bind; [apply yields_store|]; rewrite H1; apply yields_ret|]. cbn. split; [done|].
  intros _. by rewrite H2, decide_True.
Qed.

Lemma yields_cacheGet id st :
  yields (cacheGet s id) st (if redis s then match peek (store st) (cache_key id) with
    | Some data => match Unmarshal data with Ok u => Some u | Err _ => None end | None => None end else None)
    (if redis s then match peek (store st) (cache_key id) with
    | Some data => match Unmarshal data with Ok _ => set_store (store st) st
                   | Err _ => mkState (rows st) (past st) (store st) (warned st ++ ["decode user cache failed"]) end
    | None => set_store (store st) st end else st).
Proof using Henv laws.
  unfold cacheGet. destruct (redis s); cbn [negb]; [|apply yields_ret].
  eapply yields_bind; [apply yields_store|]. rewrite get_law. cbn [fst snd].
  destruct (peek (store st) (cache_key id)) as [data|]; [|apply yields_ret].
  destruct (Unmarshal data); [apply yields_ret|]. eapply yields_bind; [apply yields_warn|]. apply yields_ret.
Qed.

(** A read that misses the cache returns the row and caches it. *)
Lemma yields_miss id st r : uuid_Parse id = Ok tt -> table_ok (rows st) -> rows st !! id = Some r ->
  (redis s = true -> peek (store st) (cache_key id) = None) ->
  exists st', yields (Get s id) st (Ok r) st' /\ rows st' = rows st /\
    (redis s = true -> forall data, peek (store st') (cache_key id) = Some data -> Marshal r = Ok data).
Proof using Henv laws Havail Hdb.
  intros Hid Hok Hr Hmiss. destruct (yields_cacheSet r (if redis s then set_store (store st) st else st)) as (st' & Hy & Hrows & Hset & Hno).
  exists st'. split; [|split].
  - unfold Get. rewrite Hid, Havail. cbn [negb]. eapply yields_bind; [apply yields_cacheGet|].
    destruct (redis s) eqn:Er; [rewrite Hmiss by done|]; rewrite Hdb.
    all: eapply yields_bind; [apply yields_Get; [apply Hok|exact Hr]|].
    all: eapply yields_bind; [exact Hy|apply yields_ret].
  - rewrite Hrows. by destruct (redis s).
  - intros Er data Hd. destruct (Marshal r) as [d|e] eqn:Em.
    + rewrite <- (to_keyed _ Hok id r Hr), (Hset Er d eq_refl) in Hd. congruence.
    + rewrite (Hno Er e eq_refl), Er in Hd. cbn in Hd. rewrite Hmiss in Hd by done. done.
Qed.

(** A read after a read that filled the cache. *)
Lemma yields_hit id st r : uuid_Parse id = Ok tt -> table_ok (rows st) -> rows st !! id = Some r ->
  (redis s = true -> forall data, peek (store st) (cache_key id) = Some data -> Marshal r = Ok data) ->
  exists u st', yields (Get s id) st (Ok u) st' /\ rows st' = rows st /\ (u = r \/ u = through_json r).
Proof using Henv laws Havail Hdb jl.
  intros Hid Hok Hr Hc. destruct (redis s) eqn:Er.
  2:{ destruct (yields_miss id st r Hid Hok Hr) as (st' & Hy & Hrows & _); [by rewrite Er|]. exists r, st'. eauto. }
  destruct (peek (store st) (cache_key id)) as [data|] eqn:Ep.
  2:{ destruct (yields_miss id st r Hid Hok Hr) as (st' & Hy & Hrows & _); [done|]. exists r, st'. eauto. }
  exists (through_json r), (set_store (store st) st). split_and!; [|done|by right].
  unfold Get. rewrite Hid, Havail. cbn [negb]. eapply yields_bind; [apply yields_cacheGet|]. rewrite Er, Ep.
  pose proof (vu_version _ (to_valid_rows _ Hok id r Hr)).
  rewrite (user_round_trip r data) by (unfold int64_min; lia || by apply Hc). apply yields_ret.
Qed.

(** The statement of an update whose conditions hold. *)
Lemma update_hits u r t : table_ok t -> t !! ID u = Some r -> Version r = Version u -> Version u < int64_max ->
  (forall k r', t !! k = Some r' -> Email r' = Email u -> k = ID u) ->
  SQLRepository.update_user u t =
    Ok (<[ID u := mkUser (ID u) (Name u) (Email u) (Version u + 1) (CreatedAt r) (UpdatedAt u)]> t, 1).
Proof using.
  intros Hok Hr Hv Hmax He. destruct Hok as [Hk Hu Hval]. unfold SQLRepository.update_user.
  destruct (sql_update _ _ t) as [[t' n]|] eqn:Es.
  - destruct (sql_update_key ID _ _ _ _ _ _ _ Hk (fun r0 (H : ID r0 = ID u /\ Version r0 = Version u) => proj1 H) Es Hr) as (r' & Hr' & -> & ->);
      [by rewrite (Hk _ _ Hr)|]. unfold SQLRepository.set_user in Hr'. rewrite decide_True in Hr' by lia. rewrite (Hk _ _ Hr), Hv in Hr'.
    injection Hr' as <-. rewrite decide_True; [done|]. intros k a Ha k' b Hb Hab.
    apply lookup_insert_Some in Ha as [[<- <-]|[Hne Ha]]; apply lookup_insert_Some in Hb as [[<- <-]|[Hne' Hb]].
    + done.
    + symmetry. eapply He; [exact Hb|]. done.
    + eapply He; [exact Ha|]. done.
    + exact (Hu k a Ha k' b Hb Hab).
  - exfalso. unfold sql_update in Es. case_decide as Hall; [done|]. apply Hall. intros k a Ha. unfold update_row.
    case_decide as Hp; [|done]. destruct Hp as [_ Hp]. unfold SQLRepository.set_user. rewrite decide_True by lia. done.
Qed.

(** A valid update of the current version, alone and without faults,
    succeeds, stores the next version with the validated fields and keeps the
    creation time; a read that follows answers with that row, directly or as
    the cache stores it in JSON. *)
Theorem update_then_get id name email n e version st r k :
  uuid_Parse id = Ok tt -> validate name email = Ok (n, e) -> 1 <= version < int64_max ->
  table_ok (rows st) -> rows st !! id = Some r -> Version r = version ->
  (forall k' r', rows st !! k' = Some r' -> Email r' = e -> k' = id) ->
  let u := mkUser id n e (version + 1) (CreatedAt r) (ch_time (env k)) in
  exists st', run env k (Update s id name email version) st = (Ok u, st') /\ rows st' = <[id := u]> (rows st) /\
    exists u' st'', yields (Get s id) st' (Ok u') st'' /\ rows st'' = rows st' /\ (u' = u \/ u' = through_json u).
Proof using Henv laws Havail Hdb jl.
  intros Hid Hval Hver Hok Hr Hv He u. set (q := mkUser id n e version zero_time (ch_time (env k))).
  assert (SQLRepository.update_user q (rows st) = Ok (<[id := u]> (rows st), 1)) as Hupd
    by (apply (update_hits q r); cbn; done || lia).
  destruct (update_ok q _ _ _ Hok (validate_Ok _ _ _ _ Hval) Hupd) as (Hok' & _ & _).
  destruct (yields_cacheDelete id (set_rows (<[id := u]> (rows st)) st)) as (st1 & Hy1 & Hr1 & Hd1). cbn in Hr1.
  destruct (yields_miss id st1 u Hid) as (st2 & Hy2 & Hr2 & Hc2); [by rewrite Hr1|by rewrite Hr1, lookup_insert_eq|done|].
  exists st2. split; [|split; [by rewrite Hr2, Hr1|]].
  - unfold Update. rewrite Hid, Havail, Hval. cbn [negb]. rewrite decide_False by lia. cbn [mbind prog_bind perform].
    cbn [run exec]. eapply yields_bind with (st1 := set_rows (<[id := u]> (rows st)) st) (a := Ok tt).
    + unfold SQLRepository.Update. rewrite Hdb. cbn [negb]. eapply yields_bind; [by apply yields_statement|]. apply yields_ret.
    + eapply yields_bind; [exact Hy1|exact Hy2].
  - destruct (yields_hit id st2 u Hid) as (u' & st3 & Hy3 & Hr3 & Hu'); [by rewrite Hr2, Hr1|by rewrite Hr2, Hr1, lookup_insert_eq|done|].
    exists u', st3. done.
Qed.
End alone.

(** ** Replays *)

Section replay.
Context {libs : Libs} {rd : Redis} {cx : Contexts} {ul : UserLibs} {kv : RedisKV} {jt : JSONText} {tx : TimeText}
  {jl : JSONTextLaws} {peek : Store -> string -> option bytes} {laws : UserLaws peek}
  {m : Idempotency.Manager} {find : Store -> string -> option Idempotency.entry}
  {ml : Idempotency.ManagerLaws m find} {ff : FindFrame find}.
Context (env : nat -> choice) (Henv : forall n, quiet (env n)) (key : string).

(** Every result of [p] satisfies [P], and no call to Redis of [p] touches the
    entry of [key]. *)
Fixpoint frames {A} (P : A -> Prop) (p : prog A) : Prop :=
  match p with
  | Ret a => P a
  | Do o k =>
      match o with OnStore f => forall st, find (f st).2 key = find st key | _ => True end /\ forall x, frames P (k x)
  end.

Lemma frames_bind {A B} (P : A -> Prop) (Q : B -> Prop) (p : prog A) (f : A -> prog B) :
  frames P p -> (forall a, P a -> frames Q (f a)) -> frames Q (p ≫= f).
Proof using. induction p as [a|X o k IH]; cbn; [auto|]. intros [H1 H2] Hf. split; [done|]. intros x. by apply IH. Qed.

Lemma frames_run {A} (P : A -> Prop) (p : prog A) n st a st' :
  frames P p -> run env n p st = (a, st') -> P a /\ find (store st') key = find (store st) key.
Proof using.
  revert n st. induction p as [b|X o k IH]; intros n st; cbn; [by intros H [= <- <-]|]. intros [H1 H2].
  destruct (exec (env n) o st) as [x st1] eqn:Ex. intros Hr. destruct (IH x _ _ (H2 x) Hr) as [HP ->]. split; [done|].
  destruct o as [| |? ?|? ?|? ?|? f|?]; cbn in Ex; unfold exec_tx in Ex; try (repeat case_match; simplify_eq/=; done).
  destruct (ch_network (env n)) as [[e done]|].
  - destruct done; injection Ex as <- <-; [apply H1|reflexivity].
  - specialize (H1 (store st)). destruct (f (store st)) as [r s']. by injection Ex as <- <-.
Qed.

Definition fresh (name email : string) (r : Result User) : Prop :=
  match r with Ok u => Version u = 1 | Err _ => True end.

Lemma frames_cacheSet s u : frames (fun _ => True) (cacheSet s u).
Proof using ff.
  unfold cacheSet. destruct (redis s); cbn; [|done]. destruct (Marshal u); cbn; [|done]. split; [intros st; apply find_set|].
  by intros [].
Qed.

Lemma frames_createOnce s ctx name email : frames (fresh name email) (createOnce s ctx name email).
Proof using ff.
  assert (frames (fresh name email) (insert_once s name email)) as Hi.
  { cbn. split; [done|]. intros now. split; [done|]. intros id. split; [done|]. intros [[]|e]; [|done].
    eapply frames_bind; [apply frames_cacheSet|done]. }
  unfold createOnce. destruct (Available (transactor s)); cbn [negb]; [|done]. destruct (locker s); cbn [negb]; [|exact Hi].
  eapply (frames_bind (fun _ => True)); [split; [intros st; apply find_lock|done]|]. intros [lock|e] _; [|done].
  eapply frames_bind; [exact Hi|]. intros r Hr.
  eapply (frames_bind (fun _ => True)); [split; [intros st; apply find_unlock|done]|]. intros [x|e] _; by split || done.
Qed.

(** C26: A creation repeated with its idempotency key and the same fields answers
    with the created user, as JSON stores it, and inserts nothing. *)
Theorem create_once s ctx ctx' name email name' email' n e k st u st1 :
  idempotency_ s = Some m -> Idempotency.Enabled m = true ->
  idempotency.FromContext ctx = Some key -> idempotency.FromContext ctx' = Some key ->
  validate name email = Ok (n, e) -> validate name' email' = Ok (n, e) ->
  (forall c fp x, is_ok (Idempotency.Begin m c key fp x).1 = true) ->
  (forall c o fp j x, find x key = Some (Idempotency.Processing fp o) -> (Idempotency.Complete m c key o j x).1 = Ok tt) ->
  find (store st) key = None -> is_ok (Marshal u) = true ->
  run env k (Create s ctx name email) st = (Ok u, st1) ->
  exists st2, yields env (Create s ctx' name' email') st1 (Ok (through_json u)) st2 /\ rows st2 = rows st1 /\ past st2 = past st1.
Proof using Henv jl laws ml ff.
  intros Hs Hen Hk Hk' Hv Hv' Hbegin Hcomplete Hfree Hm Hrun. unfold Create in Hrun. rewrite Hv, Hk, Hs, Hen in Hrun. cbn [negb] in Hrun.
  set (fp := fingerprint n e) in *.
  assert (exists st0 owner k', find (store st0) key = Some (Idempotency.Processing fp owner) /\
    run env k' (r ← createOnce s ctx n e; finish m ctx key owner r;; mret r) st0 = (Ok u, st1)) as (st0 & owner & k' & Hproc & Hrun').
  { rewrite run_perform in Hrun. cbn [exec] in Hrun. destruct (Henv k) as (_ & _ & _ & Hnet). rewrite Hnet in Hrun.
    specialize (Hbegin ctx fp (store st)). destruct (Idempotency.Begin m ctx key fp (store st)) as [[d|er] x] eqn:Eb; [|done].
    destruct (Idempotency.begin_free _ _ _ _ _ _ Hfree Eb) as (owner & -> & Hf). 
    eexists _, owner, (S k). split; [|exact Hrun]. exact Hf. }
  clear Hrun. destruct (prog_run_bind env (createOnce s ctx n e) (fun r => finish m ctx key owner r;; mret r) k' st0) as [k2 E].
  rewrite E in Hrun'. clear E. destruct (run env k' (createOnce s ctx n e) st0) as [r st3] eqn:Ec.
  destruct (frames_run _ _ _ _ _ _ (frames_createOnce s ctx n e) Ec) as [Hfresh Hfind]. rewrite Hproc in Hfind.
  destruct r as [u0|er].
  2:{ destruct (prog_run_bind env (finish m ctx key owner (Err er)) (fun _ => mret (Err er : Result User)) k2 st3) as [k3 E]. rewrite E in Hrun'.
      destruct (run env k2 _ st3). done. }
  assert (u0 = u /\ find (store st1) key = Some (Idempotency.Completed fp (json_print (to_json u0)))) as [-> Hdone].
  { cbn in Hrun'. destruct (Henv k2) as (_ & _ & _ & Hnet). rewrite Hnet in Hrun'.
    pose proof (Hcomplete (WithTimeout (WithoutCancel ctx) (2 * Second)) owner fp (to_json u0) (store st3) Hfind) as Hc.
    destruct (Idempotency.Complete m _ key owner (to_json u0) (store st3)) as [x s'] eqn:Ecm. cbn in Hc. subst x. cbn in Hrun'.
    injection Hrun' as <- <-. split; [done|]. by eapply Idempotency.complete_stores. }
  unfold Create. specialize (Hbegin ctx' fp (store st1)).
  destruct (Idempotency.Begin m ctx' key fp (store st1)) as [[d|er] x] eqn:Eb; [|done].
  destruct (Idempotency.begin_taken _ _ _ _ _ _ _ Hdone Eb) as [_ ->]. cbn in Hbegin.
  exists (set_store x st1). split; [|done]. rewrite Hv', Hk', Hs, Hen. cbn [negb].
  eapply yields_bind; [by apply yields_store|]. fold fp. rewrite Eb. cbn [fst snd]. rewrite decide_True by done. cbn.
  destruct (Marshal u) as [data|er] eqn:Em; [|done].
  assert (data = json_print (to_json u)) as -> by (unfold Marshal in Em; case_match; by simplify_eq).
  rewrite (user_round_trip u _) with (2 := Em) by (rewrite Hfresh; unfold int64_min, int64_max; lia). apply yields_ret.
Qed.
End replay.

(** ** A concrete Redis *)

Lemma to_valid_ascii l : Forall (fun a => code a < 0x80) l -> to_valid (string_of l) = string_of l.
Proof.
  intros H. unfold to_valid. rewrite bytes_of_string_of. f_equal. induction H as [|a l Ha _ IH]; [done|].
  rewrite runes_1 by done. rewrite fmap_cons. change (mjoin (?x :: ?y)) with (x ++ mjoin y). rewrite IH.
  unfold encode_rune. pose proof (code_range a).
  replace (code a <? 0) with false by lia. replace (0x10FFFF <? code a) with false by lia.
  replace (0xD800 <=? code a) with false by lia. replace (code a <? 0x80) with true by lia. cbn. by rewrite chr_code.
Qed.

Module ConcreteUser.
Import Concrete ConcreteWeb.

(** Strings and locks, and the entries of the manager. *)
Definition redis : Redis := (gmap string bytes * gmap string Idempotency.entry)%type.
Definition strings (s : gmap string bytes * gmap string Idempotency.entry) : gmap string bytes := s.1.
Definition peek : @Store redis -> string -> option bytes := fun (s : gmap string bytes * gmap string Idempotency.entry) k => s.1 !! k.
Definition find : @Store redis -> string -> option Idempotency.entry :=
  fun (s : gmap string bytes * gmap string Idempotency.entry) k => s.2 !! k.

Definition kv : @RedisKV (@wp_platform libs) redis := {|
  redis_Get := fun k (s : @Store redis) => (Ok (peek s k), s);
  redis_Set := fun k d _ (s : gmap string bytes * gmap string Idempotency.entry) => (Ok tt, (<[k := d]> s.1, s.2));
  redis_Del := fun k (s : gmap string bytes * gmap string Idempotency.entry) => (Ok tt, (delete k s.1, s.2));
  redis_Expire := fun k (s : gmap string bytes * gmap string Idempotency.entry) => (delete k s.1, s.2);
  locker_Lock := fun _ k _ _ (s : gmap string bytes * gmap string Idempotency.entry) =>
    match s.1 !! k with
    | Some _ => (Err (ErrorsNew "lock is held"), s)
    | None => (Ok "token", (<[k := bytes_of "token"]> s.1, s.2)) end;
  lock_Unlock := fun _ k _ (s : gmap string bytes * gmap string Idempotency.entry) => (Ok tt, (delete k s.1, s.2)) |}.

Definition manager : @Idempotency.Manager (@wp_platform libs) redis := {|
  Idempotency.Enabled := true;
  Idempotency.Begin := fun c k f (s : gmap string bytes * gmap string Idempotency.entry) =>
    let '(r, e) := Idempotency.Begin ConcreteWeb.manager c k f s.2 in (r, (s.1, e));
  Idempotency.Complete := fun c k o j (s : gmap string bytes * gmap string Idempotency.entry) =>
    let '(r, e) := Idempotency.Complete ConcreteWeb.manager c k o j s.2 in (r, (s.1, e));
  Idempotency.Fail := fun c k o x (s : gmap string bytes * gmap string Idempotency.entry) =>
    let '(r, e) := Idempotency.Fail ConcreteWeb.manager c k o x s.2 in (r, (s.1, e)) |}.

Definition user_libs : UserLibs := {|
  uuid_Parse := fun id => if decide (go_len id = 36) then Ok tt else Err (ErrorsNew "invalid UUID length");
  mail_ParseAddress := fun s => if Contains s "@" then Ok s else Err (ErrorsNew "mail: missing '@'");
  time_encodes := fun t => bool_decide (0 <= t <= int64_max);
  time_Parse := fun s => match ParseInt64 s with Some t => Ok t | None => Err (ErrorsNew "parsing time") end |}.
Definition time : TimeText := format_int.

#[global] Instance user_laws : @UserLaws libs redis user_libs kv time peek.
Proof.
  split; unfold peek.
  - done.
  - intros k d ttl s. split; [done|]. intros k'. cbn. case_decide as H; [subst; apply lookup_insert_eq|by apply lookup_insert_ne].
  - intros k s. split; [done|]. intros k'. cbn. case_decide as H; [subst; apply lookup_delete_eq|by apply lookup_delete_ne].
  - intros k s k'. cbn. case_decide as H; [subst; apply lookup_delete_eq|by apply lookup_delete_ne].
  - intros c k t d s k' H. cbn. destruct (s.1 !! k); [done|]. cbn. by apply lookup_insert_ne.
  - intros c k o s k' H. cbn. by apply lookup_delete_ne.
  - intros id u. cbn. case_decide; [lia|done].
  - intros t. cbn. rewrite bool_decide_eq_true. intros Ht. unfold time_text, time.
    assert (to_valid (format_int t) = format_int t) as ->; [|by rewrite format_int_parse by (unfold int64_min; lia)].
    unfold format_int. replace (t <? 0) with false by lia. apply to_valid_ascii.
    pose proof (itoa_digits t ltac:(lia)) as Hd. apply Forall_forall. intros a Ha. rewrite forallb_forall in Hd.
    apply list_elem_of_In in Ha. specialize (Hd a Ha). unfold is_digit in Hd. lia.
Qed.

#[global] Instance manager_frame : @ManagerFrame libs redis peek manager.
Proof.
  split; intros; unfold peek; cbn; repeat (case_match; cbn; try done).
Qed.
#[global] Instance find_shrinks : @FindShrinks libs redis kv find.
Proof. by split. Qed.
#[global] Instance manager_results : @ManagerResults libs redis json_text find manager.
Proof.
  split; intros *; unfold find; cbn.
  - destruct (s.2 !! k) eqn:E; cbn; [done|]. destruct (decide (key = k)) as [->|]; [by rewrite lookup_insert_eq|].
    by rewrite lookup_insert_ne.
  - destruct (s.2 !! k) as [[]|] eqn:E; cbn; [..|done]; case_decide; naive_solver.
  - destruct (s.2 !! k) as [[]|] eqn:E; cbn; auto. case_decide; cbn; auto.
    destruct (decide (key = k)) as [->|]; [|rewrite lookup_insert_ne by done; auto].
    rewrite lookup_insert_eq. intros [= _ <-]. auto.
  - destruct (s.2 !! k) as [[]|] eqn:E; cbn; auto. case_decide; cbn; auto.
    destruct (decide (key = k)) as [->|]; [by rewrite lookup_insert_eq|by rewrite lookup_insert_ne by done].
Qed.
#[global] Instance find_frame : @FindFrame libs redis kv find.
Proof. split; intros; unfold find; cbn; try done. by case_match. Qed.
#[global] Instance manager_laws : @Idempotency.ManagerLaws (@wp_platform libs) redis json_text manager find.
Proof.
  pose proof ConcreteWeb.manager_laws as [L1 L2 L3 L4].
  split; unfold find; cbn [manager Idempotency.Begin Idempotency.Complete Idempotency.Fail]; intros c k.
  - intros f s d s' Hf. destruct (Idempotency.Begin ConcreteWeb.manager c k f s.2) as [r e] eqn:E. intros [= -> <-].
    exact (L1 _ _ _ _ _ _ Hf E).
  - intros f s e0 d s' Hf. destruct (Idempotency.Begin ConcreteWeb.manager c k f s.2) as [r e] eqn:E. intros [= -> <-].
    exact (L2 _ _ _ _ _ _ _ Hf E).
  - intros o j s s' f Hf. destruct (Idempotency.Complete ConcreteWeb.manager c k o j s.2) as [r e] eqn:E. intros [= -> <-].
    exact (L3 _ _ _ _ _ _ _ Hf E).
  - intros o x s s' f Hf. destruct (Idempotency.Fail ConcreteWeb.manager c k o x s.2) as [r e] eqn:E. intros [= -> <-].
    exact (L4 _ _ _ _ _ _ _ Hf E).
Qed.

(** A service with cache, lock and manager. *)
#[global] Existing Instances contexts json_text redis kv user_libs time.
Definition options : Config.UserOptions.t := Config.UserOptions.mk Minute Second Second.
Definition service (lock : bool) : Service := mkService true (mkTransactor true) true lock options (Some manager).
Definition empty : @Store redis := (∅, ∅).
Definition id0 : string := "00000000-0000-4000-8000-000000000001".
Definition at_ (t : Z) : choice := mkChoice t id0 0 None None None None.
Definition ann (version : Z) (name : string) (t : Z) : User := mkUser id0 name "ann@example.com" version 1 t.
Definition ctx_key : @Ctx (@wp_platform libs) := idempotency.WithContext (background : @Ctx (@wp_platform libs)) "key-1".
End ConcreteUser.

(** ** Witnesses and races *)
Section witnesses.
Import Concrete ConcreteWeb ConcreteUser.

(** The user is created, the cached copy expires; a read misses the cache and
    loads version 1; an update runs; then the read writes its copy. *)
Definition setup : list event :=
  [Arrive (RCreate (background : @Ctx (@wp_platform libs)) "Ann" "ann@example.com")] ++ replicate 4 (Advance 0 (at_ 1)) ++
  [Expire (cache_key id0); Arrive (RGet id0); Advance 1 (at_ 2); Advance 1 (at_ 2);
   Arrive (RUpdate id0 "Anne" "ann@example.com" 1)].
Definition late_write : list event :=
  setup ++ replicate 6 (Advance 2 (at_ 3)) ++ [Advance 1 (at_ 4); Arrive (RGet id0); Advance 3 (at_ 5)].
Definition early_write : list event :=
  setup ++ replicate 3 (Advance 2 (at_ 3)) ++ [Advance 1 (at_ 4); Advance 2 (at_ 5)].
Definition answer_of (es : list event) (i : nat) : option Answer :=
  match threads (steps (service false) es (initial empty)) !! i with Some (_, Ret a) => Some a | _ => None end.

(** After an update has returned version 2, a later read is answered with
    version 1 from the cache. *)
Lemma read_after_update_stale :
  answer_of late_write 2 = Some (AUser (Ok (ann 2 "Anne" 3))) /\
  rows (shared (steps (service false) late_write (initial empty))) !! id0 = Some (ann 2 "Anne" 3) /\
  answer_of late_write 3 = Some (AUser (Ok (ann 1 "Ann" 1))).
Proof. split_and!; vm_compute; reflexivity. Qed.

(** The update itself answers with the version it has replaced. *)
Lemma update_answers_stale :
  answer_of early_write 2 = Some (AUser (Ok (ann 1 "Ann" 1))) /\
  rows (shared (steps (service false) early_write (initial empty))) !! id0 = Some (ann 2 "Anne" 3).
Proof. split; vm_compute; reflexivity. Qed.

Lemma user_interleavings_witness :
  let y := steps (service false) late_write (initial empty) in
  map_Forall (fun _ u => 1 <= Version u) (rows (shared y)) /\ rows (shared y) <> ∅ /\
  answer_ok (RGet id0) (past (shared y)) (AUser (Ok (ann 1 "Ann" 1))).
Proof.
  destruct (user_interleavings (peek := peek) (find := find) (service false) empty late_write) as (Ht & _ & Hl & Ha).
  - intros m Hm. assert (m = manager) as -> by (injection Hm as <-; reflexivity). exact (conj manager_frame manager_results).
  - intros id _. reflexivity.
  - intros key. reflexivity.
  - assert (match threads (steps (service false) late_write (initial empty)) !! 3%nat with
      | Some (RGet id, Ret (AUser (Ok u))) => bool_decide (id = id0 /\ u = ann 1 "Ann" 1)
      | _ => false end = true) as He by (vm_compute; reflexivity).
    assert (bool_decide (rows (shared (steps (service false) late_write (initial empty))) = ∅) = false) as Hne by (vm_compute; reflexivity).
    split; [|split].
    + apply last_Some in Hl as [l Hl]. rewrite Hl in Ht. apply Forall_app in Ht as [_ Ht]. pose proof (Forall_inv Ht) as Ht'.
      intros k u Hu. exact (proj1 (vu_version _ (to_valid_rows _ Ht' k u Hu))).
    + apply bool_decide_eq_false in Hne. exact Hne.
    + destruct (threads (steps (service false) late_write (initial empty)) !! 3%nat) as [[q p]|] eqn:E3; [|discriminate He].
      destruct q as [| id | | | ]; try discriminate He. destruct p as [[[u|]| |]|]; try discriminate He.
      apply bool_decide_eq_true in He as [-> ->]. exact (Ha 3%nat _ _ E3).
Defined.

Definition one_user : State := mkState {[id0 := ann 1 "Ann" 1]} [{[id0 := ann 1 "Ann" 1]}] empty [].

Lemma in_one k r : rows one_user !! k = Some r -> id0 = k /\ ann 1 "Ann" 1 = r.
Proof. change (rows one_user) with ({[id0 := ann 1 "Ann" 1]} : gmap string User). apply lookup_singleton_Some. Qed.

Lemma update_then_get_witness : exists st' u' st'',
  run (fun n => at_ (Z.of_nat n)) 7 (Update (service true) id0 " Anne " "ANN@example.com" 1) one_user = (Ok (ann 2 "Anne" 7), st') /\
  yields (fun n => at_ (Z.of_nat n)) (Get (service true) id0) st' (Ok u') st'' /\ (u' = ann 2 "Anne" 7 \/ u' = through_json (ann 2 "Anne" 7)).
Proof.
  destruct (update_then_get (peek := peek) (fun n => at_ (Z.of_nat n)) (fun n => conj eq_refl (conj eq_refl (conj eq_refl eq_refl)))
    (service true) eq_refl eq_refl id0 " Anne " "ANN@example.com" "Anne" "ann@example.com" 1 one_user (ann 1 "Ann" 1) 7)
    as (st' & H1 & _ & u' & st'' & H2 & _ & H3).
  - vm_compute. reflexivity.
  - vm_compute. reflexivity.
  - unfold int64_max. lia.
  - split.
    + intros k r Hr. apply in_one in Hr as [<- <-]. reflexivity.
    + apply (bool_decide_eq_true_1 (SQLRepository.emails_unique (rows one_user))). vm_compute. reflexivity.
    + intros k r Hr. apply in_one in Hr as [<- <-]. split; [|vm_compute; split; discriminate]. split; [vm_compute; split; discriminate|].
      split; [vm_compute; reflexivity|vm_compute; discriminate].
  - apply lookup_singleton_eq.
  - reflexivity.
  - intros k r Hr _. apply in_one in Hr as [<- _]. reflexivity.
  - exists st', u', st''. split; [exact H1|]. split; [exact H2|exact H3].
Defined.

Lemma create_once_witness : exists st1 st2,
  run (fun n => at_ (Z.of_nat n)) 0 (Create (service true) ctx_key " Ann" "ann@example.com") (mkState ∅ [∅] empty []) =
    (Ok (mkUser id0 "Ann" "ann@example.com" 1 2 2), st1) /\
  yields (fun n => at_ (Z.of_nat n)) (Create (service true) ctx_key "Ann " "Ann@Example.com") st1
    (Ok (through_json (mkUser id0 "Ann" "ann@example.com" 1 2 2))) st2 /\ rows st2 = rows st1.
Proof.
  destruct (run (fun n => at_ (Z.of_nat n)) 0 (Create (service true) ctx_key " Ann" "ann@example.com") (mkState ∅ [∅] empty []))
    as [r st1] eqn:Er.
  assert (r = Ok (mkUser id0 "Ann" "ann@example.com" 1 2 2)) as Hr.
  { replace r with (run (fun n => at_ (Z.of_nat n)) 0 (Create (service true) ctx_key " Ann" "ann@example.com")
      (mkState ∅ [∅] empty [])).1 by (by rewrite Er). vm_compute. reflexivity. }
  rewrite Hr in Er.
  destruct (create_once (peek := peek) (m := manager) (find := find) (fun n => at_ (Z.of_nat n))
    (fun n => conj eq_refl (conj eq_refl (conj eq_refl eq_refl))) "key-1" (service true) ctx_key ctx_key " Ann" "ann@example.com" "Ann " "Ann@Example.com" "Ann" "ann@example.com"
    0 (mkState ∅ [∅] empty []) (mkUser id0 "Ann" "ann@example.com" 1 2 2) st1) as (st2 & H1 & H2 & _).
  - reflexivity.
  - reflexivity.
  - reflexivity.
  - reflexivity.
  - vm_compute. reflexivity.
  - vm_compute. reflexivity.
  - intros c fp x. cbn [manager Idempotency.Begin ConcreteWeb.manager]. destruct (x.2 !! "key-1"); reflexivity.
  - intros c o fp j x Hf. unfold find in Hf. cbn. rewrite Hf. by rewrite decide_True.
  - reflexivity.
  - vm_compute. reflexivity.
  - exact Er.
  - exists st1, st2. split; [rewrite Hr; reflexivity|]. split; [exact H1|exact H2].
Defined.
End witnesses.
