(* ===== verification/Migration.v ===== *)
(** * The migration runner

    [internal/migration/migration.go] and the command [cmd/migrate].  The
    query strings of [net/url] ([QueryEscape], [ParseQuery], [Values.Encode])
    are computed; the rest of a URL, files, the SQL driver and the migration
    library are the parameters [URLs] and [Migrate].  What is done to the
    database is a trace of actions; [fails] decides which of them fail. *)

From S2P Require Import Prelude.
From S2P Require Import GoStrings.
From S2P Require Import Encoding.
From S2P Require Import AppError.
From S2P Require Import PathMatch.
From S2P Require Import Configuration.
From Stdlib Require Import Ascii.
Open Scope Z_scope.

(** ** [net/url]: query strings *)
Module url.

Definition c_amp : ascii := chr 38.
Definition c_eq : ascii := chr 61.
Definition c_plus : ascii := chr 43.
Definition c_percent : ascii := chr 37.
Definition c_space : ascii := chr 32.
Definition c_semicolon : ascii := chr 59.

Definition upper_hex (d : Z) : ascii := if d <? 10 then chr (48 + d) else chr (55 + d).
Definition unhex (a : ascii) : option Z :=
  let c := code a in
  if (48 <=? c) && (c <=? 57) then Some (c - 48)
  else if (97 <=? c) && (c <=? 102) then Some (c - 87)
  else if (65 <=? c) && (c <=? 70) then Some (c - 55)
  else None.

Definition unreserved (a : ascii) : bool :=
  let c := code a in
  is_lower c || is_upper c || is_digit a || bool_decide (c ∈ [45; 95; 46; 126]).

Definition escape_byte (a : ascii) : bytes :=
  if unreserved a then [a]
  else if decide (a = c_space) then [c_plus]
  else [c_percent; upper_hex (code a / 16); upper_hex (code a mod 16)].
Definition escape (l : bytes) : bytes := mjoin (escape_byte <$> l).
Definition QueryEscape (s : string) : string := string_of (escape (bytes_of s)).

Fixpoint unescape (l : bytes) : option bytes :=
  match l with
  | [] => Some []
  | a :: l1 =>
      if decide (a = c_percent) then
        match l1 with
        | h :: d :: l2 =>
            x ← unhex h; y ← unhex d; rest ← unescape l2; Some (chr (16 * x + y) :: rest)
        | _ => None
        end
      else rest ← unescape l1; Some ((if decide (a = c_plus) then c_space else a) :: rest)
  end.

(** [url.Values]. *)
Abbreviation Values := (gmap string (list string)).
Definition Set_ (k v : string) (m : Values) : Values := <[k := [v]]> m.
Definition Del (k : string) (m : Values) : Values := delete k m.
Definition Add (k v : string) (m : Values) : Values := <[k := default [] (m !! k) ++ [v]]> m.

Definition cut_eq (l : bytes) : bytes * bytes :=
  match cut_bytes c_eq l with Some p => p | None => (l, []) end.

(** One setting of [parseQuery]; a malformed one is skipped. *)
Definition parse_setting (m : Values) (piece : bytes) : Values :=
  if decide (c_semicolon ∈ piece \/ piece = []) then m
  else
    let '(k, v) := cut_eq piece in
    match unescape k, unescape v with
    | Some k, Some v => Add (string_of k) (string_of v) m
    | _, _ => m
    end.
Definition ParseQuery (s : string) : Values := foldl parse_setting ∅ (split_bytes c_amp (bytes_of s)).

Definition pair_le (a b : string * list string) : Prop := String.leb a.1 b.1 = true.
#[global] Instance pair_le_dec a b : Decision (pair_le a b).
Proof. unfold pair_le. apply _. Defined.

Definition setting (k v : string) : bytes := escape (bytes_of k) ++ c_eq :: escape (bytes_of v).
Fixpoint join_amp (l : list bytes) : bytes :=
  match l with
  | [] => []
  | [a] => a
  | a :: l' => a ++ c_amp :: join_amp l'
  end.
(** [Values.Encode]: sorted by key. *)
Definition settings (m : Values) : list (string * string) :=
  mjoin ((fun '(k, vs) => (fun v => (k, v)) <$> vs) <$> merge_sort pair_le (map_to_list m)).
Definition Encode (m : Values) : string := string_of (join_amp ((fun '(k, v) => setting k v) <$> settings m)).
End url.

(** ** Parameters *)

(** The rest of [net/url] and [path/filepath]. *)
Class URLs := {
  URL : Type;
  url_Parse : string -> Result URL;
  url_String : URL -> string;
  Path : URL -> string;
  RawQuery : URL -> string;
  Scheme : URL -> string;
  User : URL -> string;
  Host : URL -> string;
  set_Path : string -> URL -> URL;
  set_RawQuery : string -> URL -> URL;
  filepath_Abs : string -> Result string;
  (** [(&url.URL{Scheme: "file", Path: filepath.ToSlash(path)}).String()]. *)
  file_URL : string -> string;
}.

Inductive action :=
| OpenDB (dataSource : string)
| BeginTx
| ExecSQL (statement : string) (args : list string)
| CommitTx
| RollbackTx
| CloseDB
| NewMigrator (source databaseURL : string)
| Steps (n : Z)
| Up
| Down
| CloseMigrator.
#[global] Instance action_eq_dec : EqDecision action.
Proof. solve_decision. Defined.

Class Migrate := {
  (** The error of an action after a trace. *)
  fails : list action -> action -> option error;
  (** The errors of [m.Close()]: source and database. *)
  close_fails : list action -> option error * option error;
  is_NoChange : error -> bool;
}.

(** ** [migration.go] *)
Module migration.

(** A computation extends the trace of actions. *)
Definition Mig (A : Type) : Type := list action -> A * list action.
#[global] Instance Mig_ret : MRet Mig := fun A a tr => (a, tr).
#[global] Instance Mig_bind : MBind Mig := fun A B k m tr => let '(a, tr') := m tr in k a tr'.

Section migration.
Context {us : URLs} {mg : Migrate} {up : UnicodePrint}.

Definition act (a : action) : Mig (option error) := fun tr => (fails tr a, tr ++ [a]).

Definition c_question : ascii := chr 63.

(** [strings.LastIndex(s, "/")], as the text up to and with the slash. *)
Fixpoint after_last_slash (l : bytes) : option bytes :=
  match l with
  | [] => None
  | a :: l' =>
      match after_last_slash l' with
      | Some head => Some (a :: head)
      | None => if decide (a = c_slash) then Some [a] else None
      end
  end.

Definition mysql_database (databaseURL databaseName : string) : Result string :=
  if decide (databaseName = "") then Ok databaseURL
  else
    let '(head, tail) := match cut_bytes c_question (bytes_of databaseURL) with
                         | Some (p, q) => (p, c_question :: q)
                         | None => (bytes_of databaseURL, [])
                         end in
    match after_last_slash head with
    | None => Err (ErrorsNew "mysql migration URL is missing database path")
    | Some prefix => Ok (string_of prefix +:+ databaseName +:+ string_of tail)
    end.

Definition withMigrationOptions (databaseURL databaseName table schema : string) : Result string :=
  if decide (databaseName = "" /\ table = "" /\ schema = "") then Ok databaseURL
  else if HasPrefix databaseURL "mysql://" then
    databaseURL ← mysql_database databaseURL databaseName;
    if decide (table = "") then Ok databaseURL
    else
      let separator := if Contains databaseURL "?" then "&" else "?" in
      Ok (databaseURL +:+ separator +:+ "x-migrations-table=" +:+ url.QueryEscape table)
  else
    match url_Parse databaseURL with
    | Err e => Err (Errorf "parse migration database URL" e)
    | Ok parsed =>
        let query := url.ParseQuery (RawQuery parsed) in
        let parsed := if decide (databaseName <> "") then set_Path ("/" +:+ databaseName) parsed else parsed in
        let query := if decide (table <> "") then url.Set_ "x-migrations-table" table query else query in
        let query := if decide (schema <> "") then url.Set_ "search_path" schema query else query in
        Ok (url_String (set_RawQuery (url.Encode query) parsed))
    end.

(** The regular expression is the one of the configuration. *)
Definition valid_schema (schema : string) : bool := Config.validMigrationTable schema.

(** [`SELECT pg_advisory_xact_lock(hashtext($1))`], and the creation. *)
Definition lock_statement : string := "SELECT pg_advisory_xact_lock(hashtext($1))".
Definition double_quote : string := string_of [chr 34].
Definition create_statement (schema : string) : string :=
  "CREATE SCHEMA IF NOT EXISTS " +:+ double_quote +:+ schema +:+ double_quote.

(** The transaction; the deferred [Rollback] and [Close] run in this order. *)
Definition create_schema (schema : string) : Mig (Result unit) :=
  b ← act BeginTx;
  match b with
  | Some e => act CloseDB;; mret (Err (Errorf "begin schema creation" e))
  | None =>
      r ← (l ← act (ExecSQL lock_statement ["platform-schema:" +:+ schema]);
           match l with
           | Some e => mret (Err (Errorf ("lock migration schema " +:+ Quote schema) e))
           | None =>
               c ← act (ExecSQL (create_statement schema) []);
               match c with
               | Some e => mret (Err (Errorf ("create migration schema " +:+ Quote schema) e))
               | None =>
                   m ← act CommitTx;
                   mret (match m with
                         | Some e => Err (Errorf ("commit migration schema " +:+ Quote schema) e)
                         | None => Ok tt
                         end)
               end
           end);
      act RollbackTx;; act CloseDB;; mret r
  end.

Definition ensureSchema (cfg : Config.Migration.t) (databaseURL : string) : Mig (Result unit) :=
  let schema := Config.Migration.Schema cfg in
  if decide (Config.Migration.CreateSchema cfg = false \/ schema = "" \/
             HasPrefix (Config.Migration.DatabaseURL cfg) "mysql://" = true) then mret (Ok tt)
  else if negb (valid_schema schema) then mret (Err (ErrorsNew "invalid migration schema"))
  else match url_Parse databaseURL with
  | Err e => mret (Err (Errorf "parse database URL for schema creation" e))
  | Ok parsed =>
      let query := url.Del "x-migrations-table" (url.ParseQuery (RawQuery parsed)) in
      o ← act (OpenDB (url_String (set_RawQuery (url.Encode query) parsed)));
      match o with
      | Some e => mret (Err (Errorf "open database to create schema" e))
      | None => create_schema schema
      end
  end.

(** [m.Close()] of the deferred function; [errors.Join] as a list. *)
Definition close_migrator (runErr : list error) : Mig (list error) := fun tr =>
  let '(sourceErr, databaseErr) := close_fails tr in
  (runErr ++ (match sourceErr with Some e => [Errorf "close migration source" e] | None => [] end)
          ++ (match databaseErr with Some e => [Errorf "close migration database" e] | None => [] end),
   tr ++ [CloseMigrator]).

(** No error is the empty list. *)
Definition Run (cfg : Config.Migration.t) (direction : string) (steps : Z) : Mig (list error) :=
  if decide (Config.Migration.DatabaseURL cfg = "") then mret [ErrorsNew "migration.database_url is required"]
  else match filepath_Abs (Config.Migration.Path cfg) with
  | Err e => mret [Errorf "resolve migration path" e]
  | Ok absPath =>
      match withMigrationOptions (Config.Migration.DatabaseURL cfg) (Config.Migration.DatabaseName cfg)
              (Config.Migration.Table cfg) (Config.Migration.Schema cfg) with
      | Err e => mret [e]
      | Ok databaseURL =>
          s ← ensureSchema cfg databaseURL;
          match s with
          | Err e => mret [e]
          | Ok _ =>
              n ← act (NewMigrator (file_URL absPath) databaseURL);
              match n with
              | Some e => mret [Errorf "create migrator" e]
              | None =>
                  err ← act (if decide (steps <> 0) then Steps steps
                             else if decide (direction = "down") then Down else Up);
                  close_migrator (match err with
                                  | Some e => if is_NoChange e then [] else [Errorf "run migration" e]
                                  | None => []
                                  end)
              end
          end
      end
  end.

(** [runStartupMigration] of [internal/app/app.go]; a failure is the prefix and
    the joined errors it wraps. *)
Definition runStartupMigration (cfg : Config.t) : Mig (option (string * list error)) :=
  if negb (Config.Migration.AutoUp (Config.Migration cfg)) then mret None
  else
    r ← Run (Config.Migration cfg) "up" 0;
    mret (if decide (r = []) then None else Some ("startup database migration", r)).

(** [main] of [cmd/migrate]: the exit code. *)
Definition main (loaded : Result Config.t) (direction : string) (steps : Z) : Mig Z :=
  if decide (direction <> "up" /\ direction <> "down") then mret 2
  else match loaded with
  | Err _ => mret 1
  | Ok cfg => r ← Run (Config.Migration cfg) direction steps; mret (if decide (r = []) then 0 else 1)
  end.
End migration.
End migration.
