(* ===== verification/MigrationSpec.v ===== *)
(** * The migration runner: theorems

    Query strings round trip, so the options put into a database URL arrive at
    the migrator; what [Run] does to the database under every fault. *)

From S2P Require Import Prelude.
From S2P Require Import GoStrings.
From S2P Require Import Encoding.
From S2P Require Import AppError.
From S2P Require Import PathMatch.
From S2P Require Import Configuration.
From S2P Require Import ConfigSpec.
From S2P Require Import Migration.
From Stdlib Require Import Ascii.
Open Scope Z_scope.

(** ** Query strings *)
Section query.
Import url.

(** What [escape] produces. *)
Definition query_char (a : ascii) : Prop := unreserved a = true \/ a = c_plus \/ a = c_percent.

Lemma upper_hex_ok d : 0 <= d < 16 -> unreserved (upper_hex d) = true /\ unhex (upper_hex d) = Some d.
Proof.
  intros H. assert (forallb (fun n => unreserved (upper_hex (Z.of_nat n)) && bool_decide (unhex (upper_hex (Z.of_nat n)) = Some (Z.of_nat n)))
    (seq 0 16) = true) as Hall by (vm_compute; reflexivity).
  rewrite forallb_forall in Hall. specialize (Hall (Z.to_nat d)). rewrite Z2Nat.id in Hall by lia.
  rewrite andb_true_iff, bool_decide_eq_true in Hall. apply Hall, in_seq. lia.
Qed.

Lemma code_digits a : 0 <= code a / 16 < 16 /\ 0 <= code a mod 16 < 16 /\ 16 * (code a / 16) + code a mod 16 = code a.
Proof. pose proof (code_range a). Z.to_euclidean_division_equations. lia. Qed.

Lemma escape_cons a l : escape (a :: l) = escape_byte a ++ escape l.
Proof. done. Qed.

Lemma escape_chars l : Forall query_char (escape l).
Proof.
  induction l as [|a l IH]; [constructor|]. rewrite escape_cons. apply Forall_app. split; [|done]. unfold escape_byte.
  destruct (unreserved a) eqn:E; [by repeat constructor|]. case_decide; [by repeat constructor; right; left|].
  destruct (code_digits a) as ([H1 _]%upper_hex_ok & [H2 _]%upper_hex_ok & _).
  apply Forall_cons. split; [by right; right|]. do 2 (apply Forall_cons; split; [by left|]). constructor.
Qed.

Lemma unreserved_not a : unreserved a = true -> a ∉ [c_plus; c_percent; c_amp; c_eq; c_semicolon; chr 63; chr 47; chr 34].
Proof. intros H Hin. repeat (apply elem_of_cons in Hin as [->|Hin]; [by vm_compute in H|]). by apply not_elem_of_nil in Hin. Qed.

Lemma query_char_not a : query_char a -> a ∉ [c_amp; c_eq; c_semicolon; chr 63; chr 47; chr 34].
Proof.
  intros [H%unreserved_not|[->| ->]] Hin; [apply H; do 2 right; done|..]; repeat (apply elem_of_cons in Hin as [E|Hin]; [by vm_compute in E|]);
    by apply not_elem_of_nil in Hin.
Qed.

Lemma unescape_escape l : unescape (escape l) = Some l.
Proof.
  induction l as [|a l IH]; [done|]. rewrite escape_cons. unfold escape_byte. destruct (unreserved a) eqn:E.
  - pose proof (unreserved_not a E) as Hn. cbn. rewrite decide_False by (intros ->; apply Hn; set_solver).
    rewrite IH. cbn. by rewrite decide_False by (intros ->; apply Hn; set_solver).
  - case_decide as Hs; [subst; cbn; by rewrite IH|]. destruct (code_digits a) as ([_ H1]%upper_hex_ok & [_ H2]%upper_hex_ok & Hc).
    cbn [app unescape]. rewrite decide_True by done. rewrite H1. cbn. rewrite H2. cbn. rewrite IH. cbn.
    by rewrite Hc, chr_code.
Qed.

Lemma setting_chars k v : (c_amp ∉ setting k v) /\ (c_semicolon ∉ setting k v) /\ setting k v <> [].
Proof.
  pose proof (escape_chars (bytes_of k)) as Hk. pose proof (escape_chars (bytes_of v)) as Hv. rewrite Forall_forall in Hk, Hv.
  unfold setting. split_and!.
  - intros [H|[H|H]%elem_of_cons]%elem_of_app; [apply Hk, query_char_not in H; apply H; set_solver|done|apply Hv, query_char_not in H; apply H; set_solver].
  - intros [H|[H|H]%elem_of_cons]%elem_of_app; [apply Hk, query_char_not in H; apply H; set_solver|done|apply Hv, query_char_not in H; apply H; set_solver].
  - by destruct (escape (bytes_of k)).
Qed.

Lemma parse_setting_of m k v : parse_setting m (setting k v) = Add k v m.
Proof.
  destruct (setting_chars k v) as (_ & H1 & H2). unfold parse_setting. rewrite decide_False by tauto.
  unfold cut_eq, setting. rewrite cut_bytes_app.
  - rewrite !unescape_escape. by rewrite !string_of_bytes_of.
  - intros H. pose proof (escape_chars (bytes_of k)) as Hk. rewrite Forall_forall in Hk. apply Hk, query_char_not in H. apply H. set_solver.
Qed.

Lemma split_join_amp ls : ls <> [] -> Forall (fun l => c_amp ∉ l) ls -> split_bytes c_amp (join_amp ls) = ls.
Proof.
  intros Hne H. induction H as [|a ls Ha Hls IH]; [done|]. destruct ls as [|b ls]; cbn [join_amp].
  - by apply split_bytes_none.
  - rewrite split_bytes_app by done. f_equal. by apply IH.
Qed.

Definition add_all (l : list (string * string)) (m : Values) : Values := foldl (fun m '(k, v) => Add k v m) m l.

Lemma parse_encoded m : ParseQuery (Encode m) = add_all (settings m) ∅.
Proof.
  unfold ParseQuery, Encode. rewrite bytes_of_string_of. generalize (settings m). intros l.
  destruct l as [|p l]; [done|]. rewrite split_join_amp.
  - unfold add_all. generalize (∅ : Values). generalize (p :: l). clear. intros l. induction l as [|[k v] l IH]; intros acc; [done|].
    cbn. rewrite parse_setting_of. apply IH.
  - done.
  - apply Forall_fmap, Forall_forall. intros [k v] _. cbn. apply setting_chars.
Qed.

Lemma add_values k vs acc : vs <> [] ->
  add_all ((fun v => (k, v)) <$> vs) acc = <[k := default [] (acc !! k) ++ vs]> acc.
Proof.
  unfold add_all. revert acc. induction vs as [|v vs IH]; intros acc Hne; [done|]. cbn. destruct vs as [|w vs]; [done|].
  rewrite IH by done. unfold Add. rewrite lookup_insert_eq, insert_insert_eq. cbn. by rewrite <- app_assoc.
Qed.

Lemma add_groups (l : list (string * list string)) acc :
  NoDup l.*1 -> Forall (fun p => p.2 <> []) l -> (forall k, k ∈ l.*1 -> acc !! k = None) ->
  add_all (mjoin ((fun '(k, vs) => (fun v => (k, v)) <$> vs) <$> l)) acc = list_to_map l ∪ acc.
Proof.
  revert acc. induction l as [|[k vs] l IH]; intros acc Hd Hne Hf; [by rewrite list_to_map_nil, map_empty_union|].
  rewrite fmap_cons in Hd. apply NoDup_cons in Hd as [Hk Hd]. apply Forall_cons in Hne as [Hvs Hne]. cbn in Hvs.
  rewrite fmap_cons. change (mjoin (?a :: ?b)) with (a ++ mjoin b). unfold add_all. rewrite foldl_app.
  fold (add_all ((fun v => (k, v)) <$> vs) acc). rewrite add_values by done. rewrite (Hf k) by (cbn; left). cbn [default app].
  fold (add_all (mjoin ((fun '(k0, vs0) => (fun v => (k0, v)) <$> vs0) <$> l)) (<[k := vs]> acc)). rewrite IH.
  - rewrite list_to_map_cons, <- insert_union_l. rewrite insert_union_r; [done|]. by apply not_elem_of_list_to_map_1.
  - done.
  - done.
  - intros k' Hk'. rewrite lookup_insert_ne by (intros ->; done). apply Hf. by right.
Qed.

(** [Values.Encode] followed by [ParseQuery] is the identity on values. *)
Lemma query_round_trip (m : Values) : map_Forall (fun _ vs => vs <> []) m -> ParseQuery (Encode m) = m.
Proof.
  intros Hm. rewrite parse_encoded. unfold settings. rewrite add_groups.
  - rewrite map_union_empty. rewrite <- (list_to_map_to_list m) at 2. apply list_to_map_proper.
    + rewrite merge_sort_Permutation. apply NoDup_fst_map_to_list.
    + apply merge_sort_Permutation.
  - rewrite merge_sort_Permutation. apply NoDup_fst_map_to_list.
  - rewrite merge_sort_Permutation. apply map_Forall_to_list in Hm. eapply Forall_impl; [exact Hm|]. by intros [].
  - intros k _. apply lookup_empty.
Qed.

Lemma parse_nonempty s : map_Forall (fun _ vs => vs <> []) (ParseQuery s).
Proof.
  unfold ParseQuery. generalize (split_bytes c_amp (bytes_of s)).
  assert (map_Forall (fun _ (vs : list string) => vs <> []) (∅ : Values)) as H0 by apply map_Forall_empty. revert H0.
  generalize (∅ : Values). intros m Hm l. revert m Hm. induction l as [|p l IH]; intros m Hm; [done|]. apply IH.
  unfold parse_setting. case_decide; [done|]. destruct (cut_eq p) as [k v]. destruct (unescape k); [|done]. destruct (unescape v); [|done].
  apply map_Forall_insert_2; [|done]. by destruct (default [] _).
Qed.
End query.

(** An encoded query. *)
Definition query_text (l : bytes) : Prop := Forall (fun a => query_char a \/ a = url.c_amp \/ a = url.c_eq) l.

Lemma join_amp_text ls : Forall query_text ls -> query_text (url.join_amp ls).
Proof.
  induction 1 as [|a ls Ha Hls IH]; [constructor|]. destruct ls as [|b ls]; [done|]. cbn [url.join_amp]. apply Forall_app.
  split; [done|]. constructor; [by right; left|done].
Qed.

Lemma encode_text m : query_text (bytes_of (url.Encode m)).
Proof.
  unfold url.Encode. rewrite bytes_of_string_of. apply join_amp_text, Forall_fmap, Forall_forall. intros [k v] _. cbn.
  unfold url.setting. apply Forall_app. split; [eapply Forall_impl; [apply escape_chars|by left]|].
  constructor; [by right; right|]. eapply Forall_impl; [apply escape_chars|by left].
Qed.

(** ** Options in a database URL *)

(** [URL.String] reassembles a URL with a scheme and a host so that parsing it
    gives the same parts; the path is the old one or an escaped name. *)
Class URLLaws (us : URLs) : Prop := {
  parse_of_string : forall d u p q, url_Parse d = Ok u -> Scheme u <> "" -> Host u <> "" ->
    p = Path u \/ (exists name, p = "/" +:+ name /\ Config.validMigrationTable name = true) ->
    query_text (bytes_of q) ->
    exists v, url_Parse (url_String (set_RawQuery q (set_Path p u))) = Ok v /\
      Scheme v = Scheme u /\ User v = User u /\ Host v = Host u /\ Path v = p /\ RawQuery v = q;
  set_Path_id : forall u, set_Path (Path u) u = u;
}.

Section options.
Context {us : URLs} {ul : URLLaws us}.

(** What the migrator is given: the same server and user, the database and
    the query of the URL with the two options set. *)
Definition with_option (k v : string) (m : url.Values) : url.Values :=
  if decide (v <> "") then <[k := [v]]> m else m.
Record options_of (u v : URL) (databaseName table schema : string) : Prop := {
  same_scheme : Scheme v = Scheme u;
  same_user : User v = User u;
  same_host : Host v = Host u;
  chosen_path : Path v = if decide (databaseName <> "") then "/" +:+ databaseName else Path u;
  chosen_query : url.ParseQuery (RawQuery v) =
    with_option "search_path" schema (with_option "x-migrations-table" table (url.ParseQuery (RawQuery u)));
}.

Lemma with_option_nonempty k v m :
  map_Forall (fun _ vs => vs <> []) m -> map_Forall (fun _ vs => vs <> []) (with_option k v m).
Proof. intros Hm. unfold with_option. case_decide; [|done]. by apply map_Forall_insert_2. Qed.

(** C25: The options arrive at the migrator: for a Postgres URL with scheme and
    host, the URL that [withMigrationOptions] returns parses, names the same
    user and server, the configured database (or the old path), and its query
    is the old one with the migrations table and the search path set. *)
Theorem postgres_options_round_trip databaseURL databaseName table schema u :
  HasPrefix databaseURL "mysql://" = false -> url_Parse databaseURL = Ok u -> Scheme u <> "" -> Host u <> "" ->
  databaseName = "" \/ Config.validMigrationTable databaseName = true ->
  exists s v, migration.withMigrationOptions databaseURL databaseName table schema = Ok s /\ url_Parse s = Ok v /\
    options_of u v databaseName table schema.
Proof.
  intros Hm Hu Hs Hh Hn. unfold migration.withMigrationOptions. case_decide as Hopt.
  { destruct Hopt as (-> & -> & ->). exists databaseURL, u. split_and!; [done..|]. by split. }
  rewrite Hm, Hu. cbv zeta. change (if decide (schema <> "") then url.Set_ ?k schema ?m else ?m) with (with_option k schema m).
  change (if decide (table <> "") then url.Set_ ?k table ?m else ?m) with (with_option k table m).
  set (query := with_option _ schema _). assert (map_Forall (fun _ vs => vs <> []) query) as Hq.
  { apply with_option_nonempty, with_option_nonempty, parse_nonempty. }
  set (p := if decide (databaseName <> "") then "/" +:+ databaseName else Path u).
  replace (if decide (databaseName <> "") then set_Path ("/" +:+ databaseName) u else u) with (set_Path p u).
  2: { unfold p. case_decide; [done|apply set_Path_id]. }
  destruct (parse_of_string databaseURL u p (url.Encode query) Hu Hs Hh) as (v & Hv & H1 & H2 & H3 & H4 & H5).
  - unfold p. case_decide as Hd; [|by left]. right. exists databaseName. split; [done|]. by destruct Hn.
  - apply encode_text.
  - eexists _, v. split_and!; [done|done|]. split; [done..|]. rewrite H5. by apply query_round_trip.
Qed.
End options.

(** ** MySQL URLs *)

Lemma after_last_slash_app pre old : c_slash ∉ old -> migration.after_last_slash (pre ++ c_slash :: old) = Some (pre ++ [c_slash]).
Proof.
  intros Ho. assert (migration.after_last_slash old = None) as Hnone.
  { induction old as [|a old IH]; [done|]. cbn. apply not_elem_of_cons in Ho as [Ha Ho]. rewrite IH by done. by rewrite decide_False. }
  induction pre as [|a pre IH]; cbn [app migration.after_last_slash]; [by rewrite Hnone, decide_True|]. by rewrite IH.
Qed.

Section mysql.
Context {us : URLs}.

(** In a MySQL URL the database is the text between the last slash and the
    query; it is replaced, the rest stays, and the table is appended to the
    query. *)
Theorem mysql_options (pre old tail : bytes) databaseName table :
  let text := pre ++ c_slash :: old ++ tail in
  has_prefix (bytes_of "mysql://") text = true -> databaseName <> "" -> table <> "" ->
  c_slash ∉ old -> migration.c_question ∉ pre ++ c_slash :: old -> tail = [] \/ (exists q, tail = migration.c_question :: q) ->
  let renamed := string_of (pre ++ [c_slash]) +:+ databaseName +:+ string_of tail in
  migration.withMigrationOptions (string_of text) databaseName table "" =
    Ok (renamed +:+ (if Contains renamed "?" then "&" else "?") +:+ "x-migrations-table=" +:+ url.QueryEscape table).
Proof.
  intros text Hm Hd Ht Ho Hq Htail renamed. unfold migration.withMigrationOptions. rewrite decide_False by tauto.
  unfold HasPrefix. rewrite bytes_of_string_of, Hm. unfold migration.mysql_database. rewrite decide_False, bytes_of_string_of by done.
  assert (text = (pre ++ c_slash :: old) ++ tail) as -> by (unfold text; by rewrite <- app_assoc).
  assert (match cut_bytes migration.c_question ((pre ++ c_slash :: old) ++ tail) with
          | Some (p, q) => (p, migration.c_question :: q) | None => ((pre ++ c_slash :: old) ++ tail, []) end
          = (pre ++ c_slash :: old, tail)) as ->.
  { destruct Htail as [->|[q ->]]; [|by rewrite cut_bytes_app]. rewrite app_nil_r. apply cut_bytes_absent in Hq. by rewrite Hq. }
  rewrite after_last_slash_app by done. cbn [mbind Res_bind]. by rewrite decide_False.
Qed.
End mysql.

(** ** What a run does to the database *)

(** Resources a run can hold, innermost first. *)
Inductive resource := HeldDB | HeldTx | HeldMigrator.
#[global] Instance resource_eq_dec : EqDecision resource.
Proof. solve_decision. Defined.

Section run.
Context {us : URLs} {mg : Migrate} {up : UnicodePrint}.
Implicit Types (tr : list action) (held : list resource).

(** Take [r] if the action did not fail; give back the innermost resource. *)
Definition acquire (failure : option error) (r : resource) held : option (list resource) :=
  Some (match failure with None => r :: held | Some _ => held end).
Definition release (r : resource) held : option (list resource) :=
  match held with
  | r' :: held' => if decide (r = r') then Some held' else None
  | [] => None
  end.

Definition track (past : list action) (a : action) held : option (list resource) :=
  match a with
  | OpenDB _ => acquire (fails past a) HeldDB held
  | BeginTx => acquire (fails past a) HeldTx held
  | NewMigrator _ _ => acquire (fails past a) HeldMigrator held
  | RollbackTx => release HeldTx held
  | CloseDB => release HeldDB held
  | CloseMigrator => release HeldMigrator held
  | ExecSQL _ _ | CommitTx => if decide (head held = Some HeldTx) then Some held else None
  | Steps _ | Up | Down => if decide (head held = Some HeldMigrator) then Some held else None
  end.

(** What is held after the actions [tr]; [None] when an action is used
    without its resource, or a resource is given back out of order. *)
Fixpoint held_after (past tr : list action) held : option (list resource) :=
  match tr with
  | [] => Some held
  | a :: tr' => held' ← track past a held; held_after (past ++ [a]) tr' held'
  end.

Lemma held_after_app past tr1 tr2 held :
  held_after past (tr1 ++ tr2) held = (held' ← held_after past tr1 held; held_after (past ++ tr1) tr2 held').
Proof.
  revert past held. induction tr1 as [|a tr1 IH]; intros past held; [by rewrite app_nil_r|]. cbn.
  destruct (track past a held); [|done]. cbn. rewrite IH. by rewrite <- app_assoc.
Qed.

(** The only statements of a run. *)
Definition schema_statement (schema : string) (a : action) : Prop :=
  match a with
  | ExecSQL s args => (s = migration.lock_statement /\ args = ["platform-schema:" +:+ schema]) \/
                      (s = migration.create_statement schema /\ args = [])
  | NewMigrator _ _ | Steps _ | Up | Down | CloseMigrator => False
  | _ => True
  end.

(** The transaction gives everything back, runs only the two statements, and
    succeeds only if its commit did. *)
Record schema_run (schema : string) (past tr : list action) (held : list resource) (r : Result unit) : Prop := {
  sr_held : held_after past tr (HeldDB :: held) = Some held;
  sr_only : Forall (schema_statement schema) tr;
  sr_done : is_ok r = true -> exists tr1 tr2, tr = tr1 ++ CommitTx :: tr2 /\ fails (past ++ tr1) CommitTx = None;
}.

Ltac trace_ends := eexists _, _; split; [rewrite <- ?app_assoc; reflexivity|].
Ltac held_computes := cbn; repeat match goal with H : fails _ _ = _ |- _ => rewrite H; cbn end; try done.

Lemma create_schema_run schema past held :
  exists tr r, migration.create_schema schema past = (r, past ++ tr) /\ schema_run schema past tr held r.
Proof.
  unfold migration.create_schema, mbind, migration.Mig_bind, mret, migration.Mig_ret, migration.act.
  destruct (fails past BeginTx) eqn:E1.
  { trace_ends. split; [held_computes|by repeat constructor|done]. }
  destruct (fails _ (ExecSQL migration.lock_statement _)) eqn:E2.
  { trace_ends. split; [held_computes|repeat constructor; by left|done]. }
  destruct (fails _ (ExecSQL (migration.create_statement schema) [])) eqn:E3.
  { trace_ends. split; [held_computes|repeat constructor; (by left) || (by right)|done]. }
  destruct (fails _ CommitTx) eqn:E4.
  { trace_ends. split; [held_computes|repeat constructor; (by left) || (by right)|done]. }
  trace_ends. split; [held_computes|repeat constructor; (by left) || (by right)|]. intros _.
  eexists [_; _; _], _. split; [reflexivity|]. by rewrite <- ?app_assoc in E4.
Qed.

(** Whether a run creates the schema. *)
Definition creates_schema (cfg : Config.Migration.t) : Prop :=
  Config.Migration.CreateSchema cfg = true /\ Config.Migration.Schema cfg <> "" /\
  HasPrefix (Config.Migration.DatabaseURL cfg) "mysql://" = false.

Record ensure_run (cfg : Config.Migration.t) (past tr : list action) (r : Result unit) : Prop := {
  er_held : held_after past tr [] = Some [];
  er_only : Forall (schema_statement (Config.Migration.Schema cfg)) tr;
  er_none : tr <> [] -> creates_schema cfg /\ migration.valid_schema (Config.Migration.Schema cfg) = true;
  er_done : is_ok r = true -> creates_schema cfg ->
    exists tr1 tr2, tr = tr1 ++ CommitTx :: tr2 /\ fails (past ++ tr1) CommitTx = None;
}.

Lemma ensureSchema_run cfg databaseURL past :
  exists tr r, migration.ensureSchema cfg databaseURL past = (r, past ++ tr) /\ ensure_run cfg past tr r.
Proof.
  assert (forall r, is_ok r = false \/ ~ creates_schema cfg -> exists tr r', (r, past) = (r', past ++ tr) /\ ensure_run cfg past tr r') as Hret.
  { intros r Hr. exists [], r. rewrite app_nil_r. split; [done|]. split; [done|constructor|done|]. intros Hok Hc. destruct Hr; congruence. }
  unfold migration.ensureSchema. case_decide as Hskip.
  { apply Hret. right. intros (H1 & H2 & H3). destruct Hskip as [|[|]]; congruence. }
  assert (creates_schema cfg) as Hc.
  { split_and!; [by destruct (Config.Migration.CreateSchema cfg); [|tauto]|tauto|by destruct (HasPrefix _ _); [tauto|]]. }
  destruct (migration.valid_schema _) eqn:Hv; cbn [negb]; [|by apply Hret; left].
  destruct (url_Parse databaseURL) as [u|e]; [|by apply Hret; left].
  unfold mbind, migration.Mig_bind, migration.act. destruct (fails past _) as [e|] eqn:E.
  { trace_ends. split; [held_computes|by repeat constructor|done|done]. }
  match goal with |- context [OpenDB ?d] => set (a := OpenDB d) in * end.
  destruct (create_schema_run (Config.Migration.Schema cfg) (past ++ [a]) []) as (tr & r & -> & [Hh Ho Hd]).
  exists (a :: tr), r. split; [by rewrite <- app_assoc|]. split.
  - cbn. rewrite E. cbn. exact Hh.
  - by constructor.
  - done.
  - intros Hok _. destruct (Hd Hok) as (tr1 & tr2 & -> & Hf). exists (a :: tr1), tr2. by rewrite <- app_assoc in Hf.
Qed.

(** The one migration a run performs. *)
Definition chosen (direction : string) (steps : Z) : action :=
  if decide (steps <> 0) then Steps steps else if decide (direction = "down") then Down else Up.

(** What a run may do: schema statements only where the schema is to be
    created and its name cannot leave the quotes, and the chosen migration. *)
Definition allowed (cfg : Config.Migration.t) (direction : string) (steps : Z) (a : action) : Prop :=
  match a with
  | OpenDB _ | BeginTx | ExecSQL _ _ | CommitTx | RollbackTx | CloseDB =>
      schema_statement (Config.Migration.Schema cfg) a /\ creates_schema cfg /\ chr 34 ∉ bytes_of (Config.Migration.Schema cfg)
  | Steps _ | Up | Down => a = chosen direction steps
  | NewMigrator _ _ | CloseMigrator => True
  end.

(** The schema's transaction has committed. *)
Definition committed (past tr : list action) : Prop :=
  exists tr1 tr2, tr = tr1 ++ CommitTx :: tr2 /\ fails (past ++ tr1) CommitTx = None.

Record disciplined (cfg : Config.Migration.t) (direction : string) (steps : Z) (past tr : list action) (errs : list error) : Prop := {
  run_gives_back : held_after past tr [] = Some [];
  run_allowed : Forall (allowed cfg direction steps) tr;
  run_schema_first : forall tr1 source d tr2, tr = tr1 ++ NewMigrator source d :: tr2 -> creates_schema cfg -> committed past tr1;
  run_success : errs = [] -> exists tr1 tr2, tr = tr1 ++ chosen direction steps :: tr2 /\
    from_option is_NoChange true (fails (past ++ tr1) (chosen direction steps)) = true;
}.

(** The characters of a validated name. *)
Lemma table_chars a name : Config.validMigrationTable name = true -> is_lower (code a) || is_digit a || (code a =? 95) = false ->
  a ∉ bytes_of name.
Proof.
  unfold Config.validMigrationTable. destruct (bytes_of name) as [|b l]; [done|]. rewrite !andb_true_iff, forallb_forall, !orb_false_iff.
  intros [[Hb _] Hl] [[Ha1 Ha2] Ha3] [E|Hin]%elem_of_cons; [subst; congruence|]. apply list_elem_of_In, Hl in Hin.
  unfold Config.lower_digit in Hin. by rewrite Ha1, Ha2, Ha3 in Hin.
Qed.

Lemma ensure_allowed cfg direction steps past tr r :
  ensure_run cfg past tr r -> Forall (allowed cfg direction steps) tr.
Proof.
  intros [_ Ho Hn _]. destruct tr as [|b tr]; [constructor|]. destruct (Hn ltac:(done)) as [Hc Hv].
  eapply Forall_impl; [exact Ho|]. intros a Ha. pose proof (table_chars (chr 34) _ Hv eq_refl). by destruct a.
Qed.

Lemma ensure_no_migrator cfg past tr r tr1 source d tr2 :
  ensure_run cfg past tr r -> tr <> tr1 ++ NewMigrator source d :: tr2.
Proof. intros [_ Ho _ _] ->. apply Forall_app in Ho as [_ Ho]. by apply Forall_cons in Ho as [Ho _]. Qed.

Lemma run_after_schema cfg direction steps past tr u source databaseURL :
  ensure_run cfg past tr (Ok u) ->
  let m := (n ← migration.act (NewMigrator source databaseURL);
            match n with
            | Some e => mret [Errorf "create migrator" e]
            | None =>
                err ← migration.act (chosen direction steps);
                migration.close_migrator (match err with
                                | Some e => if is_NoChange e then [] else [Errorf "run migration" e]
                                | None => []
                                end)
            end) in
  exists tr' errs, m (past ++ tr) = (errs, past ++ tr') /\ disciplined cfg direction steps past tr' errs.
Proof.
  intros Hens m. set (a := NewMigrator source databaseURL) in *.
  assert (forall tr1 src d tr2 k, tr ++ a :: k = tr1 ++ NewMigrator src d :: tr2 -> (forall src d, NewMigrator src d ∉ k) ->
    creates_schema cfg -> committed past tr1) as Hfirst.
  { intros tr1 src d tr2 k Heq Hk Hc. destruct (er_done _ _ _ _ Hens eq_refl Hc) as (c1 & c2 & E & Hf).
    enough (tr1 = tr) as -> by (by exists c1, c2). apply app_eq_app in Heq as (l & [[E1 E2]|[E1 E2]]).
    - destruct l as [|b l]; [by rewrite app_nil_r in E1|]. injection E2 as <- _. by eapply ensure_no_migrator in E1.
    - destruct l as [|b l]; [by rewrite app_nil_r in E1|]. injection E2 as -> ->. exfalso. eapply Hk. apply elem_of_app. right. by left. }
  pose proof (ensure_allowed cfg direction steps past tr _ Hens) as Hall.
  unfold m, mbind, migration.Mig_bind, mret, migration.Mig_ret, migration.act. destruct (fails (past ++ tr) a) as [e|] eqn:E.
  { eexists (tr ++ [a]), _. split; [by rewrite <- app_assoc|]. split.
    - rewrite held_after_app, (er_held _ _ _ _ Hens). cbn. by rewrite E.
    - apply Forall_app. split; [done|by repeat constructor].
    - intros ???? Heq. eapply Hfirst; [exact Heq|]. intros ??. apply not_elem_of_nil.
    - done. }
  unfold migration.close_migrator. destruct (close_fails _) as [se de].
  eexists (tr ++ [a; chosen direction steps; CloseMigrator]), _. split; [by rewrite <- !app_assoc|]. split.
  - rewrite held_after_app, (er_held _ _ _ _ Hens). cbn. rewrite E. cbn. unfold chosen. by repeat case_decide.
  - apply Forall_app. split; [done|]. repeat constructor. unfold allowed, chosen. by repeat case_decide.
  - intros ???? Heq. eapply Hfirst; [exact Heq|]. intros ??. unfold chosen. repeat case_decide; rewrite !not_elem_of_cons; split_and!; try done; apply not_elem_of_nil.
  - intros Herr. exists (tr ++ [a]), [CloseMigrator]. split; [by rewrite <- app_assoc|].
    apply app_nil in Herr as [Herr _]. revert Herr. destruct (fails (past ++ tr ++ [a]) (chosen direction steps)) as [e|]; [|done].
    cbn. by destruct (is_NoChange e).
Qed.

Lemma disciplined_nothing cfg direction steps past e es : disciplined cfg direction steps past [] (e :: es).
Proof. split; [done|constructor|by intros [] |done]. Qed.

(** C24: A migration run, whatever fails: every database, transaction and migrator
    it opens is closed again in order; the only statements are the advisory
    lock and the creation of a schema whose name cannot leave its quotes, and
    only if that was configured; the migrator is created only after the
    schema's transaction committed; only the chosen migration runs, and no
    error means that it ran and succeeded or had nothing to do. *)
Theorem run_discipline cfg direction steps past :
  exists tr errs, migration.Run cfg direction steps past = (errs, past ++ tr) /\ disciplined cfg direction steps past tr errs.
Proof.
  assert (forall e, exists tr errs, ([e], past) = (errs, past ++ tr) /\ disciplined cfg direction steps past tr errs) as Hret.
  { intros e. exists [], [e]. rewrite app_nil_r. split; [done|apply disciplined_nothing]. }
  unfold migration.Run. case_decide; [apply Hret|]. destruct (filepath_Abs _) as [absPath|e]; [|apply Hret].
  destruct (migration.withMigrationOptions _ _ _ _) as [databaseURL|e]; [|apply Hret].
  unfold mbind at 1, migration.Mig_bind at 1.
  destruct (ensureSchema_run cfg databaseURL past) as (tr & [u|e] & -> & Hens).
  - by eapply run_after_schema.
  - exists tr, [e]. split; [done|]. split; [by destruct Hens|by eapply ensure_allowed| |done].
    intros ???? Heq. by eapply ensure_no_migrator in Heq.
Qed.
End run.

(** ** A concrete URL package and witnesses *)
Module ConcreteMigration.

Record url_parts := mk_url { u_scheme : bytes; u_host : bytes; u_path : bytes; u_query : bytes }.

Definition c_colon : ascii := chr 58.
Definition c_question : ascii := chr 63.
Definition cut_or (sep : ascii) (l : bytes) : bytes * bytes := default (l, []) (cut_bytes sep l).

(** [scheme://host/path?query]; the path keeps its slash. *)
Definition parse (s : string) : Result url_parts :=
  match cut_bytes c_colon (bytes_of s) with
  | Some (scheme, a :: b :: rest) =>
      if decide (a = c_slash /\ b = c_slash) then
        let '(front, query) := cut_or c_question rest in
        Ok (match cut_bytes c_slash front with
            | Some (host, path) => mk_url scheme host (c_slash :: path) query
            | None => mk_url scheme front [] query
            end)
      else Err (ErrorsNew "missing host")
  | _ => Err (ErrorsNew "missing protocol scheme")
  end.
Definition print (u : url_parts) : string :=
  string_of (u_scheme u ++ c_colon :: c_slash :: c_slash :: u_host u ++ u_path u ++
             match u_query u with [] => [] | q => c_question :: q end).

#[global] Instance urls : URLs := {
  URL := url_parts;
  url_Parse := parse;
  url_String := print;
  Path u := string_of (u_path u);
  RawQuery u := string_of (u_query u);
  Scheme u := string_of (u_scheme u);
  User _ := "";
  Host u := string_of (u_host u);
  set_Path p u := mk_url (u_scheme u) (u_host u) (bytes_of p) (u_query u);
  set_RawQuery q u := mk_url (u_scheme u) (u_host u) (u_path u) (bytes_of q);
  filepath_Abs p := Ok ("/srv/" +:+ p);
  file_URL p := "file://" +:+ p;
}.

(** Nothing fails. *)
#[global] Instance working : Migrate := {
  fails _ _ := None;
  close_fails _ := (None, None);
  is_NoChange _ := false;
}.

(** The parts of a parsed URL hold none of the following separators. *)
Definition separated (u : url_parts) : Prop :=
  (c_colon ∉ u_scheme u) /\ (c_slash ∉ u_host u) /\ (c_question ∉ u_host u) /\ (c_question ∉ u_path u) /\
  (u_path u = [] \/ exists p, u_path u = c_slash :: p).

Lemma cut_or_front sep l p q : cut_or sep l = (p, q) -> (sep ∉ p) /\ forall a, a ∈ p -> a ∈ l.
Proof.
  unfold cut_or. destruct (cut_bytes sep l) as [[p' q']|] eqn:E; intros [= <- <-].
  - apply cut_bytes_Some in E as [-> Hn]. split; [done|]. intros a Ha. apply elem_of_app. by left.
  - split; [by apply cut_bytes_absent|done].
Qed.

Lemma parse_separated s u : parse s = Ok u -> separated u.
Proof.
  unfold parse. destruct (cut_bytes c_colon _) as [[scheme [|a [|b rest]]]|] eqn:E1; try done. apply cut_bytes_Some in E1 as [_ Hs].
  case_decide; [|done]. destruct (cut_or c_question rest) as [front query] eqn:E2. apply cut_or_front in E2 as [Hq _].
  destruct (cut_bytes c_slash front) as [[host path]|] eqn:E3; intros [= <-]; unfold separated; cbn.
  - apply cut_bytes_Some in E3 as [-> Hh]. rewrite not_elem_of_app, not_elem_of_cons in Hq. split_and!; try tauto.
    + rewrite not_elem_of_cons. tauto.
    + right. by exists path.
  - apply cut_bytes_absent in E3. split_and!; try tauto. apply not_elem_of_nil.
Qed.

Lemma parse_print u : separated u -> parse (print u) = Ok u.
Proof.
  intros (H1 & H2 & H3 & H4 & H5). unfold parse, print. rewrite bytes_of_string_of, cut_bytes_app by done. rewrite decide_True by done.
  assert (cut_or c_question (u_host u ++ u_path u ++ match u_query u with [] => [] | q => c_question :: q end)
    = (u_host u ++ u_path u, u_query u)) as ->.
  { unfold cut_or. assert (c_question ∉ u_host u ++ u_path u) as Hq by (rewrite not_elem_of_app; tauto).
    destruct (u_query u) as [|b q]; [rewrite app_nil_r|rewrite app_assoc, cut_bytes_app; done].
    apply cut_bytes_absent in Hq. by rewrite Hq. }
  destruct u as [s h p q]; cbn in *. destruct H5 as [->|[p' ->]].
  - rewrite app_nil_r. apply cut_bytes_absent in H2. by rewrite H2.
  - by rewrite cut_bytes_app.
Qed.

#[global] Instance urls_laws : URLLaws urls.
Proof.
  split.
  - intros d u p q Hu _ _ Hp _. exists (mk_url (u_scheme u) (u_host u) (bytes_of p) (bytes_of q)).
    split; [|by cbn; rewrite !string_of_bytes_of]. apply parse_print.
    apply parse_separated in Hu as (H1 & H2 & H3 & H4 & H5). unfold separated. cbn. split_and!; try done.
    + destruct Hp as [->|(name & -> & Hn)]; [cbn; by rewrite bytes_of_string_of|].
      rewrite bytes_of_app, not_elem_of_app. split; [|by apply (table_chars c_question)].
      change (bytes_of "/") with [c_slash]. rewrite not_elem_of_cons. split; [done|apply not_elem_of_nil].
    + destruct Hp as [->|(name & -> & Hn)]; [cbn; by rewrite bytes_of_string_of|].
      right. exists (bytes_of name). by rewrite bytes_of_app.
  - intros []. cbn. by rewrite bytes_of_string_of.
Qed.

Definition example_url : string := "postgres://db:5432/old?sslmode=disable".
Definition example_cfg : Config.Migration.t :=
  Config.Migration.mk true true "migrations" example_url "identity_migrations" "identity" "platform".
End ConcreteMigration.

Section witnesses.
Import ConcreteMigration.
#[local] Existing Instance ConcreteMigration.urls.

Lemma postgres_options_witness : exists s v,
  migration.withMigrationOptions example_url "platform" "identity_migrations" "identity" = Ok s /\ url_Parse s = Ok v /\
  Path v = "/platform" /\ url.ParseQuery (RawQuery v) !! "x-migrations-table" = Some ["identity_migrations"] /\
  url.ParseQuery (RawQuery v) !! "sslmode" = Some ["disable"].
Proof.
  destruct (url_Parse example_url) as [u|e] eqn:E; [|by vm_compute in E].
  destruct (postgres_options_round_trip example_url "platform" "identity_migrations" "identity" u) as (s & v & H1 & H2 & [_ _ _ H3 H4]).
  - reflexivity.
  - exact E.
  - vm_compute in E. injection E as <-. discriminate.
  - vm_compute in E. injection E as <-. discriminate.
  - right. reflexivity.
  - exists s, v. split_and!; [exact H1|exact H2|exact H3|..]; rewrite H4; vm_compute in E; injection E as <-; reflexivity.
Defined.

(** A MySQL URL without a database: the check for it finds the slashes of the
    scheme, and the server is replaced by the name of the database. *)
Lemma mysql_missing_path_undetected :
  migration.withMigrationOptions "mysql://root@tcp(db:3306)" "platform" "" "" = Ok "mysql://platform".
Proof. vm_compute. reflexivity. Qed.
End witnesses.
