(* ===== verification/Startup.v ===== *)
(** * Construction, start and stop of the process

    The constructors and lifecycle hooks that [internal/app] puts together:
    the log file, tracing, the database pool, Redis, outbound connections,
    the event bus, the retention job, the scheduler and the two servers.

    The process is the history of its outside calls, the handles it holds and
    the mutable fields that start and stop hooks share.  [fault] decides which
    call fails; drivers and libraries are the parameter [Drivers].  A hook is
    recorded as it is appended; the lifecycle that runs hooks is [Fx]. *)

From S2P Require Import Prelude.
From S2P Require Import GoStrings.
From S2P Require Import Encoding.
From S2P Require Import AppError.
From S2P Require Import Platform.
From S2P Require Import RequestContext.
From S2P Require Import PathMatch.
From S2P Require Import Configuration.
From S2P Require Import Outbound.
From S2P Require Import Migration.
Open Scope Z_scope.

(** ** Processes *)
Module process.

(** What a process can hold: files, connections, listeners and goroutines. *)
Inductive handle :=
| LogFile
| TraceProvider
| DatabasePool
| RedisClient
| Upstream (name : string)
| EventBus
| Listener (protocol : string)
| Worker (name : string)
| Lock (key : string).
#[global] Instance handle_eq_dec : EqDecision handle.
Proof. solve_decision. Defined.
Definition handle_code (h : handle) : nat * string :=
  match h with
  | LogFile => (0%nat, "") | TraceProvider => (1%nat, "") | DatabasePool => (2%nat, "") | RedisClient => (3%nat, "")
  | Upstream n => (4%nat, n) | EventBus => (5%nat, "") | Listener p => (6%nat, p) | Worker n => (7%nat, n)
  | Lock k => (8%nat, k)
  end.
Definition handle_decode (c : nat * string) : option handle :=
  match c with
  | (0, _) => Some LogFile | (1, _) => Some TraceProvider | (2, _) => Some DatabasePool | (3, _) => Some RedisClient
  | (4, n) => Some (Upstream n) | (5, _) => Some EventBus | (6, p) => Some (Listener p) | (7, n) => Some (Worker n)
  | (8, k) => Some (Lock k)
  | _ => None
  end%nat.
#[global] Instance handle_countable : Countable handle.
Proof. apply (inj_countable handle_code handle_decode). by intros []. Defined.

Inductive effect :=
| Acquire (h : handle)             (** opens it, or fails and opens nothing *)
| Spawn (h : handle)               (** a goroutine, or a client that opens lazily *)
| Release (h : handle)             (** closes it, with or without an error *)
| Use (what : string) (args : list string).  (** a fallible call that opens nothing *)

Record Process := mkProcess {
  history : list effect;
  held : gset handle;
  runtime_bus : bool;     (** [eventRuntime.bus != nil] *)
  runtime_cancel : bool;  (** [eventRuntime.cancel != nil] *)
  cleaner_cancel : bool;  (** [SessionCleaner.cancel != nil] *)
}.

(** The error of a call after a history. *)
Class Faults := fault : list effect -> effect -> option error.

Definition Proc (A : Type) : Type := Process -> Result A * Process.
#[global] Instance Proc_ret : MRet Proc := fun A a p => (Ok a, p).
#[global] Instance Proc_bind : MBind Proc := fun A B k m p =>
  match m p with
  | (Ok a, p') => k a p'
  | (Err e, p') => (Err e, p')
  end.

Section process.
Context {ft : Faults}.

Definition set_held (f : gset handle -> gset handle) (a : effect) (p : Process) : Process :=
  mkProcess (history p ++ [a]) (f (held p)) (runtime_bus p) (runtime_cancel p) (cleaner_cancel p).

Definition result_of (e : option error) : Result unit := match e with Some e => Err e | None => Ok tt end.

Definition acquire (h : handle) : Proc unit := fun p =>
  match fault (history p) (Acquire h) with
  | Some e => (Err e, set_held id (Acquire h) p)
  | None => (Ok tt, set_held (fun s => {[h]} ∪ s) (Acquire h) p)
  end.
Definition spawn (h : handle) : Proc unit := fun p => (Ok tt, set_held (fun s => {[h]} ∪ s) (Spawn h) p).
Definition release (h : handle) : Proc unit := fun p =>
  (result_of (fault (history p) (Release h)), set_held (fun s => s ∖ {[h]}) (Release h) p).
Definition use (what : string) (args : list string) : Proc unit := fun p =>
  (result_of (fault (history p) (Use what args)), set_held id (Use what args) p).

Definition fail {A} (e : error) : Proc A := fun p => (Err e, p).
Definition of_Result {A} (r : Result A) : Proc A := fun p => (r, p).
(** [_ = m]. *)
Definition ignore {A} (m : Proc A) : Proc unit := fun p => (Ok tt, (m p).2).
(** [if err := m; err != nil { k err }]. *)
Definition on_error {A} (m : Proc A) (k : error -> Proc A) : Proc A := fun p =>
  match m p with
  | (Err e, p') => k e p'
  | r => r
  end.
Definition wrap {A} (context : string) (m : Proc A) : Proc A := on_error m (fun e => fail (Errorf context e)).

Definition set_runtime (bus cancel : bool) : Proc unit := fun p =>
  (Ok tt, mkProcess (history p) (held p) (bus || runtime_bus p) (cancel || runtime_cancel p) (cleaner_cancel p)).
Definition set_cleaner : Proc unit := fun p =>
  (Ok tt, mkProcess (history p) (held p) (runtime_bus p) (runtime_cancel p) true).
End process.

(** [fx.Hook]. *)
Record Hook := mkHook { OnStart : Proc unit; OnStop : Proc unit }.
Definition StopHook (stop : Proc unit) : Hook := mkHook (mret tt) stop.

(** A constructor also appends hooks to the lifecycle. *)
Definition Ctor (A : Type) : Type := list Hook * Process -> Result A * (list Hook * Process).
#[global] Instance Ctor_ret : MRet Ctor := fun A a s => (Ok a, s).
#[global] Instance Ctor_bind : MBind Ctor := fun A B k m s =>
  match m s with
  | (Ok a, s') => k a s'
  | (Err e, s') => (Err e, s')
  end.
Definition lift {A} (m : Proc A) : Ctor A := fun '(hs, p) => let '(r, p') := m p in (r, (hs, p')).
Definition Append (h : Hook) : Ctor unit := fun '(hs, p) => (Ok tt, (hs ++ [h], p)).
End process.
Import process.

(** ** Parameters: drivers and libraries *)
Class Drivers := {
  (** [pgx.ParseConfig]: the database, the runtime parameters and the rest. *)
  pgx_ParseConfig : string -> Result (string * gmap string string * string);
  (** [mysql.ParseDSN]: the database and the rest; and [FormatDSN] of them with
      [ParseTime] and the location. *)
  mysql_ParseDSN : string -> Result (string * string);
  mysql_FormatDSN : string -> string -> string -> string;
  LoadLocation : string -> Result string;
  filepath_Dir : string -> string;
  (** [level.UnmarshalText]. *)
  parse_level : string -> Result string;
  (** The lock of a key is held by another process. *)
  lock_taken : list effect -> string -> bool;
}.


(** ** [internal/database/database.go] *)
Module database.

Inductive Source :=
| PgxConfig (database : string) (runtimeParams : gmap string string) (rest : string)
| DSN (text : string).

(** The pool, with the settings it is given. *)
Record DB := mkDB {
  driver : string;
  source : Source;
  maxOpenConns : Z;
  maxIdleConns : Z;
  connMaxLifetime : Z;
  connMaxIdleTime : Z;
}.

Section database.
Context {ft : Faults} {dr : Drivers} {up : UnicodePrint}.

Definition driverName (dbType : string) : Result string :=
  if decide (dbType = "mysql") then Ok "mysql"
  else if decide (dbType = "postgres" \/ dbType = "kingbase") then Ok "pgx"
  else Err (ErrorsNew ("unsupported database type " +:+ Quote dbType)).

(** The three branches of the [switch]; the pool of [stdlib.OpenDB] cannot
    fail to open. *)
Definition open_pgx (cfg : Config.Database.t) : Proc Source :=
  c ← wrap "parse database dsn" (of_Result (pgx_ParseConfig (Config.Database.DSN cfg)));
  let '(database, params, rest) := c in
  let database := if decide (Config.Database.Name cfg <> "") then Config.Database.Name cfg else database in
  let params := if decide (Config.Database.Schema cfg <> "") then <["search_path" := Config.Database.Schema cfg]> params else params in
  spawn DatabasePool;;
  mret (PgxConfig database (<["timezone" := "Asia/Shanghai"]> params) rest).

Definition open_mysql (cfg : Config.Database.t) : Proc Source :=
  c ← wrap "parse database dsn" (of_Result (mysql_ParseDSN (Config.Database.DSN cfg)));
  let '(database, rest) := c in
  let database := if decide (Config.Database.Name cfg <> "") then Config.Database.Name cfg else database in
  location ← wrap "load database timezone" (of_Result (LoadLocation "Asia/Shanghai"));
  wrap "open database" (acquire DatabasePool);;
  mret (DSN (mysql_FormatDSN database location rest)).

Definition open_default (cfg : Config.Database.t) : Proc Source :=
  wrap "open database" (acquire DatabasePool);;
  mret (DSN (Config.Database.DSN cfg)).

Definition open_source (driver : string) (cfg : Config.Database.t) : Proc Source :=
  if decide (driver = "pgx") then open_pgx cfg
  else if decide (driver = "mysql") then open_mysql cfg
  else open_default cfg.

Definition Open (cfg : Config.Database.t) : Proc DB :=
  driver ← of_Result (driverName (Config.Database.Type_ cfg));
  source ← open_source driver cfg;
  on_error (use "PingContext" [])
    (fun e => ignore (release DatabasePool);; fail (Errorf "ping database" e));;
  mret (mkDB driver source (Config.Database.MaxOpenConns cfg) (Config.Database.MaxIdleConns cfg)
          (Config.Database.ConnMaxLifetime cfg) (Config.Database.ConnMaxIdleTime cfg)).
End database.
End database.

(** ** [internal/cache/redis.go] *)
Module cache.
Section cache.
Context {ft : Faults}.

Definition Open (cfg : Config.Redis.t) : Proc unit :=
  spawn RedisClient;;
  on_error (use "Ping" [Config.Redis.Address cfg])
    (fun e => ignore (release RedisClient);; fail (Errorf "ping redis" e)).
End cache.
End cache.

(** ** [internal/logging/logging.go] *)
Module logging.

Record Logger := mkLogger { level : string; text_handler : bool; attributes : list (string * string) }.

Section logging.
Context {ft : Faults} {dr : Drivers} {uc : UnicodeCase}.

Definition New (cfg : Config.Log.t) : Proc Logger :=
  wrap "create log directory" (use "MkdirAll" [filepath_Dir (Config.Log.File cfg)]);;
  level ← wrap "parse log level" (of_Result (parse_level (ToLower (Config.Log.Level cfg))));
  spawn LogFile;;
  mret (mkLogger level (bool_decide (Config.Log.Format cfg = "text")) []).
End logging.
End logging.

(** ** [internal/observability/tracing.go] *)
Module tracing.
Section tracing.
Context {ft : Faults}.

(** The result is [Enabled()]. *)
Definition NewTracing (cfg : Config.t) : Ctor bool :=
  let enabled := Config.Observability.TracingEnabled (Config.Observability cfg) in
  if negb enabled then mret enabled
  else
    lift (wrap "create OTLP trace exporter"
            (use "otlptracehttp.New" [Config.Observability.TracingEndpoint (Config.Observability cfg)]));;
    lift (spawn TraceProvider);;
    Append (StopHook (release TraceProvider));;
    mret enabled.
End tracing.
End tracing.

(** ** [internal/outbound/registry.go]: the connections of the registry *)
Module connections.
Section connections.
Context {ft : Faults} {pf : Platform} {cx : Contexts} {nw : Network} {up : UnicodePrint} {mo : MapOrder}.

(** [close]: every connection, the first error. *)
Fixpoint close (names : list string) : Proc unit :=
  match names with
  | [] => mret tt
  | name :: names' => fun p =>
      let '(r, p1) := release (Upstream name) p in
      let '(rest, p2) := close names' p1 in
      (match r with Err e => Err (Errorf ("close outbound gRPC client " +:+ Quote name) e) | Ok _ => rest end, p2)
  end.

(** The loop over the gRPC upstreams, with the connections made so far. *)
Fixpoint dial_all (metrics : bool) (l : list (string * Config.GRPCUpstream.t)) (opened : list string) : Proc (list string) :=
  match l with
  | [] => mret opened
  | (name, u) :: l' =>
      match grpcclient.Dial (registry.client_config name u metrics) with
      | Err e =>
          ignore (close (map_range opened));; fail (Errorf ("create outbound gRPC client " +:+ Quote name) e)
      | Ok _ => spawn (Upstream name);; dial_all metrics l' (opened ++ [name])
      end
  end.

(** HTTP clients hold nothing; they are made first. *)
Definition NewRegistry (cfg : Config.t) (metrics : bool) : Ctor (list string) :=
  lift (of_Result (registry.add_http metrics (map_range (map_to_list (Config.Outbound.HTTP (Config.Outbound cfg))))
                     (registry.mkRegistry ∅ ∅)));;
  opened ← lift (dial_all metrics (map_range (map_to_list (Config.Outbound.GRPC (Config.Outbound cfg)))) []);
  Append (StopHook (close (map_range opened)));;
  mret opened.
End connections.
End connections.

(** ** [internal/app/eventbus.go] *)
Module eventbus.

(** What wakes the [select] of a worker loop. *)
Inductive wake := Done | Tick.

Section eventbus.
Context {ft : Faults} {up : UnicodePrint}.

(** [clean] and [dispatch]: one round, then wait; an error of a round is
    logged.  [false] when the wake-ups end before the context is done. *)
Fixpoint worker_loop (round : Proc unit) (wakes : list wake) : Proc bool :=
  match wakes with
  | [] => mret false
  | w :: wakes' =>
      ignore round;;
      match w with
      | Done => mret true
      | Tick => worker_loop round wakes'
      end
  end.
Definition clean (wakes : list wake) : Proc bool := worker_loop (use "RetentionCleaner.RunOnce" []) wakes.
Definition dispatch (wakes : list wake) : Proc bool := worker_loop (use "Dispatcher.RunOnce" []) wakes.

(** [store]: the outbox is not nil. *)
Definition start (cfg : Config.t) (store : bool) : Proc unit :=
  let e := Config.EventBus cfg in
  if negb (Config.EventBus.Enabled e) then mret tt
  else if negb store then fail (ErrorsNew "enabled event bus requires database outbox")
  else
    acquire EventBus;;
    on_error (use "outbox.New" []) (fun err => ignore (release EventBus);; fail err);;
    set_runtime true false;;
    set_runtime false true;;
    on_error (use "outbox.NewRetentionCleaner" []) (fun err => ignore (release EventBus);; fail err);;
    spawn (Worker "dispatch");;
    spawn (Worker "clean").

(** [cancel] and [wg.Wait], then [bus.Close]. *)
Definition stop : Proc unit := fun p =>
  (_ ← (if runtime_cancel p then ignore (release (Worker "dispatch"));; ignore (release (Worker "clean")) else mret tt);
   if runtime_bus p then release EventBus else mret tt) p.

Definition newEventRuntime (cfg : Config.t) (store : bool) : Ctor unit := Append (mkHook (start cfg store) stop).

(** [db]: the pool is not nil; whether the result is not nil. *)
Definition newIdentityOutboxStore (db : bool) : Ctor bool :=
  if negb db then mret false
  else lift (use "outbox.NewSQLStore" ["outbox_events"]);; mret true.
End eventbus.
End eventbus.

(** ** [start] and [stop] of [internal/identity/session_cleanup.go] *)
Module cleaner.
Section cleaner.
Context {ft : Faults}.

Definition start (enabled : bool) : Proc unit :=
  if negb enabled then mret tt
  else set_cleaner;; spawn (Worker "sessions").
Definition stop : Proc unit := fun p =>
  (if cleaner_cancel p then ignore (release (Worker "sessions")) else mret tt) p.

(** [store] and [logger] are not nil; whether the cleaner is not nil. *)
Definition NewSessionCleaner (store logger : bool) (cfg : Config.t) : Ctor bool :=
  if negb store then mret false
  else if negb logger then lift (fail (ErrorsNew "identity session cleaner logger is required"))
  else Append (mkHook (start (Config.Database.Enabled (Config.Database cfg))) stop);; mret true.
End cleaner.
End cleaner.

(** ** [internal/scheduler/scheduler.go] *)
Module scheduler.
Section scheduler.
Context {ft : Faults} {dr : Drivers}.

(** [locker.TryLock]: whether the lock was acquired. *)
Definition TryLock (key : string) : Proc bool := fun p =>
  if lock_taken (history p) key then (_ ← use "TryLock" [key]; mret false) p
  else (_ ← acquire (Lock key); mret true) p.

(** The line ["sample scheduled job executed"] is the job. *)
Definition job : Proc unit := ignore (use "sample scheduled job executed" []).
Definition runSample (locker : bool) : Proc unit :=
  if negb locker then job
  else
    acquired ← TryLock "cron:sample";
    if negb acquired then mret tt
    else job;; ignore (release (Lock "cron:sample")).

(** The function of the entry: the status that [ObserveCron] counts. *)
Definition sample_entry (locker : bool) : Proc string := fun p =>
  match runSample locker p with
  | (Ok _, p') => (Ok "success", p')
  | (Err _, p') => (Ok "error", p')
  end.

Definition OnStart (enabled : bool) : Proc unit := if enabled then spawn (Worker "cron") else mret tt.
(** [runner.Stop()], then wait for running jobs as long as the context allows. *)
Definition OnStop : Proc unit := ignore (release (Worker "cron"));; use "await jobs" [].

Definition New (cfg : Config.t) : Ctor unit :=
  let cron := Config.Cron cfg in
  lift (of_Result (LoadLocation (Config.Cron.Timezone cron)));;
  (if decide (Config.Cron.SampleSpec cron <> "") then lift (use "AddFunc" [Config.Cron.SampleSpec cron]) else mret tt);;
  Append (mkHook (OnStart (Config.Cron.Enabled cron)) OnStop).
End scheduler.
End scheduler.

(** ** The server of [internal/transport/grpc/server.go] *)
Module grpcserver.

Inductive ClientAuthType := NoClientCert | RequireAndVerifyClientCert.
(** [tls.Config]: the version is the protocol's number. *)
Record TLSConfig := mkTLS {
  MinVersion : Z;
  Certificates : list (string * string);
  ClientCAs : option bytes;
  ClientAuth : ClientAuthType;
}.
Definition VersionTLS12 : Z := 771.

Record Server := mkServer {
  address : string;
  maxReceiveBytes : Z;
  creds : option TLSConfig;
  services : list string;
}.

Section grpcserver.
Context {ft : Faults} {pf : Platform} {nw : Network}.

Definition serverCredentials (cfg : Config.GRPCTLS.t) : Result TLSConfig :=
  match LoadX509KeyPair (Config.GRPCTLS.CertFile cfg) (Config.GRPCTLS.KeyFile cfg) with
  | Err e => Err (Errorf "load grpc certificate" e)
  | Ok _ =>
      let certificate := (Config.GRPCTLS.CertFile cfg, Config.GRPCTLS.KeyFile cfg) in
      if decide (Config.GRPCTLS.ClientCAFile cfg <> "") then
        match ReadFile (Config.GRPCTLS.ClientCAFile cfg) with
        | Err e => Err (Errorf "read grpc client CA" e)
        | Ok pem =>
            if negb (AppendCertsFromPEM pem) then Err (ErrorsNew "parse grpc client CA")
            else Ok (mkTLS VersionTLS12 [certificate] (Some pem) RequireAndVerifyClientCert)
        end
      else Ok (mkTLS VersionTLS12 [certificate] None NoClientCert)
  end.

Definition start (enabled : bool) : Proc unit :=
  if negb enabled then mret tt
  else wrap "listen grpc" (acquire (Listener "grpc"));; spawn (Worker "grpc").

(** [GracefulStop] closes the listener at once and waits; [Stop] does not. *)
Definition stop : Proc unit :=
  ignore (release (Listener "grpc"));; ignore (release (Worker "grpc"));; use "await GracefulStop" [].

Definition NewServer (cfg : Config.t) : Ctor Server :=
  let g := Config.GRPC cfg in
  creds ← (if Config.GRPCTLS.Enabled (Config.GRPC.TLS g)
           then c ← lift (of_Result (serverCredentials (Config.GRPC.TLS g))); mret (Some c)
           else mret None);
  let server := mkServer (Config.GRPC.Address g) (Config.GRPC.MaxReceiveBytes g) creds
    (["identity"; "health"] ++ (if Config.GRPC.ReflectionEnabled g then ["reflection"] else [])) in
  Append (mkHook (start (Config.GRPC.Enabled g)) stop);;
  mret server.
End grpcserver.
End grpcserver.

(** ** The hooks of [NewServer] in [internal/transport/http/server.go] *)
Module httpserver.
Section httpserver.
Context {ft : Faults}.

Definition OnStart : Proc unit := wrap "listen http" (acquire (Listener "http"));; spawn (Worker "http").
(** [Shutdown] closes the listener, then waits for open connections. *)
Definition OnStop : Proc unit :=
  ignore (release (Listener "http"));; ignore (release (Worker "http"));; use "await connections" [].

(** The routes are the list of [Router]; [gin.New] holds nothing. *)
Definition NewServer (cfg : Config.t) : Ctor unit :=
  lift (wrap "configure trusted proxies" (use "SetTrustedProxies" (Config.HTTP.TrustedProxies (Config.HTTP cfg))));;
  Append (mkHook OnStart OnStop).
End httpserver.
End httpserver.

(** ** [internal/observability/metrics.go] *)
Module metrics.

(** The counters of this file that code outside the transports updates. *)
Record Metrics := mkMetrics {
  enabled : bool;
  registered : list string;
  CronRuns : list (string * string);
}.

Definition redis_metrics : list string :=
  ["redis_pool_hits_total"; "redis_pool_misses_total"; "redis_pool_timeouts_total"; "redis_pool_connections";
   "redis_pool_idle_connections"].

(** [MustRegister] panics on a name that is registered already: [None]. *)
Definition MustRegister (names registry : list string) : option (list string) :=
  foldl (fun acc name => registry ← acc; if decide (name ∈ registry) then None else Some (registry ++ [name])) (Some registry) names.

(** [db] and [client] are not nil. *)
Definition NewMetrics (cfg : Config.t) (db client : bool) : option Metrics :=
  registry ← MustRegister
    ["go"; "process"; "http_requests_total"; "http_request_duration_seconds"; "cron_runs_total"; "cron_run_duration_seconds";
     "grpc_server_requests_total"; "grpc_server_duration_seconds"; "outbound_requests_total";
     "outbound_request_duration_seconds"] [];
  registry ← (if (db : bool) then MustRegister ["db:primary"] registry else Some registry);
  registry ← (if (client : bool) then MustRegister redis_metrics registry else Some registry);
  Some (mkMetrics (Config.Observability.MetricsEnabled (Config.Observability cfg)) registry []).

Definition ObserveCron (job status : string) (m : Metrics) : Metrics :=
  if negb (enabled m) then m else mkMetrics (enabled m) (registered m) (CronRuns m ++ [(job, status)]).

(** No name is registered twice. *)
Lemma NewMetrics_registers cfg db client : is_Some (NewMetrics cfg db client).
Proof. destruct db, client; by eexists. Qed.
End metrics.

(** ** [internal/authorization/provider.go] and [internal/idempotency/manager.go] *)
Module providers.
Section providers.
Context {pf : Platform} {nw : Network}.

(** The authorizer's client, if there is one, and its timeout. *)
Definition authorization_New (r : registry.Registry) : option (list grpcclient.Interceptor) * Z :=
  match registry.GRPC r "authorization" with
  | None => (None, 2 * Second)
  | Some connection => (Some connection, 2 * Second)
  end.

(** [platformidempotency.Config]. *)
Record ManagerConfig := mkManagerConfig {
  ManagerEnabled : bool; ManagerService : string; ProcessingTTL : Z; ResultTTL : Z; FailureTTL : Z;
}.
Definition idempotency_New (cfg : Config.t) : ManagerConfig :=
  let i := Config.Idempotency cfg in
  mkManagerConfig (Config.Idempotency.Enabled i) (Config.App.Name (Config.App cfg)) (Config.Idempotency.ProcessingTTL i)
    (Config.Idempotency.ResultTTL i) (Config.Idempotency.FailureTTL i).
End providers.
End providers.

(** ** [internal/app/app.go] *)
Module app.
Section app.
Context {ft : Faults} {dr : Drivers} {pf : Platform} {cx : Contexts} {nw : Network} {up : UnicodePrint} {uc : UnicodeCase}
  {mo : MapOrder} {us : URLs} {mg : Migrate}.

Definition newLogger (cfg : Config.t) : Ctor logging.Logger :=
  logger ← lift (logging.New (Config.Log cfg));
  Append (StopHook (release LogFile));;
  mret (logging.mkLogger (logging.level logger) (logging.text_handler logger)
          [("service", Config.App.Name (Config.App cfg));
           ("environment", Config.Runtime.ActiveProfile (Config.Runtime cfg))]).

(** [None] is the nil pool. *)
Definition newDatabase (cfg : Config.t) : Ctor (option database.DB) :=
  if negb (Config.Database.Enabled (Config.Database cfg)) then mret None
  else
    db ← lift (database.Open (Config.Database cfg));
    Append (StopHook (release DatabasePool));;
    mret (Some db).

(** Whether the client is not nil. *)
Definition newRedis (cfg : Config.t) (tracing_Enabled : bool) : Ctor bool :=
  if negb (Config.Redis.Enabled (Config.Redis cfg)) then mret false
  else
    lift (cache.Open (Config.Redis cfg));;
    (if tracing_Enabled then
       lift (on_error (use "InstrumentTracing" [])
               (fun e => ignore (release RedisClient);; fail (Errorf "instrument redis tracing" e)))
     else mret tt);;
    Append (StopHook (release RedisClient));;
    mret true.

Definition newLocker (client : bool) : bool := client.

(** The text of [errors.Join]. *)
Fixpoint join_errors (errs : list error) : string :=
  match errs with
  | [] => ""
  | [e] => error_text e
  | e :: errs' => error_text e +:+ string_of [chr 10] +:+ join_errors errs'
  end.

(** The invocation of [MigrationModule], after the migrations [past].  What a
    migration opens is in its own trace, and closed there. *)
Definition invoke_migration (past : list action) (cfg : Config.t) : Ctor unit :=
  lift (of_Result (match (migration.runStartupMigration cfg past).1 with
                   | None => Ok tt
                   | Some (context, errs) => Err (Errorf context (ErrorsNew (join_errors errs)))
                   end)).

(** What [New] hands to fx: the constructors and invocations that call out of
    the process or append hooks, with any arguments; the others hold nothing
    and return a value or an error. *)
Inductive provided (cfg : Config.t) : Ctor unit -> Prop :=
| provide_logger : provided cfg (newLogger cfg;; mret tt)
| provide_tracing : provided cfg (tracing.NewTracing cfg;; mret tt)
| provide_database : provided cfg (newDatabase cfg;; mret tt)
| provide_redis enabled : provided cfg (newRedis cfg enabled;; mret tt)
| provide_store db : provided cfg (eventbus.newIdentityOutboxStore db;; mret tt)
| provide_events store : provided cfg (eventbus.newEventRuntime cfg store)
| provide_cleaner store logger : provided cfg (cleaner.NewSessionCleaner store logger cfg;; mret tt)
| provide_registry metrics : provided cfg (connections.NewRegistry cfg metrics;; mret tt)
| provide_scheduler : provided cfg (scheduler.New cfg)
| provide_grpc : provided cfg (grpcserver.NewServer cfg;; mret tt)
| provide_http : provided cfg (httpserver.NewServer cfg)
| invoke_migrations past : provided cfg (invoke_migration past cfg)
| provide_value (r : Result unit) : provided cfg (lift (of_Result r)).

(** Constructors run in the order that fx chooses, until one fails. *)
Fixpoint construct (cs : list (Ctor unit)) : Ctor unit :=
  match cs with
  | [] => mret tt
  | c :: cs' => c;; construct cs'
  end.
End app.
End app.

(** ** The lifecycle of [go.uber.org/fx] *)

(** Start hooks in the order they were appended, until one fails; with the
    hooks that started. *)
Fixpoint start_hooks (hs : list Hook) (p : Process) : Result unit * list Hook * Process :=
  match hs with
  | [] => (Ok tt, [], p)
  | h :: hs' =>
      match OnStart h p with
      | (Err e, p1) => (Err e, [], p1)
      | (Ok _, p1) => let '(r, started, p2) := start_hooks hs' p1 in (r, h :: started, p2)
      end
  end.
(** Stop hooks in reverse order, whatever their errors. *)
Definition stop_hooks (hs : list Hook) (p : Process) : Process := foldr (fun h p => (OnStop h p).2) p hs.

(** An application is made of the error of its construction and the hooks that
    were appended; [running] are the hooks that started and were not stopped. *)
Class Fx := {
  App : Type;
  fx_New : Result unit -> list Hook -> App;
  fx_Start : App -> Process -> Result unit * (App * Process);
  fx_Stop : App -> Process -> Result unit * (App * Process);
  running : App -> list Hook;
}.

(** Documented behaviour, within the start and stop timeouts.  [Start] of an
    application that could not be constructed returns that error and runs
    nothing.  Otherwise start hooks run in order; if one fails, the stop hooks
    of those that started run in reverse order.  [Stop] runs the stop hooks of
    the hooks that started, and of no other, in reverse order. *)
Class FxLaws {fx : Fx} := {
  New_running r hs : running (fx_New r hs) = [];
  Start_unconstructed e hs p : exists a, fx_Start (fx_New (Err e) hs) p = (Err e, (a, p)) /\ running a = [];
  Start_hooks hs p : exists r a q, fx_Start (fx_New (Ok tt) hs) p = (r, (a, q)) /\
    match start_hooks hs p with
    | (Ok _, _, p1) => r = Ok tt /\ running a = hs /\ q = p1
    | (Err _, started, p1) => is_ok r = false /\ running a = [] /\ q = stop_hooks started p1
    end;
  Stop_running a p : (fx_Stop a p).2.2 = stop_hooks (running a) p /\ running (fx_Stop a p).2.1 = [];
}.

(** [main] of [cmd/api]: the exit code, or the configuration to run. *)
Definition api_main (showVersion : bool) (loaded : Result Config.t) : Z + Config.t :=
  if showVersion then inl 0
  else match loaded with
  | Err _ => inl 1
  | Ok cfg => inr cfg
  end.
