(* ===== verification/StartupSpec.v ===== *)
(** * Construction, start and stop: theorems

    A constructor that fails has closed what it opened, a hook that fails has
    closed what it started, and the stop hooks of the constructors that
    succeeded close everything else.  An application that started therefore
    closes everything when it stops; one that did not start keeps exactly what
    the hooks that fx does not run would close. *)

From S2P Require Import Prelude.
From S2P Require Import GoStrings.
From S2P Require Import Encoding.
From S2P Require Import AppError.
From S2P Require Import Platform.
From S2P Require Import RequestContext.
From S2P Require Import PathMatch.
From S2P Require Import Configuration.
From S2P Require Import Outbound.
From S2P Require Import Runtime.
From S2P Require Import ServiceBase.
From S2P Require Import Concrete.
From S2P Require Import ConfigSpec.
From S2P Require Import ConcreteWeb.
From S2P Require Import OutboundSpec.
From S2P Require Import Migration.
From S2P Require Import MigrationSpec.
From S2P Require Import Startup.
Import process.
Open Scope Z_scope.

Section startup_spec.
Context {ft : Faults}.
Implicit Types (p : Process) (own : gset handle) (h : Hook) (hs : list Hook).

(** ** Hooks that own handles *)

(** The field that remembers a handle, for those that stop hooks look up. *)
Definition flag p (x : handle) : bool :=
  match x with
  | EventBus => runtime_bus p
  | Worker n => if decide (n = "sessions") then cleaner_cancel p
                else if decide (n = "dispatch" \/ n = "clean") then runtime_cancel p else true
  | _ => true
  end.
Definition fields_ok p : Prop := forall x, x ∈ held p -> flag p x = true.

(** Starting opens at most [own], and nothing when it fails; stopping closes
    exactly [own]. *)
Record owns own h : Prop := {
  start_fields p : fields_ok p -> fields_ok (OnStart h p).2;
  start_opens p : fields_ok p -> is_ok (OnStart h p).1 = true -> held (OnStart h p).2 ⊆ own ∪ held p;
  start_fails p : fields_ok p -> is_ok (OnStart h p).1 = false -> held (OnStart h p).2 ⊆ held p;
  stop_fields p : fields_ok p -> fields_ok (OnStop h p).2;
  stop_closes p : fields_ok p -> held (OnStop h p).2 = held p ∖ own;
}.

Lemma fields_fewer p q : fields_ok p -> held q ⊆ held p -> (forall x, flag p x = true -> flag q x = true) -> fields_ok q.
Proof. intros Hp Hsub Hf x Hx. apply Hf, Hp, Hsub, Hx. Qed.
(** Unfold a hook and try every outcome of its calls. *)
Ltac unfold_calls :=
  unfold wrap, ignore, on_error, acquire, spawn, release, use, fail, set_runtime, set_cleaner, set_held,
    mbind, Proc_bind, mret, Proc_ret in *; cbn in *.
Ltac each_outcome :=
  repeat match goal with
  | |- context [match fault ?l ?a with _ => _ end] => destruct (fault l a); cbn in *
  | |- context [result_of (fault ?l ?a)] => destruct (fault l a); cbn in *
  | _ : context [match fault ?l ?a with _ => _ end] |- _ => destruct (fault l a); cbn in *
  | _ : context [result_of (fault ?l ?a)] |- _ => destruct (fault l a); cbn in *
  end.
Ltac compare_handles :=
  first [ done | discriminate
        | match goal with H : fields_ok ?p |- fields_ok _ => eapply (fields_fewer p); [exact H|clear; set_solver|intros []; cbn; repeat case_decide; done] end
        | match goal with H : fields_ok _ |- fields_ok _ =>
            intros y Hy; cbn in Hy; rewrite ?elem_of_union, ?elem_of_singleton in Hy; destruct_or? Hy; subst; try done;
            generalize (H y Hy); clear; destruct y; cbn; repeat case_decide; done
          end
        | clear; set_solver ].
Ltac solve_hook := split; intros p Hp; unfold_calls; each_outcome; try compare_handles.

(** A hook that starts nothing and closes one handle. *)
Lemma stop_hook_owns x : owns {[x]} (StopHook (release x)).
Proof. solve_hook. Qed.

Lemma scheduler_owns enabled : owns {[Worker "cron"]} (mkHook (scheduler.OnStart enabled) scheduler.OnStop).
Proof. unfold scheduler.OnStart, scheduler.OnStop. destruct enabled; solve_hook. Qed.

Lemma grpc_owns enabled : owns {[Listener "grpc"; Worker "grpc"]} (mkHook (grpcserver.start enabled) grpcserver.stop).
Proof. unfold grpcserver.start, grpcserver.stop. destruct enabled; solve_hook. Qed.

Lemma http_owns : owns {[Listener "http"; Worker "http"]} (mkHook httpserver.OnStart httpserver.OnStop).
Proof. unfold httpserver.OnStart, httpserver.OnStop. solve_hook. Qed.

(** What a field does not remember is not held. *)
Lemma not_held p x : fields_ok p -> flag p x = false -> x ∉ held p.
Proof. intros Hp Hf Hx. apply Hp in Hx. congruence. Qed.

Lemma cleaner_owns enabled : owns {[Worker "sessions"]} (mkHook (cleaner.start enabled) cleaner.stop).
Proof.
  assert (forall p, fields_ok p -> fields_ok (cleaner.stop p).2 /\ held (cleaner.stop p).2 = held p ∖ {[Worker "sessions"]}) as Hstop.
  { intros p Hp. unfold cleaner.stop. destruct (cleaner_cancel p) eqn:E; unfold_calls; (split; [compare_handles|]); [done|].
    pose proof (not_held p (Worker "sessions") Hp E). clear Hp. set_solver. }
  unfold cleaner.start. destruct enabled; (split; intros p Hp; [unfold_calls; try compare_handles..|by apply Hstop|by apply Hstop]).
Qed.

Lemma events_owns cfg store :
  owns {[EventBus; Worker "dispatch"; Worker "clean"]} (mkHook (eventbus.start cfg store) eventbus.stop).
Proof.
  assert (forall p, fields_ok p -> fields_ok (eventbus.stop p).2 /\
    held (eventbus.stop p).2 = held p ∖ {[EventBus; Worker "dispatch"; Worker "clean"]}) as Hstop.
  { intros p Hp. unfold eventbus.stop. destruct (runtime_cancel p) eqn:E1, (runtime_bus p) eqn:E2; unfold_calls;
      (split; [compare_handles|]).
    - clear; set_solver.
    - pose proof (not_held p EventBus Hp E2). clear Hp. set_solver.
    - pose proof (not_held p (Worker "dispatch") Hp E1). pose proof (not_held p (Worker "clean") Hp E1). clear Hp. set_solver.
    - pose proof (not_held p (Worker "dispatch") Hp E1). pose proof (not_held p (Worker "clean") Hp E1).
      pose proof (not_held p EventBus Hp E2). clear Hp. set_solver. }
  unfold eventbus.start. destruct (Config.EventBus.Enabled _), store; cbn [negb];
    (split; intros p Hp; [unfold_calls; each_outcome; try compare_handles..|by apply Hstop|by apply Hstop]).
Qed.

(** ** Constructors *)

(** A constructor that succeeds has appended hooks that own what it opened;
    one that fails has appended none and holds nothing more. *)
Record constructs (hs hs' : list Hook) (p p' : Process) (ok : bool) : Prop := {
  c_fields : fields_ok p';
  c_hooks : exists new owned, hs' = hs ++ new /\ Forall2 owns owned new /\ held p' ⊆ held p ∪ ⋃ owned;
  c_fails : ok = false -> hs' = hs /\ held p' ⊆ held p;
}.
Definition constructor {A} (c : Ctor A) : Prop := forall hs p, fields_ok p ->
  constructs hs (c (hs, p)).2.1 p (c (hs, p)).2.2 (is_ok (c (hs, p)).1).

Lemma constructs_none hs p p' ok : fields_ok p' -> held p' ⊆ held p -> constructs hs hs p p' ok.
Proof. intros Hf Hs. split; [done| |done]. exists [], []. rewrite app_nil_r. cbn. split_and!; [done|constructor|set_solver]. Qed.

Lemma constructs_hook hs p p' own h : owns own h -> fields_ok p' -> held p' ⊆ held p ∪ own ->
  constructs hs (hs ++ [h]) p p' true.
Proof.
  intros Ho Hf Hs. split; [done| |done]. exists [h], [own]. split_and!; [done|by constructor; [|constructor]|]. cbn. set_solver.
Qed.

(** Forgetting the result. *)
Lemma constructor_unit {A} (c : Ctor A) : constructor c -> constructor (c;; mret tt).
Proof.
  intros Hc hs p Hp. specialize (Hc hs p Hp). unfold mbind, Ctor_bind. destruct (c (hs, p)) as [[] [hs' p']]; exact Hc.
Qed.

Ltac unfold_constructor :=
  unfold constructor, mbind, Ctor_bind, lift, Append, of_Result; cbn; unfold_calls.

Lemma logger_constructor `{!Drivers, !UnicodeCase} cfg : constructor (app.newLogger cfg).
Proof.
  intros hs p Hp. unfold app.newLogger, logging.New. unfold_constructor. each_outcome.
  - apply constructs_none; [compare_handles|done].
  - destruct (parse_level _); cbn.
    + eapply constructs_hook; [apply stop_hook_owns|compare_handles|cbn; set_solver].
    + apply constructs_none; [compare_handles|done].
Qed.

Lemma tracing_constructor cfg : constructor (tracing.NewTracing cfg).
Proof.
  intros hs p Hp. unfold tracing.NewTracing. destruct (Config.Observability.TracingEnabled _); cbn [negb]; [|by apply constructs_none].
  unfold_constructor. each_outcome.
  - apply constructs_none; [compare_handles|done].
  - eapply constructs_hook; [apply stop_hook_owns|compare_handles|cbn; set_solver].
Qed.

(** Opening the pool holds the pool, and nothing more when it fails. *)
Lemma source_opened `{!Drivers} cfg p driver (r := database.open_source driver cfg p) :
  fields_ok p -> fields_ok r.2 /\ held r.2 ⊆ if is_ok r.1 then {[DatabasePool]} ∪ held p else held p.
Proof.
  intros Hp. unfold r, database.open_source, database.open_pgx, database.open_mysql, database.open_default, of_Result.
  case_decide; [|case_decide]; unfold_calls.
  - destruct (pgx_ParseConfig _) as [[[] ]|]; cbn; (split; [compare_handles|clear; set_solver]).
  - destruct (mysql_ParseDSN _) as [[]|]; cbn; [|split; [compare_handles|clear; set_solver]].
    destruct (LoadLocation _); cbn; each_outcome; (split; [compare_handles|clear; set_solver]).
  - each_outcome; (split; [compare_handles|clear; set_solver]).
Qed.

Lemma database_opened `{!Drivers, !UnicodePrint} cfg p (r := database.Open cfg p) :
  fields_ok p -> fields_ok r.2 /\ held r.2 ⊆ if is_ok r.1 then {[DatabasePool]} ∪ held p else held p.
Proof.
  intros Hp. unfold r, database.Open, of_Result, mbind, Proc_bind. destruct (database.driverName _) as [driver|e]; [|done].
  pose proof (source_opened cfg p driver Hp) as Hs. cbv zeta in Hs.
  destruct (database.open_source driver cfg p) as [[source|e] q]; [|done]. destruct Hs as [H1 H2]. cbn in H1, H2. unfold_calls. each_outcome; (split; [compare_handles|revert H2; clear; set_solver]).
Qed.

Lemma database_constructor `{!Drivers, !UnicodePrint} cfg : constructor (app.newDatabase cfg).
Proof.
  intros hs p Hp. unfold app.newDatabase. destruct (Config.Database.Enabled _); cbn [negb]; [|by apply constructs_none].
  unfold mbind, Ctor_bind, lift, Append. pose proof (database_opened (Config.Database cfg) p Hp) as [H1 H2].
  destruct (database.Open _ p) as [[db|e] q]; cbn in *.
  - eapply constructs_hook; [apply stop_hook_owns|done|set_solver].
  - by apply constructs_none.
Qed.

Lemma redis_constructor cfg enabled : constructor (app.newRedis cfg enabled).
Proof.
  intros hs p Hp. unfold app.newRedis, cache.Open. destruct (Config.Redis.Enabled _); cbn [negb]; [|by apply constructs_none].
  unfold_constructor. each_outcome; [apply constructs_none; [compare_handles|cbn; set_solver]|].
  destruct enabled; cbn; each_outcome.
  - apply constructs_none; [compare_handles|cbn; set_solver].
  - eapply constructs_hook; [apply stop_hook_owns|compare_handles|cbn; set_solver].
  - eapply constructs_hook; [apply stop_hook_owns|compare_handles|cbn; set_solver].
Qed.

Lemma store_constructor db : constructor (eventbus.newIdentityOutboxStore db).
Proof.
  intros hs p Hp. unfold eventbus.newIdentityOutboxStore. destruct db; cbn [negb]; [|by apply constructs_none].
  unfold_constructor. each_outcome; apply constructs_none; (compare_handles || done).
Qed.

Lemma events_constructor cfg store : constructor (eventbus.newEventRuntime cfg store).
Proof. intros hs p Hp. eapply constructs_hook; [apply events_owns|done|set_solver]. Qed.

Lemma cleaner_constructor store logger cfg : constructor (cleaner.NewSessionCleaner store logger cfg).
Proof.
  intros hs p Hp. unfold cleaner.NewSessionCleaner. destruct store; cbn [negb]; [|by apply constructs_none].
  destruct logger; cbn [negb]; [|by apply constructs_none]. eapply constructs_hook; [apply cleaner_owns|done|set_solver].
Qed.

Lemma scheduler_constructor `{!Drivers} cfg : constructor (scheduler.New cfg).
Proof.
  intros hs p Hp. unfold scheduler.New. unfold_constructor. destruct (LoadLocation _); cbn; [|by apply constructs_none].
  case_decide; cbn; each_outcome.
  - apply constructs_none; [compare_handles|done].
  - eapply constructs_hook; [apply scheduler_owns|compare_handles|cbn; set_solver].
  - eapply constructs_hook; [apply scheduler_owns|compare_handles|cbn; set_solver].
Qed.

Lemma http_constructor cfg : constructor (httpserver.NewServer cfg).
Proof.
  intros hs p Hp. unfold httpserver.NewServer. unfold_constructor. each_outcome.
  - apply constructs_none; [compare_handles|done].
  - eapply constructs_hook; [apply http_owns|compare_handles|cbn; set_solver].
Qed.

Lemma grpc_constructor {pf : Platform} {nw : Network} cfg : constructor (grpcserver.NewServer cfg).
Proof.
  intros hs p Hp. unfold grpcserver.NewServer. unfold_constructor. destruct (Config.GRPCTLS.Enabled _); cbn.
  - destruct (grpcserver.serverCredentials _); cbn; [|by apply constructs_none].
    eapply constructs_hook; [apply grpc_owns|done|set_solver].
  - eapply constructs_hook; [apply grpc_owns|done|set_solver].
Qed.

(** *** Outbound connections *)
Section connections.
Context {pf : Platform} {cx : Contexts} {nw : Network} {up : UnicodePrint} {mo : MapOrder} {ml : MapOrderLaws}.

Definition upstreams (names : list string) : gset handle := list_to_set (Upstream <$> names).

Lemma close_closes names p :
  held (connections.close names p).2 = held p ∖ upstreams names /\ (fields_ok p -> fields_ok (connections.close names p).2).
Proof.
  revert p. induction names as [|name names IH]; intros p; cbn; [split; [set_solver|done]|]. unfold release. cbn.
  match goal with |- context [connections.close names ?q] => destruct (IH q) as [H1 H2]; destruct (connections.close names q) as [r q'] end.
  cbn in *. split; [rewrite H1; unfold upstreams; cbn; set_solver|]. intros Hp. apply H2. compare_handles.
Qed.

Lemma upstreams_range names : upstreams (map_range names) = upstreams names.
Proof. unfold upstreams. apply list_to_set_perm_L. apply fmap_Permutation, map_range_perm. Qed.

Lemma close_owns names : owns (upstreams names) (StopHook (connections.close (map_range names))).
Proof.
  split; intros p Hp; cbn; try done; [set_solver|by apply close_closes|].
  destruct (close_closes (map_range names) p) as [-> _]. by rewrite upstreams_range.
Qed.

(** A failed dial closes what was dialled before. *)
Lemma dial_all_opens metrics l opened p (base : gset handle) : fields_ok p -> held p ⊆ base ∪ upstreams opened ->
  let r := connections.dial_all metrics l opened p in
  fields_ok r.2 /\ match r.1 with Ok opened' => held r.2 ⊆ base ∪ upstreams opened' | Err _ => held r.2 ⊆ base end.
Proof.
  revert opened p. induction l as [|[name u] l IH]; intros opened p Hp Hb; cbn; [done|].
  destruct (grpcclient.Dial _) as [c|e].
  - unfold mbind, Proc_bind, spawn. apply IH; [compare_handles|]. unfold set_held. cbn. unfold upstreams in *.
    rewrite fmap_app, list_to_set_app_L. cbn. set_solver.
  - unfold mbind, Proc_bind, ignore, fail. destruct (close_closes (map_range opened) p) as [H1 H2]. cbn. split; [by apply H2|].
    rewrite H1, upstreams_range. set_solver.
Qed.

Lemma registry_constructor cfg metrics : constructor (connections.NewRegistry cfg metrics).
Proof.
  intros hs p Hp. unfold connections.NewRegistry, of_Result, mbind, Ctor_bind, lift. cbn.
  destruct (registry.add_http _ _ _); [|by apply constructs_none]. set (l := map_range _).
  destruct (dial_all_opens metrics l [] p (held p) Hp) as [H1 H2]; [set_solver|].
  destruct (connections.dial_all metrics l [] p) as [[opened|e] q]; cbn in *.
  - eapply constructs_hook; [apply close_owns|done|done].
  - by apply constructs_none.
Qed.
End connections.

(** ** The lifecycle *)
Section lifecycle.
Context {fx : Fx} {fl : FxLaws}.

Lemma stop_all owned hs p : Forall2 owns owned hs -> fields_ok p ->
  fields_ok (stop_hooks hs p) /\ held (stop_hooks hs p) = held p ∖ ⋃ owned.
Proof.
  intros Ho Hp. induction Ho as [|own h owned hs Hown Ho [H1 H2]]; [split; [done|cbn; set_solver]|].
  change (stop_hooks (h :: hs) p) with (OnStop h (stop_hooks hs p)).2. split; [by eapply stop_fields|].
  rewrite (stop_closes own h Hown _ H1), H2. set_solver.
Qed.

(** Starting opens at most what the hooks own; if it fails, there is a first
    hook that failed. *)
Lemma start_all owned hs p : Forall2 owns owned hs -> fields_ok p ->
  match start_hooks hs p with
  | (Ok _, started, q) => started = hs /\ fields_ok q /\ held q ⊆ held p ∪ ⋃ owned
  | (Err _, started, q) => exists h after p1, hs = started ++ h :: after /\
      start_hooks started p = (Ok tt, started, p1) /\ is_ok (OnStart h p1).1 = false /\ q = (OnStart h p1).2
  end.
Proof.
  intros Ho. revert p. induction Ho as [|own h owned hs Hown Ho IH]; intros p Hp; cbn [start_hooks]; [split_and!; [done|done|cbn; set_solver]|].
  pose proof (start_fields own h Hown p Hp) as H1. pose proof (start_opens own h Hown p Hp) as H2.
  destruct (OnStart h p) as [[[]|e] p1] eqn:E; cbn in *; [|by exists h, hs, p; rewrite E].
  specialize (H2 eq_refl). specialize (IH p1 H1). destruct (start_hooks hs p1) as [[[[]|e] started] q].
  - destruct IH as (-> & H3 & H4). split_and!; [done|done|]. revert H2 H4. clear. set_solver.
  - destruct IH as (h' & after & p2 & -> & H3 & H4 & ->). exists h', after, p2. cbn. by rewrite E, H3.
Qed.

(** The state after a start that failed and was rolled back. *)
Lemma rolled_back owned1 own owned2 before h after p p1 :
  Forall2 owns owned1 before -> owns own h -> Forall2 owns owned2 after -> fields_ok p ->
  held p ⊆ ⋃ (owned1 ++ own :: owned2) ->
  start_hooks before p = (Ok tt, before, p1) -> is_ok (OnStart h p1).1 = false ->
  let q := stop_hooks before (OnStart h p1).2 in
  held q ⊆ held (stop_hooks before p) /\ held (stop_hooks (h :: after) q) = ∅.
Proof.
  intros Hb Hh Ha Hp Hheld Hs Hf q. pose proof (start_all owned1 before p Hb Hp) as Hall. rewrite Hs in Hall.
  destruct Hall as (_ & Hp1 & Hopen). pose proof (start_fields own h Hh p1 Hp1) as Hp2. pose proof (start_fails own h Hh p1 Hp1 Hf) as Hfail.
  destruct (stop_all owned1 before p Hb Hp) as [_ Hbefore]. destruct (stop_all owned1 before _ Hb Hp2) as [Hq Hstop].
  destruct (stop_all (own :: owned2) (h :: after) q ltac:(by constructor) Hq) as [_ Hrest].
  assert (held q ⊆ held p ∖ ⋃ owned1) as Hsub by (unfold q; rewrite Hstop; revert Hfail Hopen; clear; set_solver).
  split; [by rewrite Hbefore|]. rewrite Hrest. rewrite union_list_app_L in Hheld. revert Hsub Hheld. clear. set_solver.
Qed.

Context {dr : Drivers} {pf : Platform} {cx : Contexts} {nw : Network} {up : UnicodePrint} {uc : UnicodeCase}
  {mo : MapOrder} {ml : MapOrderLaws} {us : URLs} {mg : Migrate}.

(** A constructor that only computes. *)
Lemma value_constructor (r : Result unit) : constructor (lift (of_Result r)).
Proof. intros hs p Hp. by apply constructs_none. Qed.

Lemma provided_constructor cfg c : app.provided cfg c -> constructor c.
Proof.
  destruct 1; try apply constructor_unit; eauto using logger_constructor, tracing_constructor, database_constructor,
    redis_constructor, store_constructor, events_constructor, cleaner_constructor, registry_constructor,
    scheduler_constructor, grpc_constructor, http_constructor, value_constructor.
Qed.

(** Whether or not all constructors succeeded, hooks own what is held. *)
Lemma construct_owned cfg cs hs p : Forall (app.provided cfg) cs -> fields_ok p ->
  fields_ok (app.construct cs (hs, p)).2.2 /\
  exists new owned, (app.construct cs (hs, p)).2.1 = hs ++ new /\ Forall2 owns owned new /\
    held (app.construct cs (hs, p)).2.2 ⊆ held p ∪ ⋃ owned.
Proof.
  intros Hcs. revert hs p. induction Hcs as [|c cs Hc Hcs IH]; intros hs p Hp; cbn [app.construct].
  - split; [done|]. exists [], []. rewrite app_nil_r. cbn. split_and!; [done|constructor|set_solver].
  - pose proof (provided_constructor cfg c Hc hs p Hp) as [H1 (new & owned & H2 & H3 & H4) _].
    unfold mbind, Ctor_bind. destruct (c (hs, p)) as [[[]|e] [hs1 p1]]; cbn in H1, H2, H4 |- *; [|split; [done|by exists new, owned]].
    destruct (IH hs1 p1 H1) as [H5 (new' & owned' & H6 & H7 & H8)]. split; [done|]. exists (new ++ new'), (owned ++ owned').
    split_and!; [by rewrite H6, H2, app_assoc|by apply Forall2_app|]. rewrite union_list_app_L. revert H4 H8. clear. set_solver.
Qed.

Definition boot : Process := mkProcess [] ∅ false false false.

(** C23: Construction, start and stop of the application, for any constructors in
    any order, of which any may fail, within the timeouts.  The stop hooks
    appended so far close all that is open.  If the application starts, then
    stopping it closes every listener, connection, goroutine and file.  If a
    constructor failed, starting fails and closes nothing.  If a start hook
    failed, the hooks before it were stopped, the start leaves nothing open that
    was not open before it, and what is left is what the stop hooks from the
    failed one on would close; stopping then changes nothing. *)
Theorem lifecycle_releases cfg cs r hs p :
  Forall (app.provided cfg) cs -> app.construct cs ([], boot) = (r, (hs, p)) ->
  held (stop_hooks hs p) = ∅ /\
  match fx_Start (fx_New r hs) p with
  | (Ok _, (a, q)) => r = Ok tt /\ held (fx_Stop a q).2.2 = ∅
  | (Err _, (a, q)) =>
      (fx_Stop a q).2.2 = q /\
      match r with
      | Err _ => q = p
      | Ok _ => exists before h after p1, hs = before ++ h :: after /\
          start_hooks before p = (Ok tt, before, p1) /\ is_ok (OnStart h p1).1 = false /\
          held q ⊆ held (stop_hooks before p) /\ held (stop_hooks (h :: after) q) = ∅
      end
  end.
Proof.
  intros Hcs Hr. destruct (construct_owned cfg cs [] boot Hcs) as [Hp (new & owned & Hnew & Howns & Hheld)]; [by intros x Hx%elem_of_empty|].
  rewrite Hr in *. cbn in *. subst hs. assert (held p ⊆ ⋃ owned) as Hsub by (revert Hheld; clear; set_solver).
  split; [destruct (stop_all owned new p Howns Hp) as [_ ->]; revert Hsub; clear; set_solver|].
  destruct r as [[]|e].
  - destruct (Start_hooks new p) as (r & a & q & -> & Hs). pose proof (start_all owned new p Howns Hp) as Hall.
    destruct (Stop_running a q) as [Hstop _]. destruct (start_hooks new p) as [[[[]|e] started] p1].
    + destruct Hs as (-> & Ha & ->), Hall as (_ & Hq & Hopen). split; [done|]. rewrite Hstop, Ha.
      destruct (stop_all owned new p1 Howns Hq) as [_ ->]. revert Hsub Hopen. clear. set_solver.
    + destruct Hs as (Hfail & Ha & ->), Hall as (h & after & p2 & -> & H1 & H2 & ->). destruct r as [|e']; [done|].
      split; [by rewrite Hstop, Ha|]. apply Forall2_app_inv_r in Howns as (owned1 & owned' & Hb & Hrest & ->).
      apply Forall2_cons_inv_r in Hrest as (own & owned2 & Hh & Ha2 & ->). exists started, h, after, p2. split_and!; [done..| |];
        by eapply (rolled_back owned1 own owned2).
  - destruct (Start_unconstructed e new p) as (a & -> & Ha). split; [|done].
    destruct (Stop_running a p) as [-> _]. by rewrite Ha.
Qed.

(** A worker loop whose context is done at some wake-up ends there. *)
Lemma worker_stops round n wakes p : exists q,
  eventbus.worker_loop round (replicate n eventbus.Tick ++ eventbus.Done :: wakes) p = (Ok true, q).
Proof. revert p. induction n as [|n IH]; intros p; cbn; [by eexists|]. apply IH. Qed.

(** The scheduled job runs only while its lock is held, and the lock is given
    back; a lock that cannot be asked for is an error, a lock that another
    process holds is not. *)
Definition job_call : effect := Use "sample scheduled job executed" [].
Lemma sample_job_locked p r q :
  scheduler.runSample true p = (r, q) -> Lock "cron:sample" ∉ held p ->
  held q = held p /\
  ((exists call, history q = history p ++ [call] /\ call <> job_call) \/
   (r = Ok tt /\ history q = history p ++ [Acquire (Lock "cron:sample"); job_call; Release (Lock "cron:sample")])).
Proof.
  intros Hr Hl. revert Hr. unfold scheduler.runSample, scheduler.TryLock, scheduler.job. cbn [negb]. unfold_calls.
  destruct (lock_taken _ _); cbn; each_outcome; intros [= <- <-]; cbn.
  - split; [done|]. left. by eexists.
  - split; [done|]. left. by eexists.
  - split; [done|]. left. by eexists.
  - split; [revert Hl; clear; set_solver|]. right. split; [done|]. by rewrite <- !app_assoc.
Qed.
End lifecycle.
End startup_spec.

(** ** A concrete process *)
Module ConcreteStartup.
Import Concrete ConcreteConfig ConcreteWeb ConcreteNet.
#[local] Existing Instance contexts.

(** The gRPC address is in use; everything else works. *)
#[global] Instance port_taken : Faults := fun _ a =>
  match a with
  | Acquire (Listener "grpc") => Some (ErrorsNew "address already in use")
  | _ => None
  end.

#[global] Instance drivers : Drivers := {|
  pgx_ParseConfig := fun dsn => Ok ("postgres", ∅, dsn);
  mysql_ParseDSN := fun dsn => Ok ("mysql", dsn);
  mysql_FormatDSN := fun database location rest => database +:+ "?" +:+ location +:+ rest;
  LoadLocation := fun name => Ok name;
  filepath_Dir := fun file => "logs";
  parse_level := fun level => Ok level;
  lock_taken := fun _ _ => false |}.

(** An application is its construction error, its hooks and how many run. *)
Record Application := mkApp { made : Result unit; appended : list Hook; up_hooks : list Hook }.
Definition start_app (a : Application) (p : Process) : Result unit * (Application * Process) :=
  match made a with
  | Err e => (Err e, (mkApp (Err e) (appended a) [], p))
  | Ok _ =>
      match start_hooks (appended a) p with
      | (Ok _, started, q) => (Ok tt, (mkApp (made a) (appended a) started, q))
      | (Err e, started, q) => (Err e, (mkApp (made a) (appended a) [], stop_hooks started q))
      end
  end.
#[global] Instance fx : Fx := {|
  App := Application;
  fx_New := fun r hs => mkApp r hs [];
  fx_Start := start_app;
  fx_Stop := fun a p => (Ok tt, (mkApp (made a) (appended a) [], stop_hooks (up_hooks a) p));
  running := up_hooks |}.

Lemma started_all hs p : (start_hooks hs p).1.1 = Ok tt -> (start_hooks hs p).1.2 = hs.
Proof.
  revert p. induction hs as [|h hs IH]; intros p; cbn; [done|]. destruct (OnStart h p) as [[[]|e] p1]; cbn; [|done].
  specialize (IH p1). destruct (start_hooks hs p1) as [[[[]|e] started] q]; cbn in *; [|done]. intros _. by rewrite IH.
Qed.
#[global] Instance fx_laws : FxLaws.
Proof.
  split; [done|by intros; eexists| |done]. intros hs p. cbn. unfold start_app. cbn. pose proof (started_all hs p) as Hall.
  destruct (start_hooks hs p) as [[[[]|e] started] q]; do 3 eexists; (split; [reflexivity|]); cbn in *; [by rewrite Hall|done].
Qed.

#[global] Instance same_case : UnicodeCase := {| unicode_lower := fun r => r; unicode_upper := fun r => r |}.

(** The constructors in an order that fx may choose. *)
Definition cfg : Config.t := deployed "https://billing/".
Definition constructors : list (Ctor unit) :=
  [app.newLogger cfg;; mret tt; tracing.NewTracing cfg;; mret tt; app.newDatabase cfg;; mret tt; app.newRedis cfg false;; mret tt;
   app.invoke_migration [] cfg; eventbus.newIdentityOutboxStore true;; mret tt; eventbus.newEventRuntime cfg true; cleaner.NewSessionCleaner true true cfg;; mret tt;
   connections.NewRegistry (pf := @wp_platform libs) (nw := net) cfg true;; mret tt; scheduler.New cfg;
   grpcserver.NewServer (pf := @wp_platform libs) (nw := net) cfg;; mret tt; httpserver.NewServer cfg].
Definition built : Result unit * (list Hook * Process) := app.construct constructors ([], boot).
End ConcreteStartup.

Section witnesses.
Import Concrete ConcreteConfig ConcreteWeb ConcreteNet ConcreteStartup.
#[local] Existing Instance contexts.

(** The constructors open five handles; the start fails at the gRPC port and
    leaves no worker, and stopping changes nothing. *)
Definition failed_start (hs : list Hook) (p : Process) : bool :=
  let '(r, (a, q)) := fx_Start (fx_New (Ok tt) hs) p in
  negb (is_ok r) && bool_decide (held q ## {[Worker "sessions"; Worker "cron"]} /\ size (held p) = 5%nat).

Lemma lifecycle_witness : exists hs p, built = (Ok tt, (hs, p)) /\ failed_start hs p = true /\
  match fx_Start (fx_New (Ok tt) hs) p with
  | (_, (a, q)) => (fx_Stop a q).2.2 = q /\ exists before h after, hs = before ++ h :: after /\ held q ⊆ held (stop_hooks before p)
  end.
Proof.
  assert (let '(r, (hs, p)) := built in is_ok r = true /\ failed_start hs p = true) as Hb by (vm_compute; split; reflexivity).
  destruct built as [[[]|e] [hs p]] eqn:E; [|destruct Hb; discriminate]. exists hs, p. split; [reflexivity|]. destruct Hb as [_ Hb].
  split; [exact Hb|].
  assert (Forall (app.provided (pf := @wp_platform libs) (nw := net) cfg) constructors) as Hall by (repeat constructor).
  destruct (lifecycle_releases (pf := @wp_platform libs) (nw := net) cfg constructors (Ok tt) hs p Hall E) as [_ H2].
  unfold failed_start in Hb. destruct (fx_Start (fx_New (Ok tt) hs) p) as [[u|e] [a q]]; [discriminate Hb|].
  destruct H2 as (H3 & before & h & after & p1 & H4 & _ & _ & H5 & _). split; [exact H3|]. exists before, h, after. split; [exact H4|exact H5].
Defined.
End witnesses.
