(* ===== verification/GrpcStream.v ===== *)
(** * gRPC streams, panics and metrics

    The stream interceptors of [internal/transport/grpc/server.go] in the
    order of [NewServer], and the recovery and metrics interceptors of both
    kinds of calls.  A handler may panic; what it leaves behind is the world
    and the calls that were counted.  No method of the service streams, but
    the reflection and health services do. *)

From S2P Require Import Prelude.
From S2P Require Import GoStrings.
From S2P Require Import AppError.
From S2P Require Import Platform.
From S2P Require Import Configuration.
From S2P Require Import Model.
From S2P Require Import Runtime.
From S2P Require Import RequestContext.
From S2P Require Import ServiceBase.
From S2P Require Import Auth.
From S2P Require Import Json.
From S2P Require Import Http.
From S2P Require Import Middleware.
From S2P Require Import Grpc.
Open Scope Z_scope.

(** The world, and the counter of requests by method and code; no code is [OK]. *)
Record CallState := mkCallState { st_world : World; st_counted : list (string * option grpc_code) }.

(** A call returns, or panics. *)
Inductive ended (A : Type) := Returned (r : Res status A) | Panicked.
Arguments Returned {A}. Arguments Panicked {A}.

Definition Call (A : Type) : Type := CallState -> ended A * CallState.
(** A handler of calls whose context is the argument; a stream returns only an
    error or nil. *)
Abbreviation UnaryHandler A := (Ctx -> Call A).
Abbreviation StreamHandler := (Ctx -> Call unit).

Class StreamLibs {libs : Libs} := {
  (** [stream.SetHeader(metadata.Pairs("x-request-id", id))]. *)
  SetHeader : Ctx -> string -> option error;
  (** [authn.StreamServerInterceptor(policy)] at a method. *)
  authn_StreamServerInterceptor : Policy -> string -> StreamHandler -> StreamHandler;
}.

(** An error, without an effect. *)
Definition refused (s : CallState) (r : ended unit * CallState) : Prop :=
  (exists e, r.1 = Returned (Err e)) /\ w_log (st_world r.2) = w_log (st_world s) /\ st_counted r.2 = st_counted s.

(** Documented behaviour: the interceptor refuses, or calls the handler once
    with an authenticated context. *)
Class StreamLaws {libs : Libs} {sl : StreamLibs} {an : Authn} := {
  authn_stream p method (h : StreamHandler) ctx s :
    (forall c raw, ReadOnly (Bearer p c raw)) ->
    refused s (authn_StreamServerInterceptor p method h ctx s) \/
    exists authorization ctx' w1, policy_Authenticate p ctx method authorization (st_world s) = (Ok ctx', w1) /\
      authn_StreamServerInterceptor p method h ctx s = h ctx' (mkCallState w1 (st_counted s));
}.

Module interceptors.
Section interceptors.
Context {libs : Libs} {env : Env} {cx : Contexts} {hs : HMACJWT} {an : Authn} {gl : GrpcLibs} {sl : StreamLibs}.

(** The deferred [recover]. *)
Definition recoveryInterceptor {A} (handler : UnaryHandler A) (ctx : Ctx) : Call A := fun s =>
  match handler ctx s with
  | (Panicked, s') => (Returned (Err (GInternal, "internal server error")), s')
  | r => r
  end.
Definition recoveryStreamInterceptor (handler : StreamHandler) (ctx : Ctx) : Call unit := fun s =>
  match handler ctx s with
  | (Panicked, s') => (Returned (Err (GInternal, "internal server error")), s')
  | r => r
  end.

(** [status.Code(err)]. *)
Definition Code {A} (r : Res status A) : option grpc_code := match r with Ok _ => None | Err e => Some e.1 end.
Definition count (method : string) (code : option grpc_code) (s : CallState) : CallState :=
  mkCallState (st_world s) (st_counted s ++ [(method, code)]).

(** A panic passes; a call that returns is counted. *)
Definition metricsInterceptor {A} (enabled : bool) (method : string) (handler : UnaryHandler A) (ctx : Ctx) : Call A := fun s =>
  match handler ctx s with
  | (Returned r, s') => (Returned r, if enabled then count method (Code r) s' else s')
  | (Panicked, s') => (Panicked, s')
  end.
Definition metricsStreamInterceptor (enabled : bool) (method : string) (handler : StreamHandler) (ctx : Ctx) : Call unit := fun s =>
  match handler ctx s with
  | (Returned r, s') => (Returned r, if enabled then count method (Code r) s' else s')
  | (Panicked, s') => (Panicked, s')
  end.

Definition environmentStreamInterceptor (profile : string) (handler : StreamHandler) (ctx : Ctx) : Call unit :=
  handler (environment.WithContext ctx profile).

Definition fail (e : status) : Call unit := fun s => (Returned (Err e), s).

Definition requestIDStreamInterceptor (handler : StreamHandler) (ctx : Ctx) : Call unit := fun s =>
  let id := match ValueFromIncomingContext ctx "x-request-id" with
            | v :: _ => if requestid.Valid v then v else ""
            | [] => ""
            end in
  let '(id, w) := if decide (id = "") then requestid.Generate (st_world s) else (Ok id, st_world s) in
  match id with
  | Err e => (Returned (Err (grpcError e)), mkCallState w (st_counted s))
  | Ok id =>
      match SetHeader ctx id with
      | Some _ => (Returned (Err (GInternal, "set request metadata")), mkCallState w (st_counted s))
      | None => handler (requestid.WithContext ctx id) (mkCallState w (st_counted s))
      end
  end.

Definition idempotencyStreamInterceptor (handler : StreamHandler) (ctx : Ctx) : Call unit :=
  match ValueFromIncomingContext ctx "idempotency-key" with
  | [] => handler ctx
  | v :: _ =>
      if negb (idempotency.Valid v) then fail (GInvalidArgument, "invalid idempotency-key")
      else handler (idempotency.WithContext ctx v)
  end.

Definition authStreamInterceptor (service : auth.Service) (cfg : Config.Auth.t) (method : string)
    (handler : StreamHandler) : StreamHandler :=
  authn_StreamServerInterceptor (auth.GRPCPolicy service cfg) method handler.

(** The stream chain of [NewServer]. *)
Definition stream_chain (cfg : Config.t) (service : auth.Service) (metrics : bool) (method : string) (handler : StreamHandler)
    : StreamHandler :=
  environmentStreamInterceptor (Config.Runtime.ActiveProfile (Config.Runtime cfg))
    (requestIDStreamInterceptor
      (idempotencyStreamInterceptor
        (recoveryStreamInterceptor
          (authStreamInterceptor service (Config.Auth cfg) method
            (metricsStreamInterceptor metrics method handler))))).
End interceptors.
End interceptors.
