(* ===== verification/GrpcStreamSpec.v ===== *)
(** * gRPC streams: theorems

    A stream's handler runs only past authentication, with a request id; no
    panic leaves the server; every stream that returns is counted once.  The
    recovery and metrics interceptors of unary calls pass on the reply and the
    world of a call that returns. *)

From S2P Require Import Prelude.
From S2P Require Import GoStrings.
From S2P Require Import AppError.
From S2P Require Import Platform.
From S2P Require Import Configuration.
From S2P Require Import Model.
From S2P Require Import Runtime.
From S2P Require Import RequestContext.
From S2P Require Import Guarantee.
From S2P Require Import ServiceBase.
From S2P Require Import Concrete.
From S2P Require Import Auth.
From S2P Require Import Json.
From S2P Require Import Http.
From S2P Require Import HttpLogic.
From S2P Require Import Middleware.
From S2P Require Import Grpc.
From S2P Require Import GrpcStream.
From S2P Require Import ConcreteWeb.
From S2P Require Import GrpcSpec.
Import interceptors.
Open Scope Z_scope.

Section stream_spec.
Context {libs : Libs} {env : Env} {cx : Contexts} {hs : HMACJWT} {an : Authn} {gl : GrpcLibs} {sl : StreamLibs}.
Context {al : AuthnLaws} {tl : StreamLaws}.

Lemma requestid_stream (h : StreamHandler) ctx s :
  refused s (requestIDStreamInterceptor h ctx s) \/
  exists id w, w_log w = w_log (st_world s) /\
    requestIDStreamInterceptor h ctx s = h (requestid.WithContext ctx id) (mkCallState w (st_counted s)).
Proof.
  unfold requestIDStreamInterceptor. set (id := match _ with [] => _ | _ => _ end).
  assert (exists r w, (if decide (id = "") then requestid.Generate (st_world s) else (Ok id, st_world s)) = (r, w) /\
    w_log w = w_log (st_world s)) as (r & w & -> & Hw).
  { case_decide; [|by eauto]. pose proof (ReadOnly_Generate (st_world s)) as Hg. destruct (requestid.Generate (st_world s)) as [r w]. by eauto. }
  destruct r as [i|e]; [|left; split; [by eauto|done]]. destruct (SetHeader ctx i); [left; split; [by eauto|done]|].
  right. by exists i, w.
Qed.

Lemma idempotency_stream (h : StreamHandler) ctx s :
  refused s (idempotencyStreamInterceptor h ctx s) \/ exists ctx', idempotencyStreamInterceptor h ctx s = h ctx' s.
Proof.
  unfold idempotencyStreamInterceptor. destruct (ValueFromIncomingContext ctx "idempotency-key") as [|v l]; [by right; exists ctx|].
  destruct (idempotency.Valid v); cbn [negb]; [by right; eexists|]. left. split; [by eexists|done].
Qed.

(** A unary call as the chain of [Grpc] has it: it returns and counts nothing. *)
Definition as_call {A} (h : Ctx -> RPC A) : UnaryHandler A := fun ctx s =>
  let '(r, w) := h ctx (st_world s) in (Returned r, mkCallState w (st_counted s)).

(** Around such a call, recovery and metrics change neither the reply nor the
    world, wherever they are in the chain; the call is counted once. *)
Lemma recovery_and_metrics_pass {A} enabled method (h : Ctx -> RPC A) ctx s (r := h ctx (st_world s)) :
  recoveryInterceptor (as_call h) ctx s = as_call h ctx s /\
  metricsInterceptor enabled method (as_call h) ctx s =
    (Returned r.1, mkCallState r.2 (st_counted s ++ if enabled then [(method, Code r.1)] else [])).
Proof.
  unfold r, recoveryInterceptor, metricsInterceptor, as_call. destruct (h ctx (st_world s)) as [x w]. split; [done|].
  destruct enabled; cbn; [done|by rewrite app_nil_r].
Qed.

(** What the server makes of a handler's end. *)
Definition answer_of (metrics : bool) (method : string) (r : ended unit * CallState) : ended unit * CallState :=
  match r with
  | (Returned e, s) => (Returned e, if metrics then count method (Code e) s else s)
  | (Panicked, s) => (Returned (Err (GInternal, "internal server error")), s)
  end.

(** C27: A stream is either refused with an error and without any effect, or
    authentication was passed for the method and the handler ran once with the
    context it produced: its result is the answer and is counted once, and
    a panic is answered with the generic internal error. *)
Theorem stream_admitted cfg ids metrics method (h : StreamHandler) ctx s :
  let service := auth.NewWithIdentity cfg ids in
  let r := stream_chain cfg service metrics method h ctx s in
  refused s r \/
  exists ctx0 w0 authorization ctx' w1,
    w_log w0 = w_log (st_world s) /\ w_log w1 = w_log (st_world s) /\
    authentication_passed (auth.GRPCPolicy service (Config.Auth cfg)) ctx0 method authorization w0 ctx' w1 /\
    r = answer_of metrics method (h ctx' (mkCallState w1 (st_counted s))).
Proof.
  intros service r. unfold r, stream_chain, environmentStreamInterceptor. clear r.
  match goal with |- context [requestIDStreamInterceptor ?h ?c s] => destruct (requestid_stream h c s) as [|(id & w0 & L0 & ->)] end; [by left|].
  match goal with |- context [idempotencyStreamInterceptor ?h ?c ?s0] =>
    destruct (idempotency_stream h c s0) as [(E & H1 & H2)|(ctx0 & ->)] end; [left; split; [done|]; split; [cbn in *; congruence|done]|].
  unfold recoveryStreamInterceptor, authStreamInterceptor.
  assert (forall c raw, ReadOnly (Bearer (auth.GRPCPolicy service (Config.Auth cfg)) c raw)) as Hro by (intros; apply ReadOnly_bearer).
  match goal with |- context [authn_StreamServerInterceptor ?p ?m ?h ?c ?s0] =>
    destruct (authn_stream p m h c s0 Hro) as [(E & H1 & H2)|(au & ctx' & w1 & Ha & ->)] end.
  - left. destruct E as [e E]. destruct (authn_StreamServerInterceptor _ _ _ _ _) as [r s']. cbn in *. subst r.
    split; [by eexists|]. cbn. split; [congruence|done].
  - right. cbn in Ha. pose proof (authenticate_readonly _ ctx0 method au Hro w0) as L1. rewrite Ha in L1. cbn in L1.
    exists ctx0, w0, au, ctx', w1. split_and!; [done|congruence|by apply authenticate_sound|].
    unfold metricsStreamInterceptor. cbn. by destruct (h ctx' _) as [[] s'].
Qed.
End stream_spec.

(** ** A concrete instance *)
Module ConcreteStream.
Import Concrete ConcreteWeb.

#[global] Instance stream_libs : @StreamLibs libs := {|
  SetHeader := fun _ _ => None;
  authn_StreamServerInterceptor := fun p method h ctx s =>
    match authenticate p ctx method (default "" (head (metadata_values ctx "authorization"))) (st_world s) with
    | (Ok ctx', w') => h ctx' (mkCallState w' (st_counted s))
    | (Err _, w') => (Returned (Err (GUnauthenticated, "unauthenticated")), mkCallState w' (st_counted s))
    end |}.
#[global] Instance stream_laws : @StreamLaws libs stream_libs authn.
Proof.
  split. intros p method h ctx s Hb. simpl. set (au := default "" _).
  pose proof (authenticate_readonly (an := authn) p ctx method au Hb (st_world s)) as Hlog.
  destruct (authenticate p ctx method au (st_world s)) as [[ctx'|e] w'] eqn:E.
  - right. by exists au, ctx', w'.
  - left. unfold policy_Authenticate, authn in Hlog. rewrite E in Hlog. split; [by eexists|]. split; [exact Hlog|done].
Qed.
End ConcreteStream.

Section witnesses.
Import Concrete ConcreteWeb ConcreteStream.
#[local] Instance stream_env : Env := quiet noon 0.

Definition reflection : string := "/grpc.reflection.v1.ServerReflection/ServerReflectionInfo".
Definition panicking (ctx : @Ctx (@wp_platform libs)) : Call unit := fun s => (Panicked, s).
Definition stream_answer (ctx : context) : ended unit * CallState :=
  stream_chain (cx := contexts) (hs := hmac) cfg auth_service true reflection panicking (ctx : @Ctx (@wp_platform libs))
    (mkCallState (start db) []).
Definition internal (r : ended unit * CallState) : bool :=
  match r.1 with Returned (Err (GInternal, _)) => true | _ => false end.

(** With a token the handler runs and its panic is answered; without one the
    stream is refused. *)
Lemma stream_witness :
  internal (stream_answer (call_as "admin" "service_account")) = true /\
  internal (stream_answer (mkContext None None None None [])) = false /\
  refused (mkCallState (start db) []) (stream_answer (mkContext None None None None [])).
Proof.
  split; [vm_compute; reflexivity|]. assert (internal (stream_answer (mkContext None None None None [])) = false) as Hf
    by (vm_compute; reflexivity). split; [exact Hf|].
  destruct (stream_admitted (libs := libs) (an := authn) (sl := stream_libs) (al := authn_laws) (tl := stream_laws)
    (cx := contexts) (hs := hmac) cfg service true reflection panicking
    (mkContext None None None None [] : @Ctx (@wp_platform libs)) (mkCallState (start db) [])) as [Hr|(c0 & w0 & au & c1 & w1 & _ & _ & _ & E)].
  - exact Hr.
  - exfalso. change (stream_answer (mkContext None None None None []) =
      (Returned (Err (GInternal, "internal server error")), mkCallState w1 [])) in E. rewrite E in Hf. discriminate Hf.
Defined.
End witnesses.
