(* ===== verification/HttpRecovery.v ===== *)
(** * Panics of HTTP handlers

    [Recovery] of [internal/transport/http/middleware.go].  The rest of a
    chain may panic: it then leaves the state of the request as it was at the
    panic.  [gin.CustomRecovery] calls its function on a panic, as documented;
    code of the middlewares after [c.Next()] does not run. *)

From S2P Require Import Prelude.
From S2P Require Import GoStrings.
From S2P Require Import AppError.
From S2P Require Import Platform.
From S2P Require Import Model.
From S2P Require Import Runtime.
From S2P Require Import RequestContext.
From S2P Require Import ServiceBase.
From S2P Require Import Json.
From S2P Require Import Http.
Open Scope Z_scope.

Module recovery.
Section recovery.
Context {libs : Libs} {rd : Redis}.

(** The rest of a chain: whether it panicked. *)
Definition Rest : Type := HState -> bool * HState.

(** The function given to [gin.CustomRecovery]. *)
Definition on_panic : HTTP unit :=
  c ← get_gin;
  AbortWithStatusJSON 500 (Response.mk CodeInternal "internal server error" JNull (requestID c)).

Definition Recovery (next : Rest) : HTTP unit := fun st =>
  let '(panicked, st') := next st in
  if (panicked : bool) then on_panic st' else (tt, st').

(** A panic before anything was written is answered with one envelope that
    has the request's id and says nothing about the cause; the handlers that
    are left do not run. *)
Lemma recovery_answers next st st' :
  next st = (true, st') -> Replies (gin st') = [] ->
  Replies (gin (Recovery next st).2) =
    [mkReply 500 (Some (Response.to_json (Response.mk CodeInternal "internal server error" JNull (requestID (gin st')))))] /\
  Done (gin (Recovery next st).2) = true /\ world (Recovery next st).2 = world st' /\ store (Recovery next st).2 = store st'.
Proof using. intros Hn Hr. unfold Recovery. rewrite Hn. destruct st' as [[] w s e]; cbn in *. by subst. Qed.

(** Without a panic nothing is added. *)
Lemma recovery_passes next st st' : next st = (false, st') -> Recovery next st = (tt, st').
Proof using. intros Hn. unfold Recovery. by rewrite Hn. Qed.

(** A panic after a reply adds a second body to the response: the status that
    was sent stays. *)
Lemma recovery_second_reply next st st' r rs :
  next st = (true, st') -> Replies (gin st') = r :: rs ->
  length (Replies (gin (Recovery next st).2)) = S (S (length rs)) /\ WriterStatus (gin (Recovery next st).2) = ReplyStatus r.
Proof using. intros Hn Hr. unfold Recovery. rewrite Hn. destruct st' as [[] w s e]; cbn in *. subst. split; [|done]. change (length ((r :: rs) ++ [mkReply 500 (Some (Response.to_json (Response.mk CodeInternal "internal server error" JNull
    (default "" (Keys !! "request_id")))))]) = S (S (length rs))). rewrite length_app. cbn. lia. Qed.
End recovery.
End recovery.
